(** * bq-backup-and-restore: naming codec, retention, grouping and the
      backup / restore orchestration, embedded from the TypeScript sources

    Sources embedded here (paths relative to bq-backup-and-restore/src):
      constants.ts, utils.ts, list-backups.ts, delete-backups.ts,
      backup.ts, restore.ts and the delete-backups command of index.ts.

    Conventions of the embedding
    - a JavaScript [Date] that is not "Invalid Date" is its time value, an
      integer number of milliseconds since 1970-01-01T00:00:00Z, as [Z];
      a number that may be NaN is an [option Z] with [None] for NaN;
    - the ids of datasets and tables and the texts built from them are
      [string]s; text typed at the terminal is a list of UTF-16 code units;
    - a retention is a whole number of days: NaN and fractions, which the
      type [number] of [expirationDays] also holds, are not embedded;
    - the BigQuery service is an explicit state [Remote] threaded through a
      small state-and-exception monad; a call of the client library that
      rejects is a [Throw];
    - logger calls are left out, except where the evaluation of their
      argument can throw ([toISOString] of an Invalid Date). *)

From Stdlib Require Import ZArith String Ascii List Lia Bool Sorted Permutation.
From stdpp Require Import base option list gmap strings.

Local Open Scope string_scope.
Local Open Scope Z_scope.

(* stdpp switches the unfolding of string append off; the proofs below
   compute with it. *)
Global Arguments String.append : simpl nomatch.

(** ** ECMAScript built-ins used by the sources *)

Module JS.

(** *** Strings *)

Definition underscore : ascii := "_"%char.

(** [s.split(sep)] for a one-character separator: never empty, the empty
    string splits into one empty piece. *)
Fixpoint split (sep : ascii) (s : string) : list string :=
  match s with
  | EmptyString => [EmptyString]
  | String c r =>
      if Ascii.eqb c sep then EmptyString :: split sep r
      else match split sep r with
           | h :: t => String c h :: t
           | [] => [String c EmptyString]
           end
  end.

(** [parts.join(sep)] for a one-character separator. *)
Fixpoint join (sep : ascii) (parts : list string) : string :=
  match parts with
  | [] => EmptyString
  | [p] => p
  | p :: rest => p ++ String sep (join sep rest)
  end.

(** [s.startsWith(p)]. *)
Definition startsWith (s p : string) : bool := String.prefix p s.

(** [s.includes(p)]: [p] occurs somewhere in [s]. *)
Fixpoint includes (s p : string) : bool :=
  String.prefix p s ||
  match s with
  | EmptyString => false
  | String _ r => includes r p
  end.

(** [s.substring(a, b)] for [a <= b]; positions past the end are clamped. *)
Definition substring (s : string) (a b : nat) : string :=
  String.substring a (b - a) s.

(** [parts.slice(n)]. *)
Definition slice {A} (n : nat) (l : list A) : list A := skipn n l.

(** [s.padStart(2, '0')]. *)
Definition padStart2 (s : string) : string :=
  match String.length s with
  | O => "00"
  | S O => String "0" s
  | _ => s
  end.

(** *** Text that need not be ASCII

    A JavaScript string is a sequence of UTF-16 code units. The ids of
    datasets and tables are [string]s, one character per code unit; what is
    typed at the terminal is any sequence of code units, a [text]. *)

Definition text : Type := list N.

(** The code units of a [string]. *)
Fixpoint units (s : string) : text :=
  match s with
  | EmptyString => []
  | String c r => N_of_ascii c :: units r
  end.

(** The lower-case mapping of one code unit, as far as ASCII is concerned:
    A..Z go to a..z, U+212A (the Kelvin sign) goes to k and U+0130 to i
    followed by U+0307. These are the only code units whose mapping holds
    an ASCII code unit; every other code unit that is not ASCII is mapped
    by the standard to code units that are not ASCII either, and is left
    as it is here, the results being compared with ASCII literals only. *)
Definition lowerUnit (u : N) : text :=
  if (65 <=? u)%N && (u <=? 90)%N then [(u + 32)%N]
  else if (u =? 8490)%N then [107%N]
  else if (u =? 304)%N then [105%N; 775%N]
  else [u].

(** [s.toLowerCase()], up to the code units that are not ASCII. *)
Fixpoint toLowerCase (s : text) : text :=
  match s with
  | [] => []
  | u :: r => (lowerUnit u ++ toLowerCase r)%list
  end.

(** [s === literal] for an ASCII literal. *)
Definition equals (s : text) (literal : string) : bool :=
  bool_decide (s = units literal).

(** *** Numbers and their decimal notation *)

Definition digitChar (d : Z) : ascii := ascii_of_nat (48 + Z.to_nat d).

Fixpoint digitsOf (fuel : nat) (n : Z) (acc : string) : string :=
  match fuel with
  | O => acc
  | S f =>
      let acc' := String (digitChar (n mod 10)) acc in
      if n <? 10 then acc' else digitsOf f (n / 10) acc'
  end.

(** [String(n)] (and [`${n}`]) of an integer [n]. The fuel is the number of
    decimal digits of the largest safe integer plus a margin. *)
Definition numberToString (n : Z) : string :=
  if n <? 0 then String "-" (digitsOf 24 (- n) EmptyString)
  else digitsOf 24 n EmptyString.

Definition isDigit (c : ascii) : bool :=
  let n := nat_of_ascii c in (48 <=? n)%nat && (n <=? 57)%nat.

Definition digitValue (c : ascii) : Z := Z.of_nat (nat_of_ascii c) - 48.

(** StrWhiteSpaceChar: the code units of WhiteSpace (TAB, VT, FF, U+FEFF
    and the category Zs: SP, NBSP, U+1680, U+2000 to U+200A, U+202F,
    U+205F, U+3000) and of LineTerminator (LF, CR, U+2028, U+2029). *)
Definition isWhiteSpace (u : N) : bool :=
  ((9 <=? u) && (u <=? 13) || (u =? 32) || (u =? 160) || (u =? 5760)
   || (8192 <=? u) && (u <=? 8202) || (u =? 8232) || (u =? 8233)
   || (u =? 8239) || (u =? 8287) || (u =? 12288) || (u =? 65279))%N.

Fixpoint trimStart (s : text) : text :=
  match s with
  | u :: r => if isWhiteSpace u then trimStart r else s
  | [] => []
  end.

Definition isDigitUnit (u : N) : bool := ((48 <=? u) && (u <=? 57))%N.

(** The value of the longest prefix of decimal digits, [None] when that
    prefix is empty. *)
Fixpoint digitRun (s : text) (acc : option Z) : option Z :=
  match s with
  | u :: r =>
      if isDigitUnit u
      then digitRun r (Some (10 * default 0 acc + (Z.of_N u - 48)))
      else acc
  | [] => acc
  end.

(** [parseInt(s, 10)] of any text: leading white space is skipped, one
    sign is accepted, then the longest run of digits is read and whatever
    follows is ignored; NaN ([None]) when there is no digit to read. The
    value is the integer the digits denote; the sources compare it with
    numbers below 2^53 only, where the rounding of larger values to a
    double changes no comparison. *)
Definition parseIntText (s : text) : option Z :=
  match trimStart s with
  | u :: r =>
      if (u =? 45)%N then Z.opp <$> digitRun r None
      else if (u =? 43)%N then digitRun r None
      else digitRun (u :: r) None
  | [] => None
  end.

(** [parseInt(s, 10)] of a [string]. *)
Definition parseInt (s : string) : option Z := parseIntText (units s).

(** *** Time values (ECMA-262, "Time Values and Time Range") *)

Definition msPerSecond : Z := 1000.
Definition msPerMinute : Z := 60000.
Definition msPerHour : Z := 3600000.
Definition msPerDay : Z := 86400000.

Definition maxTime : Z := 8640000000000000.

(** The time values a [Date] can hold. *)
Definition validTime (t : Z) : Prop := - maxTime <= t <= maxTime.

(** TimeClip; [None] is NaN. *)
Definition TimeClip (t : Z) : option Z :=
  if Z.abs t <=? maxTime then Some t else None.

Definition Day (t : Z) : Z := t / msPerDay.
Definition TimeWithinDay (t : Z) : Z := t mod msPerDay.

Definition isLeap (y : Z) : bool :=
  ((y mod 4 =? 0) && negb (y mod 100 =? 0)) || (y mod 400 =? 0).

Definition DaysInYear (y : Z) : Z := if isLeap y then 366 else 365.

Definition DayFromYear (y : Z) : Z :=
  365 * (y - 1970) + (y - 1969) / 4 - (y - 1901) / 100 + (y - 1601) / 400.

(** YearFromTime: the largest [y] with [DayFromYear y <= Day t]. The mean
    Gregorian year has 146097/400 days, which places the year within one of
    the estimate; the two comparisons settle it. *)
Definition YearFromDay (d : Z) : Z :=
  let y0 := 1970 + (400 * d) / 146097 in
  if d <? DayFromYear y0 then y0 - 1
  else if DayFromYear (y0 + 1) <=? d then y0 + 1
  else y0.

Definition YearFromTime (t : Z) : Z := YearFromDay (Day t).

Definition DayWithinYear (t : Z) : Z := Day t - DayFromYear (YearFromTime t).

(** Day number within the year of the first day of month [m] (0 = January). *)
Definition monthStart (leap : bool) (m : Z) : Z :=
  let l := if leap then 1 else 0 in
  if m <=? 0 then 0
  else if m =? 1 then 31
  else if m =? 2 then 59 + l
  else if m =? 3 then 90 + l
  else if m =? 4 then 120 + l
  else if m =? 5 then 151 + l
  else if m =? 6 then 181 + l
  else if m =? 7 then 212 + l
  else if m =? 8 then 243 + l
  else if m =? 9 then 273 + l
  else if m =? 10 then 304 + l
  else if m =? 11 then 334 + l
  else 365 + l.

Definition MonthFromTime (t : Z) : Z :=
  let leap := isLeap (YearFromTime t) in
  let d := DayWithinYear t in
  if d <? monthStart leap 1 then 0
  else if d <? monthStart leap 2 then 1
  else if d <? monthStart leap 3 then 2
  else if d <? monthStart leap 4 then 3
  else if d <? monthStart leap 5 then 4
  else if d <? monthStart leap 6 then 5
  else if d <? monthStart leap 7 then 6
  else if d <? monthStart leap 8 then 7
  else if d <? monthStart leap 9 then 8
  else if d <? monthStart leap 10 then 9
  else if d <? monthStart leap 11 then 10
  else 11.

Definition DateFromTime (t : Z) : Z :=
  DayWithinYear t - monthStart (isLeap (YearFromTime t)) (MonthFromTime t) + 1.

Definition HourFromTime (t : Z) : Z := (t / msPerHour) mod 24.
Definition MinFromTime (t : Z) : Z := (t / msPerMinute) mod 60.
Definition SecFromTime (t : Z) : Z := (t / msPerSecond) mod 60.
Definition msFromTime (t : Z) : Z := t mod msPerSecond.

Definition MakeTime (hour min sec ms : Z) : Z :=
  hour * msPerHour + min * msPerMinute + sec * msPerSecond + ms.

(** MakeDay: months outside 0..11 carry into the year, and a day of the
    month outside the month carries into the following (or preceding)
    months. *)
Definition MakeDay (year month date : Z) : Z :=
  let ym := year + month / 12 in
  let mn := month mod 12 in
  DayFromYear ym + monthStart (isLeap ym) mn + date - 1.

Definition MakeDate (day time : Z) : Z := day * msPerDay + time.

(** [Date.UTC(year, month, date, hours, minutes, seconds)] on numbers that
    may be NaN. Years 0..99 mean 1900..1999. *)
Definition DateUTC (year month date hours minutes seconds : option Z)
  : option Z :=
  y ← year; m ← month; dt ← date; h ← hours; mi ← minutes; s ← seconds;
  let yr := if (0 <=? y) && (y <=? 99) then 1900 + y else y in
  TimeClip (MakeDate (MakeDay yr m dt) (MakeTime h mi s 0)).

(** [d.setUTCDate(date)] on a valid [Date]: the new time value. *)
Definition setUTCDate (t : Z) (date : Z) : option Z :=
  TimeClip (MakeDate (MakeDay (YearFromTime t) (MonthFromTime t) date)
                     (TimeWithinDay t)).

Fixpoint zeros (k : nat) : string :=
  match k with
  | O => EmptyString
  | S k' => String "0" (zeros k')
  end.

(** Zero padding to a width, as [toISOString] prints its fields. *)
Definition pad (width : nat) (n : Z) : string :=
  let s := numberToString n in
  zeros (width - String.length s) ++ s.

(** The year of [toISOString]: four digits, or the expanded year, a sign
    and six digits, outside 0..9999. *)
Definition isoYear (y : Z) : string :=
  if (0 <=? y) && (y <=? 9999) then pad 4 y
  else if y <? 0 then String "-" (pad 6 (- y))
  else String "+" (pad 6 y).

(** What follows the year: -MM-DDTHH:mm:ss.sssZ. *)
Definition isoRest (t : Z) : string :=
  "-" ++ pad 2 (MonthFromTime t + 1) ++ "-" ++ pad 2 (DateFromTime t)
      ++ "T" ++ pad 2 (HourFromTime t) ++ ":" ++ pad 2 (MinFromTime t)
      ++ ":" ++ pad 2 (SecFromTime t) ++ "." ++ pad 3 (msFromTime t) ++ "Z".

(** [d.toISOString()] on a valid [Date]. *)
Definition toISOString (t : Z) : string :=
  isoYear (YearFromTime t) ++ isoRest t.

(** The UTC getters of a valid [Date]. *)
Definition getUTCFullYear : Z -> Z := YearFromTime.
Definition getUTCMonth : Z -> Z := MonthFromTime.
Definition getUTCDate : Z -> Z := DateFromTime.
Definition getUTCHours : Z -> Z := HourFromTime.
Definition getUTCMinutes : Z -> Z := MinFromTime.
Definition getUTCSeconds : Z -> Z := SecFromTime.

(** [Array.prototype.sort(cmp)]: stable; [cmp a b > 0] puts [a] after [b]. *)
Fixpoint insertBy {A} (cmp : A -> A -> Z) (x : A) (l : list A) : list A :=
  match l with
  | [] => [x]
  | y :: r => if 0 <? cmp x y then y :: insertBy cmp x r else x :: y :: r
  end.

Definition sort {A} (cmp : A -> A -> Z) (l : list A) : list A :=
  foldr (insertBy cmp) [] l.

End JS.

(** ** constants.ts *)

Definition BACKUP_DATASET_PREFIX : string := "zzz_backup_".

(** ** utils.ts *)

(** Formats a date to the backup dataset naming pattern yyyyMMdd_hhmmss. *)
Definition formatBackupTimestamp (date : Z) : string :=
  let year := JS.numberToString (JS.getUTCFullYear date) in
  let month := JS.padStart2 (JS.numberToString (JS.getUTCMonth date + 1)) in
  let day := JS.padStart2 (JS.numberToString (JS.getUTCDate date)) in
  let hours := JS.padStart2 (JS.numberToString (JS.getUTCHours date)) in
  let minutes := JS.padStart2 (JS.numberToString (JS.getUTCMinutes date)) in
  let seconds := JS.padStart2 (JS.numberToString (JS.getUTCSeconds date)) in
  year ++ month ++ day ++ "_" ++ hours ++ minutes ++ seconds.

(** zzz_backup_yyyyMMdd_hhmmss_{source_dataset}. *)
Definition generateBackupDatasetName (sourceDatasetId : string) (timestamp : Z)
  : string :=
  let timestampStr := formatBackupTimestamp timestamp in
  BACKUP_DATASET_PREFIX ++ timestampStr ++ "_" ++ sourceDatasetId.

(** [now] is the reading of the clock taken by [new Date()] in the body. *)
Definition validateTimeTravelTimestamp (now : Z) (timestamp : Z) : bool :=
  let sevenDaysAgo := now - 7 * 24 * 60 * 60 * 1000 in
  if timestamp <? sevenDaysAgo then false
  else if now <? timestamp then false
  else true.

(** [expirationDays] is a whole number of days or [undefined] ([None]); the
    result is [undefined] ([None]) or a [Date], whose time value is NaN
    ([Some None]) when the sum leaves the range of time values. *)
Definition calculateExpirationTimestamp (backupTimestamp : Z)
    (expirationDays : option Z) : option (option Z) :=
  match expirationDays with
  | None => None
  | Some days =>
      if days =? 0 then None
      else
        let expiration := backupTimestamp in
        Some (JS.setUTCDate expiration (JS.getUTCDate expiration + days))
  end.

(** ** list-backups.ts *)

Module BackupInfo.
Record t := mk {
  backupDatasetId : string;
  sourceDatasetId : string;
  timestamp : Z
}.
End BackupInfo.

(** The body of the loop of [listBackups] for one dataset id: [Some] when
    an entry is pushed, [None] when the loop continues without one. *)
Definition parseBackupDatasetId (datasetId : string) : option BackupInfo.t :=
  if negb (JS.startsWith datasetId BACKUP_DATASET_PREFIX) then None
  else
    let parts := JS.split "_" datasetId in
    if (length parts <? 5)%nat then None
    else
      let timestampPart :=
        nth 2 parts EmptyString ++ "_" ++ nth 3 parts EmptyString in
      let sourceDatasetId := JS.join "_" (JS.slice 4 parts) in
      match JS.split "_" timestampPart with
      | datePart :: timePart :: _ =>
          if String.eqb datePart EmptyString || String.eqb timePart EmptyString
             || negb (String.length datePart =? 8)%nat
             || negb (String.length timePart =? 6)%nat
          then None
          else
            let year := JS.parseInt (JS.substring datePart 0 4) in
            let month :=
              (fun m => m - 1) <$> JS.parseInt (JS.substring datePart 4 6) in
            let day := JS.parseInt (JS.substring datePart 6 8) in
            let hours := JS.parseInt (JS.substring timePart 0 2) in
            let minutes := JS.parseInt (JS.substring timePart 2 4) in
            let seconds := JS.parseInt (JS.substring timePart 4 6) in
            match JS.DateUTC year month day hours minutes seconds with
            | None => None
            | Some timestamp =>
                Some (BackupInfo.mk datasetId sourceDatasetId timestamp)
            end
      | _ => None
      end.

(** [listBackups] over the ids returned by [bq.getDatasets()]. *)
Definition listBackupsOf (allDatasets : list string) : list BackupInfo.t :=
  JS.sort (fun a b => BackupInfo.timestamp b - BackupInfo.timestamp a)
          (omap parseBackupDatasetId allDatasets).

(** ** delete-backups.ts *)

Module BackupGroup.
Record t := mk {
  timestamp : Z;
  timestampStr : string;
  backups : list BackupInfo.t
}.
End BackupGroup.

(** The [Map<string, BackupGroup>] of [groupBackupsByTimestamp], in
    insertion order. *)
Definition GroupMap := list (string * BackupGroup.t).

Definition mapHas (key : string) (groups : GroupMap) : bool :=
  existsb (fun kv => String.eqb (fst kv) key) groups.

Fixpoint mapGet (key : string) (groups : GroupMap) : option BackupGroup.t :=
  match groups with
  | [] => None
  | (k, g) :: rest => if String.eqb k key then Some g else mapGet key rest
  end.

(** [groups.get(key)!.backups.push(backup)]. *)
Fixpoint mapPush (key : string) (backup : BackupInfo.t) (groups : GroupMap)
  : GroupMap :=
  match groups with
  | [] => []
  | (k, g) :: rest =>
      if String.eqb k key
      then (k, BackupGroup.mk (BackupGroup.timestamp g)
                              (BackupGroup.timestampStr g)
                              (BackupGroup.backups g ++ [backup])%list) :: rest
      else (k, g) :: mapPush key backup rest
  end.

Definition groupStep (groups : GroupMap) (backup : BackupInfo.t) : GroupMap :=
  let timestampKey := JS.toISOString (BackupInfo.timestamp backup) in
  let groups' :=
    if negb (mapHas timestampKey groups)
    then (groups ++ [(timestampKey,
                      BackupGroup.mk (BackupInfo.timestamp backup)
                        (JS.toISOString (BackupInfo.timestamp backup)) [])])%list
    else groups in
  mapPush timestampKey backup groups'.

Definition groupBackupsByTimestamp (backups : list BackupInfo.t)
  : list BackupGroup.t :=
  let groups := fold_left groupStep backups [] in
  JS.sort (fun a b => BackupGroup.timestamp b - BackupGroup.timestamp a)
          (map snd groups).


(** ** The BigQuery service behind the client library

    The sources reach the warehouse only through the client library. The
    service is modelled by its catalog (datasets and their tables) and by a
    [fault] oracle telling which remote calls reject (permissions, quota,
    transport), each with the text its error prints as. *)

Inductive Result (A : Type) : Type :=
  | Ok (a : A)
  | Throw (e : string).
Arguments Ok {A} a.
Arguments Throw {A} e.

(** [`${error}`] of [new Error(msg)]. *)
Definition Error (msg : string) : string := "Error: " ++ msg.
Definition RangeError (msg : string) : string := "RangeError: " ++ msg.

Module MaterializedView.
Record t := mk {
  query : option string;
  enableRefresh : option bool;
  refreshIntervalMs : option Z
}.
End MaterializedView.

(** What a table holds, as far as the orchestration can tell. *)
Inductive Rows : Type :=
  | Stored (version : nat)
  | AsOf (dataset table : string) (millis : Z)
  | Derived (query : string).

Module Table.
Record t := mk {
  type : string;
  location : option string;
  materializedView : option MaterializedView.t;
  rows : Rows;
  expirationTime : option Z
}.
End Table.

Module Dataset.
Record t := mk {
  location : option string;
  tables : gmap string Table.t
}.
End Dataset.

Inductive Query : Type :=
  (* CREATE SNAPSHOT TABLE b CLONE s FOR SYSTEM_TIME AS OF
     TIMESTAMP_MILLIS(millis) [OPTIONS(expiration_timestamp = ...)] *)
  | CreateSnapshotTable (backupDatasetId backupTableId : string)
      (sourceDatasetId sourceTableId : string) (millis : Z)
      (expiration : option (option Z))
  (* CREATE [OR REPLACE] TABLE t CLONE s *)
  | CreateTableClone (orReplace : bool) (targetDatasetId targetTableId : string)
      (sourceDatasetId sourceTableId : string)
  (* CREATE MATERIALIZED VIEW v AS query [OPTIONS(...)] *)
  | CreateMaterializedView (datasetId viewId : string) (query : string)
      (enableRefresh : option bool) (refreshIntervalMs : option Z).

Inductive Request : Type :=
  | GetDatasets
  | DatasetExists (datasetId : string)
  | DatasetGetMetadata (datasetId : string)
  | DatasetCreate (datasetId : string)
  | GetTables (datasetId : string)
  | TableGetMetadata (datasetId tableId : string)
  | TableExists (datasetId tableId : string)
  | TableDelete (datasetId tableId : string)
  | QueryJob (q : Query).

Record Remote := mkRemote {
  projectId : string;
  catalog : gmap string Dataset.t;
  fault : Request -> option string
}.

Definition withCatalog (r : Remote) (c : gmap string Dataset.t) : Remote :=
  mkRemote (projectId r) c (fault r).

Definition isSome {A} (o : option A) : bool :=
  match o with Some _ => true | None => false end.

Definition lookupTable (r : Remote) (datasetId tableId : string)
  : option Table.t :=
  d ← catalog r !! datasetId; Dataset.tables d !! tableId.

Definition putTable (datasetId tableId : string) (T : Table.t) (r : Remote)
  : Remote :=
  withCatalog r
    (alter (fun d => Dataset.mk (Dataset.location d)
                       (<[tableId := T]> (Dataset.tables d)))
           datasetId (catalog r)).

Definition dropTable (datasetId tableId : string) (r : Remote) : Remote :=
  withCatalog r
    (alter (fun d => Dataset.mk (Dataset.location d)
                       (delete tableId (Dataset.tables d)))
           datasetId (catalog r)).

(** *** Computations against a state, with exceptions *)

Definition M (S A : Type) : Type := S -> Result A * S.

Definition ret {S A} (a : A) : M S A := fun s => (Ok a, s).

Definition bind {S A B} (m : M S A) (k : A -> M S B) : M S B :=
  fun s => match m s with
           | (Ok a, s') => k a s'
           | (Throw e, s') => (Throw e, s')
           end.

Definition throw {S A} (e : string) : M S A := fun s => (Throw e, s).

(** [try { m } catch (error) { h error }]. *)
Definition tryCatch {S A} (m : M S A) (h : string -> M S A) : M S A :=
  fun s => match m s with
           | (Ok a, s') => (Ok a, s')
           | (Throw e, s') => h e s'
           end.

Notation "'let*' x ':=' m 'in' k" := (bind m (fun x => k))
  (at level 10, x name, m at level 100, k at level 200).
Notation "'do*' m 'in' k" := (bind m (fun _ => k))
  (at level 10, m at level 100, k at level 200).

(** A loop whose body pushes at most one element onto an array. *)
Fixpoint collect {S A B} (body : A -> M S (option B)) (l : list A)
  : M S (list B) :=
  match l with
  | [] => ret []
  | x :: rest =>
      let* o := body x in
      let* bs := collect body rest in
      ret (match o with Some b => b :: bs | None => bs end)
  end.

(** A loop (or [Promise.all] over [map]) yielding one element per item. *)
Definition forEach {S A B} (body : A -> M S B) (l : list A) : M S (list B) :=
  collect (fun x => let* b := body x in ret (Some b)) l.

(** A computation on the service run next to a local variable. *)
Definition remote {L A} (m : M Remote A) : M (Remote * L) A :=
  fun s => match m (fst s) with (a, r') => (a, (r', snd s)) end.

Definition getLocal {L} : M (Remote * L) L := fun s => (Ok (snd s), s).

Definition setLocal {L} (f : L -> L) : M (Remote * L) unit :=
  fun s => (Ok tt, (fst s, f (snd s))).

(** Runs a block that owns a local variable and returns its final value. *)
Definition withLocal {L} (init : L) (m : M (Remote * L) unit) : M Remote L :=
  fun r => match m (r, init) with
           | (Ok _, (r', l)) => (Ok l, r')
           | (Throw e, (r', _)) => (Throw e, r')
           end.

(** *** Remote calls *)

Definition call {A} (rq : Request) (k : M Remote A) : M Remote A :=
  fun r => match fault r rq with
           | Some e => (Throw e, r)
           | None => k r
           end.

Definition notFound (what : string) : string := Error ("Not found: " ++ what).
Definition alreadyExists (what : string) : string :=
  Error ("Already Exists: " ++ what).

(** [bq.getDatasets()]: the ids of all datasets. *)
Definition getDatasets : M Remote (list string) :=
  call GetDatasets (fun r => (Ok (map fst (map_to_list (catalog r))), r)).

(** [dataset.exists()]. *)
Definition datasetExists (datasetId : string) : M Remote bool :=
  call (DatasetExists datasetId)
    (fun r => (Ok (isSome (catalog r !! datasetId)), r)).

(** [dataset.getMetadata()]. *)
Definition datasetGetMetadata (datasetId : string) : M Remote Dataset.t :=
  call (DatasetGetMetadata datasetId)
    (fun r => match catalog r !! datasetId with
              | Some d => (Ok d, r)
              | None => (Throw (notFound datasetId), r)
              end).

(** [dataset.create({location, ...})]. *)
Definition datasetCreate (datasetId : string) (location : string)
  : M Remote unit :=
  call (DatasetCreate datasetId)
    (fun r => match catalog r !! datasetId with
              | Some _ => (Throw (alreadyExists datasetId), r)
              | None =>
                  (Ok tt, withCatalog r
                            (<[datasetId := Dataset.mk (Some location) ∅]>
                               (catalog r)))
              end).

(** [dataset.getTables()]: the ids of the tables of a dataset. *)
Definition getTables (datasetId : string) : M Remote (list string) :=
  call (GetTables datasetId)
    (fun r => match catalog r !! datasetId with
              | Some d => (Ok (map fst (map_to_list (Dataset.tables d))), r)
              | None => (Throw (notFound datasetId), r)
              end).

(** [table.getMetadata()]. *)
Definition tableGetMetadata (datasetId tableId : string) : M Remote Table.t :=
  call (TableGetMetadata datasetId tableId)
    (fun r => match lookupTable r datasetId tableId with
              | Some T => (Ok T, r)
              | None => (Throw (notFound (datasetId ++ "." ++ tableId)), r)
              end).

(** [table.exists()]. *)
Definition tableExists (datasetId tableId : string) : M Remote bool :=
  call (TableExists datasetId tableId)
    (fun r => (Ok (isSome (lookupTable r datasetId tableId)), r)).

(** [table.delete()]. *)
Definition tableDelete (datasetId tableId : string) : M Remote unit :=
  call (TableDelete datasetId tableId)
    (fun r => match lookupTable r datasetId tableId with
              | Some _ => (Ok tt, dropTable datasetId tableId r)
              | None => (Throw (notFound (datasetId ++ "." ++ tableId)), r)
              end).

(** The effect of a query job that the service accepts. *)
Definition execute (q : Query) (r : Remote) : Result unit * Remote :=
  match q with
  | CreateSnapshotTable bd bt sd st millis expiration =>
      match expiration with
      | Some None => (Throw (Error "Invalid timestamp"), r)
      | _ =>
          match catalog r !! bd, lookupTable r sd st with
          | Some _, Some _ =>
              match lookupTable r bd bt with
              | Some _ => (Throw (alreadyExists (bd ++ "." ++ bt)), r)
              | None =>
                  (Ok tt,
                   putTable bd bt
                     (Table.mk "SNAPSHOT" None None (AsOf sd st millis)
                               (mjoin expiration)) r)
              end
          | None, _ => (Throw (notFound bd), r)
          | _, None => (Throw (notFound (sd ++ "." ++ st)), r)
          end
      end
  | CreateTableClone orReplace td tg sd st =>
      match catalog r !! td, lookupTable r sd st with
      | Some _, Some src =>
          if isSome (lookupTable r td tg) && negb orReplace
          then (Throw (alreadyExists (td ++ "." ++ tg)), r)
          else (Ok tt,
                putTable td tg
                  (Table.mk "TABLE" None None (Table.rows src) None) r)
      | None, _ => (Throw (notFound td), r)
      | _, None => (Throw (notFound (sd ++ "." ++ st)), r)
      end
  | CreateMaterializedView d v query er ri =>
      match catalog r !! d with
      | Some _ =>
          match lookupTable r d v with
          | Some _ => (Throw (alreadyExists (d ++ "." ++ v)), r)
          | None =>
              (Ok tt,
               putTable d v
                 (Table.mk "MATERIALIZED_VIEW" None
                    (Some (MaterializedView.mk (Some query) er ri))
                    (Derived query) None) r)
          end
      | None => (Throw (notFound d), r)
      end
  end.

(** [bq.createQueryJob({query})] followed by [job.promise()]. *)
Definition runQuery (q : Query) : M Remote unit :=
  call (QueryJob q) (execute q).

Definition getProjectId : M Remote string := fun r => (Ok (projectId r), r).

(** ** types.ts *)

Module BackupOptions.
Record t := mk {
  projectId : string;
  datasets : option (list string);
  timestamp : option Z;
  expirationDays : option Z;
  dryRun : option bool
}.
End BackupOptions.

Module BackupResult.
Record t := mk {
  backupDatasetId : string;
  sourceDatasetId : string;
  timestamp : Z;
  tablesBackedUp : nat;
  success : bool;
  errors : list string
}.
Definition setBackupDatasetId (v : string) (x : t) : t :=
  mk v (sourceDatasetId x) (timestamp x) (tablesBackedUp x) (success x)
     (errors x).
Definition setTablesBackedUp (v : nat) (x : t) : t :=
  mk (backupDatasetId x) (sourceDatasetId x) (timestamp x) v (success x)
     (errors x).
Definition setSuccess (v : bool) (x : t) : t :=
  mk (backupDatasetId x) (sourceDatasetId x) (timestamp x) (tablesBackedUp x)
     v (errors x).
Definition setErrors (v : list string) (x : t) : t :=
  mk (backupDatasetId x) (sourceDatasetId x) (timestamp x) (tablesBackedUp x)
     (success x) v.
End BackupResult.

Module TableInfo.
Record t := mk {
  tableId : string;
  type : string;
  location : option string
}.
End TableInfo.

Module DatasetInfo.
Record t := mk {
  datasetId : string;
  location : option string;
  tables : list TableInfo.t
}.
End DatasetInfo.

(** The outcome object of one member operation of a fan-out:
    [{ success, tableId, error? }]. *)
Module Outcome.
Record t := mk {
  success : bool;
  tableId : string;
  error : option string
}.
End Outcome.

(** [f.error || 'Unknown error']. *)
Definition errorOrUnknown (f : Outcome.t) : string :=
  match Outcome.error f with
  | Some e => if String.eqb e EmptyString then "Unknown error" else e
  | None => "Unknown error"
  end.

(** ** backup.ts *)

Definition DEFAULT_EXPIRATION_DAYS : Z := 90.

(** Lists all datasets in the project or specific datasets. *)
Definition listDatasets (datasets : option (list string))
  : M Remote (list DatasetInfo.t) :=
  match datasets with
  | Some ((_ :: _) as ids) =>
      collect (fun datasetId =>
        tryCatch
          (let* exists_ := datasetExists datasetId in
           if negb exists_ then ret None
           else
             let* metadata := datasetGetMetadata datasetId in
             ret (Some (DatasetInfo.mk datasetId (Dataset.location metadata)
                                       [])))
          (fun error => throw error)) ids
  | _ =>
      let* allDatasets := getDatasets in
      collect (fun id =>
        if negb (String.eqb id EmptyString)
           && JS.startsWith id BACKUP_DATASET_PREFIX
        then ret None
        else
          let* metadata := datasetGetMetadata id in
          ret (Some (DatasetInfo.mk id (Dataset.location metadata) [])))
        allDatasets
  end.

(** Lists all tables in a dataset, filtering to only TABLE type. *)
Definition listTables (datasetId : string) : M Remote (list TableInfo.t) :=
  let* tables := getTables datasetId in
  collect (fun tableId =>
    tryCatch
      (let* metadata := tableGetMetadata datasetId tableId in
       if String.eqb (Table.type metadata) "TABLE"
       then ret (Some (TableInfo.mk tableId (Table.type metadata)
                                    (Table.location metadata)))
       else ret None)
      (fun _ => ret None)) tables.

(** Creates a backup dataset. *)
Definition createBackupDataset (backupDatasetId sourceLocation : string)
    (dryRun : option bool) : M Remote unit :=
  let dryRun := default false dryRun in
  let location := sourceLocation in
  let* exists_ := datasetExists backupDatasetId in
  if exists_
  then throw (Error ("Backup dataset " ++ backupDatasetId
                       ++ " already exists"))
  else if dryRun then ret tt
  else datasetCreate backupDatasetId location.

(** Creates a snapshot of a table. *)
Definition createTableSnapshot (sourceDatasetId sourceTableId : string)
    (backupDatasetId backupTableId : string) (snapshotTimestamp : Z)
    (expirationTimestamp : option (option Z)) (dryRun : option bool)
  : M Remote unit :=
  let timestampMillis := snapshotTimestamp in
  if default false dryRun then ret tt
  else runQuery (CreateSnapshotTable backupDatasetId backupTableId
                   sourceDatasetId sourceTableId timestampMillis
                   expirationTimestamp).

(** The function mapped over [tables] to build [snapshotPromises]. *)
Definition snapshotMember (options : BackupOptions.t)
    (datasetInfo : DatasetInfo.t) (backupDatasetId : string)
    (backupTimestamp : Z) (expirationTimestamp : option (option Z))
    (table : TableInfo.t) : M Remote Outcome.t :=
  tryCatch
    (do* createTableSnapshot (DatasetInfo.datasetId datasetInfo)
           (TableInfo.tableId table) backupDatasetId (TableInfo.tableId table)
           backupTimestamp expirationTimestamp (BackupOptions.dryRun options)
     in ret (Outcome.mk true (TableInfo.tableId table) None))
    (fun error =>
       let errorMsg := "Failed to create snapshot for "
                         ++ TableInfo.tableId table ++ ": " ++ error in
       ret (Outcome.mk false (TableInfo.tableId table) (Some errorMsg))).

(** The body of the [for (const datasetInfo of datasets)] loop: the
    [result] object it pushes. *)
Definition backupOne (options : BackupOptions.t) (backupTimestamp : Z)
    (expirationTimestamp : option (option Z)) (datasetInfo : DatasetInfo.t)
  : M Remote BackupResult.t :=
  let datasetId := DatasetInfo.datasetId datasetInfo in
  withLocal (BackupResult.mk EmptyString datasetId backupTimestamp 0 false [])
    (tryCatch
       (let* tables := remote (listTables datasetId) in
        if (length tables =? 0)%nat
        then setLocal (BackupResult.setSuccess true)
        else
          let backupDatasetId :=
            generateBackupDatasetName datasetId backupTimestamp in
          do* setLocal (BackupResult.setBackupDatasetId backupDatasetId) in
          match DatasetInfo.location datasetInfo with
          | None | Some EmptyString =>
              throw (Error ("Dataset " ++ datasetId
                              ++ " does not have a location specified"))
          | Some location =>
              do* remote (createBackupDataset backupDatasetId location
                            (BackupOptions.dryRun options)) in
              let* snapshotResults :=
                remote (forEach (snapshotMember options datasetInfo
                                   backupDatasetId backupTimestamp
                                   expirationTimestamp) tables) in
              let successful :=
                length (List.filter Outcome.success snapshotResults) in
              let failed :=
                List.filter (fun r => negb (Outcome.success r))
                            snapshotResults in
              do* setLocal (BackupResult.setTablesBackedUp successful) in
              do* setLocal (BackupResult.setSuccess (length failed =? 0)%nat) in
              if (0 <? length failed)%nat
              then setLocal (BackupResult.setErrors
                               (map errorOrUnknown failed))
              else ret tt
          end)
       (fun error =>
          let errorMsg := "Error backing up dataset " ++ datasetId ++ ": "
                            ++ error in
          do* setLocal (BackupResult.setErrors [errorMsg]) in
          setLocal (BackupResult.setSuccess false))).

(** [backupDataset(options)]; [now] is the reading of the clock (taken at
    the first line when no timestamp is given, inside the validation
    otherwise). After the validation the expiration is logged with
    [expirationTimestamp.toISOString()], which throws when the expiration
    is an Invalid Date. *)
Definition backupDataset (now : Z) (options : BackupOptions.t)
  : M Remote (list BackupResult.t) :=
  let backupTimestamp := default now (BackupOptions.timestamp options) in
  let expirationDays :=
    default DEFAULT_EXPIRATION_DAYS (BackupOptions.expirationDays options) in
  let expirationTimestamp :=
    calculateExpirationTimestamp backupTimestamp (Some expirationDays) in
  do* match BackupOptions.timestamp options with
      | Some timestamp =>
          if negb (validateTimeTravelTimestamp now timestamp)
          then throw (Error "Invalid timestamp for time travel")
          else ret tt
      | None => ret tt
      end in
  do* match expirationTimestamp with
      | Some None => throw (RangeError "Invalid time value")
      | _ => ret tt
      end in
  let* datasets := listDatasets (BackupOptions.datasets options) in
  forEach (backupOne options backupTimestamp expirationTimestamp) datasets.

(** ** restore.ts *)

Module RestoreOptions.
Record t := mk {
  projectId : string;
  backupTimestamp : option Z;
  overwrite : option bool
}.
End RestoreOptions.

Module RestoreResult.
Record t := mk {
  sourceBackupDatasetId : string;
  targetDatasetId : string;
  tablesRestored : nat;
  materializedViewsRecreated : nat;
  success : bool;
  errors : list string
}.
Definition setTablesRestored (v : nat) (x : t) : t :=
  mk (sourceBackupDatasetId x) (targetDatasetId x) v
     (materializedViewsRecreated x) (success x) (errors x).
Definition setMaterializedViewsRecreated (v : nat) (x : t) : t :=
  mk (sourceBackupDatasetId x) (targetDatasetId x) (tablesRestored x) v
     (success x) (errors x).
Definition setSuccess (v : bool) (x : t) : t :=
  mk (sourceBackupDatasetId x) (targetDatasetId x) (tablesRestored x)
     (materializedViewsRecreated x) v (errors x).
Definition setErrors (v : list string) (x : t) : t :=
  mk (sourceBackupDatasetId x) (targetDatasetId x) (tablesRestored x)
     (materializedViewsRecreated x) (success x) v.
End RestoreResult.

Module MaterializedViewInfo.
Record t := mk {
  viewId : string;
  query : string;
  enableRefresh : option bool;
  refreshIntervalMs : option Z
}.
End MaterializedViewInfo.

(** The loop of [listBackupsForTimestamp] over the ids returned by
    [bq.getDatasets()]. *)
Definition listBackupsForTimestampOf (timestamp : Z)
    (allDatasets : list string) : list BackupInfo.t :=
  let year := JS.numberToString (JS.getUTCFullYear timestamp) in
  let month := JS.padStart2 (JS.numberToString (JS.getUTCMonth timestamp + 1)) in
  let day := JS.padStart2 (JS.numberToString (JS.getUTCDate timestamp)) in
  let hours := JS.padStart2 (JS.numberToString (JS.getUTCHours timestamp)) in
  let minutes :=
    JS.padStart2 (JS.numberToString (JS.getUTCMinutes timestamp)) in
  let seconds :=
    JS.padStart2 (JS.numberToString (JS.getUTCSeconds timestamp)) in
  let timestampStr :=
    year ++ month ++ day ++ "_" ++ hours ++ minutes ++ seconds in
  omap (fun datasetId =>
          if negb (JS.startsWith datasetId BACKUP_DATASET_PREFIX) then None
          else if negb (JS.includes datasetId timestampStr) then None
          else
            let parts := JS.split "_" datasetId in
            if (length parts <? 5)%nat then None
            else
              let sourceDatasetId := JS.join "_" (JS.slice 4 parts) in
              Some (BackupInfo.mk datasetId sourceDatasetId timestamp))
       allDatasets.

(** Lists all backup datasets for a specific timestamp. *)
Definition listBackupsForTimestamp (timestamp : Z)
  : M Remote (list BackupInfo.t) :=
  let* allDatasets := getDatasets in
  ret (listBackupsForTimestampOf timestamp allDatasets).

(** Lists all tables in a backup dataset (snapshots). *)
Definition listBackupTables (backupDatasetId : string)
  : M Remote (list string) :=
  let* tables := getTables backupDatasetId in
  collect (fun tableId =>
    tryCatch
      (let* metadata := tableGetMetadata backupDatasetId tableId in
       if String.eqb (Table.type metadata) "SNAPSHOT"
       then ret (Some tableId)
       else ret None)
      (fun _ => ret None)) tables.

(** Lists all materialized views in a dataset. *)
Definition listMaterializedViews (datasetId : string)
  : M Remote (list MaterializedViewInfo.t) :=
  let* tables := getTables datasetId in
  collect (fun tableId =>
    tryCatch
      (let* metadata := tableGetMetadata datasetId tableId in
       if String.eqb (Table.type metadata) "MATERIALIZED_VIEW"
       then
         match Table.materializedView metadata
                 ≫= MaterializedView.query with
         | None | Some EmptyString => ret None
         | Some mvQuery =>
             ret (Some (MaterializedViewInfo.mk tableId mvQuery
                          (Table.materializedView metadata
                             ≫= MaterializedView.enableRefresh)
                          (Table.materializedView metadata
                             ≫= MaterializedView.refreshIntervalMs)))
         end
       else ret None)
      (fun _ => ret None)) tables.

(** Recreates a materialized view with the same definition. *)
Definition recreateMaterializedView (datasetId viewId query : string)
    (enableRefresh : option bool) (refreshIntervalMs : option Z)
  : M Remote unit :=
  let* exists_ := tableExists datasetId viewId in
  do* (if exists_ then tableDelete datasetId viewId else ret tt) in
  runQuery (CreateMaterializedView datasetId viewId query enableRefresh
              refreshIntervalMs).

(** Recreates all materialized views in a dataset; the number recreated. *)
Definition recreateMaterializedViewsInDataset (datasetId : string)
  : M Remote nat :=
  tryCatch
    (let* materializedViews := listMaterializedViews datasetId in
     if (length materializedViews =? 0)%nat then ret O
     else
       let* recreated :=
         forEach (fun mv =>
           tryCatch
             (do* recreateMaterializedView datasetId
                    (MaterializedViewInfo.viewId mv)
                    (MaterializedViewInfo.query mv)
                    (MaterializedViewInfo.enableRefresh mv)
                    (MaterializedViewInfo.refreshIntervalMs mv) in
              ret true)
             (fun _ => ret false)) materializedViews in
       ret (length (List.filter id recreated)))
    (fun _ => ret O).

Definition targetExistsMessage (targetTableRef : string) : string :=
  "Target table " ++ targetTableRef
    ++ " already exists. Use --overwrite to replace it.".

(** Restores a snapshot table to a regular table. *)
Definition restoreTable (sourceBackupDatasetId sourceTableId : string)
    (targetDatasetId targetTableId : string) (overwrite : bool)
  : M Remote unit :=
  let* project := getProjectId in
  let targetTableRef :=
    "`" ++ project ++ "." ++ targetDatasetId ++ "." ++ targetTableId ++ "`" in
  let* targetExists := tableExists targetDatasetId targetTableId in
  if targetExists && negb overwrite
  then throw (Error (targetExistsMessage targetTableRef))
  else runQuery (CreateTableClone overwrite targetDatasetId targetTableId
                   sourceBackupDatasetId sourceTableId).

(** The function mapped over [tableIds] to build [restorePromises]. *)
Definition restoreMember (options : RestoreOptions.t)
    (backup : BackupInfo.t) (targetDatasetId : string) (tableId : string)
  : M Remote Outcome.t :=
  tryCatch
    (do* restoreTable (BackupInfo.backupDatasetId backup) tableId
           targetDatasetId tableId
           (default false (RestoreOptions.overwrite options)) in
     ret (Outcome.mk true tableId None))
    (fun error =>
       let errorMsg := "Failed to restore table " ++ tableId ++ ": "
                         ++ error in
       ret (Outcome.mk false tableId (Some errorMsg))).

(** The body of the [for (const backup of backups)] loop: the [result]
    object it pushes. *)
Definition restoreOne (options : RestoreOptions.t) (backup : BackupInfo.t)
  : M Remote RestoreResult.t :=
  let backupDatasetId := BackupInfo.backupDatasetId backup in
  let targetDatasetId := BackupInfo.sourceDatasetId backup in
  withLocal (RestoreResult.mk backupDatasetId targetDatasetId 0 0 false [])
    (tryCatch
       (let* tableIds := remote (listBackupTables backupDatasetId) in
        if (length tableIds =? 0)%nat
        then setLocal (RestoreResult.setSuccess true)
        else
          let* targetExists := remote (datasetExists targetDatasetId) in
          do* (if negb targetExists
               then
                 let* backupMetadata :=
                   remote (datasetGetMetadata backupDatasetId) in
                 remote (datasetCreate targetDatasetId
                           match Dataset.location backupMetadata with
                           | None | Some EmptyString => "US"
                           | Some l => l
                           end)
               else ret tt) in
          let* restoreResults :=
            remote (forEach (restoreMember options backup targetDatasetId)
                            tableIds) in
          let successful :=
            length (List.filter Outcome.success restoreResults) in
          let failed :=
            List.filter (fun r => negb (Outcome.success r)) restoreResults in
          do* setLocal (RestoreResult.setTablesRestored successful) in
          let* materializedViewsRecreated :=
            remote (recreateMaterializedViewsInDataset targetDatasetId) in
          do* setLocal (RestoreResult.setMaterializedViewsRecreated
                          materializedViewsRecreated) in
          do* setLocal (RestoreResult.setSuccess (length failed =? 0)%nat) in
          if (0 <? length failed)%nat
          then setLocal (RestoreResult.setErrors (map errorOrUnknown failed))
          else ret tt)
       (fun error =>
          let errorMsg := "Error restoring from backup " ++ backupDatasetId
                            ++ ": " ++ error in
          do* setLocal (RestoreResult.setErrors [errorMsg]) in
          setLocal (RestoreResult.setSuccess false))).

(** Restores all backups for a specific timestamp. *)
Definition restoreBackups (options : RestoreOptions.t)
  : M Remote (list RestoreResult.t) :=
  match RestoreOptions.backupTimestamp options with
  | None => throw (Error "Backup timestamp is required")
  | Some backupTimestamp =>
      let* backups := listBackupsForTimestamp backupTimestamp in
      if (length backups =? 0)%nat
      then throw (Error ("No backup datasets found for timestamp: "
                           ++ JS.toISOString backupTimestamp))
      else forEach (restoreOne options) backups
  end.

(** ** list-backups.ts: the listing call *)

(** Lists all backup datasets in the project. *)
Definition listBackups : M Remote (list BackupInfo.t) :=
  let* allDatasets := getDatasets in
  ret (listBackupsOf allDatasets).

(** ** delete-backups.ts: selection and deletion *)

(** How [promptForSelection] ends for an answer read from the terminal:
    the process exits with a status, or the promise resolves to an index. *)
Inductive Selection : Type :=
  | Exit (status : Z)
  | Resolve (index : Z).

(** The callback of [rl.question] in [promptForSelection]. *)
Definition promptForSelection (maxIndex : Z) (answer : JS.text) : Selection :=
  if JS.equals (JS.toLowerCase answer) "q"
     || JS.equals (JS.toLowerCase answer) "quit"
  then Exit 0
  else
    match JS.parseIntText answer with
    | None => Exit 1
    | Some index =>
        if (index <? 1) || (maxIndex <? index) then Exit 1
        else Resolve (index - 1)
    end.

(** [dataset.delete({force: true})]: the dataset goes with all its tables.
    [refused] is the answer of the service to the deletion of a dataset:
    the error it rejects with, if any. *)
Definition datasetDelete (refused : string -> option string)
    (datasetId : string) : M Remote unit :=
  fun r => match refused datasetId with
           | Some e => (Throw e, r)
           | None =>
               match catalog r !! datasetId with
               | Some _ =>
                   (Ok tt, withCatalog r (delete datasetId (catalog r)))
               | None => (Throw (notFound datasetId), r)
               end
           end.

(** Deletes a backup dataset. *)
Definition deleteBackupDataset (refused : string -> option string)
    (backupDatasetId : string) : M Remote unit :=
  let* exists_ := datasetExists backupDatasetId in
  if negb exists_ then ret tt
  else datasetDelete refused backupDatasetId.

(** The two counters of [deleteBackupsForTimestamp]. *)
Module DeleteCounts.
Record t := mk {
  successCount : nat;
  errorCount : nat
}.
Definition incSuccess (x : t) : t := mk (S (successCount x)) (errorCount x).
Definition incError (x : t) : t := mk (successCount x) (S (errorCount x)).
End DeleteCounts.

(** Deletes all backups for a specific timestamp: the counters when the
    loop is over. The process then exits with status 1 when [errorCount]
    is positive, and the call returns otherwise. *)
Definition deleteBackupsForTimestamp (refused : string -> option string)
    (backups : list BackupInfo.t) : M Remote DeleteCounts.t :=
  withLocal (DeleteCounts.mk 0 0)
    (do* forEach (fun backup =>
           tryCatch
             (do* remote (deleteBackupDataset refused
                            (BackupInfo.backupDatasetId backup)) in
              setLocal DeleteCounts.incSuccess)
             (fun _ => setLocal DeleteCounts.incError)) backups in
     ret tt).

(** ** index.ts: the delete-backups command *)

(** The action of [delete-backups] once the logger is set up, for the two
    answers typed at the terminal: the status the process ends with. The
    second answer is asked for only when the first resolved to a group. *)
Definition deleteBackupsCommand (refused : string -> option string)
    (selection confirmation : JS.text) : M Remote Z :=
  tryCatch
    (let* backups := listBackups in
     if (length backups =? 0)%nat then ret 0
     else
       let groups := groupBackupsByTimestamp backups in
       match promptForSelection (Z.of_nat (length groups)) selection with
       | Exit status => ret status
       | Resolve selectedIndex =>
           match nth_error groups (Z.to_nat selectedIndex) with
           | None =>
               throw ("TypeError: Cannot read properties of undefined "
                      ++ "(reading 'timestampStr')")
           | Some selectedGroup =>
               let confirm := JS.toLowerCase confirmation in
               if negb (JS.equals confirm "yes")
                  && negb (JS.equals confirm "y")
               then ret 0
               else
                 let* counts :=
                   deleteBackupsForTimestamp refused
                     (BackupGroup.backups selectedGroup) in
                 if (0 <? DeleteCounts.errorCount counts)%nat then ret 1
                 else ret 0
           end
       end)
    (fun _ => ret 1).

(** ** Vocabulary of the statements *)

(** [c] occurs in [s]. *)
Fixpoint hasChar (c : ascii) (s : string) : bool :=
  match s with
  | EmptyString => false
  | String x r => Ascii.eqb x c || hasChar c r
  end.

Fixpoint allDigits (s : string) : bool :=
  match s with
  | EmptyString => true
  | String c r => JS.isDigit c && allDigits r
  end.

(** The number a string of decimal digits denotes, continuing [acc]. *)
Fixpoint evalFrom (acc : Z) (s : string) : Z :=
  match s with
  | EmptyString => acc
  | String c r => evalFrom (10 * acc + JS.digitValue c) r
  end.

(** What the map of [groupBackupsByTimestamp] holds once the backups [bs]
    have been pushed: one entry per canonical string among [bs], holding
    the backups with that string in the order of [bs]. *)
Definition groupsOf (bs : list BackupInfo.t) (gm : GroupMap) : Prop :=
  let key b := JS.toISOString (BackupInfo.timestamp b) in
  NoDup (map fst gm)
  /\ (forall k, isSome (mapGet k gm)
                = existsb (fun b => String.eqb (key b) k) bs)
  /\ (forall k g, mapGet k gm = Some g ->
        BackupGroup.timestampStr g = k
        /\ JS.toISOString (BackupGroup.timestamp g) = k
        /\ BackupGroup.backups g
           = List.filter (fun b => String.eqb (key b) k) bs
        /\ exists b, In b bs /\ BackupInfo.timestamp b = BackupGroup.timestamp g).

(** The rule for backup container names in the words of the specification:
    the name starts with the prefix, the two segments that follow it are
    exactly 8 and 6 digits, and they form a valid calendar date and time. *)
Module Spec.

Definition daysInMonth (y m : Z) : Z :=
  if m =? 2 then (if JS.isLeap y then 29 else 28)
  else if (m =? 4) || (m =? 6) || (m =? 9) || (m =? 11) then 30
  else 31.

Definition validCalendar (y mo d h mi s : Z) : bool :=
  (1 <=? mo) && (mo <=? 12) && (1 <=? d) && (d <=? daysInMonth y mo)
  && (h <=? 23) && (mi <=? 59) && (s <=? 59).

Definition decodable (name : string) : bool :=
  JS.startsWith name BACKUP_DATASET_PREFIX &&
  match JS.split "_" name with
  | _ :: _ :: dateSeg :: timeSeg :: _ =>
      (String.length dateSeg =? 8)%nat && allDigits dateSeg
      && (String.length timeSeg =? 6)%nat && allDigits timeSeg
      && validCalendar (evalFrom 0 (JS.substring dateSeg 0 4))
                       (evalFrom 0 (JS.substring dateSeg 4 6))
                       (evalFrom 0 (JS.substring dateSeg 6 8))
                       (evalFrom 0 (JS.substring timeSeg 0 2))
                       (evalFrom 0 (JS.substring timeSeg 2 4))
                       (evalFrom 0 (JS.substring timeSeg 4 6))
  | _ => false
  end.

End Spec.

(** *** Properties of computations *)

(** [m] takes every state to one related to it by [P], whatever it
    returns; [proj] picks the service out of the state. *)
Definition preserves {S A} (proj : S -> Remote)
    (P : Remote -> Remote -> Prop) (m : M S A) : Prop :=
  forall s, P (proj s) (proj (snd (m s))).

(** [m] run from two related states returns the same and leaves related
    states. *)
Definition respects {S A} (R : S -> S -> Prop) (m : M S A) : Prop :=
  forall s1 s2, R s1 s2 ->
    fst (m s1) = fst (m s2) /\ R (snd (m s1)) (snd (m s2)).

(** Two states of the service that answer alike on the datasets [K]. *)
Definition agreeOn (K : string -> Prop) (r1 r2 : Remote) : Prop :=
  fault r1 = fault r2 /\ projectId r1 = projectId r2
  /\ forall k, K k -> catalog r1 !! k = catalog r2 !! k.

(** The same, next to equal local variables. *)
Definition agreeOnL {L} (K : string -> Prop) (s1 s2 : Remote * L) : Prop :=
  agreeOn K (fst s1) (fst s2) /\ snd s1 = snd s2.

(** Nothing but the dataset [B] differs between [r] and [r']. *)
Definition touchesOnly (B : string) (r r' : Remote) : Prop :=
  fault r' = fault r /\ projectId r' = projectId r
  /\ forall k, k <> B -> catalog r' !! k = catalog r !! k.

(** Every table of [r'] is a table of [r], unchanged, or a snapshot as of
    [instant] created with the expiration date [expiration] (which then is
    absent or a valid date). *)
Definition onlyAddsSnapshots (instant : Z) (expiration : option (option Z))
    (r r' : Remote) : Prop :=
  forall ds tb T, lookupTable r' ds tb = Some T ->
    lookupTable r ds tb = Some T
    \/ (Table.type T = "SNAPSHOT"
        /\ (exists sd st, Table.rows T = AsOf sd st instant)
        /\ expiration <> Some None
        /\ Table.expirationTime T = mjoin expiration).

(** The entries [listTables] returns for a dataset when no call fails. *)
Definition tableInfosOf (D : Dataset.t) : list TableInfo.t :=
  omap (fun kT : string * Table.t =>
          if String.eqb (Table.type (snd kT)) "TABLE"
          then Some (TableInfo.mk (fst kT) (Table.type (snd kT))
                                  (Table.location (snd kT)))
          else None)
       (map_to_list (Dataset.tables D)).

(** The ids [listBackupTables] returns for a dataset when no call fails. *)
Definition snapshotIdsOf (D : Dataset.t) : list string :=
  omap (fun kT : string * Table.t =>
          if String.eqb (Table.type (snd kT)) "SNAPSHOT"
          then Some (fst kT) else None)
       (map_to_list (Dataset.tables D)).

(** The outcome object of the restore of the snapshot [tableId] of
    [backupDatasetId] into [targetDatasetId] without [overwrite], by the
    state of the target and the answer of the service to the clone job. *)
Definition restoreOutcome (backupDatasetId targetDatasetId : string)
    (r : Remote) (tableId : string) : Outcome.t :=
  if isSome (lookupTable r targetDatasetId tableId)
  then Outcome.mk false tableId
         (Some ("Failed to restore table " ++ tableId ++ ": "
                  ++ Error (targetExistsMessage
                              ("`" ++ projectId r ++ "." ++ targetDatasetId
                                   ++ "." ++ tableId ++ "`"))))
  else match fault r (QueryJob (CreateTableClone false targetDatasetId tableId
                                  backupDatasetId tableId)) with
       | Some e =>
           Outcome.mk false tableId
             (Some ("Failed to restore table " ++ tableId ++ ": " ++ e))
       | None => Outcome.mk true tableId None
       end.

(** Only query jobs can fail. *)
Definition onlyJobsFail (f : Request -> option string) : Prop :=
  forall rq, (forall q, rq <> QueryJob q) -> f rq = None.

(** ** A small project for the examples *)

Module Example.

Definition plain : Table.t := Table.mk "TABLE" None None (Stored 1) None.

Definition view : Table.t :=
  Table.mk "VIEW" None None (Derived "SELECT 1") None.

Definition sales : Dataset.t :=
  Dataset.mk (Some "EU")
    (list_to_map [("orders", plain); ("items", plain); ("users", plain);
                  ("report", view)]).

Definition hr : Dataset.t :=
  Dataset.mk (Some "EU") (list_to_map [("staff", plain)]).

Definition noFault : Request -> option string := fun _ => None.

(** Every remote call succeeds. *)
Definition project : Remote :=
  mkRemote "proj" (list_to_map [("sales", sales); ("hr", hr)]) noFault.

(** The snapshot job of sales.items is refused; all else succeeds. *)
Definition quotaOnItems (rq : Request) : option string :=
  match rq with
  | QueryJob (CreateSnapshotTable _ _ sd st _ _) =>
      if String.eqb sd "sales" && String.eqb st "items"
      then Some "Error: Quota exceeded"
      else None
  | _ => None
  end.

Definition flaky : Remote :=
  mkRemote "proj" (list_to_map [("sales", sales); ("hr", hr)]) quotaOnItems.

(** 2024-12-15T14:30:22.500Z, the reading of the clock in the examples. *)
Definition now : Z := 1734273022500.

(** The backup of sales taken at 2024-12-15T14:30:22Z, and a project that
    holds it next to a sales dataset in which orders exists already. *)
Definition snapshot (st : string) : Table.t :=
  Table.mk "SNAPSHOT" None None (AsOf "sales" st 1734273022000) None.

Definition salesBackup : Dataset.t :=
  Dataset.mk (Some "EU")
    (list_to_map [("orders", snapshot "orders"); ("items", snapshot "items");
                  ("users", snapshot "users")]).

Definition salesLeft : Dataset.t :=
  Dataset.mk (Some "EU") (list_to_map [("orders", plain)]).

Definition restorable : Remote :=
  mkRemote "proj"
    (list_to_map [("zzz_backup_20241215_143022_sales", salesBackup);
                  ("sales", salesLeft)]) noFault.

End Example.

(* ================================================================ *)
(** * Theorems *)

(* Characters are compared through their numeric codes; these stay folded
   during simplification. *)
Global Arguments JS.digitChar : simpl never.
Global Arguments JS.isDigit : simpl never.
Global Arguments JS.digitValue : simpl never.
Global Arguments JS.isWhiteSpace : simpl never.
Global Arguments JS.isDigitUnit : simpl never.

(** ** Strings *)

Section Strings.

Lemma append_assoc (a b c : string) : (a ++ b) ++ c = a ++ (b ++ c).
Proof. induction a as [|x a IH]; simpl; [reflexivity | now rewrite IH]. Qed.

Lemma append_nil_r (a : string) : a ++ "" = a.
Proof. induction a as [|x a IH]; simpl; [reflexivity | now rewrite IH]. Qed.

Lemma length_append (a b : string) :
  String.length (a ++ b) = (String.length a + String.length b)%nat.
Proof. induction a as [|x a IH]; simpl; [reflexivity | now rewrite IH]. Qed.

Lemma append_inj_length (a1 a2 b1 b2 : string) :
  String.length a1 = String.length a2 ->
  a1 ++ b1 = a2 ++ b2 -> a1 = a2 /\ b1 = b2.
Proof.
  revert a2. induction a1 as [|x a1 IH]; intros [|y a2]; simpl;
    try discriminate.
  - intros _ H. now split.
  - intros Hl H. injection Hl as Hl. injection H as -> H.
    destruct (IH _ Hl H) as [-> ->]. now split.
Qed.

Lemma prefix_append (p x : string) : String.prefix p (p ++ x) = true.
Proof.
  induction p as [|c p IH]; simpl.
  - now destruct x.
  - destruct (ascii_dec c c); [assumption | congruence].
Qed.

Lemma hasChar_append c (a b : string) :
  hasChar c (a ++ b) = hasChar c a || hasChar c b.
Proof.
  induction a as [|x a IH]; simpl; [reflexivity|].
  rewrite IH. now rewrite orb_assoc.
Qed.

Variable sep : ascii.

Lemma split_nonempty (s : string) : JS.split sep s <> [].
Proof.
  destruct s as [|c r]; simpl; [discriminate|].
  destruct (Ascii.eqb c sep); [discriminate|].
  destruct (JS.split sep r); discriminate.
Qed.

Lemma split_cons_other c (r : string) :
  Ascii.eqb c sep = false ->
  exists h t, JS.split sep r = h :: t /\ JS.split sep (String c r) = String c h :: t.
Proof.
  intros Hc. simpl. rewrite Hc.
  destruct (JS.split sep r) as [|h t] eqn:E.
  - now apply split_nonempty in E.
  - now exists h, t.
Qed.

Lemma split_no_sep (a : string) : hasChar sep a = false -> JS.split sep a = [a].
Proof.
  induction a as [|c a IH]; simpl; [reflexivity|].
  intros H. apply orb_false_iff in H as [Hc Ha].
  rewrite Hc, (IH Ha). reflexivity.
Qed.

Lemma split_append (a b : string) :
  hasChar sep a = false ->
  JS.split sep (a ++ String sep b) = a :: JS.split sep b.
Proof.
  induction a as [|c a IH]; simpl.
  - intros _. now rewrite Ascii.eqb_refl.
  - intros H. apply orb_false_iff in H as [Hc Ha].
    rewrite Hc, (IH Ha). reflexivity.
Qed.

Lemma split_pieces (s : string) :
  Forall (fun p => hasChar sep p = false) (JS.split sep s).
Proof.
  induction s as [|c r IH]; simpl.
  - repeat constructor.
  - destruct (Ascii.eqb c sep) eqn:Hc.
    + constructor; [reflexivity | assumption].
    + destruct (JS.split sep r) as [|h t]; [repeat constructor; simpl; now rewrite Hc|].
      inversion IH; subst. constructor; [|assumption].
      simpl. rewrite Hc. assumption.
Qed.

Lemma join_cons_char c h (t : list string) :
  JS.join sep (String c h :: t) = String c (JS.join sep (h :: t)).
Proof. destruct t; reflexivity. Qed.

Lemma join_split (s : string) : JS.join sep (JS.split sep s) = s.
Proof.
  induction s as [|c r IH]; simpl; [reflexivity|].
  destruct (Ascii.eqb_spec c sep) as [->|Hc].
  - destruct (JS.split sep r) as [|h t] eqn:E; [now apply split_nonempty in E|].
    simpl in *. now rewrite IH.
  - destruct (JS.split sep r) as [|h t] eqn:E; [now apply split_nonempty in E|].
    rewrite join_cons_char. now rewrite IH.
Qed.

End Strings.

(** ** Decimal notation *)

Section Decimal.

Lemma digitChar_isDigit d : 0 <= d <= 9 -> JS.isDigit (JS.digitChar d) = true.
Proof.
  intros H.
  assert (d = 0 \/ d = 1 \/ d = 2 \/ d = 3 \/ d = 4 \/ d = 5 \/ d = 6
          \/ d = 7 \/ d = 8 \/ d = 9) as Hd by lia.
  repeat (destruct Hd as [-> | Hd]; [reflexivity|]). now subst.
Qed.

Lemma digitChar_value d : 0 <= d <= 9 -> JS.digitValue (JS.digitChar d) = d.
Proof.
  intros H.
  assert (d = 0 \/ d = 1 \/ d = 2 \/ d = 3 \/ d = 4 \/ d = 5 \/ d = 6
          \/ d = 7 \/ d = 8 \/ d = 9) as Hd by lia.
  repeat (destruct Hd as [-> | Hd]; [reflexivity|]). now subst.
Qed.

Lemma isDigit_value c : JS.isDigit c = true -> 0 <= JS.digitValue c <= 9.
Proof.
  unfold JS.isDigit, JS.digitValue. intros H.
  apply andb_true_iff in H as [H1 H2].
  apply Nat.leb_le in H1, H2. lia.
Qed.

Lemma isDigit_not_underscore c : JS.isDigit c = true -> Ascii.eqb c "_" = false.
Proof.
  intros H. destruct (Ascii.eqb_spec c "_"%char) as [->|]; [discriminate | reflexivity].
Qed.

Lemma isDigit_unit c : JS.isDigitUnit (N_of_ascii c) = JS.isDigit c.
Proof.
  unfold JS.isDigitUnit, JS.isDigit, nat_of_ascii. cbv zeta.
  destruct (N.leb_spec 48 (N_of_ascii c)), (N.leb_spec (N_of_ascii c) 57),
    (Nat.leb_spec 48 (N.to_nat (N_of_ascii c))),
    (Nat.leb_spec (N.to_nat (N_of_ascii c)) 57); try reflexivity; lia.
Qed.

Lemma digitValue_unit c : Z.of_N (N_of_ascii c) - 48 = JS.digitValue c.
Proof. unfold JS.digitValue, nat_of_ascii. now rewrite N_nat_Z. Qed.

Lemma isDigitUnit_not_space u : JS.isDigitUnit u = true -> JS.isWhiteSpace u = false.
Proof.
  unfold JS.isDigitUnit, JS.isWhiteSpace. intros H.
  apply andb_true_iff in H as [H1 H2]. apply N.leb_le in H1, H2.
  repeat match goal with
         | |- context [(?a <=? ?b)%N] =>
             first [ replace (a <=? b)%N with false
                       by (symmetry; apply N.leb_gt; lia)
                   | replace (a <=? b)%N with true
                       by (symmetry; apply N.leb_le; lia) ]
         | |- context [(?a =? ?b)%N] =>
             replace (a =? b)%N with false by (symmetry; apply N.eqb_neq; lia)
         end.
  reflexivity.
Qed.

Lemma allDigits_append a b : allDigits (a ++ b) = allDigits a && allDigits b.
Proof.
  induction a as [|c a IH]; simpl; [reflexivity|].
  rewrite IH. now rewrite andb_assoc.
Qed.

Lemma allDigits_no_underscore s : allDigits s = true -> hasChar "_" s = false.
Proof.
  induction s as [|c s IH]; simpl; [reflexivity|].
  intros H. apply andb_true_iff in H as [Hc Hs].
  rewrite (isDigit_not_underscore _ Hc). simpl. auto.
Qed.

Lemma evalFrom_append acc a b : evalFrom acc (a ++ b) = evalFrom (evalFrom acc a) b.
Proof. revert acc. induction a as [|c a IH]; intros acc; simpl; [reflexivity | apply IH]. Qed.

Lemma evalFrom_bounds s : allDigits s = true ->
  forall acc, 0 <= acc ->
  acc * 10 ^ Z.of_nat (String.length s) <= evalFrom acc s
    < (acc + 1) * 10 ^ Z.of_nat (String.length s).
Proof.
  induction s as [|c s IH]; intros Hs acc Hacc.
  - cbn [evalFrom String.length]. change (10 ^ Z.of_nat 0) with 1. lia.
  - simpl in Hs. apply andb_true_iff in Hs as [Hc Hs].
    pose proof (isDigit_value _ Hc) as Hv.
    cbn [evalFrom String.length].
    specialize (IH Hs (10 * acc + JS.digitValue c) ltac:(lia)).
    rewrite Nat2Z.inj_succ, Z.pow_succ_r by lia.
    nia.
Qed.

Lemma digitRun_allDigits s : allDigits s = true ->
  forall acc, JS.digitRun (JS.units s) (Some acc) = Some (evalFrom acc s).
Proof.
  induction s as [|c s IH]; intros Hs acc; [reflexivity|].
  cbn [allDigits] in Hs. apply andb_true_iff in Hs as [Hc Hs].
  cbn [JS.units JS.digitRun evalFrom default id].
  rewrite isDigit_unit, Hc, digitValue_unit. apply IH, Hs.
Qed.

(** [parseInt] reads a non-empty string of digits as the number it denotes. *)
Lemma parseInt_allDigits s :
  allDigits s = true -> s <> "" -> JS.parseInt s = Some (evalFrom 0 s).
Proof.
  destruct s as [|c s]; [congruence|]. intros Hs _.
  cbn [allDigits] in Hs. apply andb_true_iff in Hs as [Hc Hs].
  unfold JS.parseInt, JS.parseIntText. cbn [JS.units JS.trimStart].
  rewrite <- isDigit_unit in Hc.
  rewrite (isDigitUnit_not_space _ Hc).
  assert ((N_of_ascii c =? 45)%N = false) as ->.
  { apply N.eqb_neq. intros E. rewrite E in Hc. discriminate Hc. }
  assert ((N_of_ascii c =? 43)%N = false) as ->.
  { apply N.eqb_neq. intros E. rewrite E in Hc. discriminate Hc. }
  cbn [JS.digitRun default id]. rewrite Hc, digitValue_unit.
  apply (digitRun_allDigits s Hs).
Qed.

Lemma digitsOf_acc fuel : forall n acc,
  JS.digitsOf fuel n acc = JS.digitsOf fuel n "" ++ acc.
Proof.
  induction fuel as [|f IH]; intros n acc; cbn [JS.digitsOf]; [reflexivity|].
  destruct (n <? 10); [reflexivity|].
  rewrite IH, (IH _ (String _ "")), append_assoc. reflexivity.
Qed.

Lemma digitsOf_allDigits fuel : forall n, 0 <= n ->
  allDigits (JS.digitsOf fuel n "") = true.
Proof.
  induction fuel as [|f IH]; intros n Hn; cbn [JS.digitsOf]; [reflexivity|].
  assert (JS.isDigit (JS.digitChar (n mod 10)) = true) as Hd.
  { apply digitChar_isDigit. pose proof (Z.mod_pos_bound n 10). lia. }
  destruct (n <? 10).
  - cbn [allDigits]. now rewrite Hd.
  - rewrite digitsOf_acc, allDigits_append. cbn [allDigits]. rewrite Hd.
    rewrite IH; [reflexivity|]. apply Z.div_pos; lia.
Qed.

Lemma digitsOf_eval fuel : forall n, 0 <= n < 10 ^ Z.of_nat fuel ->
  evalFrom 0 (JS.digitsOf fuel n "") = n.
Proof.
  induction fuel as [|f IH]; intros n Hn.
  - change (10 ^ Z.of_nat 0) with 1 in Hn. cbn [JS.digitsOf evalFrom]. lia.
  - cbn [JS.digitsOf].
    assert (0 <= n mod 10 <= 9) as Hm by (pose proof (Z.mod_pos_bound n 10); lia).
    destruct (Z.ltb_spec n 10).
    + cbn [evalFrom]. rewrite digitChar_value by lia. rewrite Z.mod_small; lia.
    + rewrite digitsOf_acc, evalFrom_append. cbn [evalFrom].
      rewrite digitChar_value by lia.
      rewrite IH.
      * pose proof (Z.div_mod n 10). lia.
      * rewrite Nat2Z.inj_succ, Z.pow_succ_r in Hn by lia.
        split; [apply Z.div_pos; lia|].
        apply Z.div_lt_upper_bound; lia.
Qed.

Lemma digitsOf_length_pos fuel n : String.length (JS.digitsOf (S fuel) n "") <> O.
Proof.
  cbn [JS.digitsOf]. destruct (n <? 10); [discriminate|].
  rewrite digitsOf_acc, length_append. cbn [String.length]. lia.
Qed.

Lemma numberToString_nonneg n : 0 <= n ->
  JS.numberToString n = JS.digitsOf 24 n "".
Proof. intros H. unfold JS.numberToString. destruct (Z.ltb_spec n 0); [lia | reflexivity]. Qed.

(** The decimal notation of a natural number below [10^24]: digits only,
    not empty, denoting the number. *)
Lemma numberToString_spec n : 0 <= n < 10 ^ 24 ->
  allDigits (JS.numberToString n) = true
  /\ JS.numberToString n <> ""
  /\ evalFrom 0 (JS.numberToString n) = n.
Proof.
  intros H. rewrite numberToString_nonneg by lia. repeat split.
  - apply digitsOf_allDigits; lia.
  - intros E. apply (digitsOf_length_pos 23 n). now rewrite E.
  - apply digitsOf_eval. exact H.
Qed.

Lemma digitsOf_length_le fuel : forall n (k : nat),
  0 <= n < 10 ^ Z.of_nat k -> (1 <= k)%nat ->
  (String.length (JS.digitsOf fuel n "") <= k)%nat.
Proof.
  induction fuel as [|f IH]; intros n k Hn Hk; cbn [JS.digitsOf].
  - cbn [String.length]. lia.
  - destruct (Z.ltb_spec n 10).
    + cbn [String.length]. lia.
    + rewrite digitsOf_acc, length_append. cbn [String.length].
      destruct k as [|[|k]]; [lia | change (10 ^ Z.of_nat 1) with 10 in Hn; lia |].
      assert (String.length (JS.digitsOf f (n / 10) "") <= S k)%nat; [|lia].
      apply IH; [|lia].
      rewrite Nat2Z.inj_succ, Z.pow_succ_r in Hn by lia.
      split; [apply Z.div_pos; lia|].
      apply Z.div_lt_upper_bound; lia.
Qed.

(** A field of two digits, as [formatBackupTimestamp] pads it. *)
Lemma twoDigits n : 0 <= n <= 99 ->
  String.length (JS.padStart2 (JS.numberToString n)) = 2%nat
  /\ allDigits (JS.padStart2 (JS.numberToString n)) = true
  /\ evalFrom 0 (JS.padStart2 (JS.numberToString n)) = n.
Proof.
  intros Hn.
  destruct (numberToString_spec n) as (Hd & Hne & He); [lia|].
  assert (String.length (JS.numberToString n) <= 2)%nat as Hl.
  { rewrite numberToString_nonneg by lia.
    apply (digitsOf_length_le 24 n 2); [change (10 ^ Z.of_nat 2) with 100|]; lia. }
  unfold JS.padStart2.
  destruct (JS.numberToString n) as [|a [|b [|c r]]]; cbn [String.length] in *;
    [congruence | | | lia].
  - repeat split; [exact Hd | exact He].
  - repeat split; assumption.
Qed.

(** A year of four digits is printed with exactly these. *)
Lemma fourDigits y : 1000 <= y <= 9999 ->
  String.length (JS.numberToString y) = 4%nat
  /\ allDigits (JS.numberToString y) = true
  /\ evalFrom 0 (JS.numberToString y) = y.
Proof.
  intros Hy.
  destruct (numberToString_spec y) as (Hd & Hne & He); [lia|].
  assert (String.length (JS.numberToString y) <= 4)%nat as Hl.
  { rewrite numberToString_nonneg by lia.
    apply (digitsOf_length_le 24 y 4); [change (10 ^ Z.of_nat 4) with 10000|]; lia. }
  pose proof (evalFrom_bounds _ Hd 0 ltac:(lia)) as Hb. rewrite He in Hb.
  repeat split; try assumption.
  assert (4 <= String.length (JS.numberToString y))%nat; [|lia].
  destruct (Nat.le_gt_cases 4 (String.length (JS.numberToString y)));
    [assumption|exfalso].
  assert (10 ^ Z.of_nat (String.length (JS.numberToString y)) <= 10 ^ 3)
    by (apply Z.pow_le_mono_r; lia).
  change (10 ^ 3) with 1000 in *. lia.
Qed.

End Decimal.

(** ** The calendar of ECMAScript time values *)

Section Calendar.

Lemma DayFromYear_bounds y :
  146097 * (y - 1970) - 506 <= 400 * JS.DayFromYear y
    <= 146097 * (y - 1970) + 589.
Proof. unfold JS.DayFromYear. Z.div_mod_to_equations; lia. Qed.

(** A year has 365 days, a leap year 366. *)
Lemma DayFromYear_succ y :
  JS.DayFromYear (y + 1) = JS.DayFromYear y + JS.DaysInYear y.
Proof.
  unfold JS.DayFromYear, JS.DaysInYear, JS.isLeap.
  replace (y + 1 - 1969) with (y - 1969 + 1) by lia.
  replace (y + 1 - 1901) with (y - 1901 + 1) by lia.
  replace (y + 1 - 1601) with (y - 1601 + 1) by lia.
  replace (y + 1 - 1970) with (y - 1970 + 1) by lia.
  destruct (Z.eqb_spec (y mod 4) 0), (Z.eqb_spec (y mod 100) 0),
    (Z.eqb_spec (y mod 400) 0); cbn [andb orb negb];
    Z.div_mod_to_equations; lia.
Qed.

(** [YearFromDay] is the year ECMA-262 defines: the one whose first day is
    the last not after the given day. *)
Lemma YearFromDay_spec d :
  JS.DayFromYear (JS.YearFromDay d) <= d < JS.DayFromYear (JS.YearFromDay d + 1).
Proof.
  unfold JS.YearFromDay.
  set (y0 := 1970 + 400 * d / 146097).
  pose proof (DayFromYear_bounds (y0 - 1)).
  pose proof (DayFromYear_bounds (y0 + 2)).
  pose proof (DayFromYear_succ (y0 - 1)) as S1.
  pose proof (DayFromYear_succ y0) as S2.
  pose proof (DayFromYear_succ (y0 + 1)) as S3.
  replace (y0 - 1 + 1) with y0 in * by lia.
  replace (y0 + 1 + 1) with (y0 + 2) in * by lia.
  assert (JS.DaysInYear (y0 - 1) >= 365 /\ JS.DaysInYear y0 >= 365
          /\ JS.DaysInYear (y0 + 1) >= 365) as (? & ? & ?).
  { unfold JS.DaysInYear. repeat split; destruct (JS.isLeap _); lia. }
  assert (146097 * (y0 - 1970) <= 400 * d < 146097 * (y0 - 1970) + 146097).
  { subst y0. Z.div_mod_to_equations; lia. }
  destruct (Z.ltb_spec d (JS.DayFromYear y0)).
  - replace (y0 - 1 + 1) with y0 by lia. lia.
  - destruct (Z.leb_spec (JS.DayFromYear (y0 + 1)) d).
    + replace (y0 + 1 + 1) with (y0 + 2) by lia. lia.
    + lia.
Qed.

Lemma DayWithinYear_range t :
  0 <= JS.DayWithinYear t < JS.DaysInYear (JS.YearFromTime t).
Proof.
  unfold JS.DayWithinYear, JS.YearFromTime.
  pose proof (YearFromDay_spec (JS.Day t)) as H.
  rewrite DayFromYear_succ in H. lia.
Qed.

Ltac month_cases :=
  repeat match goal with
         | |- context [Z.ltb ?a ?b] => destruct (Z.ltb_spec a b)
         end.

Lemma MonthFromTime_range t : 0 <= JS.MonthFromTime t <= 11.
Proof. unfold JS.MonthFromTime. month_cases; lia. Qed.

Lemma DateFromTime_range t : 1 <= JS.DateFromTime t <= 31.
Proof.
  pose proof (DayWithinYear_range t) as H.
  unfold JS.DateFromTime, JS.MonthFromTime, JS.DaysInYear in *.
  destruct (JS.isLeap (JS.YearFromTime t));
    change (JS.monthStart ?l 1) with 31 in *;
    cbv [JS.monthStart Z.leb Z.eqb Z.compare Pos.compare Pos.compare_cont Pos.eqb] in *;
    month_cases; lia.
Qed.

Lemma HourFromTime_range t : 0 <= JS.HourFromTime t <= 23.
Proof. unfold JS.HourFromTime. pose proof (Z.mod_pos_bound (t / JS.msPerHour) 24). lia. Qed.

Lemma MinFromTime_range t : 0 <= JS.MinFromTime t <= 59.
Proof. unfold JS.MinFromTime. pose proof (Z.mod_pos_bound (t / JS.msPerMinute) 60). lia. Qed.

Lemma SecFromTime_range t : 0 <= JS.SecFromTime t <= 59.
Proof. unfold JS.SecFromTime. pose proof (Z.mod_pos_bound (t / JS.msPerSecond) 60). lia. Qed.

Lemma msFromTime_range t : 0 <= JS.msFromTime t <= 999.
Proof. unfold JS.msFromTime, JS.msPerSecond. pose proof (Z.mod_pos_bound t 1000). lia. Qed.

(** The day reached from the calendar date of [t] by moving [n] days. *)
Lemma MakeDay_fields t n :
  JS.MakeDay (JS.YearFromTime t) (JS.MonthFromTime t) (JS.DateFromTime t + n)
  = JS.Day t + n.
Proof.
  pose proof (MonthFromTime_range t) as Hm.
  unfold JS.MakeDay.
  rewrite Z.div_small, Z.mod_small, Z.add_0_r by lia.
  unfold JS.DateFromTime, JS.DayWithinYear. lia.
Qed.

Lemma MakeTime_fields t :
  JS.MakeTime (JS.HourFromTime t) (JS.MinFromTime t) (JS.SecFromTime t)
              (JS.msFromTime t) = JS.TimeWithinDay t.
Proof.
  unfold JS.MakeTime, JS.HourFromTime, JS.MinFromTime, JS.SecFromTime,
    JS.msFromTime, JS.TimeWithinDay, JS.msPerHour, JS.msPerMinute,
    JS.msPerSecond, JS.msPerDay.
  Z.div_mod_to_equations; lia.
Qed.

Lemma Day_TimeWithinDay t : JS.MakeDate (JS.Day t) (JS.TimeWithinDay t) = t.
Proof.
  unfold JS.MakeDate, JS.Day, JS.TimeWithinDay, JS.msPerDay.
  pose proof (Z.div_mod t 86400000). lia.
Qed.

(** A time value is rebuilt from its calendar fields. *)
Lemma time_of_fields t :
  JS.MakeDate
    (JS.MakeDay (JS.YearFromTime t) (JS.MonthFromTime t) (JS.DateFromTime t))
    (JS.MakeTime (JS.HourFromTime t) (JS.MinFromTime t) (JS.SecFromTime t)
                 (JS.msFromTime t)) = t.
Proof.
  pose proof (MakeDay_fields t 0) as H. rewrite Z.add_0_r in H.
  rewrite H, Z.add_0_r, MakeTime_fields. apply Day_TimeWithinDay.
Qed.

Lemma TimeClip_valid t : JS.validTime t -> JS.TimeClip t = Some t.
Proof.
  unfold JS.validTime, JS.TimeClip. intros H.
  destruct (Z.leb_spec (Z.abs t) JS.maxTime); [reflexivity | lia].
Qed.

Lemma TimeClip_Some t u : JS.TimeClip t = Some u -> u = t /\ JS.validTime t.
Proof.
  unfold JS.validTime, JS.TimeClip.
  destruct (Z.leb_spec (Z.abs t) JS.maxTime); [|discriminate].
  intros [= <-]. lia.
Qed.

(** The years of all time values have at most six digits. *)
Lemma YearFromTime_valid t :
  JS.validTime t -> -271821 <= JS.YearFromTime t <= 275760.
Proof.
  unfold JS.validTime, JS.maxTime. intros H.
  pose proof (YearFromDay_spec (JS.Day t)) as Hy.
  fold (JS.YearFromTime t) in Hy.
  pose proof (DayFromYear_bounds (JS.YearFromTime t)).
  pose proof (DayFromYear_bounds (JS.YearFromTime t + 1)).
  assert (-100000000 <= JS.Day t <= 100000000).
  { unfold JS.Day, JS.msPerDay. Z.div_mod_to_equations; lia. }
  lia.
Qed.

(** Time values whose year has four digits are well inside the range of
    [Date]. *)
Lemma fourDigitYear_bound t :
  1000 <= JS.YearFromTime t <= 9999 ->
  -31000000000000 <= t <= 254000000000000.
Proof.
  intros H.
  pose proof (YearFromDay_spec (JS.Day t)) as Hy.
  fold (JS.YearFromTime t) in Hy.
  pose proof (DayFromYear_bounds (JS.YearFromTime t)).
  pose proof (DayFromYear_bounds (JS.YearFromTime t + 1)).
  unfold JS.Day, JS.msPerDay in *. Z.div_mod_to_equations; lia.
Qed.

End Calendar.

(** ** utils.ts: retention *)

Section Retention.

Lemma setUTCDate_days t n :
  JS.setUTCDate t (JS.getUTCDate t + n) = JS.TimeClip (t + n * JS.msPerDay).
Proof.
  unfold JS.setUTCDate, JS.getUTCDate. rewrite MakeDay_fields.
  f_equal. pose proof (Day_TimeWithinDay t) as H.
  unfold JS.MakeDate in *. lia.
Qed.

Lemma Day_add_days t n : JS.Day (t + n * JS.msPerDay) = JS.Day t + n.
Proof. unfold JS.Day, JS.msPerDay. now rewrite Z.div_add by lia. Qed.

Lemma TimeWithinDay_add_days t n :
  JS.TimeWithinDay (t + n * JS.msPerDay) = JS.TimeWithinDay t.
Proof. unfold JS.TimeWithinDay, JS.msPerDay. now rewrite Z.mod_add by lia. Qed.

(** C9 (as amended). The expiration is absent for a retention of 0 days,
    for every instant. For a whole number [n > 0] of days it is a [Date]:
    the instant moved forward by exactly [n] calendar days of UTC, the same
    time of day on the day numbered [n] later, which is
    [instant + n * 86400000] ms, when that is an instant a [Date] can hold,
    and an Invalid Date when it is not. The count of days is taken on the
    calendar: from 28 February the next day is 29 February in a leap year
    and 1 March otherwise, and the year rolls over after 31 December. *)
Theorem calculateExpirationTimestamp_days (instant : Z) :
  calculateExpirationTimestamp instant (Some 0) = None
  /\ (forall n, 0 < n ->
        (JS.validTime (instant + n * JS.msPerDay) ->
         calculateExpirationTimestamp instant (Some n)
         = Some (Some (instant + n * JS.msPerDay)))
        /\ (~ JS.validTime (instant + n * JS.msPerDay) ->
            calculateExpirationTimestamp instant (Some n) = Some None)
        /\ JS.Day (instant + n * JS.msPerDay) = JS.Day instant + n
        /\ JS.TimeWithinDay (instant + n * JS.msPerDay)
           = JS.TimeWithinDay instant)
  /\ (* 2024-02-28T12:00:00Z + 1 day, 2023-02-28T12:00:00Z + 1 day,
        2024-12-31T23:59:59Z + 1 day *)
     (JS.toISOString <$> mjoin (calculateExpirationTimestamp 1709121600000 (Some 1))
        = Some "2024-02-29T12:00:00.000Z"
      /\ JS.toISOString <$> mjoin (calculateExpirationTimestamp 1677585600000 (Some 1))
        = Some "2023-03-01T12:00:00.000Z"
      /\ JS.toISOString <$> mjoin (calculateExpirationTimestamp 1735689599000 (Some 1))
        = Some "2025-01-01T23:59:59.000Z").
Proof.
  split; [reflexivity|]. split.
  - intros n Hn.
    assert (calculateExpirationTimestamp instant (Some n)
            = Some (JS.TimeClip (instant + n * JS.msPerDay))) as E.
    { unfold calculateExpirationTimestamp.
      destruct (Z.eqb_spec n 0); [lia|]. now rewrite setUTCDate_days. }
    split; [|split; [|split]].
    + intros Hvalid. now rewrite E, TimeClip_valid.
    + intros Hinvalid. rewrite E. unfold JS.TimeClip.
      destruct (Z.leb_spec (Z.abs (instant + n * JS.msPerDay)) JS.maxTime)
        as [Hle|]; [|reflexivity].
      exfalso. apply Hinvalid. unfold JS.validTime. lia.
    + apply Day_add_days.
    + apply TimeWithinDay_add_days.
  - repeat split; vm_compute; reflexivity.
Qed.

(** A backup of 2024-12-15T14:30:22Z kept for 90 days expires on
    2025-03-15T14:30:22Z. *)
Lemma calculateExpirationTimestamp_days_witness :
  calculateExpirationTimestamp 1734273022000 (Some 90)
  = Some (Some 1742049022000)
  /\ JS.toISOString 1742049022000 = "2025-03-15T14:30:22.000Z".
Proof.
  split; [|vm_compute; reflexivity].
  apply (proj1 (proj2 (calculateExpirationTimestamp_days 1734273022000)) 90);
    [lia | unfold JS.validTime, JS.maxTime, JS.msPerDay; lia].
Defined.

(** C9, as stated, fails: 100000000 days after 2024-12-15T14:30:22.500Z
    is past the last instant a [Date] can hold, and the expiration is an
    Invalid Date, not the instant plus the days. *)
Lemma calculateExpirationTimestamp_out_of_range :
  0 < 100000000
  /\ JS.validTime 1734273022500
  /\ calculateExpirationTimestamp 1734273022500 (Some 100000000) = Some None
  /\ calculateExpirationTimestamp 1734273022500 (Some 100000000)
     <> Some (Some (1734273022500 + 100000000 * JS.msPerDay)).
Proof.
  split; [lia|]. split; [unfold JS.validTime, JS.maxTime; lia|].
  assert (calculateExpirationTimestamp 1734273022500 (Some 100000000)
          = Some None) as E by (vm_compute; reflexivity).
  split; [exact E|]. rewrite E. discriminate.
Qed.

End Retention.

(** ** The naming codec: utils.ts against list-backups.ts *)

Section Codec.

Lemma DateUTC_None_cases y m d h mi s :
  y = None \/ m = None \/ d = None \/ h = None \/ mi = None \/ s = None ->
  JS.DateUTC y m d h mi s = None.
Proof.
  unfold JS.DateUTC. intros H.
  destruct y, m, d, h, mi, s; try reflexivity;
    repeat (destruct H as [H|H]; try discriminate H); discriminate H.
Qed.

(** What the loop body of [listBackups] computes for a name that starts
    with the prefix and has at least five pieces. *)
Lemma parseBackupDatasetId_eq (datasetId : string) :
  JS.startsWith datasetId BACKUP_DATASET_PREFIX = true ->
  (5 <= length (JS.split "_" datasetId))%nat ->
  parseBackupDatasetId datasetId =
  let parts := JS.split "_" datasetId in
  let datePart := nth 2 parts "" in
  let timePart := nth 3 parts "" in
  if (String.length datePart =? 8)%nat && (String.length timePart =? 6)%nat
  then
    match JS.DateUTC (JS.parseInt (JS.substring datePart 0 4))
            ((fun m => m - 1) <$> JS.parseInt (JS.substring datePart 4 6))
            (JS.parseInt (JS.substring datePart 6 8))
            (JS.parseInt (JS.substring timePart 0 2))
            (JS.parseInt (JS.substring timePart 2 4))
            (JS.parseInt (JS.substring timePart 4 6)) with
    | None => None
    | Some timestamp =>
        Some (BackupInfo.mk datasetId (JS.join "_" (JS.slice 4 parts)) timestamp)
    end
  else None.
Proof.
  intros Hp Hl. unfold parseBackupDatasetId. rewrite Hp. cbn [negb].
  pose proof (split_pieces "_" datasetId) as HF.
  destruct (JS.split "_" datasetId) as [|a [|b [|dp [|tp [|e r]]]]];
    cbn [length] in Hl; try lia.
  replace (length (a :: b :: dp :: tp :: e :: r) <? 5)%nat with false
    by (symmetry; apply Nat.ltb_ge; cbn [length]; lia).
  cbn [nth].
  inversion HF as [|? ? _ HF1]; subst. inversion HF1 as [|? ? _ HF2]; subst.
  inversion HF2 as [|? ? Hdp HF3]; subst. inversion HF3 as [|? ? Htp _]; subst.
  change (dp ++ "_" ++ tp) with (dp ++ String "_" tp).
  rewrite (split_append "_" dp tp Hdp), (split_no_sep "_" tp Htp).
  destruct (Nat.eqb_spec (String.length dp) 8) as [H8|H8];
    destruct (Nat.eqb_spec (String.length tp) 6) as [H6|H6];
    cbn [negb orb andb]; rewrite ?orb_true_r; try reflexivity.
  destruct dp; [discriminate H8|]. destruct tp; [discriminate H6|].
  reflexivity.
Qed.

(** What the enumeration loop does reject. Its body yields no entry for a
    name that does not start with the backup prefix, or that has fewer than
    five pieces between underscores, or whose third and fourth pieces (the
    two segments after the prefix) are not exactly 8 and 6 characters long,
    or one of whose six fixed-width fields does not read as a number; the
    name is then skipped: the listing is the same as without it. *)
Theorem parseBackupDatasetId_rejects (datasetId : string)
    (Hbad :
       JS.startsWith datasetId BACKUP_DATASET_PREFIX = false
       \/ (length (JS.split "_" datasetId) < 5)%nat
       \/ String.length (nth 2 (JS.split "_" datasetId) "") <> 8%nat
       \/ String.length (nth 3 (JS.split "_" datasetId) "") <> 6%nat
       \/ JS.parseInt (JS.substring (nth 2 (JS.split "_" datasetId) "") 0 4) = None
       \/ JS.parseInt (JS.substring (nth 2 (JS.split "_" datasetId) "") 4 6) = None
       \/ JS.parseInt (JS.substring (nth 2 (JS.split "_" datasetId) "") 6 8) = None
       \/ JS.parseInt (JS.substring (nth 3 (JS.split "_" datasetId) "") 0 2) = None
       \/ JS.parseInt (JS.substring (nth 3 (JS.split "_" datasetId) "") 2 4) = None
       \/ JS.parseInt (JS.substring (nth 3 (JS.split "_" datasetId) "") 4 6) = None) :
  parseBackupDatasetId datasetId = None
  /\ forall before after : list string,
       listBackupsOf (before ++ datasetId :: after)%list
       = listBackupsOf (before ++ after)%list.
Proof.
  assert (parseBackupDatasetId datasetId = None) as HN.
  { destruct (JS.startsWith datasetId BACKUP_DATASET_PREFIX) eqn:Hp;
      [|unfold parseBackupDatasetId; now rewrite Hp].
    destruct (Nat.ltb_spec (length (JS.split "_" datasetId)) 5) as [Hl|Hl].
    { unfold parseBackupDatasetId. rewrite Hp. cbn [negb].
      apply Nat.ltb_lt in Hl. now rewrite Hl. }
    rewrite parseBackupDatasetId_eq by assumption. cbv zeta.
    destruct Hbad as [H|[H|[H|[H|H]]]]; try congruence; try lia.
    - apply Nat.eqb_neq in H. now rewrite H.
    - apply Nat.eqb_neq in H. rewrite H. now rewrite andb_false_r.
    - destruct (_ && _); [|reflexivity].
      rewrite DateUTC_None_cases; [reflexivity|].
      destruct H as [H|[H|[H|[H|[H|H]]]]]; rewrite H; cbn; tauto. }
  split; [exact HN|].
  intros before after. unfold listBackupsOf.
  rewrite !omap_app.
  change (omap parseBackupDatasetId (datasetId :: after))
    with (match parseBackupDatasetId datasetId with
          | Some y => y :: omap parseBackupDatasetId after
          | None => omap parseBackupDatasetId after
          end).
  now rewrite HN.
Qed.

Lemma parseBackupDatasetId_rejects_witness :
  JS.parseInt (JS.substring (nth 2 (JS.split "_" "zzz_backup_abcd1215_143022_sales") "") 0 4) = None
  /\ parseBackupDatasetId "zzz_backup_abcd1215_143022_sales" = None.
Proof.
  split; [reflexivity|].
  apply (parseBackupDatasetId_rejects "zzz_backup_abcd1215_143022_sales").
  do 4 right. left. reflexivity.
Defined.

(** C2 (the code departs from it). The loop announces the pattern
    yyyyMMdd_hhmmss and means to skip names with an invalid timestamp, but
    it checks the lengths of the two segments and the NaN of the parsed
    date only: 30 February is no calendar date and [2024121x] is not a run
    of digits, yet both names are decoded, to 1 March 2024 and to
    1 December 2024. *)
Lemma parseBackupDatasetId_accepts_invalid :
  Spec.decodable "zzz_backup_20240230_000000_sales" = false
  /\ parseBackupDatasetId "zzz_backup_20240230_000000_sales"
     = Some (BackupInfo.mk "zzz_backup_20240230_000000_sales" "sales"
                           1709251200000)
  /\ JS.toISOString 1709251200000 = "2024-03-01T00:00:00.000Z"
  /\ Spec.decodable "zzz_backup_2024121x_143022_sales" = false
  /\ parseBackupDatasetId "zzz_backup_2024121x_143022_sales"
     = Some (BackupInfo.mk "zzz_backup_2024121x_143022_sales" "sales"
                           1733063422000).
Proof. repeat split; vm_compute; reflexivity. Qed.

Ltac explode s H :=
  repeat (let c := fresh "c" in
          destruct s as [|c s]; cbn [String.length] in H; try discriminate H;
          try (injection H as H)).

Lemma split_generated (DATE TIME rest : string) :
  hasChar "_" DATE = false -> hasChar "_" TIME = false ->
  JS.split "_" (BACKUP_DATASET_PREFIX ++ DATE ++ "_" ++ TIME ++ "_" ++ rest)
  = "zzz" :: "backup" :: DATE :: TIME :: JS.split "_" rest.
Proof.
  intros HD HT.
  change (BACKUP_DATASET_PREFIX ++ DATE ++ "_" ++ TIME ++ "_" ++ rest)
    with ("zzz" ++ String "_" ("backup" ++ String "_"
            (DATE ++ String "_" (TIME ++ String "_" rest)))).
  now rewrite !split_append.
Qed.

(** A name of the generated shape is decoded from its fixed-width fields. *)
Lemma parseBackupDatasetId_fields (DATE TIME rest : string) :
  hasChar "_" DATE = false -> hasChar "_" TIME = false ->
  String.length DATE = 8%nat -> String.length TIME = 6%nat ->
  parseBackupDatasetId
    (BACKUP_DATASET_PREFIX ++ DATE ++ "_" ++ TIME ++ "_" ++ rest)
  = match JS.DateUTC (JS.parseInt (JS.substring DATE 0 4))
            ((fun m => m - 1) <$> JS.parseInt (JS.substring DATE 4 6))
            (JS.parseInt (JS.substring DATE 6 8))
            (JS.parseInt (JS.substring TIME 0 2))
            (JS.parseInt (JS.substring TIME 2 4))
            (JS.parseInt (JS.substring TIME 4 6)) with
    | None => None
    | Some timestamp =>
        Some (BackupInfo.mk
                (BACKUP_DATASET_PREFIX ++ DATE ++ "_" ++ TIME ++ "_" ++ rest)
                rest timestamp)
    end.
Proof.
  intros HD HT H8 H6.
  pose proof (split_generated DATE TIME rest HD HT) as Hs.
  pose proof (join_split "_" rest) as Hj.
  rewrite parseBackupDatasetId_eq.
  - rewrite Hs. cbv zeta. cbn [nth]. rewrite H8, H6. cbn [Nat.eqb andb].
    unfold JS.slice. cbn [skipn]. rewrite drop_0. now rewrite Hj.
  - unfold JS.startsWith. apply prefix_append.
  - rewrite Hs. cbn [length].
    destruct (JS.split "_" rest) eqn:E; [now apply split_nonempty in E|].
    cbn [length]. lia.
Qed.

(** The time value [Date.UTC] rebuilds from the six fields of an instant
    whose year has four digits: the instant without its milliseconds. *)
Lemma DateUTC_fields t :
  1000 <= JS.YearFromTime t <= 9999 ->
  JS.DateUTC (Some (JS.YearFromTime t)) (Some (JS.MonthFromTime t + 1 - 1))
    (Some (JS.DateFromTime t)) (Some (JS.HourFromTime t))
    (Some (JS.MinFromTime t)) (Some (JS.SecFromTime t))
  = Some (t - JS.msFromTime t).
Proof.
  intros Hy. unfold JS.DateUTC. cbn [mbind option_bind].
  replace ((0 <=? JS.YearFromTime t) && (JS.YearFromTime t <=? 99)) with false
    by (symmetry; apply andb_false_iff; right; apply Z.leb_gt; lia).
  replace (JS.MonthFromTime t + 1 - 1) with (JS.MonthFromTime t) by lia.
  pose proof (MakeDay_fields t 0) as HD. rewrite !Z.add_0_r in HD. rewrite HD.
  pose proof (MakeTime_fields t) as HT.
  pose proof (Day_TimeWithinDay t) as HDT.
  pose proof (msFromTime_range t) as Hms.
  pose proof (fourDigitYear_bound t Hy) as Hb.
  replace (JS.MakeDate (JS.Day t)
             (JS.MakeTime (JS.HourFromTime t) (JS.MinFromTime t)
                          (JS.SecFromTime t) 0))
    with (t - JS.msFromTime t)
    by (unfold JS.MakeDate, JS.MakeTime in *; lia).
  apply TimeClip_valid. unfold JS.validTime, JS.maxTime. lia.
Qed.

(** C1 (as amended). For every source id and every instant whose UTC year
    has four digits, decoding the generated name yields the original source
    id and the instant cut to whole seconds; hence exactly the original
    instant when it has no milliseconds. In particular
    2024-12-15T14:30:22Z and "analytics" encode to
    zzz_backup_20241215_143022_analytics, which decodes back to them. *)
Theorem decode_generated_name (sourceDatasetId : string) (instant : Z)
    (Hyear : 1000 <= JS.getUTCFullYear instant <= 9999) :
  parseBackupDatasetId (generateBackupDatasetName sourceDatasetId instant)
  = Some (BackupInfo.mk (generateBackupDatasetName sourceDatasetId instant)
                        sourceDatasetId (instant - JS.msFromTime instant))
  /\ (JS.msFromTime instant = 0 ->
      parseBackupDatasetId (generateBackupDatasetName sourceDatasetId instant)
      = Some (BackupInfo.mk (generateBackupDatasetName sourceDatasetId instant)
                            sourceDatasetId instant))
  /\ JS.toISOString 1734273022000 = "2024-12-15T14:30:22.000Z"
  /\ generateBackupDatasetName "analytics" 1734273022000
     = "zzz_backup_20241215_143022_analytics"
  /\ parseBackupDatasetId "zzz_backup_20241215_143022_analytics"
     = Some (BackupInfo.mk "zzz_backup_20241215_143022_analytics" "analytics"
                           1734273022000).
Proof.
  assert (parseBackupDatasetId (generateBackupDatasetName sourceDatasetId instant)
          = Some (BackupInfo.mk (generateBackupDatasetName sourceDatasetId instant)
                    sourceDatasetId (instant - JS.msFromTime instant))) as Hmain.
  { unfold JS.getUTCFullYear in Hyear.
    pose proof (MonthFromTime_range instant) as Hm.
    destruct (fourDigits _ Hyear) as (Ly & Dy & Ey).
    destruct (twoDigits (JS.MonthFromTime instant + 1) ltac:(lia)) as (Lm & Dm & Em).
    destruct (twoDigits (JS.DateFromTime instant)
                ltac:(pose proof (DateFromTime_range instant); lia)) as (Ld & Dd & Ed).
    destruct (twoDigits (JS.HourFromTime instant)
                ltac:(pose proof (HourFromTime_range instant); lia)) as (Lh & Dh & Eh).
    destruct (twoDigits (JS.MinFromTime instant)
                ltac:(pose proof (MinFromTime_range instant); lia)) as (Li & Di & Ei).
    destruct (twoDigits (JS.SecFromTime instant)
                ltac:(pose proof (SecFromTime_range instant); lia)) as (Ls & Ds & Es).
    unfold generateBackupDatasetName, formatBackupTimestamp, JS.getUTCFullYear,
      JS.getUTCMonth, JS.getUTCDate, JS.getUTCHours, JS.getUTCMinutes,
      JS.getUTCSeconds.
    cbv zeta.
    set (sy := JS.numberToString (JS.YearFromTime instant)) in *.
    set (sm := JS.padStart2 (JS.numberToString (JS.MonthFromTime instant + 1))) in *.
    set (sd := JS.padStart2 (JS.numberToString (JS.DateFromTime instant))) in *.
    set (sh := JS.padStart2 (JS.numberToString (JS.HourFromTime instant))) in *.
    set (si := JS.padStart2 (JS.numberToString (JS.MinFromTime instant))) in *.
    set (ss := JS.padStart2 (JS.numberToString (JS.SecFromTime instant))) in *.
    assert (JS.parseInt sy = Some (JS.YearFromTime instant)) as Py
      by (rewrite parseInt_allDigits, Ey; [reflexivity | assumption | now destruct sy]).
    assert (JS.parseInt sm = Some (JS.MonthFromTime instant + 1)) as Pm
      by (rewrite parseInt_allDigits, Em; [reflexivity | assumption | now destruct sm]).
    assert (JS.parseInt sd = Some (JS.DateFromTime instant)) as Pd
      by (rewrite parseInt_allDigits, Ed; [reflexivity | assumption | now destruct sd]).
    assert (JS.parseInt sh = Some (JS.HourFromTime instant)) as Ph
      by (rewrite parseInt_allDigits, Eh; [reflexivity | assumption | now destruct sh]).
    assert (JS.parseInt si = Some (JS.MinFromTime instant)) as Pi
      by (rewrite parseInt_allDigits, Ei; [reflexivity | assumption | now destruct si]).
    assert (JS.parseInt ss = Some (JS.SecFromTime instant)) as Ps
      by (rewrite parseInt_allDigits, Es; [reflexivity | assumption | now destruct ss]).
    replace (BACKUP_DATASET_PREFIX
               ++ (sy ++ sm ++ sd ++ "_" ++ sh ++ si ++ ss)
               ++ "_" ++ sourceDatasetId)
      with (BACKUP_DATASET_PREFIX ++ (sy ++ sm ++ sd) ++ "_"
              ++ (sh ++ si ++ ss) ++ "_" ++ sourceDatasetId)
      by (now rewrite !append_assoc).
    rewrite parseBackupDatasetId_fields.
    - replace (JS.substring (sy ++ sm ++ sd) 0 4) with sy.
      2:{ clear -Ly Lm Ld. explode sy Ly. explode sm Lm. explode sd Ld. reflexivity. }
      replace (JS.substring (sy ++ sm ++ sd) 4 6) with sm.
      2:{ clear -Ly Lm Ld. explode sy Ly. explode sm Lm. explode sd Ld. reflexivity. }
      replace (JS.substring (sy ++ sm ++ sd) 6 8) with sd.
      2:{ clear -Ly Lm Ld. explode sy Ly. explode sm Lm. explode sd Ld. reflexivity. }
      replace (JS.substring (sh ++ si ++ ss) 0 2) with sh.
      2:{ clear -Lh Li Ls. explode sh Lh. explode si Li. explode ss Ls. reflexivity. }
      replace (JS.substring (sh ++ si ++ ss) 2 4) with si.
      2:{ clear -Lh Li Ls. explode sh Lh. explode si Li. explode ss Ls. reflexivity. }
      replace (JS.substring (sh ++ si ++ ss) 4 6) with ss.
      2:{ clear -Lh Li Ls. explode sh Lh. explode si Li. explode ss Ls. reflexivity. }
      rewrite Py, Pm, Pd, Ph, Pi, Ps. cbn [fmap option_fmap option_map].
      now rewrite DateUTC_fields.
    - apply allDigits_no_underscore. rewrite !allDigits_append, Dy, Dm, Dd. reflexivity.
    - apply allDigits_no_underscore. rewrite !allDigits_append, Dh, Di, Ds. reflexivity.
    - rewrite !length_append, Ly, Lm, Ld. reflexivity.
    - rewrite !length_append, Lh, Li, Ls. reflexivity. }
  split; [exact Hmain|]. split.
  - intros H0. rewrite Hmain, H0. now rewrite Z.sub_0_r.
  - repeat split; vm_compute; reflexivity.
Qed.

Lemma decode_generated_name_witness :
  1000 <= JS.getUTCFullYear 1734273022500 <= 9999
  /\ parseBackupDatasetId (generateBackupDatasetName "analytics" 1734273022500)
     = Some (BackupInfo.mk (generateBackupDatasetName "analytics" 1734273022500)
                           "analytics"
                           (1734273022500 - JS.msFromTime 1734273022500)).
Proof.
  split; [vm_compute; split; discriminate|].
  apply (decode_generated_name "analytics" 1734273022500).
  vm_compute; split; discriminate.
Defined.

(** C1, as stated, fails: an instant with milliseconds (as "now" has) is a
    valid instant, and the name keeps whole seconds only. *)
Lemma decode_generated_name_loses_milliseconds :
  JS.validTime 1734273022500
  /\ JS.toISOString 1734273022500 = "2024-12-15T14:30:22.500Z"
  /\ generateBackupDatasetName "analytics" 1734273022500
     = "zzz_backup_20241215_143022_analytics"
  /\ parseBackupDatasetId (generateBackupDatasetName "analytics" 1734273022500)
     = Some (BackupInfo.mk "zzz_backup_20241215_143022_analytics" "analytics"
                           1734273022000)
  /\ parseBackupDatasetId (generateBackupDatasetName "analytics" 1734273022500)
     <> Some (BackupInfo.mk
                (generateBackupDatasetName "analytics" 1734273022500)
                "analytics" 1734273022500).
Proof.
  split; [unfold JS.validTime, JS.maxTime; lia|].
  repeat split; try (vm_compute; reflexivity).
  vm_compute. discriminate.
Qed.

(** The name generated for a source and an instant decodes to the source
    and the whole second of the instant. *)
Lemma parseBackupDatasetId_generated (sourceDatasetId : string) (instant : Z) :
  1000 <= JS.getUTCFullYear instant <= 9999 ->
  parseBackupDatasetId (generateBackupDatasetName sourceDatasetId instant)
  = Some (BackupInfo.mk (generateBackupDatasetName sourceDatasetId instant)
                        sourceDatasetId (instant - JS.msFromTime instant)).
Proof.
  intros Hyear.
  unfold JS.getUTCFullYear in Hyear.
  pose proof (MonthFromTime_range instant) as Hm.
  destruct (fourDigits _ Hyear) as (Ly & Dy & Ey).
  destruct (twoDigits (JS.MonthFromTime instant + 1) ltac:(lia)) as (Lm & Dm & Em).
  destruct (twoDigits (JS.DateFromTime instant)
              ltac:(pose proof (DateFromTime_range instant); lia)) as (Ld & Dd & Ed).
  destruct (twoDigits (JS.HourFromTime instant)
              ltac:(pose proof (HourFromTime_range instant); lia)) as (Lh & Dh & Eh).
  destruct (twoDigits (JS.MinFromTime instant)
              ltac:(pose proof (MinFromTime_range instant); lia)) as (Li & Di & Ei).
  destruct (twoDigits (JS.SecFromTime instant)
              ltac:(pose proof (SecFromTime_range instant); lia)) as (Ls & Ds & Es).
  unfold generateBackupDatasetName, formatBackupTimestamp, JS.getUTCFullYear,
    JS.getUTCMonth, JS.getUTCDate, JS.getUTCHours, JS.getUTCMinutes,
    JS.getUTCSeconds.
  cbv zeta.
  set (sy := JS.numberToString (JS.YearFromTime instant)) in *.
  set (sm := JS.padStart2 (JS.numberToString (JS.MonthFromTime instant + 1))) in *.
  set (sd := JS.padStart2 (JS.numberToString (JS.DateFromTime instant))) in *.
  set (sh := JS.padStart2 (JS.numberToString (JS.HourFromTime instant))) in *.
  set (si := JS.padStart2 (JS.numberToString (JS.MinFromTime instant))) in *.
  set (ss := JS.padStart2 (JS.numberToString (JS.SecFromTime instant))) in *.
  assert (JS.parseInt sy = Some (JS.YearFromTime instant)) as Py
    by (rewrite parseInt_allDigits, Ey; [reflexivity | assumption | now destruct sy]).
  assert (JS.parseInt sm = Some (JS.MonthFromTime instant + 1)) as Pm
    by (rewrite parseInt_allDigits, Em; [reflexivity | assumption | now destruct sm]).
  assert (JS.parseInt sd = Some (JS.DateFromTime instant)) as Pd
    by (rewrite parseInt_allDigits, Ed; [reflexivity | assumption | now destruct sd]).
  assert (JS.parseInt sh = Some (JS.HourFromTime instant)) as Ph
    by (rewrite parseInt_allDigits, Eh; [reflexivity | assumption | now destruct sh]).
  assert (JS.parseInt si = Some (JS.MinFromTime instant)) as Pi
    by (rewrite parseInt_allDigits, Ei; [reflexivity | assumption | now destruct si]).
  assert (JS.parseInt ss = Some (JS.SecFromTime instant)) as Ps
    by (rewrite parseInt_allDigits, Es; [reflexivity | assumption | now destruct ss]).
  replace (BACKUP_DATASET_PREFIX
             ++ (sy ++ sm ++ sd ++ "_" ++ sh ++ si ++ ss)
             ++ "_" ++ sourceDatasetId)
    with (BACKUP_DATASET_PREFIX ++ (sy ++ sm ++ sd) ++ "_"
            ++ (sh ++ si ++ ss) ++ "_" ++ sourceDatasetId)
    by (now rewrite !append_assoc).
  rewrite parseBackupDatasetId_fields.
  - replace (JS.substring (sy ++ sm ++ sd) 0 4) with sy.
    2:{ clear -Ly Lm Ld. explode sy Ly. explode sm Lm. explode sd Ld. reflexivity. }
    replace (JS.substring (sy ++ sm ++ sd) 4 6) with sm.
    2:{ clear -Ly Lm Ld. explode sy Ly. explode sm Lm. explode sd Ld. reflexivity. }
    replace (JS.substring (sy ++ sm ++ sd) 6 8) with sd.
    2:{ clear -Ly Lm Ld. explode sy Ly. explode sm Lm. explode sd Ld. reflexivity. }
    replace (JS.substring (sh ++ si ++ ss) 0 2) with sh.
    2:{ clear -Lh Li Ls. explode sh Lh. explode si Li. explode ss Ls. reflexivity. }
    replace (JS.substring (sh ++ si ++ ss) 2 4) with si.
    2:{ clear -Lh Li Ls. explode sh Lh. explode si Li. explode ss Ls. reflexivity. }
    replace (JS.substring (sh ++ si ++ ss) 4 6) with ss.
    2:{ clear -Lh Li Ls. explode sh Lh. explode si Li. explode ss Ls. reflexivity. }
    rewrite Py, Pm, Pd, Ph, Pi, Ps. cbn [fmap option_fmap option_map].
    now rewrite DateUTC_fields.
  - apply allDigits_no_underscore. rewrite !allDigits_append, Dy, Dm, Dd. reflexivity.
  - apply allDigits_no_underscore. rewrite !allDigits_append, Dh, Di, Ds. reflexivity.
  - rewrite !length_append, Ly, Lm, Ld. reflexivity.
  - rewrite !length_append, Lh, Li, Ls. reflexivity.
Qed.

End Codec.

(** ** restore.ts: the backups of a timestamp *)

Section RestoreSet.

(** C3 (the code departs from it). The backup of source [x_20241215_143022]
    taken at 2024-01-01T00:00:00Z decodes to that instant, yet the restore
    of 2024-12-15T14:30:22Z selects it, because its name contains the text
    20241215_143022. *)
Lemma listBackupsForTimestamp_matches_substring :
  listBackupsForTimestampOf 1734273022000
    ["zzz_backup_20240101_000000_x_20241215_143022"]
  = [BackupInfo.mk "zzz_backup_20240101_000000_x_20241215_143022"
                   "x_20241215_143022" 1734273022000]
  /\ generateBackupDatasetName "x_20241215_143022" 1704067200000
     = "zzz_backup_20240101_000000_x_20241215_143022"
  /\ parseBackupDatasetId "zzz_backup_20240101_000000_x_20241215_143022"
     = Some (BackupInfo.mk "zzz_backup_20240101_000000_x_20241215_143022"
                           "x_20241215_143022" 1704067200000)
  /\ JS.toISOString 1704067200000 = "2024-01-01T00:00:00.000Z"
  /\ JS.toISOString 1734273022000 = "2024-12-15T14:30:22.000Z".
Proof. repeat split; vm_compute; reflexivity. Qed.

End RestoreSet.

(** ** The canonical string of an instant *)

Section IsoString.

Lemma zeros_length k : String.length (JS.zeros k) = k.
Proof. induction k; simpl; congruence. Qed.

Lemma zeros_allDigits k : allDigits (JS.zeros k) = true.
Proof. induction k; simpl; [reflexivity | assumption]. Qed.

Lemma zeros_eval k s : evalFrom 0 (JS.zeros k ++ s) = evalFrom 0 s.
Proof. induction k; simpl; [reflexivity | assumption]. Qed.

(** A field padded to [w] digits has [w] digits denoting the number. *)
Lemma pad_spec (w : nat) n :
  (1 <= w <= 24)%nat -> 0 <= n < 10 ^ Z.of_nat w ->
  String.length (JS.pad w n) = w
  /\ allDigits (JS.pad w n) = true
  /\ evalFrom 0 (JS.pad w n) = n.
Proof.
  intros Hw Hn.
  assert (10 ^ Z.of_nat w <= 10 ^ 24) by (apply Z.pow_le_mono_r; lia).
  destruct (numberToString_spec n) as (Hd & _ & He); [lia|].
  assert (String.length (JS.numberToString n) <= w)%nat as Hl.
  { rewrite numberToString_nonneg by lia. apply digitsOf_length_le; lia. }
  unfold JS.pad. cbv zeta. repeat split.
  - rewrite length_append, zeros_length. lia.
  - now rewrite allDigits_append, zeros_allDigits.
  - now rewrite zeros_eval.
Qed.

Lemma pad_inj (w : nat) n m :
  (1 <= w <= 24)%nat -> 0 <= n < 10 ^ Z.of_nat w -> 0 <= m < 10 ^ Z.of_nat w ->
  JS.pad w n = JS.pad w m -> n = m.
Proof.
  intros Hw Hn Hm E.
  destruct (pad_spec w n Hw Hn) as (_ & _ & <-).
  destruct (pad_spec w m Hw Hm) as (_ & _ & <-).
  now rewrite E.
Qed.

Lemma isoYear_length y : -999999 <= y <= 999999 ->
  String.length (JS.isoYear y)
  = if (0 <=? y) && (y <=? 9999) then 4%nat else 7%nat.
Proof.
  intros Hy. unfold JS.isoYear.
  destruct (Z.leb_spec 0 y); destruct (Z.leb_spec y 9999); cbn [andb].
  - now destruct (pad_spec 4 y) as (-> & _); [lia | change (10 ^ Z.of_nat 4) with 10000; lia|].
  - destruct (Z.ltb_spec y 0); [lia|]. cbn [String.length].
    now destruct (pad_spec 6 y) as (-> & _); [lia | change (10 ^ Z.of_nat 6) with 1000000; lia|].
  - destruct (Z.ltb_spec y 0); [|lia]. cbn [String.length].
    now destruct (pad_spec 6 (- y)) as (-> & _); [lia | change (10 ^ Z.of_nat 6) with 1000000; lia|].
  - lia.
Qed.

Lemma isoYear_inj y1 y2 :
  -999999 <= y1 <= 999999 -> -999999 <= y2 <= 999999 ->
  JS.isoYear y1 = JS.isoYear y2 -> y1 = y2.
Proof.
  intros H1 H2 E.
  pose proof (isoYear_length y1 H1) as L1. pose proof (isoYear_length y2 H2) as L2.
  rewrite E in L1. rewrite L1 in L2. clear L1.
  unfold JS.isoYear in E.
  destruct (Z.leb_spec 0 y1); destruct (Z.leb_spec y1 9999);
    destruct (Z.leb_spec 0 y2); destruct (Z.leb_spec y2 9999);
    cbn [andb] in *; try discriminate L2; try lia.
  - apply (pad_inj 4) in E; [assumption | lia | |];
      change (10 ^ Z.of_nat 4) with 10000; lia.
  - destruct (Z.ltb_spec y1 0); [lia|]. destruct (Z.ltb_spec y2 0); [lia|].
    injection E as E.
    apply (pad_inj 6) in E; [assumption | lia | |];
      change (10 ^ Z.of_nat 6) with 1000000; lia.
  - destruct (Z.ltb_spec y1 0); [lia|]. destruct (Z.ltb_spec y2 0); [|lia].
    discriminate E.
  - destruct (Z.ltb_spec y1 0); [|lia]. destruct (Z.ltb_spec y2 0); [lia|].
    discriminate E.
  - destruct (Z.ltb_spec y1 0); [|lia]. destruct (Z.ltb_spec y2 0); [|lia].
    injection E as E.
    apply (pad_inj 6) in E; [lia | lia | |];
      change (10 ^ Z.of_nat 6) with 1000000; lia.
Qed.

Lemma pad2_field n : 0 <= n <= 99 ->
  String.length (JS.pad 2 n) = 2%nat.
Proof.
  intros H. now destruct (pad_spec 2 n) as (-> & _);
    [lia | change (10 ^ Z.of_nat 2) with 100; lia|].
Qed.

Lemma pad3_field n : 0 <= n <= 999 ->
  String.length (JS.pad 3 n) = 3%nat.
Proof.
  intros H. now destruct (pad_spec 3 n) as (-> & _);
    [lia | change (10 ^ Z.of_nat 3) with 1000; lia|].
Qed.

Lemma pad2_inj n m : 0 <= n <= 99 -> 0 <= m <= 99 ->
  JS.pad 2 n = JS.pad 2 m -> n = m.
Proof.
  intros. apply (pad_inj 2); try assumption; try lia;
    change (10 ^ Z.of_nat 2) with 100; lia.
Qed.

Lemma pad3_inj n m : 0 <= n <= 999 -> 0 <= m <= 999 ->
  JS.pad 3 n = JS.pad 3 m -> n = m.
Proof.
  intros. apply (pad_inj 3); try assumption; try lia;
    change (10 ^ Z.of_nat 3) with 1000; lia.
Qed.

Lemma isoRest_length t : String.length (JS.isoRest t) = 20%nat.
Proof.
  unfold JS.isoRest.
  pose proof (MonthFromTime_range t). pose proof (DateFromTime_range t).
  pose proof (HourFromTime_range t). pose proof (MinFromTime_range t).
  pose proof (SecFromTime_range t). pose proof (msFromTime_range t).
  rewrite !length_append, !pad2_field, pad3_field by lia. reflexivity.
Qed.

Lemma isoRest_inj t1 t2 :
  JS.isoRest t1 = JS.isoRest t2 ->
  JS.MonthFromTime t1 = JS.MonthFromTime t2
  /\ JS.DateFromTime t1 = JS.DateFromTime t2
  /\ JS.HourFromTime t1 = JS.HourFromTime t2
  /\ JS.MinFromTime t1 = JS.MinFromTime t2
  /\ JS.SecFromTime t1 = JS.SecFromTime t2
  /\ JS.msFromTime t1 = JS.msFromTime t2.
Proof.
  unfold JS.isoRest. intros E.
  pose proof (MonthFromTime_range t1). pose proof (DateFromTime_range t1).
  pose proof (HourFromTime_range t1). pose proof (MinFromTime_range t1).
  pose proof (SecFromTime_range t1). pose proof (msFromTime_range t1).
  pose proof (MonthFromTime_range t2). pose proof (DateFromTime_range t2).
  pose proof (HourFromTime_range t2). pose proof (MinFromTime_range t2).
  pose proof (SecFromTime_range t2). pose proof (msFromTime_range t2).
  cbn [String.append] in E. injection E as E.
  apply append_inj_length in E as [E1 E]; [|now rewrite !pad2_field by lia].
  cbn [String.append] in E. injection E as E.
  apply append_inj_length in E as [E2 E]; [|now rewrite !pad2_field by lia].
  cbn [String.append] in E. injection E as E.
  apply append_inj_length in E as [E3 E]; [|now rewrite !pad2_field by lia].
  cbn [String.append] in E. injection E as E.
  apply append_inj_length in E as [E4 E]; [|now rewrite !pad2_field by lia].
  cbn [String.append] in E. injection E as E.
  apply append_inj_length in E as [E5 E]; [|now rewrite !pad2_field by lia].
  cbn [String.append] in E. injection E as E.
  apply append_inj_length in E as [E6 E]; [|now rewrite !pad3_field by lia].
  apply pad2_inj in E1, E2, E3, E4, E5; try lia.
  apply pad3_inj in E6; try lia.
Qed.

(** Two instants with the same canonical string are the same instant. *)
Lemma toISOString_inj t1 t2 :
  JS.validTime t1 -> JS.validTime t2 ->
  JS.toISOString t1 = JS.toISOString t2 -> t1 = t2.
Proof.
  intros V1 V2 E. unfold JS.toISOString in E.
  pose proof (YearFromTime_valid t1 V1) as Y1.
  pose proof (YearFromTime_valid t2 V2) as Y2.
  assert (String.length (JS.isoYear (JS.YearFromTime t1))
          = String.length (JS.isoYear (JS.YearFromTime t2))) as L.
  { apply (f_equal String.length) in E.
    rewrite !length_append, !isoRest_length in E. lia. }
  apply append_inj_length in E as [Ey Er]; [|exact L].
  apply isoYear_inj in Ey; [|lia|lia].
  apply isoRest_inj in Er as (Em & Ed & Eh & Ei & Es & Ems).
  rewrite <- (time_of_fields t1), <- (time_of_fields t2).
  now rewrite Ey, Em, Ed, Eh, Ei, Es, Ems.
Qed.

End IsoString.

(** ** Sorting newest first *)

Section Sorting.

Context {A : Type} (key : A -> Z).

Let newestFirst (a b : A) : Z := key b - key a.

Lemma insertBy_perm x l : Permutation (JS.insertBy newestFirst x l) (x :: l).
Proof.
  induction l as [|y r IH]; cbn [JS.insertBy]; [reflexivity|].
  destruct (0 <? newestFirst x y); [|reflexivity].
  rewrite IH. apply perm_swap.
Qed.

Lemma sort_perm l : Permutation (JS.sort newestFirst l) l.
Proof.
  induction l as [|x r IH]; cbn; [reflexivity|].
  fold (JS.sort newestFirst r). rewrite insertBy_perm. now constructor.
Qed.

Lemma insertBy_sorted x l :
  StronglySorted (fun a b => key a >= key b) l ->
  StronglySorted (fun a b => key a >= key b) (JS.insertBy newestFirst x l).
Proof.
  induction l as [|y r IH]; intros Hs; cbn [JS.insertBy].
  - repeat constructor.
  - inversion Hs as [|? ? Hr Hy]; subst.
    unfold newestFirst at 1.
    destruct (Z.ltb_spec 0 (key y - key x)).
    + constructor; [now apply IH|].
      rewrite (Forall_forall (fun b => key y >= key b)).
      intros b Hb. rewrite insertBy_perm in Hb.
      apply elem_of_cons in Hb as [->|Hb]; [lia|].
      rewrite Forall_forall in Hy. now apply Hy.
    + constructor; [assumption|].
      constructor; [lia|].
      rewrite Forall_forall in Hy |- *. intros b Hb. specialize (Hy b Hb). lia.
Qed.

Lemma sort_sorted l :
  StronglySorted (fun a b => key a >= key b) (JS.sort newestFirst l).
Proof.
  induction l as [|x r IH]; cbn; [constructor|].
  fold (JS.sort newestFirst r). now apply insertBy_sorted.
Qed.

(** Sorted newest first, with pairwise different keys: strictly sorted. *)
Lemma sorted_strict l :
  StronglySorted (fun a b => key a >= key b) l -> NoDup (map key l) ->
  StronglySorted (fun a b => key a > key b) l.
Proof.
  induction l as [|x r IH]; intros Hs Hn; [constructor|].
  inversion Hs as [|? ? Hr Hx]; subst.
  cbn [map] in Hn. apply NoDup_cons in Hn as [Hx' Hn].
  constructor; [now apply IH|].
  rewrite Forall_forall in Hx |- *. intros b Hb.
  specialize (Hx b Hb).
  assert (key x <> key b); [|lia].
  intros E. apply Hx'. rewrite E. now apply list_elem_of_fmap_2.
Qed.

End Sorting.

(** ** delete-backups.ts: grouping by timestamp *)

Section Grouping.

Let key (b : BackupInfo.t) : string := JS.toISOString (BackupInfo.timestamp b).

Let pushed (b : BackupInfo.t) (g : BackupGroup.t) : BackupGroup.t :=
  BackupGroup.mk (BackupGroup.timestamp g) (BackupGroup.timestampStr g)
                 (BackupGroup.backups g ++ [b])%list.

Lemma mapHas_mapGet k gm : mapHas k gm = isSome (mapGet k gm).
Proof.
  induction gm as [|[k0 g0] r IH]; cbn; [reflexivity|].
  destruct (String.eqb k0 k); [reflexivity | exact IH].
Qed.

Lemma mapGet_keys k gm : isSome (mapGet k gm) = true <-> In k (map fst gm).
Proof.
  induction gm as [|[k0 g0] r IH]; cbn; [intuition discriminate|].
  destruct (String.eqb_spec k0 k); [intuition | ].
  rewrite IH. intuition.
Qed.

Lemma mapGet_In k g gm :
  NoDup (map fst gm) -> In (k, g) gm <-> mapGet k gm = Some g.
Proof.
  induction gm as [|[k0 g0] r IH]; cbn; [intuition discriminate|].
  intros Hn. apply NoDup_cons in Hn as [Hk Hn].
  destruct (String.eqb_spec k0 k) as [->|Hne].
  - split.
    + intros [[= ->]|Hin]; [reflexivity|].
      exfalso. apply Hk. apply list_elem_of_In.
      change k with (fst (k, g)). now apply in_map.
    + intros [= ->]. now left.
  - rewrite <- (IH Hn). split; [|tauto].
    intros [[= -> ->]|Hin]; [congruence | assumption].
Qed.

Lemma mapGet_snoc k gm k0 g0 :
  mapGet k (gm ++ [(k0, g0)])%list =
  match mapGet k gm with
  | Some g => Some g
  | None => if String.eqb k0 k then Some g0 else None
  end.
Proof.
  induction gm as [|[k1 g1] r IH]; cbn; [reflexivity|].
  destruct (String.eqb k1 k); [reflexivity | exact IH].
Qed.

Lemma mapPush_keys k b gm : map fst (mapPush k b gm) = map fst gm.
Proof.
  induction gm as [|[k0 g0] r IH]; cbn; [reflexivity|].
  destruct (String.eqb k0 k); cbn; [reflexivity | now rewrite IH].
Qed.

Lemma mapGet_mapPush k' k b gm :
  mapGet k' (mapPush k b gm) =
  if String.eqb k k' then pushed b <$> mapGet k gm else mapGet k' gm.
Proof.
  induction gm as [|[k0 g0] r IH]; cbn.
  - now destruct (String.eqb k k').
  - destruct (String.eqb_spec k0 k) as [->|Hne]; cbn.
    + destruct (String.eqb_spec k k'); reflexivity.
    + rewrite IH.
      destruct (String.eqb_spec k0 k') as [->|Hne'];
        destruct (String.eqb_spec k k'); try reflexivity; congruence.
Qed.

Lemma filter_none {X} (f : X -> bool) l : existsb f l = false -> List.filter f l = [].
Proof.
  induction l as [|x r IH]; cbn; [reflexivity|].
  destruct (f x); cbn; [discriminate | exact IH].
Qed.

Lemma groupStep_groupsOf bs gm b :
  groupsOf bs gm -> groupsOf (bs ++ [b])%list (groupStep gm b).
Proof.
  unfold groupsOf, groupStep. cbv zeta. intros (Hn & Hh & Hg).
  set (kb := JS.toISOString (BackupInfo.timestamp b)) in *.
  rewrite mapHas_mapGet.
  destruct (isSome (mapGet kb gm)) eqn:Hhas; cbn [negb].
  - (* the group exists *)
    repeat split.
    + now rewrite mapPush_keys.
    + intros k. rewrite mapGet_mapPush, existsb_app. cbn [existsb]. fold kb.
      rewrite orb_false_r.
      destruct (String.eqb_spec kb k) as [<-|Hne].
      * rewrite orb_true_r. destruct (mapGet kb gm); [reflexivity | discriminate].
      * rewrite orb_false_r. apply Hh.
    + rewrite mapGet_mapPush in H.
      destruct (String.eqb_spec kb k) as [<-|Hne].
      * destruct (mapGet kb gm) as [g0|] eqn:E; [|discriminate].
        injection H as <-. now destruct (Hg _ _ E) as (? & _).
      * now destruct (Hg _ _ H) as (? & _).
    + rewrite mapGet_mapPush in H.
      destruct (String.eqb_spec kb k) as [<-|Hne].
      * destruct (mapGet kb gm) as [g0|] eqn:E; [|discriminate].
        injection H as <-. now destruct (Hg _ _ E) as (_ & ? & _).
      * now destruct (Hg _ _ H) as (_ & ? & _).
    + rewrite mapGet_mapPush in H. rewrite List.filter_app. cbn [List.filter]. fold kb.
      destruct (String.eqb_spec kb k) as [<-|Hne].
      * destruct (mapGet kb gm) as [g0|] eqn:E; [|discriminate].
        injection H as <-. destruct (Hg _ _ E) as (_ & _ & Eb & _).
        cbn [pushed BackupGroup.backups]. rewrite Eb. reflexivity.
      * destruct (Hg _ _ H) as (_ & _ & -> & _). now rewrite app_nil_r.
    + rewrite mapGet_mapPush in H.
      destruct (String.eqb_spec kb k) as [<-|Hne].
      * destruct (mapGet kb gm) as [g0|] eqn:E; [|discriminate].
        injection H as <-. destruct (Hg _ _ E) as (_ & _ & _ & b0 & Hb0 & Hts).
        exists b0. split; [apply in_or_app; now left | exact Hts].
      * destruct (Hg _ _ H) as (_ & _ & _ & b0 & Hb0 & Hts).
        exists b0. split; [apply in_or_app; now left | exact Hts].
  - (* a new group is set first *)
    assert (mapGet kb gm = None) as Hnone
      by (destruct (mapGet kb gm); [discriminate | reflexivity]).
    assert (forall k,
      mapGet k (mapPush kb b
                  (gm ++ [(kb, BackupGroup.mk (BackupInfo.timestamp b) kb [])])%list)
      = if String.eqb kb k
        then Some (BackupGroup.mk (BackupInfo.timestamp b) kb [b])
        else mapGet k gm) as Hget.
    { intros k. rewrite mapGet_mapPush, !mapGet_snoc, Hnone, String.eqb_refl.
      destruct (String.eqb_spec kb k); [reflexivity|].
      now destruct (mapGet k gm). }
    repeat split.
    + rewrite mapPush_keys, map_app. cbn [map fst].
      apply NoDup_app. repeat split; [assumption | | apply NoDup_singleton].
      intros k Hk Hk'. apply list_elem_of_singleton in Hk'. subst k.
      apply list_elem_of_In, mapGet_keys in Hk. congruence.
    + intros k. rewrite Hget, existsb_app. cbn [existsb]. fold kb. rewrite orb_false_r.
      destruct (String.eqb_spec kb k) as [<-|Hne].
      * now rewrite orb_true_r.
      * rewrite orb_false_r. apply Hh.
    + rewrite Hget in H. destruct (String.eqb_spec kb k) as [<-|Hne].
      * now injection H as <-.
      * now destruct (Hg _ _ H) as (? & _).
    + rewrite Hget in H. destruct (String.eqb_spec kb k) as [<-|Hne].
      * now injection H as <-.
      * now destruct (Hg _ _ H) as (_ & ? & _).
    + rewrite Hget in H. rewrite List.filter_app. cbn [List.filter]. fold kb.
      destruct (String.eqb_spec kb k) as [<-|Hne].
      * injection H as <-. cbn [BackupGroup.backups].
        rewrite filter_none; [reflexivity|]. now rewrite <- Hh, Hhas.
      * destruct (Hg _ _ H) as (_ & _ & -> & _). now rewrite app_nil_r.
    + rewrite Hget in H. destruct (String.eqb_spec kb k) as [<-|Hne].
      * injection H as <-. exists b. split; [apply in_or_app; right; now left | reflexivity].
      * destruct (Hg _ _ H) as (_ & _ & _ & b0 & Hb0 & Hts).
        exists b0. split; [apply in_or_app; now left | exact Hts].
Qed.

Lemma fold_groupStep_groupsOf bs : groupsOf bs (fold_left groupStep bs []).
Proof.
  induction bs as [|b bs IH] using rev_ind.
  - repeat split; cbn; try constructor; try discriminate.
  - rewrite fold_left_app. cbn [fold_left]. now apply groupStep_groupsOf.
Qed.

End Grouping.

Section GroupingTheorem.

Lemma filter_perm {X} (f : X -> bool) (l l' : list X) :
  Permutation l l' -> Permutation (List.filter f l) (List.filter f l').
Proof.
  induction 1 as [|x l l' _ IH|x y l|l l' l'' _ IH1 _ IH2]; cbn.
  - constructor.
  - destruct (f x); [now constructor | assumption].
  - destruct (f x), (f y); try reflexivity. apply perm_swap.
  - now transitivity (List.filter f l').
Qed.

Lemma groups_values (bs : list BackupInfo.t) (gm : GroupMap) :
  groupsOf bs gm ->
  map BackupGroup.timestampStr (map snd gm) = map fst gm
  /\ forall g, In g (map snd gm) -> exists k, mapGet k gm = Some g.
Proof.
  intros (Hn & _ & Hg).
  assert (forall g, In g (map snd gm) -> exists k, mapGet k gm = Some g) as Hv.
  { intros g Hin. apply in_map_iff in Hin as ([k g'] & <- & Hin).
    exists k. now apply mapGet_In. }
  split; [|exact Hv].
  rewrite map_map. apply map_ext_in. intros [k g] Hin. cbn.
  apply mapGet_In in Hin; [|assumption]. now destruct (Hg _ _ Hin).
Qed.

(** C7. [groupBackupsByTimestamp] returns one group per distinct canonical
    string (toISOString) of the timestamps of the given backups; each group
    holds exactly the backups with its string, in the given order; the
    groups come newest first, strictly. Given, in any order, backups [a]
    and [b] at instant [T] and one backup [a2] at an earlier instant [T2],
    there are exactly two groups: first the group of [T], holding [a] and
    [b] and nothing else, then the group of [T2], holding [a2]. *)
Theorem groupBackupsByTimestamp_groups (backups : list BackupInfo.t) :
  let groups := groupBackupsByTimestamp backups in
  NoDup (map BackupGroup.timestampStr groups)
  /\ (forall s, In s (map BackupGroup.timestampStr groups) <->
        exists b, In b backups /\ JS.toISOString (BackupInfo.timestamp b) = s)
  /\ (forall g, In g groups ->
        BackupGroup.timestampStr g = JS.toISOString (BackupGroup.timestamp g)
        /\ BackupGroup.backups g
           = List.filter
               (fun b => String.eqb (JS.toISOString (BackupInfo.timestamp b))
                                    (BackupGroup.timestampStr g)) backups
        /\ exists b, In b backups
                     /\ BackupInfo.timestamp b = BackupGroup.timestamp g)
  /\ StronglySorted
       (fun g1 g2 => BackupGroup.timestamp g1 > BackupGroup.timestamp g2) groups
  /\ (forall (a b a2 : BackupInfo.t) (T T2 : Z),
        Permutation backups [a; b; a2] ->
        BackupInfo.timestamp a = T -> BackupInfo.timestamp b = T ->
        BackupInfo.timestamp a2 = T2 ->
        JS.validTime T -> JS.validTime T2 -> T2 < T ->
        exists g1 g2,
          groups = [g1; g2]
          /\ BackupGroup.timestamp g1 = T /\ BackupGroup.timestamp g2 = T2
          /\ In a (BackupGroup.backups g1) /\ In b (BackupGroup.backups g1)
          /\ length (BackupGroup.backups g1) = 2%nat
          /\ BackupGroup.backups g2 = [a2]).
Proof.
  cbv zeta. unfold groupBackupsByTimestamp.
  pose proof (fold_groupStep_groupsOf backups) as HG.
  set (gm := fold_left groupStep backups []) in *.
  destruct (groups_values _ _ HG) as (Hkeys & Hvals).
  destruct HG as (Hn & Hh & Hg). cbv zeta in Hh, Hg.
  pose proof (sort_perm BackupGroup.timestamp (map snd gm)) as Hperm.
  cbv beta in Hperm.
  set (groups := JS.sort _ (map snd gm)) in *.
  assert (Permutation (map BackupGroup.timestampStr groups) (map fst gm)) as Hpk.
  { rewrite <- Hkeys. now apply Permutation_map. }
  assert (forall g, In g groups ->
            BackupGroup.timestampStr g = JS.toISOString (BackupGroup.timestamp g)
            /\ BackupGroup.backups g
               = List.filter
                   (fun b => String.eqb (JS.toISOString (BackupInfo.timestamp b))
                                        (BackupGroup.timestampStr g)) backups
            /\ exists b, In b backups
                         /\ BackupInfo.timestamp b = BackupGroup.timestamp g) as Hmem.
  { intros g Hin. apply (Permutation_in _ Hperm) in Hin.
    destruct (Hvals g Hin) as (k & Hk).
    destruct (Hg _ _ Hk) as (E1 & E2 & E3 & E4).
    rewrite E1. repeat split; [now rewrite E2 | exact E3 | exact E4]. }
  assert (NoDup (map BackupGroup.timestampStr groups)) as Hnd.
  { now rewrite Hpk. }
  assert (forall s, In s (map BackupGroup.timestampStr groups) <->
            exists b, In b backups /\ JS.toISOString (BackupInfo.timestamp b) = s)
    as Hset.
  { intros s. split.
    - intros Hin. apply (Permutation_in _ Hpk) in Hin.
      apply mapGet_keys in Hin. rewrite Hh in Hin.
      apply existsb_exists in Hin as (b & Hb & E).
      exists b. split; [assumption | now apply String.eqb_eq].
    - intros (b & Hb & E).
      apply (Permutation_in _ (Permutation_sym Hpk)).
      apply mapGet_keys. rewrite Hh. apply existsb_exists.
      exists b. split; [assumption | now apply String.eqb_eq]. }
  assert (StronglySorted
            (fun g1 g2 => BackupGroup.timestamp g1 > BackupGroup.timestamp g2)
            groups) as Hsorted.
  { apply sorted_strict; [apply sort_sorted|].
    apply (NoDup_fmap_1 JS.toISOString).
    change (NoDup (map JS.toISOString (map BackupGroup.timestamp groups))).
    rewrite map_map.
    erewrite map_ext_in; [exact Hnd|].
    intros g Hin. cbv beta. now destruct (Hmem g Hin) as (-> & _). }
  repeat split; try assumption; try (now apply Hset); try (now apply Hmem).
  (* the scenario *)
  intros a b a2 T T2 Hp Ha Hb Ha2 VT VT2 Hlt.
  assert (JS.toISOString T <> JS.toISOString T2) as Hne.
  { intros E. apply toISOString_inj in E; [lia | assumption | assumption]. }
  assert (forall x, In x backups <-> x = a \/ x = b \/ x = a2) as Hin3.
  { intros x. split.
    - intros Hx. apply (Permutation_in _ Hp) in Hx. cbn in Hx. intuition.
    - intros Hx. apply (Permutation_in _ (Permutation_sym Hp)). cbn. intuition. }
  assert (Permutation (map BackupGroup.timestampStr groups)
            [JS.toISOString T; JS.toISOString T2]) as Hp2.
  { apply NoDup_Permutation; [assumption | |].
    - apply NoDup_cons; split; [|apply NoDup_singleton].
      intros Hx. apply list_elem_of_singleton in Hx. contradiction.
    - intros s. rewrite !list_elem_of_In, Hset. cbn. split.
      + intros (x & Hx & <-). apply Hin3 in Hx as [-> | [-> | ->]]; rewrite ?Ha, ?Hb, ?Ha2; auto.
      + intros [<- | [<- | Hf]]; [| |destruct Hf].
        * exists a. rewrite Hin3, Ha. auto.
        * exists a2. rewrite Hin3, Ha2. auto. }
  assert (length groups = 2%nat) as Hlen.
  { apply Permutation_length in Hp2. now rewrite length_map in Hp2. }
  destruct groups as [|g1 [|g2 [|g3 r]]] eqn:Egroups; try discriminate Hlen.
  exists g1, g2. split; [reflexivity|].
  assert (forall g, In g [g1; g2] ->
            BackupGroup.timestamp g = T \/ BackupGroup.timestamp g = T2) as Hts.
  { intros g Hin. destruct (Hmem g Hin) as (_ & _ & x & Hx & <-).
    apply Hin3 in Hx as [-> | [-> | ->]]; auto. }
  assert (BackupGroup.timestamp g1 > BackupGroup.timestamp g2) as Hgt.
  { apply StronglySorted_inv in Hsorted as [_ Hfa].
    now apply Forall_cons in Hfa as [Hgt _]. }
  destruct (Hts g1 ltac:(cbn; auto)) as [E1|E1];
    destruct (Hts g2 ltac:(cbn; auto)) as [E2|E2]; try lia.
  destruct (Hmem g1 ltac:(cbn; auto)) as (S1 & B1 & _).
  destruct (Hmem g2 ltac:(cbn; auto)) as (S2 & B2 & _).
  rewrite S1, E1 in B1. rewrite S2, E2 in B2.
  assert (Permutation (BackupGroup.backups g1) [a; b]) as P1.
  { rewrite B1, (filter_perm _ _ _ Hp). cbn [List.filter].
    rewrite Ha, Hb, Ha2, String.eqb_refl.
    destruct (String.eqb_spec (JS.toISOString T2) (JS.toISOString T))
      as [E|_]; [now symmetry in E | reflexivity]. }
  assert (Permutation (BackupGroup.backups g2) [a2]) as P2.
  { rewrite B2, (filter_perm _ _ _ Hp). cbn [List.filter].
    rewrite Ha, Hb, Ha2, String.eqb_refl.
    destruct (String.eqb_spec (JS.toISOString T) (JS.toISOString T2));
      [contradiction | reflexivity]. }
  split; [exact E1|]. split; [exact E2|]. repeat split.
  - apply (Permutation_in _ (Permutation_sym P1)). now left.
  - apply (Permutation_in _ (Permutation_sym P1)). right. now left.
  - now rewrite (Permutation_length P1).
  - now apply Permutation_length_1_inv, Permutation_sym.
Qed.

(** The scenario on the names of one listing: sales and hr backed up at
    2024-12-15T14:30:22Z, sales also at 2024-12-14T10:00:00Z. *)
Lemma groupBackupsByTimestamp_groups_witness :
  exists g1 g2,
    groupBackupsByTimestamp
      (listBackupsOf ["zzz_backup_20241214_100000_sales";
                      "zzz_backup_20241215_143022_sales";
                      "zzz_backup_20241215_143022_hr"]) = [g1; g2]
    /\ BackupGroup.timestamp g1 = 1734273022000
    /\ BackupGroup.timestamp g2 = 1734170400000
    /\ In (BackupInfo.mk "zzz_backup_20241215_143022_sales" "sales" 1734273022000)
          (BackupGroup.backups g1)
    /\ In (BackupInfo.mk "zzz_backup_20241215_143022_hr" "hr" 1734273022000)
          (BackupGroup.backups g1)
    /\ length (BackupGroup.backups g1) = 2%nat
    /\ BackupGroup.backups g2
       = [BackupInfo.mk "zzz_backup_20241214_100000_sales" "sales" 1734170400000].
Proof.
  apply (groupBackupsByTimestamp_groups
           (listBackupsOf ["zzz_backup_20241214_100000_sales";
                           "zzz_backup_20241215_143022_sales";
                           "zzz_backup_20241215_143022_hr"])).
  - vm_compute. apply Permutation_refl.
  - reflexivity.
  - reflexivity.
  - reflexivity.
  - unfold JS.validTime, JS.maxTime. lia.
  - unfold JS.validTime, JS.maxTime. lia.
  - lia.
Defined.

End GroupingTheorem.

(** ** Running computations *)

Section Running.

Context {S : Type}.

Lemma run_ret {A} (a : A) (s : S) : ret a s = (Ok a, s).
Proof. reflexivity. Qed.

Lemma run_throw {A} e (s : S) : @throw S A e s = (Throw e, s).
Proof. reflexivity. Qed.

Lemma run_bind {A B} (m : M S A) (k : A -> M S B) (s : S) :
  bind m k s = match m s with
               | (Ok a, s') => k a s'
               | (Throw e, s') => (Throw e, s')
               end.
Proof. reflexivity. Qed.

Lemma run_tryCatch {A} (m : M S A) (h : string -> M S A) (s : S) :
  tryCatch m h s = match m s with
                   | (Ok a, s') => (Ok a, s')
                   | (Throw e, s') => h e s'
                   end.
Proof. reflexivity. Qed.

Lemma run_collect_nil {A B} (body : A -> M S (option B)) (s : S) :
  collect body [] s = (Ok [], s).
Proof. reflexivity. Qed.

Lemma run_collect_cons {A B} (body : A -> M S (option B)) x rest (s : S) :
  collect body (x :: rest) s =
  match body x s with
  | (Ok o, s') =>
      match collect body rest s' with
      | (Ok bs, s'') =>
          (Ok (match o with Some b => b :: bs | None => bs end), s'')
      | (Throw e, s'') => (Throw e, s'')
      end
  | (Throw e, s') => (Throw e, s')
  end.
Proof.
  cbn [collect]. rewrite run_bind. destruct (body x s) as [[o|e] s']; [|reflexivity].
  rewrite run_bind. now destruct (collect body rest s') as [[bs|e] s''].
Qed.

Lemma run_forEach_nil {A B} (body : A -> M S B) (s : S) :
  forEach body [] s = (Ok [], s).
Proof. reflexivity. Qed.

Lemma run_forEach_cons {A B} (body : A -> M S B) x rest (s : S) :
  forEach body (x :: rest) s =
  match body x s with
  | (Ok b, s') =>
      match forEach body rest s' with
      | (Ok bs, s'') => (Ok (b :: bs), s'')
      | (Throw e, s'') => (Throw e, s'')
      end
  | (Throw e, s') => (Throw e, s')
  end.
Proof.
  unfold forEach. rewrite run_collect_cons, run_bind.
  destruct (body x s) as [[b|e] s']; [|reflexivity].
  rewrite run_ret. reflexivity.
Qed.

End Running.

Lemma run_call {A} (rq : Request) (k : M Remote A) (r : Remote) :
  call rq k r = match fault r rq with
                | Some e => (Throw e, r)
                | None => k r
                end.
Proof. reflexivity. Qed.

Lemma run_remote {L A} (m : M Remote A) (r : Remote) (l : L) :
  remote m (r, l) = (fst (m r), (snd (m r), l)).
Proof. unfold remote. cbn [fst snd]. now destruct (m r). Qed.

Lemma run_setLocal {L} (f : L -> L) (r : Remote) (l : L) :
  setLocal f (r, l) = (Ok tt, (r, f l)).
Proof. reflexivity. Qed.

Lemma run_withLocal {L} (init : L) (m : M (Remote * L) unit) (r : Remote) :
  withLocal init m r =
  match m (r, init) with
  | (Ok _, (r', l)) => (Ok l, r')
  | (Throw e, (r', _)) => (Throw e, r')
  end.
Proof. reflexivity. Qed.

(** *** The remote calls *)

Section RemoteCalls.

Variable r : Remote.

Lemma run_getDatasets :
  getDatasets r = match fault r GetDatasets with
                  | Some e => (Throw e, r)
                  | None => (Ok (map fst (map_to_list (catalog r))), r)
                  end.
Proof. reflexivity. Qed.

Lemma run_datasetExists d :
  datasetExists d r = match fault r (DatasetExists d) with
                      | Some e => (Throw e, r)
                      | None => (Ok (isSome (catalog r !! d)), r)
                      end.
Proof. reflexivity. Qed.

Lemma run_datasetGetMetadata d :
  datasetGetMetadata d r =
  match fault r (DatasetGetMetadata d) with
  | Some e => (Throw e, r)
  | None => match catalog r !! d with
            | Some D => (Ok D, r)
            | None => (Throw (notFound d), r)
            end
  end.
Proof. reflexivity. Qed.

Lemma run_datasetCreate d location :
  datasetCreate d location r =
  match fault r (DatasetCreate d) with
  | Some e => (Throw e, r)
  | None => match catalog r !! d with
            | Some _ => (Throw (alreadyExists d), r)
            | None => (Ok tt, withCatalog r
                                (<[d := Dataset.mk (Some location) ∅]> (catalog r)))
            end
  end.
Proof. reflexivity. Qed.

Lemma run_getTables d :
  getTables d r =
  match fault r (GetTables d) with
  | Some e => (Throw e, r)
  | None => match catalog r !! d with
            | Some D => (Ok (map fst (map_to_list (Dataset.tables D))), r)
            | None => (Throw (notFound d), r)
            end
  end.
Proof. reflexivity. Qed.

Lemma run_tableGetMetadata d t :
  tableGetMetadata d t r =
  match fault r (TableGetMetadata d t) with
  | Some e => (Throw e, r)
  | None => match lookupTable r d t with
            | Some T => (Ok T, r)
            | None => (Throw (notFound (d ++ "." ++ t)), r)
            end
  end.
Proof. reflexivity. Qed.

Lemma run_tableExists d t :
  tableExists d t r = match fault r (TableExists d t) with
                      | Some e => (Throw e, r)
                      | None => (Ok (isSome (lookupTable r d t)), r)
                      end.
Proof. reflexivity. Qed.

Lemma run_tableDelete d t :
  tableDelete d t r =
  match fault r (TableDelete d t) with
  | Some e => (Throw e, r)
  | None => match lookupTable r d t with
            | Some _ => (Ok tt, dropTable d t r)
            | None => (Throw (notFound (d ++ "." ++ t)), r)
            end
  end.
Proof. reflexivity. Qed.

Lemma run_runQuery q :
  runQuery q r = match fault r (QueryJob q) with
                 | Some e => (Throw e, r)
                 | None => execute q r
                 end.
Proof. reflexivity. Qed.

Lemma run_getProjectId : getProjectId r = (Ok (projectId r), r).
Proof. reflexivity. Qed.

End RemoteCalls.

(* The combinators and the remote calls are run through the equations
   above. *)
Global Opaque bind tryCatch collect forEach call remote setLocal withLocal.
Global Opaque getDatasets datasetExists datasetGetMetadata datasetCreate
  getTables tableGetMetadata tableExists tableDelete runQuery getProjectId.

(** ** backup.ts: enumeration of the sources *)

Section Enumeration.

(** The entry [listDatasets] pushes for a dataset that exists. *)
Let entry (r : Remote) (datasetId : string) : option DatasetInfo.t :=
  (fun d => DatasetInfo.mk datasetId (Dataset.location d) [])
    <$> catalog r !! datasetId.

Lemma listDatasets_explicit_eq (ids : list string) :
  ids <> [] ->
  listDatasets (Some ids)
  = collect (fun datasetId =>
      tryCatch
        (let* exists_ := datasetExists datasetId in
         if negb exists_ then ret None
         else
           let* metadata := datasetGetMetadata datasetId in
           ret (Some (DatasetInfo.mk datasetId (Dataset.location metadata) [])))
        (fun error => throw error)) ids.
Proof. destruct ids; [congruence | reflexivity]. Qed.

(** C4 (as amended). With an explicit list of source ids, a named dataset
    that does not exist is skipped: the listing succeeds and returns, in
    the order given, one entry for each named dataset that exists, and
    leaves the service untouched. The listing fails as a whole only when a
    remote call on a named dataset raises an error. *)
Theorem listDatasets_explicit_skips_missing (ids : list string) (r : Remote)
    (Hids : ids <> []) :
  ((forall id, In id ids ->
      fault r (DatasetExists id) = None
      /\ fault r (DatasetGetMetadata id) = None) ->
   listDatasets (Some ids) r = (Ok (omap (entry r) ids), r))
  /\ (forall id e, In id ids -> fault r (DatasetExists id) = Some e ->
      exists e', listDatasets (Some ids) r = (Throw e', r)).
Proof.
  rewrite (listDatasets_explicit_eq ids Hids). clear Hids. split.
  - induction ids as [|id rest IH]; intros Hok; [reflexivity|].
    destruct (Hok id ltac:(now left)) as [He Hm].
    specialize (IH ltac:(intros; apply Hok; now right)).
    rewrite run_collect_cons, run_tryCatch, run_bind.
    rewrite run_datasetExists, He.
    change (omap (entry r) (id :: rest))
      with (match entry r id with
            | Some y => y :: omap (entry r) rest
            | None => omap (entry r) rest
            end).
    unfold entry at 1.
    destruct (catalog r !! id) as [d|] eqn:Ed;
      cbn [isSome negb fmap option_fmap option_map].
    + rewrite run_bind, run_datasetGetMetadata, Hm, Ed.
      rewrite run_ret, IH. reflexivity.
    + rewrite run_ret, IH. reflexivity.
  - intros id e Hin Hf.
    induction ids as [|id0 rest IH]; [destruct Hin|].
    rewrite run_collect_cons, run_tryCatch, run_bind, run_datasetExists.
    destruct (fault r (DatasetExists id0)) as [e0|] eqn:E0.
    { exists e0. reflexivity. }
    destruct (catalog r !! id0) as [d|] eqn:Ed; cbn [isSome negb].
    + rewrite run_bind, run_datasetGetMetadata.
      destruct (fault r (DatasetGetMetadata id0)) as [e1|]; [now exists e1|].
      rewrite Ed, run_ret.
      destruct Hin as [->|Hin]; [congruence|].
      destruct (IH Hin) as (e' & ->). now exists e'.
    + rewrite run_ret.
      destruct Hin as [->|Hin]; [congruence|].
      destruct (IH Hin) as (e' & ->). now exists e'.
Qed.

Lemma listDatasets_explicit_skips_missing_witness :
  ["sales"; "ghost"] <> []
  /\ listDatasets (Some ["sales"; "ghost"]) Example.project
     = (Ok (omap (entry Example.project) ["sales"; "ghost"]), Example.project).
Proof.
  split; [discriminate|].
  apply (listDatasets_explicit_skips_missing ["sales"; "ghost"] Example.project);
    [discriminate|].
  intros id _. split; reflexivity.
Defined.

(** C4, as stated, fails: [ghost] does not exist, and the listing returns
    the entry of [sales] instead of failing. *)
Lemma listDatasets_missing_does_not_fail :
  catalog Example.project !! "ghost" = None
  /\ listDatasets (Some ["sales"; "ghost"]) Example.project
     = (Ok [DatasetInfo.mk "sales" (Some "EU") []], Example.project).
Proof. split; vm_compute; reflexivity. Qed.

End Enumeration.

(** ** backup.ts: the time-travel window *)

Section Window.

Lemma validateTimeTravelTimestamp_window now timestamp :
  validateTimeTravelTimestamp now timestamp
  = (now - 604800000 <=? timestamp) && (timestamp <=? now).
Proof.
  unfold validateTimeTravelTimestamp.
  change (7 * 24 * 60 * 60 * 1000) with 604800000.
  destruct (Z.ltb_spec timestamp (now - 604800000)),
    (Z.ltb_spec now timestamp),
    (Z.leb_spec (now - 604800000) timestamp),
    (Z.leb_spec timestamp now); try reflexivity; lia.
Qed.

(** C8. A backup call with a caller-supplied instant older than seven days
    before the reading of the clock, or after it, fails with the validation
    error and hands the service back untouched: no remote call is made and
    no container is created. An instant inside the window passes the
    validation; the call then stops, the service still untouched, when the
    expiration it has computed is an Invalid Date, whose logging throws,
    and goes on to list and back up the datasets otherwise. *)
Theorem backupDataset_validates_window (now : Z) (options : BackupOptions.t)
    (timestamp : Z) (r : Remote)
    (Hsupplied : BackupOptions.timestamp options = Some timestamp) :
  validateTimeTravelTimestamp now timestamp
  = (now - 7 * JS.msPerDay <=? timestamp) && (timestamp <=? now)
  /\ backupDataset now options r
     = if (now - 7 * JS.msPerDay <=? timestamp) && (timestamp <=? now)
       then
         match calculateExpirationTimestamp timestamp
                 (Some (default DEFAULT_EXPIRATION_DAYS
                                (BackupOptions.expirationDays options))) with
         | Some None => (Throw (RangeError "Invalid time value"), r)
         | expiration =>
             (let* datasets := listDatasets (BackupOptions.datasets options) in
              forEach (backupOne options timestamp expiration) datasets) r
         end
       else (Throw (Error "Invalid timestamp for time travel"), r).
Proof.
  change (7 * JS.msPerDay) with 604800000.
  split; [apply validateTimeTravelTimestamp_window|].
  unfold backupDataset. rewrite Hsupplied. cbn [default]. cbv zeta.
  rewrite run_bind, validateTimeTravelTimestamp_window.
  destruct ((now - 604800000 <=? timestamp) && (timestamp <=? now));
    cbn [negb]; [rewrite run_ret|rewrite run_throw; reflexivity].
  rewrite run_bind. unfold id.
  destruct (calculateExpirationTimestamp timestamp _) as [[e|]|];
    [rewrite run_ret|rewrite run_throw|rewrite run_ret]; reflexivity.
Qed.

(** A backup asked for an instant eight days back: refused, service
    untouched. *)
Lemma backupDataset_validates_window_witness :
  BackupOptions.timestamp
    (BackupOptions.mk "proj" None (Some (Example.now - 8 * JS.msPerDay)) None None)
  = Some (Example.now - 8 * JS.msPerDay)
  /\ backupDataset Example.now
       (BackupOptions.mk "proj" None (Some (Example.now - 8 * JS.msPerDay)) None None)
       Example.project
     = (Throw (Error "Invalid timestamp for time travel"), Example.project).
Proof.
  split; [reflexivity|].
  exact (proj2 (backupDataset_validates_window Example.now
           (BackupOptions.mk "proj" None (Some (Example.now - 8 * JS.msPerDay))
                             None None)
           (Example.now - 8 * JS.msPerDay) Example.project eq_refl)).
Defined.

End Window.

(** ** Invariants of computations *)

Section Preserves.

Context {S : Type} (proj : S -> Remote) (P : Remote -> Remote -> Prop).
Hypothesis P_refl : forall r, P r r.
Hypothesis P_trans : forall r1 r2 r3, P r1 r2 -> P r2 r3 -> P r1 r3.

Lemma preserves_ret {A} (a : A) : preserves proj P (ret a).
Proof. intros s. apply P_refl. Qed.

Lemma preserves_throw {A} e : preserves proj P (@throw S A e).
Proof. intros s. apply P_refl. Qed.

Lemma preserves_bind {A B} (m : M S A) (k : A -> M S B) :
  preserves proj P m -> (forall a, preserves proj P (k a)) ->
  preserves proj P (bind m k).
Proof.
  intros Hm Hk s. rewrite run_bind. specialize (Hm s).
  destruct (m s) as [[a|e] s']; cbn [snd] in *; [|assumption].
  eapply P_trans; [exact Hm | apply Hk].
Qed.

Lemma preserves_tryCatch {A} (m : M S A) (h : string -> M S A) :
  preserves proj P m -> (forall e, preserves proj P (h e)) ->
  preserves proj P (tryCatch m h).
Proof.
  intros Hm Hh s. rewrite run_tryCatch. specialize (Hm s).
  destruct (m s) as [[a|e] s']; cbn [snd] in *; [assumption|].
  eapply P_trans; [exact Hm | apply Hh].
Qed.

Lemma preserves_collect {A B} (body : A -> M S (option B)) l :
  (forall x, preserves proj P (body x)) -> preserves proj P (collect body l).
Proof.
  intros Hb. induction l as [|x rest IH]; intros s.
  - rewrite run_collect_nil. apply P_refl.
  - rewrite run_collect_cons. specialize (Hb x s).
    destruct (body x s) as [[o|e] s']; cbn [snd] in *; [|assumption].
    specialize (IH s').
    destruct (collect body rest s') as [[bs|e] s'']; cbn [snd] in *;
      eapply P_trans; eassumption.
Qed.

Lemma preserves_forEach {A B} (body : A -> M S B) l :
  (forall x, preserves proj P (body x)) -> preserves proj P (forEach body l).
Proof.
  intros Hb. induction l as [|x rest IH]; intros s.
  - rewrite run_forEach_nil. apply P_refl.
  - rewrite run_forEach_cons. specialize (Hb x s).
    destruct (body x s) as [[o|e] s']; cbn [snd] in *; [|assumption].
    specialize (IH s').
    destruct (forEach body rest s') as [[bs|e] s'']; cbn [snd] in *;
      eapply P_trans; eassumption.
Qed.

Lemma preserves_forEach_In {A B} (body : A -> M S B) l :
  (forall x, In x l -> preserves proj P (body x)) ->
  preserves proj P (forEach body l).
Proof.
  induction l as [|x rest IH]; intros Hb s.
  - rewrite run_forEach_nil. apply P_refl.
  - rewrite run_forEach_cons. pose proof (Hb x ltac:(now left) s) as Hx.
    destruct (body x s) as [[o|e] s']; cbn [snd] in *; [|assumption].
    specialize (IH ltac:(intros; apply Hb; now right) s').
    destruct (forEach body rest s') as [[bs|e] s'']; cbn [snd] in *;
      eapply P_trans; eassumption.
Qed.

(** A computation that hands the state back as it was. *)
Lemma preserves_readonly {A} (m : M S A) :
  (forall s, snd (m s) = s) -> preserves proj P m.
Proof. intros H s. rewrite H. apply P_refl. Qed.

End Preserves.

Section PreservesLocal.

Context {L : Type} (P : Remote -> Remote -> Prop).
Hypothesis P_refl : forall r, P r r.

Lemma preserves_remote {A} (m : M Remote A) :
  preserves id P m -> preserves (@fst Remote L) P (remote m).
Proof. intros Hm [r l]. rewrite run_remote. cbn. apply Hm. Qed.

Lemma preserves_setLocal (f : L -> L) : preserves (@fst Remote L) P (setLocal f).
Proof. intros [r l]. rewrite run_setLocal. cbn. apply P_refl. Qed.

Lemma preserves_withLocal (init : L) (m : M (Remote * L) unit) :
  preserves (@fst Remote L) P m -> preserves id P (withLocal init m).
Proof.
  intros Hm r. rewrite run_withLocal. specialize (Hm (r, init)).
  destruct (m (r, init)) as [[u|e] [r' l]]; exact Hm.
Qed.

End PreservesLocal.

(** Decomposes a goal [preserves proj P m] along the shape of [m]. *)
Ltac preserves_step Hrefl Htrans :=
  match goal with
  | |- preserves _ _ (bind _ _) =>
      apply (preserves_bind _ _ Htrans); [|intros ?]
  | |- preserves _ _ (tryCatch _ _) =>
      apply (preserves_tryCatch _ _ Htrans); [|intros ?]
  | |- preserves _ _ (ret _) => apply (preserves_ret _ _ Hrefl)
  | |- preserves _ _ (throw _) => apply (preserves_throw _ _ Hrefl)
  | |- preserves _ _ (collect _ _) =>
      apply (preserves_collect _ _ Hrefl Htrans); intros ?
  | |- preserves _ _ (forEach _ _) =>
      apply (preserves_forEach _ _ Hrefl Htrans); intros ?
  | |- preserves _ _ (remote _) => apply preserves_remote
  | |- preserves _ _ (setLocal _) => apply (preserves_setLocal _ Hrefl)
  | |- preserves _ _ (withLocal _ _) => apply preserves_withLocal
  | |- preserves _ _ (if ?b then _ else _) => destruct b
  | |- preserves _ _ (match ?x with _ => _ end) => destruct x
  end.

(** *** The calls that only read *)

Section ReadOnly.

Lemma getDatasets_readonly r : snd (getDatasets r) = r.
Proof. rewrite run_getDatasets. now destruct (fault r GetDatasets). Qed.

Lemma datasetExists_readonly d r : snd (datasetExists d r) = r.
Proof. rewrite run_datasetExists. now destruct (fault r _). Qed.

Lemma datasetGetMetadata_readonly d r : snd (datasetGetMetadata d r) = r.
Proof.
  rewrite run_datasetGetMetadata. destruct (fault r _); [reflexivity|].
  now destruct (catalog r !! d).
Qed.

Lemma getTables_readonly d r : snd (getTables d r) = r.
Proof.
  rewrite run_getTables. destruct (fault r _); [reflexivity|].
  now destruct (catalog r !! d).
Qed.

Lemma tableGetMetadata_readonly d t r : snd (tableGetMetadata d t r) = r.
Proof.
  rewrite run_tableGetMetadata. destruct (fault r _); [reflexivity|].
  now destruct (lookupTable r d t).
Qed.

Lemma tableExists_readonly d t r : snd (tableExists d t r) = r.
Proof. rewrite run_tableExists. now destruct (fault r _). Qed.

Lemma getProjectId_readonly r : snd (getProjectId r) = r.
Proof. reflexivity. Qed.

End ReadOnly.

(** *** Tables after an update of the catalog *)

Section Lookup.

Lemma lookupTable_putTable r d t T d' t' :
  lookupTable (putTable d t T r) d' t' =
  if decide (d = d' /\ t = t' /\ is_Some (catalog r !! d)) then Some T
  else lookupTable r d' t'.
Proof.
  unfold lookupTable, putTable, withCatalog. cbn [catalog].
  destruct (decide (d = d')) as [<-|Hd].
  - rewrite lookup_alter_eq.
    destruct (catalog r !! d) as [D|] eqn:ED; cbn.
    + destruct (decide (t = t')) as [<-|Ht].
      * rewrite lookup_insert_eq.
        destruct (decide _) as [_|Hn]; [reflexivity|].
        exfalso. apply Hn. eauto.
      * rewrite lookup_insert_ne by assumption.
        destruct (decide _) as [(_ & ? & _)|_]; [congruence | reflexivity].
    + destruct (decide _) as [(_ & _ & [? ?])|_]; [congruence | reflexivity].
  - rewrite lookup_alter_ne by assumption.
    destruct (decide _) as [(? & _)|_]; [congruence | reflexivity].
Qed.

Lemma catalog_putTable r d t T k :
  k <> d -> catalog (putTable d t T r) !! k = catalog r !! k.
Proof. intros H. unfold putTable, withCatalog. cbn. now rewrite lookup_alter_ne. Qed.

Lemma catalog_putTable_is_Some r d t T k :
  is_Some (catalog (putTable d t T r) !! k) <-> is_Some (catalog r !! k).
Proof.
  unfold putTable, withCatalog. cbn [catalog].
  destruct (decide (d = k)) as [<-|Hd].
  - rewrite lookup_alter_eq. destruct (catalog r !! d); cbn; split; intros [? ?]; eauto; congruence.
  - now rewrite lookup_alter_ne.
Qed.

Lemma lookupTable_create r d location d' t' :
  catalog r !! d = None ->
  lookupTable (withCatalog r (<[d := Dataset.mk (Some location) ∅]> (catalog r)))
              d' t'
  = lookupTable r d' t'.
Proof.
  intros Hd. unfold lookupTable, withCatalog. cbn [catalog].
  destruct (decide (d = d')) as [<-|Hne].
  - rewrite lookup_insert_eq, Hd. cbn. apply lookup_empty.
  - now rewrite lookup_insert_ne.
Qed.

Lemma lookupTable_dropTable r d t d' t' :
  lookupTable (dropTable d t r) d' t' =
  if decide (d = d' /\ t = t') then None else lookupTable r d' t'.
Proof.
  unfold lookupTable, dropTable, withCatalog. cbn [catalog].
  destruct (decide (d = d')) as [<-|Hd].
  - rewrite lookup_alter_eq.
    destruct (catalog r !! d) as [D|] eqn:ED; cbn.
    + destruct (decide (t = t')) as [<-|Ht].
      * rewrite lookup_delete_eq. now destruct (decide _) as [_|[]].
      * rewrite lookup_delete_ne by assumption.
        destruct (decide _) as [(_ & ?)|_]; [congruence | reflexivity].
    + now destruct (decide _).
  - rewrite lookup_alter_ne by assumption.
    destruct (decide _) as [(? & _)|_]; [congruence | reflexivity].
Qed.

End Lookup.

(** ** backup.ts: what a backup call writes *)

Section BackupWrites.

Variables (instant : Z) (expiration : option (option Z)).

Let P := onlyAddsSnapshots instant expiration.

Lemma onlyAddsSnapshots_refl r : P r r.
Proof. intros ds tb T H. now left. Qed.

Lemma onlyAddsSnapshots_trans r1 r2 r3 : P r1 r2 -> P r2 r3 -> P r1 r3.
Proof.
  intros H12 H23 ds tb T H.
  destruct (H23 _ _ _ H) as [H2|Hs]; [now apply H12 | now right].
Qed.

Ltac pstep := preserves_step onlyAddsSnapshots_refl onlyAddsSnapshots_trans.
Ltac pro lemma :=
  apply (preserves_readonly _ _ onlyAddsSnapshots_refl); intros ?; apply lemma.

Lemma listDatasets_writes ds : preserves id P (listDatasets ds).
Proof.
  unfold listDatasets. destruct ds as [[|? ?]|]; repeat pstep;
    solve [ pro getDatasets_readonly | pro datasetExists_readonly
          | pro datasetGetMetadata_readonly ].
Qed.

Lemma listTables_writes d : preserves id P (listTables d).
Proof.
  unfold listTables. repeat pstep;
    solve [ pro getTables_readonly | pro tableGetMetadata_readonly ].
Qed.

Lemma datasetCreate_writes d location : preserves id P (datasetCreate d location).
Proof.
  intros r. rewrite run_datasetCreate.
  destruct (fault r _); [apply onlyAddsSnapshots_refl|].
  destruct (catalog r !! d) eqn:Ed; [apply onlyAddsSnapshots_refl|].
  intros ds tb T H. left. unfold id in *. cbn [snd] in H.
  now rewrite lookupTable_create in H.
Qed.

Lemma createBackupDataset_writes b location dryRun :
  preserves id P (createBackupDataset b location dryRun).
Proof.
  unfold createBackupDataset. cbv zeta. repeat pstep;
    solve [ pro datasetExists_readonly | apply datasetCreate_writes ].
Qed.

Lemma createTableSnapshot_writes sd st bd bt dryRun :
  preserves id P (createTableSnapshot sd st bd bt instant expiration dryRun).
Proof.
  unfold createTableSnapshot. cbv zeta. pstep; [pstep|].
  intros r. rewrite run_runQuery.
  destruct (fault r _); [apply onlyAddsSnapshots_refl|].
  unfold execute. intros ds tb T. unfold id.
  destruct expiration as [[e|]|];
    destruct (catalog r !! bd) eqn:Eb;
    destruct (lookupTable r sd st);
    destruct (lookupTable r bd bt) eqn:Et;
    cbn [snd]; intros H; try (now left);
    rewrite lookupTable_putTable in H;
    (destruct (decide _) as [_|_];
     [ injection H as <-; right; cbn; repeat split; eauto; discriminate | now left ]).
Qed.

Lemma snapshotMember_writes options datasetInfo b table :
  preserves id P (snapshotMember options datasetInfo b instant expiration table).
Proof.
  unfold snapshotMember. cbv zeta. repeat pstep. apply createTableSnapshot_writes.
Qed.

Lemma backupOne_writes options datasetInfo :
  preserves id P (backupOne options instant expiration datasetInfo).
Proof.
  unfold backupOne. cbv zeta. repeat pstep;
    solve [ apply listTables_writes | apply createBackupDataset_writes
          | apply snapshotMember_writes ].
Qed.

Lemma backupDataset_writes now options :
  default now (BackupOptions.timestamp options) = instant ->
  calculateExpirationTimestamp instant
    (Some (default DEFAULT_EXPIRATION_DAYS (BackupOptions.expirationDays options)))
  = expiration ->
  preserves id P (backupDataset now options).
Proof.
  intros Hi He. unfold backupDataset. cbv zeta. rewrite Hi.
  pstep; [repeat pstep|]. pstep; [repeat pstep|]. rewrite He.
  pstep; [apply listDatasets_writes|].
  pstep. apply backupOne_writes.
Qed.

End BackupWrites.

Section DefaultRetention.

(** C10. When the retention days are omitted from the options, every table
    a backup call leaves that was not there before is a snapshot as of the
    instant of the backup that expires at that instant plus 90 days; with a
    retention of 0 days the expiration is absent and the snapshots are
    created without one. *)
Theorem backupDataset_default_retention (now : Z) (options : BackupOptions.t)
    (r : Remote) (Homitted : BackupOptions.expirationDays options = None) :
  let instant := default now (BackupOptions.timestamp options) in
  (forall ds tb T,
     lookupTable (snd (backupDataset now options r)) ds tb = Some T ->
     lookupTable r ds tb = Some T
     \/ (Table.type T = "SNAPSHOT"
         /\ (exists sd st, Table.rows T = AsOf sd st instant)
         /\ Table.expirationTime T = Some (instant + 90 * JS.msPerDay)))
  /\ calculateExpirationTimestamp instant (Some 0) = None
  /\ (forall (options0 : BackupOptions.t) (r0 : Remote) ds tb T,
        BackupOptions.expirationDays options0 = Some 0 ->
        lookupTable (snd (backupDataset now options0 r0)) ds tb = Some T ->
        lookupTable r0 ds tb = Some T \/ Table.expirationTime T = None).
Proof.
  cbv zeta. split; [|split; [reflexivity|]].
  - intros ds tb T H.
    pose proof (backupDataset_writes _ _ now options eq_refl eq_refl r) as Hw.
    rewrite Homitted in Hw. cbn [default] in Hw.
    destruct (Hw ds tb T H) as [Hold|(Hty & Hrows & Hne & Hexp)]; [now left|].
    right. repeat split; try assumption.
    rewrite Hexp. unfold calculateExpirationTimestamp, DEFAULT_EXPIRATION_DAYS in *.
    cbn [Z.eqb] in *. rewrite setUTCDate_days in *. cbn [mjoin option_join] in *.
    destruct (JS.TimeClip _) as [u|] eqn:E; [|congruence].
    apply TimeClip_Some in E as [-> _]. reflexivity.
  - intros options0 r0 ds tb T H0 H.
    pose proof (backupDataset_writes _ _ now options0 eq_refl eq_refl r0) as Hw.
    rewrite H0 in Hw. cbn [default] in Hw.
    destruct (Hw ds tb T H) as [Hold|(_ & _ & _ & Hexp)]; [now left | now right].
Qed.

(** The snapshot of sales.orders of a backup with default options: it
    expires 90 days after the instant of the backup. *)
Lemma backupDataset_default_retention_witness :
  BackupOptions.expirationDays (BackupOptions.mk "proj" None None None None) = None
  /\ lookupTable
       (snd (backupDataset Example.now
               (BackupOptions.mk "proj" None None None None) Example.project))
       "zzz_backup_20241215_143022_sales" "orders"
     = Some (Table.mk "SNAPSHOT" None None (AsOf "sales" "orders" Example.now)
                      (Some (Example.now + 90 * JS.msPerDay)))
  /\ (lookupTable Example.project "zzz_backup_20241215_143022_sales" "orders"
      = Some (Table.mk "SNAPSHOT" None None (AsOf "sales" "orders" Example.now)
                       (Some (Example.now + 90 * JS.msPerDay)))
      \/ (Table.type (Table.mk "SNAPSHOT" None None
                        (AsOf "sales" "orders" Example.now)
                        (Some (Example.now + 90 * JS.msPerDay))) = "SNAPSHOT"
          /\ (exists sd st, AsOf "sales" "orders" Example.now
                            = AsOf sd st Example.now)
          /\ Some (Example.now + 90 * JS.msPerDay)
             = Some (Example.now + 90 * JS.msPerDay))).
Proof.
  split; [reflexivity|].
  assert (lookupTable
       (snd (backupDataset Example.now
               (BackupOptions.mk "proj" None None None None) Example.project))
       "zzz_backup_20241215_143022_sales" "orders"
     = Some (Table.mk "SNAPSHOT" None None (AsOf "sales" "orders" Example.now)
                      (Some (Example.now + 90 * JS.msPerDay)))) as H
    by (vm_compute; reflexivity).
  split; [exact H|].
  exact (proj1 (backupDataset_default_retention Example.now
                  (BackupOptions.mk "proj" None None None None)
                  Example.project eq_refl) _ _ _ H).
Defined.

End DefaultRetention.

(** ** Computations that depend on part of the catalog only *)

Section Respects.

Context {S : Type} (R : S -> S -> Prop).

Lemma respects_ret {A} (a : A) : respects R (ret a).
Proof. intros s1 s2 H. now split. Qed.

Lemma respects_throw {A} e : respects R (@throw S A e).
Proof. intros s1 s2 H. now split. Qed.

Lemma respects_bind {A B} (m : M S A) (k : A -> M S B) :
  respects R m -> (forall a, respects R (k a)) -> respects R (bind m k).
Proof.
  intros Hm Hk s1 s2 H. rewrite !run_bind.
  destruct (Hm s1 s2 H) as [E H'].
  destruct (m s1) as [[a1|e1] s1'], (m s2) as [[a2|e2] s2']; cbn [fst snd] in *;
    try discriminate E.
  - injection E as <-. now apply Hk.
  - injection E as <-. now split.
Qed.

Lemma respects_tryCatch {A} (m : M S A) (h : string -> M S A) :
  respects R m -> (forall e, respects R (h e)) -> respects R (tryCatch m h).
Proof.
  intros Hm Hh s1 s2 H. rewrite !run_tryCatch.
  destruct (Hm s1 s2 H) as [E H'].
  destruct (m s1) as [[a1|e1] s1'], (m s2) as [[a2|e2] s2']; cbn [fst snd] in *;
    try discriminate E.
  - now split.
  - injection E as <-. now apply Hh.
Qed.

Lemma respects_collect {A B} (body : A -> M S (option B)) l :
  (forall x, respects R (body x)) -> respects R (collect body l).
Proof.
  intros Hb. induction l as [|x rest IH]; intros s1 s2 H.
  - rewrite !run_collect_nil. now split.
  - rewrite !run_collect_cons. destruct (Hb x s1 s2 H) as [E H'].
    destruct (body x s1) as [[o1|e1] s1'], (body x s2) as [[o2|e2] s2'];
      cbn [fst snd] in *; try discriminate E;
      [|injection E as <-; now split].
    injection E as <-. destruct (IH s1' s2' H') as [E' H''].
    destruct (collect body rest s1') as [[b1|e1] s1''],
      (collect body rest s2') as [[b2|e2] s2'']; cbn [fst snd] in *;
      try discriminate E'; injection E' as <-; now split.
Qed.

Lemma respects_forEach {A B} (body : A -> M S B) l :
  (forall x, respects R (body x)) -> respects R (forEach body l).
Proof.
  intros Hb. induction l as [|x rest IH]; intros s1 s2 H.
  - rewrite !run_forEach_nil. now split.
  - rewrite !run_forEach_cons. destruct (Hb x s1 s2 H) as [E H'].
    destruct (body x s1) as [[o1|e1] s1'], (body x s2) as [[o2|e2] s2'];
      cbn [fst snd] in *; try discriminate E;
      [|injection E as <-; now split].
    injection E as <-. destruct (IH s1' s2' H') as [E' H''].
    destruct (forEach body rest s1') as [[b1|e1] s1''],
      (forEach body rest s2') as [[b2|e2] s2'']; cbn [fst snd] in *;
      try discriminate E'; injection E' as <-; now split.
Qed.

End Respects.

Section RespectsLocal.

Context {L : Type} (K : string -> Prop).

Lemma respects_remote {A} (m : M Remote A) :
  respects (agreeOn K) m -> respects (@agreeOnL L K) (remote m).
Proof.
  intros Hm [r1 l1] [r2 l2] [H El]. cbn [fst snd] in *. subst l2.
  rewrite !run_remote. destruct (Hm r1 r2 H) as [E H'].
  cbn [fst snd]. split; [exact E|]. split; [exact H' | reflexivity].
Qed.

Lemma respects_setLocal (f : L -> L) : respects (@agreeOnL L K) (setLocal f).
Proof.
  intros [r1 l1] [r2 l2] [H El]. cbn [fst snd] in *. subst l2.
  rewrite !run_setLocal. split; [reflexivity|]. split; [exact H | reflexivity].
Qed.

Lemma respects_withLocal (init : L) (m : M (Remote * L) unit) :
  respects (@agreeOnL L K) m -> respects (agreeOn K) (withLocal init m).
Proof.
  intros Hm r1 r2 H. rewrite !run_withLocal.
  destruct (Hm (r1, init) (r2, init)) as [E [H' El]]; [now split|].
  destruct (m (r1, init)) as [[u1|e1] [r1' l1]],
    (m (r2, init)) as [[u2|e2] [r2' l2]]; cbn [fst snd] in *;
    try discriminate E; subst; [|injection E as <-]; now split.
Qed.

End RespectsLocal.

(** Decomposes a goal [respects R m] along the shape of [m]. *)
Ltac respects_step :=
  match goal with
  | |- respects _ (bind _ _) => apply respects_bind; [|intros ?]
  | |- respects _ (tryCatch _ _) => apply respects_tryCatch; [|intros ?]
  | |- respects _ (ret _) => apply respects_ret
  | |- respects _ (throw _) => apply respects_throw
  | |- respects _ (collect _ _) => apply respects_collect; intros ?
  | |- respects _ (forEach _ _) => apply respects_forEach; intros ?
  | |- respects _ (remote _) => apply respects_remote
  | |- respects _ (setLocal _) => apply respects_setLocal
  | |- respects _ (withLocal _ _) => apply respects_withLocal
  | |- respects _ (if ?b then _ else _) => destruct b
  | |- respects _ (match ?x with _ => _ end) => destruct x
  end.

Section RespectsCalls.

Variable K : string -> Prop.

Lemma agreeOn_lookupTable r1 r2 d t :
  agreeOn K r1 r2 -> K d -> lookupTable r1 d t = lookupTable r2 d t.
Proof. intros (_ & _ & H) Hd. unfold lookupTable. now rewrite (H d Hd). Qed.

Lemma agreeOn_putTable r1 r2 d t T :
  agreeOn K r1 r2 -> agreeOn K (putTable d t T r1) (putTable d t T r2).
Proof.
  intros (Hf & Hp & H). repeat split; try assumption.
  intros k Hk. unfold putTable, withCatalog. cbn [catalog].
  destruct (decide (d = k)) as [<-|Hne].
  - rewrite !lookup_alter_eq. now rewrite (H d Hk).
  - rewrite !lookup_alter_ne by assumption. now apply H.
Qed.

Lemma respects_datasetExists d : K d -> respects (agreeOn K) (datasetExists d).
Proof.
  intros Hd r1 r2 H. rewrite !run_datasetExists.
  destruct H as (Hf & Hp & Hc). rewrite Hf, (Hc d Hd).
  destruct (fault r2 _); split; try reflexivity; now repeat split.
Qed.

Lemma respects_datasetCreate d location :
  K d -> respects (agreeOn K) (datasetCreate d location).
Proof.
  intros Hd r1 r2 H. rewrite !run_datasetCreate.
  destruct H as (Hf & Hp & Hc). rewrite Hf, (Hc d Hd).
  destruct (fault r2 _); [now repeat split|].
  destruct (catalog r2 !! d); [now repeat split|].
  split; [reflexivity|]. repeat split; try assumption.
  intros k Hk. cbn. destruct (decide (d = k)) as [<-|Hne].
  - now rewrite !lookup_insert_eq.
  - rewrite !lookup_insert_ne by assumption. now apply Hc.
Qed.

Lemma respects_getTables d : K d -> respects (agreeOn K) (getTables d).
Proof.
  intros Hd r1 r2 H. rewrite !run_getTables.
  destruct H as (Hf & Hp & Hc). rewrite Hf, (Hc d Hd).
  destruct (fault r2 _); [now repeat split|].
  destruct (catalog r2 !! d); now repeat split.
Qed.

Lemma respects_tableGetMetadata d t :
  K d -> respects (agreeOn K) (tableGetMetadata d t).
Proof.
  intros Hd r1 r2 H. rewrite !run_tableGetMetadata.
  rewrite (agreeOn_lookupTable r1 r2 d t H Hd).
  destruct H as (Hf & Hp & Hc). rewrite Hf.
  destruct (fault r2 _); [now repeat split|].
  destruct (lookupTable r2 d t); now repeat split.
Qed.

Lemma respects_snapshotJob bd bt sd st millis expiration :
  K bd -> K sd ->
  respects (agreeOn K)
    (runQuery (CreateSnapshotTable bd bt sd st millis expiration)).
Proof.
  intros Hb Hs r1 r2 H. rewrite !run_runQuery.
  pose proof (agreeOn_lookupTable r1 r2 sd st H Hs) as E1.
  pose proof (agreeOn_lookupTable r1 r2 bd bt H Hb) as E2.
  pose proof (agreeOn_putTable r1 r2 bd bt
                (Table.mk "SNAPSHOT" None None (AsOf sd st millis)
                          (mjoin expiration)) H) as Hput.
  pose proof H as (Hf & Hp & Hc). rewrite Hf.
  destruct (fault r2 _); [now repeat split|].
  unfold execute. rewrite (Hc bd Hb), E1, E2.
  destruct expiration as [[e|]|]; try (now split);
    destruct (catalog r2 !! bd); try (now split);
    destruct (lookupTable r2 sd st); try (now split);
    destruct (lookupTable r2 bd bt); now split.
Qed.

End RespectsCalls.

(** ** backup.ts: one dataset of a backup call *)

Section BackupOne.

Variables (options : BackupOptions.t) (instant : Z)
          (expiration : option (option Z)).

(** *** Names of backup datasets *)

Lemma generateBackupDatasetName_prefixed d :
  JS.startsWith (generateBackupDatasetName d instant) BACKUP_DATASET_PREFIX = true.
Proof. unfold generateBackupDatasetName, JS.startsWith. apply prefix_append. Qed.

Lemma generateBackupDatasetName_inj d1 d2 :
  generateBackupDatasetName d1 instant = generateBackupDatasetName d2 instant ->
  d1 = d2.
Proof.
  unfold generateBackupDatasetName. cbv zeta. intros E.
  apply append_inj_length in E as [_ E]; [|reflexivity].
  apply append_inj_length in E as [_ E]; [|reflexivity].
  now apply append_inj_length in E as [_ E].
Qed.

Lemma generateBackupDatasetName_longer d : generateBackupDatasetName d instant <> d.
Proof.
  unfold generateBackupDatasetName. cbv zeta. intros E.
  apply (f_equal String.length) in E. rewrite !length_append in E.
  cbn [String.length] in E. lia.
Qed.

(** *** The datasets one backup depends on and writes *)

Lemma listTables_respects K d : K d -> respects (agreeOn K) (listTables d).
Proof.
  intros Hd. unfold listTables. repeat respects_step;
    solve [ now apply respects_getTables | now apply respects_tableGetMetadata ].
Qed.

Lemma backupOne_respects K (datasetInfo : DatasetInfo.t) :
  K (DatasetInfo.datasetId datasetInfo) ->
  K (generateBackupDatasetName (DatasetInfo.datasetId datasetInfo) instant) ->
  respects (agreeOn K) (backupOne options instant expiration datasetInfo).
Proof.
  intros Hd Hb. unfold backupOne, snapshotMember, createBackupDataset,
    createTableSnapshot. cbv zeta.
  repeat respects_step;
    solve [ now apply listTables_respects | now apply respects_datasetExists
          | now apply respects_datasetCreate | now apply respects_snapshotJob ].
Qed.

Lemma touchesOnly_refl B r : touchesOnly B r r.
Proof. now repeat split. Qed.

Lemma touchesOnly_trans B r1 r2 r3 :
  touchesOnly B r1 r2 -> touchesOnly B r2 r3 -> touchesOnly B r1 r3.
Proof.
  intros (F1 & P1 & C1) (F2 & P2 & C2). repeat split; try congruence.
  intros k Hk. now rewrite C2, C1.
Qed.

Lemma backupOne_touches (datasetInfo : DatasetInfo.t) :
  preserves id
    (touchesOnly
       (generateBackupDatasetName (DatasetInfo.datasetId datasetInfo) instant))
    (backupOne options instant expiration datasetInfo).
Proof.
  set (B := generateBackupDatasetName _ _).
  assert (forall A (m : M Remote A), (forall r, snd (m r) = r) ->
            preserves id (touchesOnly B) m) as Hro.
  { intros A m H. apply preserves_readonly; [apply touchesOnly_refl | exact H]. }
  unfold backupOne, snapshotMember, createBackupDataset, createTableSnapshot,
    listTables. cbv zeta. fold B.
  repeat (preserves_step (touchesOnly_refl B) (touchesOnly_trans B));
    try solve [ apply Hro; intros ?; first
                  [ apply getTables_readonly | apply tableGetMetadata_readonly
                  | apply datasetExists_readonly ] ].
  - (* the dataset is created *)
    intros r. rewrite run_datasetCreate.
    destruct (fault r _); [apply touchesOnly_refl|].
    destruct (catalog r !! B); [apply touchesOnly_refl|].
    repeat split. intros k Hk. cbn. now rewrite lookup_insert_ne.
  - (* a snapshot is created *)
    intros r. rewrite run_runQuery.
    destruct (fault r _); [apply touchesOnly_refl|].
    unfold execute.
    destruct expiration as [[e|]|]; try apply touchesOnly_refl;
      destruct (catalog r !! B); try apply touchesOnly_refl;
      destruct (lookupTable r _ _); try apply touchesOnly_refl;
      destruct (lookupTable r B _); try apply touchesOnly_refl;
      repeat split; intros k Hk; now apply catalog_putTable.
Qed.

(** One dataset never makes the call fail: its failures are reported in its
    result. *)
Lemma backupOne_total (datasetInfo : DatasetInfo.t) r :
  exists result r',
    backupOne options instant expiration datasetInfo r = (Ok result, r').
Proof.
  unfold backupOne. cbv zeta. rewrite run_withLocal, run_tryCatch.
  match goal with |- context [bind ?m ?k (r, ?l)] =>
    destruct (bind m k (r, l)) as [[u|e] [r1 l1]] end.
  - eauto.
  - rewrite run_bind, !run_setLocal. eauto.
Qed.

End BackupOne.

Section BackupAll.

Variables (options : BackupOptions.t) (instant : Z)
          (expiration : option (option Z)).

Let body := backupOne options instant expiration.
Let nameOf (datasetInfo : DatasetInfo.t) : string :=
  generateBackupDatasetName (DatasetInfo.datasetId datasetInfo) instant.

(** Each dataset of a call gets the result it would get alone: datasets
    with different ids, none of them named like a backup, do not see each
    other's backup. *)
Lemma forEach_backupOne_independent (r0 : Remote) (infos : list DatasetInfo.t) :
  forall r,
  NoDup (map DatasetInfo.datasetId infos) ->
  (forall di, In di infos ->
     JS.startsWith (DatasetInfo.datasetId di) BACKUP_DATASET_PREFIX = false) ->
  fault r = fault r0 -> projectId r = projectId r0 ->
  (forall di, In di infos ->
     catalog r !! DatasetInfo.datasetId di = catalog r0 !! DatasetInfo.datasetId di
     /\ catalog r !! nameOf di = catalog r0 !! nameOf di) ->
  exists results r',
    forEach body infos r = (Ok results, r')
    /\ Forall2 (fun di result => fst (body di r0) = Ok result) infos results.
Proof.
  induction infos as [|di rest IH]; intros r Hnd Hpre Hf Hp Hc.
  - exists [], r. split; [apply run_forEach_nil | constructor].
  - rewrite run_forEach_cons.
    destruct (backupOne_total options instant expiration di r) as (res & r1 & E1).
    fold body in E1.
    pose proof (backupOne_respects options instant expiration
                  (fun k => k = DatasetInfo.datasetId di \/ k = nameOf di) di
                  ltac:(now left) ltac:(now right) r r0) as Hres.
    destruct Hres as [Eres _].
    { repeat split; try assumption.
      intros k [->| ->]; now apply (Hc di); left. }
    fold body in Eres. rewrite E1 in Eres. cbn [fst] in Eres.
    pose proof (backupOne_touches options instant expiration di r) as Ht.
    fold body in Ht. rewrite E1 in Ht. unfold id in Ht. cbn [snd] in Ht.
    destruct Ht as (Hf1 & Hp1 & Hc1). fold (nameOf di) in Hc1.
    cbn [map] in Hnd. apply NoDup_cons in Hnd as [Hdi Hnd].
    destruct (IH r1 Hnd) as (ress & r' & E2 & HF).
    + intros dj Hj. apply Hpre. now right.
    + congruence.
    + congruence.
    + intros dj Hj.
      assert (DatasetInfo.datasetId dj <> nameOf di) as N1.
      { intros E. pose proof (generateBackupDatasetName_prefixed instant
                                (DatasetInfo.datasetId di)) as Hp'.
        fold (nameOf di) in Hp'. rewrite <- E in Hp'.
        rewrite (Hpre dj) in Hp'; [discriminate | now right]. }
      assert (nameOf dj <> nameOf di) as N2.
      { intros E. apply generateBackupDatasetName_inj in E.
        apply Hdi. rewrite <- E. apply list_elem_of_In. now apply in_map. }
      rewrite !Hc1 by assumption. apply Hc. now right.
    + rewrite E1, E2. exists (res :: ress), r'. split; [reflexivity|].
      constructor; [now symmetry | assumption].
Qed.

End BackupAll.

(** ** backup.ts: the members of one dataset *)

Section Members.

Variable r : Remote.
Hypothesis Hfaults : onlyJobsFail (fault r).

Lemma noFault rq : (forall q, rq <> QueryJob q) -> fault r rq = None.
Proof. apply Hfaults. Qed.

Lemma collect_listing {B} (body : string -> M Remote (option B))
    (f : string -> Table.t -> option B) (l : list (string * Table.t)) :
  (forall k T, In (k, T) l -> body k r = (Ok (f k T), r)) ->
  collect body (map fst l) r
  = (Ok (omap (fun kT => f (fst kT) (snd kT)) l), r).
Proof.
  induction l as [|[k T] rest IH]; intros Hl; [apply run_collect_nil|].
  cbn [map fst]. rewrite run_collect_cons, (Hl k T) by now left.
  rewrite IH by (intros; apply Hl; now right).
  reflexivity.
Qed.

Lemma lookupTable_listing d D k T :
  catalog r !! d = Some D -> In (k, T) (map_to_list (Dataset.tables D)) ->
  lookupTable r d k = Some T.
Proof.
  intros Hd Hin. unfold lookupTable. rewrite Hd. cbn.
  now apply elem_of_map_to_list, list_elem_of_In.
Qed.

(** Without failing calls, [listTables] returns the tables of kind TABLE. *)
Lemma listTables_noFault d D :
  catalog r !! d = Some D -> listTables d r = (Ok (tableInfosOf D), r).
Proof.
  intros Hd. unfold listTables. rewrite run_bind, run_getTables.
  rewrite noFault, Hd by discriminate.
  unfold tableInfosOf.
  apply (collect_listing _
    (fun k T => if String.eqb (Table.type T) "TABLE"
                then Some (TableInfo.mk k (Table.type T) (Table.location T))
                else None)).
  intros k T Hin.
  rewrite run_tryCatch, run_bind, run_tableGetMetadata.
  rewrite noFault by discriminate.
  rewrite (lookupTable_listing d D k T Hd Hin).
  now destruct (String.eqb (Table.type T) "TABLE").
Qed.

(** Without failing calls, [listBackupTables] returns the tables of kind
    SNAPSHOT. *)
Lemma listBackupTables_noFault d D :
  catalog r !! d = Some D -> listBackupTables d r = (Ok (snapshotIdsOf D), r).
Proof.
  intros Hd. unfold listBackupTables. rewrite run_bind, run_getTables.
  rewrite noFault, Hd by discriminate.
  unfold snapshotIdsOf.
  apply (collect_listing _
    (fun k T => if String.eqb (Table.type T) "SNAPSHOT" then Some k else None)).
  intros k T Hin.
  rewrite run_tryCatch, run_bind, run_tableGetMetadata.
  rewrite noFault by discriminate.
  rewrite (lookupTable_listing d D k T Hd Hin).
  now destruct (String.eqb (Table.type T) "SNAPSHOT").
Qed.

End Members.

Section Listings.

Lemma omap_keys_NoDup {B} (f : string * Table.t -> option B) (key : B -> string)
    (l : list (string * Table.t)) :
  (forall kT b, f kT = Some b -> key b = fst kT) ->
  NoDup (map fst l) -> NoDup (map key (omap f l)).
Proof.
  intros Hf. induction l as [|kT rest IH]; intros Hn; [constructor|].
  cbn [map] in Hn. apply NoDup_cons in Hn as [Hk Hn].
  change (omap f (kT :: rest))
    with (match f kT with Some y => y :: omap f rest | None => omap f rest end).
  destruct (f kT) as [b|] eqn:E; [|now apply IH].
  cbn [map]. apply NoDup_cons. split; [|now apply IH].
  intros Hin. apply Hk. rewrite <- (Hf _ _ E).
  apply list_elem_of_In, in_map_iff in Hin as (b' & Eb & Hb').
  apply list_elem_of_In, list_elem_of_omap in Hb' as (kT' & Hin' & E').
  rewrite <- Eb, (Hf _ _ E'). apply list_elem_of_In, in_map.
  now apply list_elem_of_In.
Qed.

Lemma tableInfosOf_NoDup D : NoDup (map TableInfo.tableId (tableInfosOf D)).
Proof.
  unfold tableInfosOf. apply omap_keys_NoDup.
  - intros [k T] b. cbn. destruct (String.eqb _ _); [|discriminate].
    now intros [= <-].
  - apply NoDup_fst_map_to_list.
Qed.

Lemma tableInfosOf_In D ti :
  In ti (tableInfosOf D) ->
  is_Some (Dataset.tables D !! TableInfo.tableId ti).
Proof.
  unfold tableInfosOf. intros Hin.
  apply list_elem_of_In, list_elem_of_omap in Hin as ([k T] & Hin & E).
  cbn in E. destruct (String.eqb _ _); [|discriminate]. injection E as <-.
  cbn. apply elem_of_map_to_list in Hin. eauto.
Qed.

Lemma snapshotIdsOf_NoDup D : NoDup (snapshotIdsOf D).
Proof.
  unfold snapshotIdsOf.
  rewrite <- (map_id (omap _ _)). apply omap_keys_NoDup.
  - intros [k T] b. cbn. destruct (String.eqb _ _); [|discriminate].
    now intros [= <-].
  - apply NoDup_fst_map_to_list.
Qed.

Lemma snapshotIdsOf_In D t :
  In t (snapshotIdsOf D) ->
  exists T, Dataset.tables D !! t = Some T /\ Table.type T = "SNAPSHOT".
Proof.
  unfold snapshotIdsOf. intros Hin.
  apply list_elem_of_In, list_elem_of_omap in Hin as ([k T] & Hin & E).
  cbn in E. destruct (String.eqb_spec (Table.type T) "SNAPSHOT"); [|discriminate].
  injection E as <-. apply elem_of_map_to_list in Hin. eauto.
Qed.

End Listings.

Section SnapshotFanOut.

Variables (options : BackupOptions.t) (instant : Z)
          (expiration : option (option Z)) (datasetInfo : DatasetInfo.t).

Let d := DatasetInfo.datasetId datasetInfo.
Let B := generateBackupDatasetName d instant.

Hypothesis Hdry : default false (BackupOptions.dryRun options) = false.
Hypothesis Hexp : expiration <> Some None.

(** The outcome object of the snapshot of one table, by the answer of the
    service to its job. *)
Let outcome (f : Request -> option string) (table : TableInfo.t) : Outcome.t :=
  match f (QueryJob (CreateSnapshotTable B (TableInfo.tableId table) d
                       (TableInfo.tableId table) instant expiration)) with
  | Some e =>
      Outcome.mk false (TableInfo.tableId table)
        (Some ("Failed to create snapshot for " ++ TableInfo.tableId table
                 ++ ": " ++ e))
  | None => Outcome.mk true (TableInfo.tableId table) None
  end.

(** In a backup dataset that holds none of them yet, the snapshot of each
    listed table succeeds unless the service refuses its job, and the
    refusal of one leaves the others alone. *)
Lemma forEach_snapshotMember_run (tables : list TableInfo.t) :
  forall r,
  NoDup (map TableInfo.tableId tables) ->
  is_Some (catalog r !! B) ->
  (forall t, In t tables -> is_Some (lookupTable r d (TableInfo.tableId t))) ->
  (forall t, In t tables -> lookupTable r B (TableInfo.tableId t) = None) ->
  exists r',
    forEach (snapshotMember options datasetInfo B instant expiration) tables r
    = (Ok (map (outcome (fault r)) tables), r')
    /\ fault r' = fault r.
Proof.
  assert (d <> B) as Hne
    by (intros E; symmetry in E; now apply generateBackupDatasetName_longer in E).
  induction tables as [|t rest IH]; intros r Hnd HB Hsrc Htgt.
  - exists r. split; [apply run_forEach_nil | reflexivity].
  - cbn [map] in Hnd. apply NoDup_cons in Hnd as [Ht Hnd].
    rewrite run_forEach_cons. unfold snapshotMember at 1.
    rewrite run_tryCatch, run_bind. unfold createTableSnapshot. cbv zeta.
    rewrite Hdry, run_runQuery. fold d. cbn [map]. unfold outcome at 1.
    destruct (fault r (QueryJob _)) as [e|] eqn:Ef.
    + (* the job is refused *)
      rewrite run_ret.
      destruct (IH r Hnd HB) as (r' & E & Hf).
      * intros t' Ht'. apply Hsrc. now right.
      * intros t' Ht'. apply Htgt. now right.
      * rewrite E. eauto.
    + (* the job runs *)
      unfold execute.
      destruct HB as [DB EB].
      destruct (Hsrc t ltac:(now left)) as [Ts Es].
      rewrite EB, Es, (Htgt t) by now left.
      assert (expiration = None \/ exists e, expiration = Some (Some e)) as Hcases.
      { destruct expiration as [[e|]|]; eauto. congruence. }
      set (T := Table.mk "SNAPSHOT" None None
                  (AsOf d (TableInfo.tableId t) instant) (mjoin expiration)).
      assert (match expiration with
              | Some None => (Throw (Error "Invalid timestamp"), r)
              | _ => (Ok tt, putTable B (TableInfo.tableId t) T r)
              end = (Ok tt, putTable B (TableInfo.tableId t) T r)) as ->.
      { destruct Hcases as [->|(e & ->)]; reflexivity. }
      rewrite run_ret.
      destruct (IH (putTable B (TableInfo.tableId t) T r) Hnd) as (r' & E & Hf).
      * apply catalog_putTable_is_Some. eauto.
      * intros t' Ht'. rewrite lookupTable_putTable.
        destruct (decide _) as [(? & _)|_]; [congruence|].
        apply Hsrc. now right.
      * intros t' Ht'. rewrite lookupTable_putTable.
        destruct (decide _) as [(_ & Ett & _)|_].
        { exfalso. apply Ht. rewrite Ett. apply list_elem_of_In. now apply in_map. }
        apply Htgt. now right.
      * rewrite E. exists r'. split; [reflexivity | exact Hf].
Qed.

(** The result of one dataset with tables, a location and no backup of the
    same name yet, when only query jobs can fail. *)
Lemma backupOne_run r D location :
  onlyJobsFail (fault r) ->
  catalog r !! d = Some D -> tableInfosOf D <> [] ->
  DatasetInfo.location datasetInfo = Some location -> location <> "" ->
  catalog r !! B = None ->
  exists r',
    backupOne options instant expiration datasetInfo r
    = (Ok (let outcomes := map (outcome (fault r)) (tableInfosOf D) in
           let failed :=
             List.filter (fun o => negb (Outcome.success o)) outcomes in
           BackupResult.mk B d instant
             (length (List.filter Outcome.success outcomes))
             (length failed =? 0)%nat
             (if (0 <? length failed)%nat then map errorOrUnknown failed else [])),
       r').
Proof.
  intros Hf Hd Hne Hloc Hl HB. unfold backupOne. cbv zeta. fold d. fold B.
  rewrite run_withLocal, run_tryCatch, run_bind, run_remote.
  rewrite (listTables_noFault r Hf d D Hd). cbn [fst snd].
  destruct (tableInfosOf D) as [|t0 ts] eqn:Et; [congruence|]. rewrite <- Et.
  replace (length (tableInfosOf D) =? 0)%nat with false
    by (rewrite Et; reflexivity).
  rewrite run_bind, run_setLocal, Hloc.
  destruct location as [|c l]; [congruence|].
  rewrite run_bind, run_remote. unfold createBackupDataset. cbv zeta.
  rewrite run_bind, run_datasetExists, (Hf (DatasetExists B)) by discriminate.
  rewrite HB. cbn [isSome]. rewrite Hdry.
  rewrite run_datasetCreate, (Hf (DatasetCreate B)), HB by discriminate.
  cbn [fst snd].
  set (r1 := withCatalog r _).
  destruct (forEach_snapshotMember_run (tableInfosOf D) r1) as (r' & E & Hfr).
  - apply tableInfosOf_NoDup.
  - subst r1. cbn. rewrite lookup_insert_eq. eauto.
  - intros t Ht. subst r1. rewrite lookupTable_create by assumption.
    unfold lookupTable. rewrite Hd. cbn. now apply tableInfosOf_In.
  - intros t Ht. subst r1. rewrite lookupTable_create by assumption.
    unfold lookupTable. now rewrite HB.
  - rewrite run_bind, run_remote, E. cbn [fst snd].
    repeat (rewrite run_bind || rewrite run_setLocal).
    exists r'. cbn [BackupResult.setTablesBackedUp BackupResult.setSuccess
                    BackupResult.setBackupDatasetId BackupResult.backupDatasetId
                    BackupResult.sourceDatasetId BackupResult.timestamp
                    BackupResult.tablesBackedUp BackupResult.success
                    BackupResult.errors].
    change (fault r1) with (fault r).
    destruct (0 <? length _)%nat; [rewrite run_setLocal | rewrite run_ret];
      reflexivity.
Qed.

(** Exactly one refused job among the tables: all the others are counted,
    and the one error is reported. *)
Lemma one_refused (f : Request -> option string) (tables : list TableInfo.t)
    (x : TableInfo.t) (e : string) :
  NoDup (map TableInfo.tableId tables) -> In x tables ->
  outcome f x = Outcome.mk false (TableInfo.tableId x)
                  (Some ("Failed to create snapshot for " ++ TableInfo.tableId x
                           ++ ": " ++ e)) ->
  (forall t, In t tables -> TableInfo.tableId t <> TableInfo.tableId x ->
     Outcome.success (outcome f t) = true) ->
  S (length (List.filter Outcome.success (map (outcome f) tables)))
    = length tables
  /\ map errorOrUnknown
       (List.filter (fun o => negb (Outcome.success o)) (map (outcome f) tables))
     = ["Failed to create snapshot for " ++ TableInfo.tableId x ++ ": " ++ e].
Proof.
  intros Hnd Hx Hox Hothers.
  assert (forall l, (forall t, In t l -> Outcome.success (outcome f t) = true) ->
            length (List.filter Outcome.success (map (outcome f) l)) = length l
            /\ List.filter (fun o => negb (Outcome.success o)) (map (outcome f) l) = [])
    as Hall.
  { induction l as [|t l IH]; intros Hl; [now split|].
    cbn [map List.filter]. rewrite (Hl t) by now left. cbn [negb length].
    destruct IH as [-> ->]; [intros; apply Hl; now right | now split]. }
  induction tables as [|t rest IH]; [destruct Hx|].
  cbn [map] in Hnd. apply NoDup_cons in Hnd as [Ht Hnd].
  cbn [map List.filter length].
  destruct (decide (TableInfo.tableId t = TableInfo.tableId x)) as [Etx|Ntx].
  - assert (outcome f t = outcome f x) as ->
      by (unfold outcome; now rewrite Etx).
    rewrite Hox. cbn [Outcome.success negb map].
    destruct (Hall rest) as [-> ->].
    + intros t' Ht'. apply Hothers; [now right|].
      intros E. apply Ht. rewrite Etx, <- E. apply list_elem_of_In. now apply in_map.
    + split; reflexivity.
  - rewrite (Hothers t) by (now left || assumption). cbn [negb length].
    destruct Hx as [->|Hx]; [congruence|].
    destruct IH as [IH1 IH2]; try assumption.
    + intros t' Ht'. apply Hothers. now right.
    + split; [now rewrite IH1 | exact IH2].
Qed.

End SnapshotFanOut.

Section PartialFailure.

(** C5. In a backup call (not a dry run) in which only query jobs fail,
    take a dataset with a location, no backup of its name yet, and three
    tables of kind TABLE, of which the service refuses exactly one snapshot
    job. Its result records 2 tables backed up, success = false and exactly
    one error, the message of the refused snapshot. The call still returns
    one result per listed dataset, in order, and each is the result that
    dataset gets when it is backed up alone from the same state: the
    refusal changes nothing for the other datasets. *)
Theorem backupDataset_partial_failure
    (now : Z) (options : BackupOptions.t) (r : Remote)
    (instant : Z) (expiration : option (option Z))
    (infos : list DatasetInfo.t) (failing : DatasetInfo.t) (D : Dataset.t)
    (location : string) (x : TableInfo.t) (e : string)
    (Hinstant : instant = default now (BackupOptions.timestamp options))
    (Hexpiration :
       expiration
       = calculateExpirationTimestamp instant
           (Some (default DEFAULT_EXPIRATION_DAYS
                          (BackupOptions.expirationDays options))))
    (Hvalid : expiration <> Some None)
    (Hwindow : forall t, BackupOptions.timestamp options = Some t ->
                 validateTimeTravelTimestamp now t = true)
    (Hdry : default false (BackupOptions.dryRun options) = false)
    (Hfaults : onlyJobsFail (fault r))
    (Hlisted : listDatasets (BackupOptions.datasets options) r = (Ok infos, r))
    (Hdistinct : NoDup (map DatasetInfo.datasetId infos))
    (Hsources : forall di, In di infos ->
       JS.startsWith (DatasetInfo.datasetId di) BACKUP_DATASET_PREFIX = false)
    (Hin : In failing infos)
    (Hcatalog : catalog r !! DatasetInfo.datasetId failing = Some D)
    (Hlocation : DatasetInfo.location failing = Some location)
    (Hlocated : location <> "")
    (Hfree : catalog r !! generateBackupDatasetName
                            (DatasetInfo.datasetId failing) instant = None)
    (Hthree : length (tableInfosOf D) = 3%nat)
    (Hx : In x (tableInfosOf D))
    (Hrefused :
       fault r (QueryJob (CreateSnapshotTable
                  (generateBackupDatasetName
                     (DatasetInfo.datasetId failing) instant)
                  (TableInfo.tableId x) (DatasetInfo.datasetId failing)
                  (TableInfo.tableId x) instant expiration)) = Some e)
    (Hothers : forall t, In t (tableInfosOf D) ->
       TableInfo.tableId t <> TableInfo.tableId x ->
       fault r (QueryJob (CreateSnapshotTable
                  (generateBackupDatasetName
                     (DatasetInfo.datasetId failing) instant)
                  (TableInfo.tableId t) (DatasetInfo.datasetId failing)
                  (TableInfo.tableId t) instant expiration)) = None) :
  exists results r',
    backupDataset now options r = (Ok results, r')
    /\ Forall2 (fun di result =>
                  fst (backupOne options instant expiration di r) = Ok result)
               infos results
    /\ In (BackupResult.mk
             (generateBackupDatasetName (DatasetInfo.datasetId failing) instant)
             (DatasetInfo.datasetId failing) instant 2 false
             ["Failed to create snapshot for " ++ TableInfo.tableId x
                ++ ": " ++ e]) results.
Proof.
  set (B := generateBackupDatasetName (DatasetInfo.datasetId failing) instant) in *.
  (* the dataset alone *)
  destruct (backupOne_run options instant expiration failing Hdry Hvalid r D
              location Hfaults Hcatalog) as (r1 & Hone); try assumption.
  { intros E. now rewrite E in Hthree. }
  cbv zeta in Hone. fold B in Hone.
  destruct (one_refused instant expiration failing (fault r) (tableInfosOf D) x e)
    as (Hcount & Herrors).
  { apply tableInfosOf_NoDup. }
  { assumption. }
  { fold B. now rewrite Hrefused. }
  { intros t Ht Hne. fold B. now rewrite (Hothers t Ht Hne). }
  fold B in Hcount, Herrors.
  match type of Herrors with
  | map _ ?l = _ =>
      assert (length l = 1%nat) as Hfailed
        by (apply (f_equal (@length _)) in Herrors;
            now rewrite length_map in Herrors)
  end.
  match type of Hcount with
  | S ?n = _ => assert (n = 2%nat) as Hsucc by lia
  end.
  rewrite Herrors, Hsucc, Hfailed in Hone. cbn [Nat.eqb Nat.ltb Nat.leb] in Hone.
  (* the call *)
  destruct (forEach_backupOne_independent options instant expiration r infos r)
    as (results & r' & Hall & HF); try assumption; try reflexivity.
  { intros di _. now split. }
  exists results, r'. split; [|split; [exact HF|]].
  - unfold backupDataset. cbv zeta. rewrite <- Hinstant, <- Hexpiration.
    rewrite run_bind.
    assert (match BackupOptions.timestamp options with
            | Some timestamp =>
                if negb (validateTimeTravelTimestamp now timestamp)
                then throw (Error "Invalid timestamp for time travel")
                else ret tt
            | None => ret tt
            end r = (Ok tt, r)) as ->.
    { destruct (BackupOptions.timestamp options) as [t|]; [|reflexivity].
      now rewrite (Hwindow t eq_refl). }
    rewrite run_bind.
    assert (match expiration with
            | Some None => throw (RangeError "Invalid time value")
            | _ => ret tt
            end r = (Ok tt, r)) as ->.
    { destruct expiration as [[e0|]|]; [reflexivity|congruence|reflexivity]. }
    rewrite run_bind, Hlisted. exact Hall.
  - assert (exists res, In res results
              /\ fst (backupOne options instant expiration failing r) = Ok res)
      as (res & Hres & Eres).
    { clear -HF Hin. induction HF as [|di res infos' ress Hdi HF IH];
        [destruct Hin|].
      destruct Hin as [->|Hin']; [exists res; split; [now left | exact Hdi]|].
      destruct (IH Hin') as (res' & ? & ?). exists res'. split; [now right | assumption]. }
    rewrite Hone in Eres. cbn [fst] in Eres. injection Eres as <-. exact Hres.
Qed.

(** The members of the example dataset, in the order of its listing. *)
Lemma tableInfosOf_sales :
  tableInfosOf Example.sales
  = [TableInfo.mk "orders" "TABLE" None; TableInfo.mk "users" "TABLE" None;
     TableInfo.mk "items" "TABLE" None].
Proof. vm_compute. reflexivity. Qed.

(** The backup of the example project when the snapshot job of sales.items
    is refused: sales reports 2 tables and the error, hr is backed up as it
    is alone. *)
Lemma backupDataset_partial_failure_witness :
  length (tableInfosOf Example.sales) = 3%nat
  /\ exists results r',
       backupDataset Example.now (BackupOptions.mk "proj" None None None None)
                     Example.flaky = (Ok results, r')
       /\ Forall2
            (fun di result =>
               fst (backupOne (BackupOptions.mk "proj" None None None None)
                      Example.now (Some (Some (Example.now + 90 * JS.msPerDay)))
                      di Example.flaky) = Ok result)
            [DatasetInfo.mk "sales" (Some "EU") [];
             DatasetInfo.mk "hr" (Some "EU") []] results
       /\ In (BackupResult.mk
                (generateBackupDatasetName "sales" Example.now) "sales"
                Example.now 2 false
                ["Failed to create snapshot for " ++ "items" ++ ": "
                   ++ "Error: Quota exceeded"])
             results.
Proof.
  split; [rewrite tableInfosOf_sales; reflexivity|].
  apply (backupDataset_partial_failure Example.now
           (BackupOptions.mk "proj" None None None None) Example.flaky
           Example.now (Some (Some (Example.now + 90 * JS.msPerDay)))
           [DatasetInfo.mk "sales" (Some "EU") [];
            DatasetInfo.mk "hr" (Some "EU") []]
           (DatasetInfo.mk "sales" (Some "EU") []) Example.sales "EU"
           (TableInfo.mk "items" "TABLE" None) "Error: Quota exceeded").
  - reflexivity.
  - vm_compute. reflexivity.
  - discriminate.
  - intros t Ht. discriminate Ht.
  - reflexivity.
  - intros rq Hrq. destruct rq; try reflexivity. now destruct (Hrq q).
  - vm_compute. reflexivity.
  - apply NoDup_cons. split; [|apply NoDup_singleton].
    intros H. apply list_elem_of_singleton in H. discriminate H.
  - intros di [<-|[<-|Hf]]; [vm_compute; reflexivity | vm_compute; reflexivity
                             | destruct Hf].
  - now left.
  - vm_compute. reflexivity.
  - reflexivity.
  - discriminate.
  - vm_compute. reflexivity.
  - vm_compute. reflexivity.
  - rewrite tableInfosOf_sales. right. right. left. reflexivity.
  - vm_compute. reflexivity.
  - intros t Ht Hne. rewrite tableInfosOf_sales in Ht.
    destruct Ht as [<-|[<-|[<-|Hf]]]; [| | |destruct Hf];
      first [vm_compute; reflexivity | now destruct Hne].
Defined.

End PartialFailure.

(** ** restore.ts: the members of one backup *)

Section RestoreMembers.

Variables (options : RestoreOptions.t) (backup : BackupInfo.t).

Let B := BackupInfo.backupDatasetId backup.
Let target := BackupInfo.sourceDatasetId backup.

Hypothesis Hoverwrite : default false (RestoreOptions.overwrite options) = false.
Hypothesis Hnames : B <> target.

Let targetRef (r : Remote) (t : string) : string :=
  "`" ++ projectId r ++ "." ++ target ++ "." ++ t ++ "`".

Let outcome : Remote -> string -> Outcome.t := restoreOutcome B target.

(** Without [overwrite], a member whose target table exists fails with the
    target-exists error before any job is created. *)
Lemma restoreTable_target_exists r t :
  fault r (TableExists target t) = None ->
  isSome (lookupTable r target t) = true ->
  restoreTable B t target t false r
  = (Throw (Error (targetExistsMessage (targetRef r t))), r).
Proof.
  intros Hf He. unfold restoreTable.
  rewrite run_bind, run_getProjectId. cbv zeta.
  rewrite run_bind, run_tableExists, Hf, He. reflexivity.
Qed.

Lemma restoreMember_run r t S :
  fault r (TableExists target t) = None ->
  is_Some (catalog r !! target) ->
  lookupTable r B t = Some S ->
  restoreMember options backup target t r
  = (Ok (outcome r t),
     if Outcome.success (outcome r t)
     then putTable target t (Table.mk "TABLE" None None (Table.rows S) None) r
     else r).
Proof.
  intros Hf [TD Ht] Hs. unfold restoreMember. fold B.
  rewrite Hoverwrite, run_tryCatch, run_bind. unfold restoreTable.
  rewrite run_bind, run_getProjectId. cbv zeta.
  rewrite run_bind, run_tableExists, Hf. unfold outcome, restoreOutcome.
  destruct (isSome (lookupTable r target t)) eqn:Ee; cbn [andb negb].
  - rewrite run_throw, run_ret. reflexivity.
  - rewrite run_runQuery.
    destruct (fault r (QueryJob _)) as [e|]; [now rewrite run_ret|].
    unfold execute. rewrite Ht, Hs, Ee. cbn [andb]. now rewrite run_ret.
Qed.

(** The fan-out over the snapshots of a backup whose target dataset exists:
    every member gets its own outcome; the members that succeed are in the
    target afterwards, as clones of their snapshots, and nothing else of
    the catalog changes. *)
Lemma forEach_restoreMember_run (ids : list string) :
  forall r,
  NoDup ids ->
  (forall t, In t ids -> fault r (TableExists target t) = None) ->
  is_Some (catalog r !! target) ->
  (forall t, In t ids -> is_Some (lookupTable r B t)) ->
  exists r',
    forEach (restoreMember options backup target) ids r
    = (Ok (map (outcome r) ids), r')
    /\ fault r' = fault r /\ projectId r' = projectId r
    /\ (forall k, k <> target -> catalog r' !! k = catalog r !! k)
    /\ is_Some (catalog r' !! target)
    /\ (forall t, ~ In t ids -> lookupTable r' target t = lookupTable r target t)
    /\ (forall t S, In t ids -> lookupTable r B t = Some S ->
          lookupTable r' target t
          = if Outcome.success (outcome r t)
            then Some (Table.mk "TABLE" None None (Table.rows S) None)
            else lookupTable r target t).
Proof.
  induction ids as [|t rest IH]; intros r Hnd Hf Htgt Hs.
  - exists r. rewrite run_forEach_nil. repeat split; try assumption.
    intros t S Hin. destruct Hin.
  - apply NoDup_cons in Hnd as [Hnotin Hnd].
    assert (~ In t rest) as Hnotin' by (now rewrite <- list_elem_of_In).
    destruct (Hs t ltac:(now left)) as [S ES].
    rewrite run_forEach_cons, (restoreMember_run r t S)
      by (auto; apply Hf; now left).
    set (r1 := if Outcome.success (outcome r t)
               then putTable target t
                      (Table.mk "TABLE" None None (Table.rows S) None) r
               else r).
    assert (fault r1 = fault r /\ projectId r1 = projectId r) as [F1 P1]
      by (subst r1; destruct (Outcome.success _); now split).
    assert (forall k, k <> target -> catalog r1 !! k = catalog r !! k) as C1.
    { intros k Hk. subst r1. destruct (Outcome.success _); [|reflexivity].
      now apply catalog_putTable. }
    assert (is_Some (catalog r1 !! target)) as T1.
    { subst r1. destruct (Outcome.success _); [|assumption].
      now apply catalog_putTable_is_Some. }
    assert (forall t', t' <> t ->
              lookupTable r1 target t' = lookupTable r target t') as L1.
    { intros t' Hne. subst r1. destruct (Outcome.success _); [|reflexivity].
      rewrite lookupTable_putTable.
      destruct (decide _) as [(_ & ? & _)|_]; [congruence | reflexivity]. }
    assert (forall t', lookupTable r1 B t' = lookupTable r B t') as LB.
    { intros t'. subst r1. destruct (Outcome.success _); [|reflexivity].
      rewrite lookupTable_putTable.
      destruct (decide _) as [(? & _)|_]; [congruence | reflexivity]. }
    assert (forall t', In t' rest -> outcome r1 t' = outcome r t') as O1.
    { intros t' Hin. unfold outcome, restoreOutcome. rewrite F1, P1, L1; [reflexivity|].
      now intros ->. }
    destruct (IH r1 Hnd) as (r' & E & F & P & C & T & LO & LI).
    + intros t' Hin. rewrite F1. apply Hf. now right.
    + exact T1.
    + intros t' Hin. rewrite LB. apply Hs. now right.
    + rewrite E. exists r'. split.
      { cbn [map]. now rewrite (map_ext_in _ _ _ O1). }
      split; [congruence|]. split; [congruence|].
      split; [intros k Hk; now rewrite C, C1|].
      split; [exact T|]. split.
      * intros t' Hn. rewrite LO by (intros Hin; apply Hn; now right).
        apply L1. intros ->. apply Hn. now left.
      * intros t' S' [<-|Hin] ES'.
        -- rewrite LO by assumption.
           rewrite ES in ES'. injection ES' as <-. subst r1.
           destruct (Outcome.success (outcome r t)); [|reflexivity].
           rewrite lookupTable_putTable.
           destruct (decide _) as [_|Hn]; [reflexivity|].
           exfalso. apply Hn. now repeat split.
        -- rewrite (LI t' S' Hin) by (now rewrite LB).
           rewrite (O1 t' Hin), L1 by (now intros ->). reflexivity.
Qed.

End RestoreMembers.

(** ** restore.ts: the materialized views of the target *)

Section Views.

Variables (d : string) (V : string -> Prop).

(** The tables of [d] other than those named by [V] are as they were. *)
Let keeps (r r' : Remote) : Prop :=
  fault r' = fault r
  /\ forall t, ~ V t -> lookupTable r' d t = lookupTable r d t.

Lemma keeps_refl r : keeps r r.
Proof. now split. Qed.

Lemma keeps_trans r1 r2 r3 : keeps r1 r2 -> keeps r2 r3 -> keeps r1 r3.
Proof.
  intros [F1 L1] [F2 L2]. split; [congruence|].
  intros t Ht. now rewrite L2, L1.
Qed.

Lemma recreateMaterializedView_keeps v query er ri :
  V v -> preserves id keeps (recreateMaterializedView d v query er ri).
Proof.
  intros Hv. unfold recreateMaterializedView.
  repeat (preserves_step keeps_refl keeps_trans).
  - apply (preserves_readonly _ _ keeps_refl). intros ?. apply tableExists_readonly.
  - intros r. rewrite run_tableDelete.
    destruct (fault r _); [apply keeps_refl|].
    destruct (lookupTable r d v); [|apply keeps_refl].
    split; [reflexivity|]. intros t0 Ht0. unfold id. cbn [snd].
    rewrite lookupTable_dropTable.
    destruct (decide _) as [(_ & ?)|_]; [congruence | reflexivity].
  - intros r. rewrite run_runQuery.
    destruct (fault r _); [apply keeps_refl|].
    unfold execute.
    destruct (catalog r !! d); [|apply keeps_refl].
    destruct (lookupTable r d v); [apply keeps_refl|].
    split; [reflexivity|]. intros t0 Ht0. unfold id. cbn [snd].
    rewrite lookupTable_putTable.
    destruct (decide _) as [(_ & ? & _)|_]; [congruence | reflexivity].
Qed.

End Views.

Section RecreateViews.

Variable r : Remote.
Hypothesis Hfaults : onlyJobsFail (fault r).

(** Every view [listMaterializedViews] returns is a table of kind
    MATERIALIZED_VIEW. *)
Lemma listMaterializedViews_noFault d D :
  catalog r !! d = Some D ->
  exists mvs,
    listMaterializedViews d r = (Ok mvs, r)
    /\ forall mv, In mv mvs ->
         exists T, lookupTable r d (MaterializedViewInfo.viewId mv) = Some T
                   /\ Table.type T = "MATERIALIZED_VIEW".
Proof.
  intros Hd. unfold listMaterializedViews. rewrite run_bind, run_getTables.
  rewrite (noFault r Hfaults), Hd by discriminate.
  set (f := fun (k : string) (T : Table.t) =>
    if String.eqb (Table.type T) "MATERIALIZED_VIEW"
    then match Table.materializedView T ≫= MaterializedView.query with
         | None | Some EmptyString => None
         | Some mvQuery =>
             Some (MaterializedViewInfo.mk k mvQuery
                     (Table.materializedView T ≫= MaterializedView.enableRefresh)
                     (Table.materializedView T
                        ≫= MaterializedView.refreshIntervalMs))
         end
    else None).
  exists (omap (fun kT => f (fst kT) (snd kT)) (map_to_list (Dataset.tables D))).
  split.
  - apply (collect_listing r _ f). intros k T Hin.
    rewrite run_tryCatch, run_bind, run_tableGetMetadata.
    rewrite (noFault r Hfaults) by discriminate.
    rewrite (lookupTable_listing r d D k T Hd Hin). unfold f.
    destruct (String.eqb (Table.type T) "MATERIALIZED_VIEW"); [|reflexivity].
    now destruct (Table.materializedView T ≫= MaterializedView.query) as [[|? ?]|].
  - intros mv Hin.
    apply list_elem_of_In, list_elem_of_omap in Hin as ([k T] & Hin & E).
    cbn [fst snd] in E. unfold f in E.
    destruct (String.eqb_spec (Table.type T) "MATERIALIZED_VIEW"); [|discriminate].
    destruct (Table.materializedView T ≫= MaterializedView.query) as [[|? ?]|];
      try discriminate.
    injection E as <-. exists T. split; [|assumption].
    apply (lookupTable_listing r d D k T Hd). now apply list_elem_of_In.
Qed.

(** Recreating the materialized views never fails and leaves the tables
    of other kinds as they are. *)
Lemma recreateMaterializedViewsInDataset_run d D :
  catalog r !! d = Some D ->
  exists n r',
    recreateMaterializedViewsInDataset d r = (Ok n, r')
    /\ forall t T, lookupTable r d t = Some T ->
         Table.type T <> "MATERIALIZED_VIEW" -> lookupTable r' d t = Some T.
Proof.
  intros Hd. destruct (listMaterializedViews_noFault d D Hd) as (mvs & El & Hmv).
  set (V := fun v => exists T, lookupTable r d v = Some T
                               /\ Table.type T = "MATERIALIZED_VIEW").
  unfold recreateMaterializedViewsInDataset.
  rewrite run_tryCatch, run_bind, El.
  destruct (length mvs =? 0)%nat.
  { rewrite run_ret. exists O, r. split; [reflexivity | auto]. }
  rewrite run_bind.
  match goal with |- context [forEach ?body mvs r] =>
    pose proof (preserves_forEach_In id _
                  (keeps_refl d V) (keeps_trans d V) body mvs) as Hk;
    destruct (forEach body mvs r) as [[bs|e] r'] eqn:E
  end.
  - specialize (Hk ltac:(intros mv Hin; apply preserves_tryCatch;
       [apply keeps_trans | | intros ?; apply preserves_ret, keeps_refl];
       apply preserves_bind;
       [apply keeps_trans | apply recreateMaterializedView_keeps; now apply Hmv
       | intros ?; apply preserves_ret, keeps_refl]) r).
    rewrite E in Hk. destruct Hk as [_ Hk]. unfold id in Hk. cbn [snd] in Hk.
    rewrite run_ret. eexists _, r'. split; [reflexivity|].
    intros t T Ht Hty. rewrite Hk; [assumption|].
    intros (T' & ET' & Hty'). congruence.
  - specialize (Hk ltac:(intros mv Hin; apply preserves_tryCatch;
       [apply keeps_trans | | intros ?; apply preserves_ret, keeps_refl];
       apply preserves_bind;
       [apply keeps_trans | apply recreateMaterializedView_keeps; now apply Hmv
       | intros ?; apply preserves_ret, keeps_refl]) r).
    rewrite E in Hk. destruct Hk as [_ Hk]. unfold id in Hk. cbn [snd] in Hk.
    rewrite run_ret. exists O, r'. split; [reflexivity|].
    intros t T Ht Hty. rewrite Hk; [assumption|].
    intros (T' & ET' & Hty'). congruence.
Qed.

End RecreateViews.

(** ** restore.ts: one backup restored without [overwrite] *)

Section RestoreOne.

Variables (options : RestoreOptions.t) (backup : BackupInfo.t) (r : Remote).
Variables (BD TD : Dataset.t).

Hypothesis Hoverwrite : default false (RestoreOptions.overwrite options) = false.
Hypothesis Hfaults : onlyJobsFail (fault r).
Hypothesis Hnames :
  BackupInfo.backupDatasetId backup <> BackupInfo.sourceDatasetId backup.
Hypothesis Hbackup : catalog r !! BackupInfo.backupDatasetId backup = Some BD.
Hypothesis Htarget : catalog r !! BackupInfo.sourceDatasetId backup = Some TD.
Hypothesis Hmembers : snapshotIdsOf BD <> [].

(** The result object of a backup with snapshots whose target dataset
    exists, and the tables of the target afterwards. *)
Lemma restoreOne_run :
  exists n r',
    restoreOne options backup r
    = (Ok (let outcomes :=
             map (restoreOutcome (BackupInfo.backupDatasetId backup)
                    (BackupInfo.sourceDatasetId backup) r) (snapshotIdsOf BD) in
           let failed :=
             List.filter (fun o => negb (Outcome.success o)) outcomes in
           RestoreResult.mk (BackupInfo.backupDatasetId backup)
             (BackupInfo.sourceDatasetId backup)
             (length (List.filter Outcome.success outcomes)) n
             (length failed =? 0)%nat
             (if (0 <? length failed)%nat then map errorOrUnknown failed else [])),
       r')
    /\ forall t S,
         In t (snapshotIdsOf BD) ->
         Dataset.tables BD !! t = Some S ->
         Outcome.success
           (restoreOutcome (BackupInfo.backupDatasetId backup)
              (BackupInfo.sourceDatasetId backup) r t) = true ->
         lookupTable r' (BackupInfo.sourceDatasetId backup) t
         = Some (Table.mk "TABLE" None None (Table.rows S) None).
Proof.
  unfold restoreOne. cbv zeta.
  rewrite run_withLocal, run_tryCatch, run_bind, run_remote.
  rewrite (listBackupTables_noFault r Hfaults _ BD Hbackup). cbn [fst snd].
  destruct (snapshotIdsOf BD) as [|t0 ts] eqn:Et; [congruence|]. rewrite <- Et.
  replace (length (snapshotIdsOf BD) =? 0)%nat with false
    by (rewrite Et; reflexivity).
  rewrite run_bind, run_remote, run_datasetExists.
  rewrite (Hfaults (DatasetExists _)) by discriminate.
  rewrite Htarget. cbn [fst snd isSome negb].
  rewrite run_bind, run_ret.
  destruct (forEach_restoreMember_run options backup Hoverwrite Hnames
              (snapshotIdsOf BD) r)
    as (r1 & E & F1 & _ & _ & [TD1 HT1] & _ & L1).
  - apply snapshotIdsOf_NoDup.
  - intros t Ht. apply Hfaults. discriminate.
  - eauto.
  - intros t Ht. destruct (snapshotIdsOf_In BD t Ht) as (S & ES & _).
    exists S. unfold lookupTable. now rewrite Hbackup.
  - rewrite run_bind, run_remote, E. cbn [fst snd].
    rewrite run_bind, run_setLocal, run_bind, run_remote.
    destruct (recreateMaterializedViewsInDataset_run r1
                ltac:(now rewrite F1) _ TD1 HT1) as (n & r2 & E2 & L2).
    rewrite E2. cbn [fst snd].
    repeat (rewrite run_bind || rewrite run_setLocal).
    exists n, r2. split.
    + cbn [RestoreResult.setTablesRestored RestoreResult.setSuccess
           RestoreResult.setMaterializedViewsRecreated
           RestoreResult.sourceBackupDatasetId RestoreResult.targetDatasetId
           RestoreResult.tablesRestored RestoreResult.success
           RestoreResult.materializedViewsRecreated RestoreResult.errors].
      destruct (0 <? length _)%nat; [rewrite run_setLocal | rewrite run_ret];
        reflexivity.
    + intros t S Ht ES Hok.
      apply (L2 t); [|cbn; discriminate].
      rewrite (L1 t S Ht), Hok; [reflexivity|].
      unfold lookupTable. now rewrite Hbackup.
Qed.

End RestoreOne.

(** A list loses an element to a filter that rejects one of its members. *)
Lemma filter_excludes {A} (p : A -> bool) (l : list A) (x : A) :
  In x l -> p x = false -> (length (List.filter p l) < length l)%nat.
Proof.
  intros Hin Hp. induction l as [|a rest IH]; [destruct Hin|].
  cbn [List.filter length]. destruct Hin as [->|Hin].
  - rewrite Hp. pose proof (List.filter_length_le p rest). lia.
  - specialize (IH Hin). destruct (p a); cbn [length]; lia.
Qed.

Section RestoreCounts.

Variables (B target : string) (r : Remote).

Let cloned (t : string) : bool :=
  negb (isSome (lookupTable r target t))
  && negb (isSome (fault r (QueryJob (CreateTableClone false target t B t)))).

Lemma restoreOutcome_success t :
  Outcome.success (restoreOutcome B target r t) = cloned t.
Proof.
  unfold restoreOutcome, cloned.
  destruct (isSome (lookupTable r target t)); [reflexivity|].
  now destruct (fault r _).
Qed.

Lemma restoreOutcome_counted ids :
  length (List.filter Outcome.success (map (restoreOutcome B target r) ids))
  = length (List.filter cloned ids).
Proof.
  induction ids as [|t rest IH]; [reflexivity|].
  cbn [map List.filter]. rewrite restoreOutcome_success.
  destruct (cloned t); cbn [length]; now rewrite IH.
Qed.

(** A member whose restore fails is among the failed outcomes. *)
Lemma restoreOutcome_failed ids t :
  In t ids -> Outcome.success (restoreOutcome B target r t) = false ->
  In (restoreOutcome B target r t)
     (List.filter (fun o => negb (Outcome.success o))
        (map (restoreOutcome B target r) ids)).
Proof.
  intros Hin Hf. apply filter_In. split; [now apply in_map|].
  now rewrite Hf.
Qed.

End RestoreCounts.

Section RestoreWithoutOverwrite.

(** C6. A backup is restored without [overwrite] into a target dataset
    in which table [X] exists already, only query jobs being refused by the
    service: the restore of [X] throws the target-exists error before any
    job is created; the result of the backup counts exactly the snapshots
    whose target was absent and whose clone job was accepted, [X] is not
    one of them, the result is not a success and carries the message of
    [X]; and every snapshot so counted is a table of the target afterwards,
    with the rows of its snapshot. *)
Theorem restoreOne_without_overwrite
    (options : RestoreOptions.t) (backup : BackupInfo.t) (r : Remote)
    (BD TD : Dataset.t) (X : string) (TX : Table.t)
    (Hoverwrite : default false (RestoreOptions.overwrite options) = false)
    (Hfaults : onlyJobsFail (fault r))
    (Hnames : BackupInfo.backupDatasetId backup
              <> BackupInfo.sourceDatasetId backup)
    (Hbackup : catalog r !! BackupInfo.backupDatasetId backup = Some BD)
    (Htarget : catalog r !! BackupInfo.sourceDatasetId backup = Some TD)
    (HX : In X (snapshotIdsOf BD))
    (HTX : Dataset.tables TD !! X = Some TX) :
  let B := BackupInfo.backupDatasetId backup in
  let target := BackupInfo.sourceDatasetId backup in
  let cloned t :=
    negb (isSome (lookupTable r target t))
    && negb (isSome (fault r (QueryJob (CreateTableClone false target t B t)))) in
  let message :=
    Error (targetExistsMessage
             ("`" ++ projectId r ++ "." ++ target ++ "." ++ X ++ "`")) in
  restoreTable B X target X false r = (Throw message, r)
  /\ cloned X = false
  /\ exists result r',
       restoreOne options backup r = (Ok result, r')
       /\ RestoreResult.tablesRestored result
          = length (List.filter cloned (snapshotIdsOf BD))
       /\ (RestoreResult.tablesRestored result < length (snapshotIdsOf BD))%nat
       /\ RestoreResult.success result = false
       /\ In ("Failed to restore table " ++ X ++ ": " ++ message)
             (RestoreResult.errors result)
       /\ forall t S,
            In t (snapshotIdsOf BD) -> Dataset.tables BD !! t = Some S ->
            cloned t = true ->
            lookupTable r' target t
            = Some (Table.mk "TABLE" None None (Table.rows S) None).
Proof.
  intros B target cloned message. subst B target.
  assert (lookupTable r (BackupInfo.sourceDatasetId backup) X = Some TX) as EX
    by (unfold lookupTable; rewrite Htarget; exact HTX).
  assert (cloned X = false) as HcX by (unfold cloned; now rewrite EX).
  split.
  { apply (restoreTable_target_exists backup r X);
      [apply Hfaults; discriminate | now rewrite EX]. }
  split; [exact HcX|].
  destruct (restoreOne_run options backup r BD TD Hoverwrite Hfaults Hnames
              Hbackup Htarget) as (n & r' & E & Hin).
  { intros He. rewrite He in HX. destruct HX. }
  cbv zeta in E.
  eexists _, r'. split; [exact E|].
  cbn [RestoreResult.tablesRestored RestoreResult.success RestoreResult.errors].
  pose proof (restoreOutcome_failed (BackupInfo.backupDatasetId backup)
                (BackupInfo.sourceDatasetId backup) r (snapshotIdsOf BD) X HX)
    as HfX.
  rewrite restoreOutcome_success in HfX. specialize (HfX HcX).
  assert (restoreOutcome (BackupInfo.backupDatasetId backup)
            (BackupInfo.sourceDatasetId backup) r X
          = Outcome.mk false X
              (Some ("Failed to restore table " ++ X ++ ": " ++ message)))
    as EoX by (unfold restoreOutcome; now rewrite EX).
  rewrite EoX in HfX.
  split; [apply restoreOutcome_counted|].
  split.
  { rewrite restoreOutcome_counted.
    exact (filter_excludes cloned (snapshotIdsOf BD) X HX HcX). }
  clear E.
  destruct (List.filter (fun o => negb (Outcome.success o)) _) as [|o os];
    [destruct HfX|].
  cbn [length Nat.eqb Nat.ltb Nat.leb]. split; [reflexivity|].
  split.
  { change ("Failed to restore table " ++ X ++ ": " ++ message)
      with (errorOrUnknown
              (Outcome.mk false X
                 (Some ("Failed to restore table " ++ X ++ ": " ++ message)))).
    now apply in_map. }
  intros t S Ht ES Hc. apply (Hin t S Ht ES).
  now rewrite restoreOutcome_success.
Qed.

(** The snapshots of the example backup, in the order of its listing. *)
Lemma snapshotIdsOf_salesBackup :
  snapshotIdsOf Example.salesBackup = ["orders"; "users"; "items"].
Proof. vm_compute. reflexivity. Qed.

(** The backup of sales of the example restored into the sales dataset
    that still holds orders: orders is refused, items and users are
    restored. *)
Lemma restoreOne_without_overwrite_witness :
  exists result r',
    restoreOne (RestoreOptions.mk "proj" (Some 1734273022000) None)
      (BackupInfo.mk "zzz_backup_20241215_143022_sales" "sales" 1734273022000)
      Example.restorable = (Ok result, r')
    /\ RestoreResult.tablesRestored result = 2%nat
    /\ RestoreResult.success result = false
    /\ In ("Failed to restore table orders: Error: Target table `proj.sales.orders` already exists. Use --overwrite to replace it.")
          (RestoreResult.errors result)
    /\ lookupTable r' "sales" "items"
       = Some (Table.mk "TABLE" None None (AsOf "sales" "items" 1734273022000)
                 None).
Proof.
  destruct (restoreOne_without_overwrite
              (RestoreOptions.mk "proj" (Some 1734273022000) None)
              (BackupInfo.mk "zzz_backup_20241215_143022_sales" "sales"
                 1734273022000)
              Example.restorable Example.salesBackup Example.salesLeft
              "orders" Example.plain)
    as (_ & _ & result & r' & E & Hn & _ & Hs & He & Hin).
  - reflexivity.
  - intros rq _. reflexivity.
  - discriminate.
  - vm_compute. reflexivity.
  - vm_compute. reflexivity.
  - rewrite snapshotIdsOf_salesBackup. now left.
  - vm_compute. reflexivity.
  - exists result, r'. split; [exact E|].
    split; [rewrite Hn, snapshotIdsOf_salesBackup; vm_compute; reflexivity|].
    split; [exact Hs|]. split; [exact He|].
    apply (Hin "items" (Example.snapshot "items")).
    + rewrite snapshotIdsOf_salesBackup. right. right. now left.
    + vm_compute. reflexivity.
    + vm_compute. reflexivity.
Defined.

End RestoreWithoutOverwrite.

(** ** list-backups.ts: what a listed backup looks like *)

Section Listed.

Lemma prefix_split (p s : string) :
  String.prefix p s = true -> exists x, s = p ++ x.
Proof.
  revert s. induction p as [|c p IH]; intros s H.
  - now exists s.
  - destruct s as [|c' s]; [discriminate H|]. cbn [String.prefix] in H.
    destruct (ascii_dec c c') as [<-|]; [|discriminate H].
    destruct (IH s H) as (x & ->). now exists x.
Qed.

Lemma split_prefixed (x : string) :
  JS.split "_" (BACKUP_DATASET_PREFIX ++ x) = "zzz" :: "backup" :: JS.split "_" x.
Proof.
  change (BACKUP_DATASET_PREFIX ++ x)
    with ("zzz" ++ String "_" ("backup" ++ String "_" x)).
  now rewrite !split_append.
Qed.

Lemma DateUTC_whole_seconds y m d h mi s t :
  JS.DateUTC y m d h mi s = Some t -> JS.validTime t /\ JS.msFromTime t = 0.
Proof.
  unfold JS.DateUTC. destruct y, m, d, h, mi, s; try discriminate.
  cbn [mbind option_bind]. intros H. apply TimeClip_Some in H as [-> Hv].
  split; [exact Hv|].
  unfold JS.msFromTime, JS.MakeDate, JS.MakeTime, JS.msPerDay, JS.msPerHour,
    JS.msPerMinute, JS.msPerSecond.
  match goal with |- (?a * 86400000 + (?b * 3600000 + ?c * 60000 + ?e * 1000 + 0)) mod 1000 = 0 =>
    replace (a * 86400000 + (b * 3600000 + c * 60000 + e * 1000 + 0))
      with ((a * 86400 + b * 3600 + c * 60 + e) * 1000) by lia
  end.
  apply Z.mod_mul. lia.
Qed.

(** An entry [listBackups] pushes: its id is the dataset id, which is the
    prefix, a segment of 8 characters, a segment of 6 characters and the
    source id, joined by underscores; its timestamp is an instant a [Date]
    holds, on a whole second. *)
Lemma parseBackupDatasetId_Some (datasetId : string) (b : BackupInfo.t) :
  parseBackupDatasetId datasetId = Some b ->
  BackupInfo.backupDatasetId b = datasetId
  /\ (exists datePart timePart,
        datasetId = BACKUP_DATASET_PREFIX ++ datePart ++ "_" ++ timePart
                      ++ "_" ++ BackupInfo.sourceDatasetId b
        /\ String.length datePart = 8%nat /\ String.length timePart = 6%nat)
  /\ JS.validTime (BackupInfo.timestamp b)
  /\ JS.msFromTime (BackupInfo.timestamp b) = 0.
Proof.
  intros H.
  destruct (JS.startsWith datasetId BACKUP_DATASET_PREFIX) eqn:Hp;
    [|unfold parseBackupDatasetId in H; rewrite Hp in H; discriminate H].
  destruct (Nat.ltb_spec (length (JS.split "_" datasetId)) 5) as [Hl|Hl].
  { unfold parseBackupDatasetId in H. rewrite Hp in H. cbn [negb] in H.
    apply Nat.ltb_lt in Hl. rewrite Hl in H. discriminate H. }
  rewrite parseBackupDatasetId_eq in H by assumption. cbv zeta in H.
  destruct (prefix_split _ _ Hp) as (x & ->).
  rewrite split_prefixed in H, Hl.
  pose proof (join_split "_" x) as Hj.
  destruct (JS.split "_" x) as [|D [|T [|p more]]]; cbn [length] in Hl; try lia.
  cbn [nth] in H. unfold JS.slice in H. cbn [skipn] in H.
  destruct (Nat.eqb_spec (String.length D) 8) as [H8|]; [|discriminate H].
  destruct (Nat.eqb_spec (String.length T) 6) as [H6|]; [|discriminate H].
  cbn [andb] in H.
  destruct (JS.DateUTC _ _ _ _ _ _) as [t|] eqn:Et; [|discriminate H].
  injection H as <-. cbn [BackupInfo.backupDatasetId BackupInfo.sourceDatasetId
                          BackupInfo.timestamp].
  split; [reflexivity|]. split; [|exact (DateUTC_whole_seconds _ _ _ _ _ _ _ Et)].
  exists D, T. repeat split; try assumption.
  rewrite <- Hj. reflexivity.
Qed.

End Listed.

(** ** list-backups.ts: the listing *)

Section ListBackups.

(** X1. When the service answers the listing of datasets, [listBackups]
    returns, without changing anything, exactly the entries decoded from
    the dataset ids of the project, each dataset at most once, the newest
    first; the id of every entry is the prefix, a segment of 8 and a
    segment of 6 characters and the source id, joined by underscores, and
    its timestamp is an instant on a whole second. *)
Theorem listBackups_newest_first (r : Remote)
    (Hlisting : fault r GetDatasets = None) :
  exists backups,
    listBackups r = (Ok backups, r)
    /\ StronglySorted
         (fun a b => BackupInfo.timestamp a >= BackupInfo.timestamp b) backups
    /\ NoDup (map BackupInfo.backupDatasetId backups)
    /\ (forall b, In b backups <->
          is_Some (catalog r !! BackupInfo.backupDatasetId b)
          /\ parseBackupDatasetId (BackupInfo.backupDatasetId b) = Some b)
    /\ (forall b, In b backups ->
          (exists datePart timePart,
             BackupInfo.backupDatasetId b
             = BACKUP_DATASET_PREFIX ++ datePart ++ "_" ++ timePart
                 ++ "_" ++ BackupInfo.sourceDatasetId b
             /\ String.length datePart = 8%nat
             /\ String.length timePart = 6%nat)
          /\ JS.validTime (BackupInfo.timestamp b)
          /\ JS.msFromTime (BackupInfo.timestamp b) = 0).
Proof.
  unfold listBackups. rewrite run_bind, run_getDatasets, Hlisting, run_ret.
  set (ids := map fst (map_to_list (catalog r))).
  assert (forall id, In id ids <-> is_Some (catalog r !! id)) as Hids.
  { intros id. unfold ids. rewrite <- list_elem_of_In, list_elem_of_fmap. split.
    - intros ([k D] & -> & Hin). apply elem_of_map_to_list in Hin. eauto.
    - intros [D HD]. exists (id, D). split; [reflexivity|].
      now apply elem_of_map_to_list. }
  assert (NoDup ids) as Hnd by apply NoDup_fst_map_to_list.
  assert (forall b, In b (listBackupsOf ids) <->
            exists id, In id ids /\ parseBackupDatasetId id = Some b) as Hin.
  { intros b. unfold listBackupsOf.
    rewrite <- list_elem_of_In.
    rewrite (sort_perm BackupInfo.timestamp (omap parseBackupDatasetId ids)).
    rewrite list_elem_of_omap. setoid_rewrite list_elem_of_In. reflexivity. }
  exists (listBackupsOf ids). split; [reflexivity|].
  split; [apply (sort_sorted BackupInfo.timestamp)|]. split.
  { unfold listBackupsOf.
    rewrite (sort_perm BackupInfo.timestamp (omap parseBackupDatasetId ids)).
    clear -Hnd. induction ids as [|id rest IH]; [constructor|].
    apply NoDup_cons in Hnd as [Hni Hnd]. cbn [omap list_omap].
    destruct (parseBackupDatasetId id) as [b|] eqn:Eb; [|now apply IH].
    cbn [map]. apply NoDup_cons. split; [|now apply IH].
    destruct (parseBackupDatasetId_Some _ _ Eb) as (-> & _).
    intros Hin. apply Hni.
    apply list_elem_of_fmap in Hin as (b' & -> & Hin).
    apply list_elem_of_omap in Hin as (id' & Hin & Eb').
    destruct (parseBackupDatasetId_Some _ _ Eb') as (-> & _). exact Hin. }
  split.
  - intros b. rewrite Hin. split.
    + intros (id & Hi & Eb).
      destruct (parseBackupDatasetId_Some _ _ Eb) as (-> & _).
      split; [now apply Hids | exact Eb].
    + intros (Hc & Eb). exists (BackupInfo.backupDatasetId b).
      split; [now apply Hids | exact Eb].
  - intros b Hb. apply Hin in Hb as (id & _ & Eb).
    destruct (parseBackupDatasetId_Some _ _ Eb) as (-> & Hshape & Hv). auto.
Qed.

(** The example project holds one backup. *)
Lemma listBackups_newest_first_witness :
  fault Example.restorable GetDatasets = None
  /\ exists backups,
       listBackups Example.restorable = (Ok backups, Example.restorable)
       /\ (In (BackupInfo.mk "zzz_backup_20241215_143022_sales" "sales"
                 1734273022000) backups).
Proof.
  split; [reflexivity|].
  destruct (listBackups_newest_first Example.restorable eq_refl)
    as (backups & E & _ & _ & Hin & _).
  exists backups. split; [exact E|].
  apply Hin. split; [vm_compute; eauto | vm_compute; reflexivity].
Defined.

End ListBackups.

(** ** utils.ts: the timestamp pattern *)

Section Pattern.

(** The calendar fields of an instant are those of its whole second. *)
Lemma Day_seconds t : JS.Day t = (t / 1000) / 86400.
Proof. unfold JS.Day, JS.msPerDay. rewrite Z.div_div by lia. reflexivity. Qed.

Lemma HourFromTime_seconds t : JS.HourFromTime t = ((t / 1000) / 3600) mod 24.
Proof. unfold JS.HourFromTime, JS.msPerHour. rewrite Z.div_div by lia. reflexivity. Qed.

Lemma MinFromTime_seconds t : JS.MinFromTime t = ((t / 1000) / 60) mod 60.
Proof. unfold JS.MinFromTime, JS.msPerMinute. rewrite Z.div_div by lia. reflexivity. Qed.

Lemma fields_same_second t1 t2 :
  t1 / 1000 = t2 / 1000 ->
  JS.YearFromTime t1 = JS.YearFromTime t2
  /\ JS.MonthFromTime t1 = JS.MonthFromTime t2
  /\ JS.DateFromTime t1 = JS.DateFromTime t2
  /\ JS.HourFromTime t1 = JS.HourFromTime t2
  /\ JS.MinFromTime t1 = JS.MinFromTime t2
  /\ JS.SecFromTime t1 = JS.SecFromTime t2.
Proof.
  intros H.
  assert (JS.Day t1 = JS.Day t2) as HD by (now rewrite !Day_seconds, H).
  assert (JS.YearFromTime t1 = JS.YearFromTime t2) as HY
    by (unfold JS.YearFromTime; now rewrite HD).
  assert (JS.DayWithinYear t1 = JS.DayWithinYear t2) as HW
    by (unfold JS.DayWithinYear; now rewrite HD, HY).
  assert (JS.MonthFromTime t1 = JS.MonthFromTime t2) as HM
    by (unfold JS.MonthFromTime; now rewrite HW, HY).
  repeat split; try assumption.
  - unfold JS.DateFromTime. now rewrite HW, HY, HM.
  - now rewrite !HourFromTime_seconds, H.
  - now rewrite !MinFromTime_seconds, H.
  - unfold JS.SecFromTime, JS.msPerSecond. now rewrite H.
Qed.

Lemma formatBackupTimestamp_same_second t1 t2 :
  t1 / 1000 = t2 / 1000 -> formatBackupTimestamp t1 = formatBackupTimestamp t2.
Proof.
  intros H. destruct (fields_same_second t1 t2 H) as (HY & HM & HD & Hh & Hm & Hs).
  unfold formatBackupTimestamp, JS.getUTCFullYear, JS.getUTCMonth, JS.getUTCDate,
    JS.getUTCHours, JS.getUTCMinutes, JS.getUTCSeconds.
  now rewrite HY, HM, HD, Hh, Hm, Hs.
Qed.

(** Two numerals of the same length and digits only that are equal as
    strings denote the same number: used field by field below. *)
Lemma same_whole_second t1 t2 :
  JS.YearFromTime t1 = JS.YearFromTime t2 ->
  JS.MonthFromTime t1 = JS.MonthFromTime t2 ->
  JS.DateFromTime t1 = JS.DateFromTime t2 ->
  JS.HourFromTime t1 = JS.HourFromTime t2 ->
  JS.MinFromTime t1 = JS.MinFromTime t2 ->
  JS.SecFromTime t1 = JS.SecFromTime t2 ->
  t1 / 1000 = t2 / 1000.
Proof.
  intros HY HM HD Hh Hm Hs.
  pose proof (time_of_fields t1) as E1. pose proof (time_of_fields t2) as E2.
  rewrite HY, HM, HD, Hh, Hm, Hs in E1.
  pose proof (msFromTime_range t1). pose proof (msFromTime_range t2).
  unfold JS.MakeDate, JS.MakeTime, JS.msPerDay, JS.msPerHour, JS.msPerMinute,
    JS.msPerSecond in E1, E2.
  set (day := JS.MakeDay _ _ _) in *.
  assert (t1 - JS.msFromTime t1 = t2 - JS.msFromTime t2) as E by lia.
  unfold JS.msFromTime, JS.msPerSecond in *.
  pose proof (Z.div_mod t1 1000 ltac:(lia)). pose proof (Z.div_mod t2 1000 ltac:(lia)).
  lia.
Qed.

(** The pattern of an instant whose year has four digits: 8 digits, an
    underscore and 6 digits; the fields are read back from it. *)
Lemma formatBackupTimestamp_inj t1 t2 :
  1000 <= JS.YearFromTime t1 <= 9999 -> 1000 <= JS.YearFromTime t2 <= 9999 ->
  formatBackupTimestamp t1 = formatBackupTimestamp t2 -> t1 / 1000 = t2 / 1000.
Proof.
  intros Hy1 Hy2.
  unfold formatBackupTimestamp, JS.getUTCFullYear, JS.getUTCMonth, JS.getUTCDate,
    JS.getUTCHours, JS.getUTCMinutes, JS.getUTCSeconds. cbv zeta.
  destruct (fourDigits _ Hy1) as (Ly1 & _ & Ey1).
  destruct (fourDigits _ Hy2) as (Ly2 & _ & Ey2).
  pose proof (MonthFromTime_range t1). pose proof (MonthFromTime_range t2).
  pose proof (DateFromTime_range t1). pose proof (DateFromTime_range t2).
  pose proof (HourFromTime_range t1). pose proof (HourFromTime_range t2).
  pose proof (MinFromTime_range t1). pose proof (MinFromTime_range t2).
  pose proof (SecFromTime_range t1). pose proof (SecFromTime_range t2).
  destruct (twoDigits (JS.MonthFromTime t1 + 1) ltac:(lia)) as (Lm1 & _ & Em1).
  destruct (twoDigits (JS.MonthFromTime t2 + 1) ltac:(lia)) as (Lm2 & _ & Em2).
  destruct (twoDigits (JS.DateFromTime t1) ltac:(lia)) as (Ld1 & _ & Ed1).
  destruct (twoDigits (JS.DateFromTime t2) ltac:(lia)) as (Ld2 & _ & Ed2).
  destruct (twoDigits (JS.HourFromTime t1) ltac:(lia)) as (Lh1 & _ & Eh1).
  destruct (twoDigits (JS.HourFromTime t2) ltac:(lia)) as (Lh2 & _ & Eh2).
  destruct (twoDigits (JS.MinFromTime t1) ltac:(lia)) as (Li1 & _ & Ei1).
  destruct (twoDigits (JS.MinFromTime t2) ltac:(lia)) as (Li2 & _ & Ei2).
  destruct (twoDigits (JS.SecFromTime t1) ltac:(lia)) as (Ls1 & _ & Es1).
  destruct (twoDigits (JS.SecFromTime t2) ltac:(lia)) as (Ls2 & _ & Es2).
  intros E.
  apply append_inj_length in E as [Ey E]; [|congruence].
  apply append_inj_length in E as [Em E]; [|congruence].
  apply append_inj_length in E as [Ed E]; [|congruence].
  apply (append_inj_length "_" "_") in E as [_ E]; [|reflexivity].
  apply append_inj_length in E as [Eh E]; [|congruence].
  apply append_inj_length in E as [Ei Es]; [|congruence].
  assert (JS.MonthFromTime t1 + 1 = JS.MonthFromTime t2 + 1) by congruence.
  apply same_whole_second; try congruence. lia.
Qed.

(** X2. Backup names are unique per source and second: for instants whose
    UTC year has four digits, two generated names are equal exactly when
    the source ids are equal and the instants lie in the same second. *)
Theorem generateBackupDatasetName_unique (s1 s2 : string) (t1 t2 : Z)
    (Hyear1 : 1000 <= JS.getUTCFullYear t1 <= 9999)
    (Hyear2 : 1000 <= JS.getUTCFullYear t2 <= 9999) :
  generateBackupDatasetName s1 t1 = generateBackupDatasetName s2 t2
  <-> s1 = s2 /\ t1 / 1000 = t2 / 1000.
Proof.
  unfold JS.getUTCFullYear in *. split.
  - unfold generateBackupDatasetName. cbv zeta. intros E.
    apply append_inj_length in E as [_ E]; [|reflexivity].
    assert (forall t, 1000 <= JS.YearFromTime t <= 9999 ->
              String.length (formatBackupTimestamp t) = 15%nat) as Hlen.
    { intros t Hy.
      unfold formatBackupTimestamp, JS.getUTCFullYear, JS.getUTCMonth,
        JS.getUTCDate, JS.getUTCHours, JS.getUTCMinutes, JS.getUTCSeconds.
      cbv zeta. rewrite !length_append.
      destruct (fourDigits _ Hy) as (-> & _).
      pose proof (MonthFromTime_range t). pose proof (DateFromTime_range t).
      pose proof (HourFromTime_range t). pose proof (MinFromTime_range t).
      pose proof (SecFromTime_range t).
      destruct (twoDigits (JS.MonthFromTime t + 1) ltac:(lia)) as (-> & _).
      destruct (twoDigits (JS.DateFromTime t) ltac:(lia)) as (-> & _).
      destruct (twoDigits (JS.HourFromTime t) ltac:(lia)) as (-> & _).
      destruct (twoDigits (JS.MinFromTime t) ltac:(lia)) as (-> & _).
      destruct (twoDigits (JS.SecFromTime t) ltac:(lia)) as (-> & _).
      reflexivity. }
    apply append_inj_length in E as [Ef E]; [|now rewrite !Hlen].
    apply (append_inj_length "_" "_") in E as [_ E]; [|reflexivity].
    split; [exact E|]. now apply formatBackupTimestamp_inj.
  - intros [-> H]. unfold generateBackupDatasetName. cbv zeta.
    now rewrite (formatBackupTimestamp_same_second t1 t2 H).
Qed.

(** Two backups of sales half a second apart get the same name. *)
Lemma generateBackupDatasetName_unique_witness :
  1000 <= JS.getUTCFullYear 1734273022000 <= 9999
  /\ generateBackupDatasetName "sales" 1734273022000
     = generateBackupDatasetName "sales" 1734273022500.
Proof.
  split; [vm_compute; split; discriminate|].
  apply (generateBackupDatasetName_unique "sales" "sales"
           1734273022000 1734273022500);
    [vm_compute; split; discriminate | vm_compute; split; discriminate |].
  split; reflexivity.
Defined.

End Pattern.

(** ** restore.ts: the backups of a timestamp *)

Section Resolve.

Lemma numberToString_no_underscore n : hasChar "_" (JS.numberToString n) = false.
Proof.
  unfold JS.numberToString. destruct (Z.ltb_spec n 0).
  - cbn [hasChar]. rewrite allDigits_no_underscore; [reflexivity|].
    apply digitsOf_allDigits. lia.
  - apply allDigits_no_underscore, digitsOf_allDigits. lia.
Qed.

Lemma padStart2_no_underscore s :
  hasChar "_" s = false -> hasChar "_" (JS.padStart2 s) = false.
Proof.
  intros H. unfold JS.padStart2.
  destruct s as [|a [|b s]]; [reflexivity | | exact H].
  cbn [String.length hasChar] in *. exact H.
Qed.

Lemma includes_middle (a p b : string) : JS.includes (a ++ p ++ b) p = true.
Proof.
  induction a as [|c a IH].
  - cbn [String.append]. destruct (p ++ b) eqn:E; cbn [JS.includes];
      rewrite <- E, prefix_append; reflexivity.
  - cbn [String.append JS.includes]. rewrite IH. apply orb_true_r.
Qed.

(** The loop of [listBackupsForTimestamp] filters by the pattern of
    [formatBackupTimestamp]. *)
Lemma listBackupsForTimestampOf_eq (timestamp : Z) (allDatasets : list string) :
  listBackupsForTimestampOf timestamp allDatasets
  = omap (fun datasetId =>
            if negb (JS.startsWith datasetId BACKUP_DATASET_PREFIX) then None
            else if negb (JS.includes datasetId (formatBackupTimestamp timestamp))
            then None
            else if (length (JS.split "_" datasetId) <? 5)%nat then None
            else Some (BackupInfo.mk datasetId
                         (JS.join "_" (JS.slice 4 (JS.split "_" datasetId)))
                         timestamp))
         allDatasets.
Proof. reflexivity. Qed.

(** The pattern of every instant is two runs without an underscore around
    one underscore. *)
Lemma formatBackupTimestamp_parts (t : Z) :
  exists datePart timePart,
    formatBackupTimestamp t = datePart ++ "_" ++ timePart
    /\ hasChar "_" datePart = false /\ hasChar "_" timePart = false.
Proof.
  exists (JS.numberToString (JS.getUTCFullYear t)
            ++ JS.padStart2 (JS.numberToString (JS.getUTCMonth t + 1))
            ++ JS.padStart2 (JS.numberToString (JS.getUTCDate t))),
         (JS.padStart2 (JS.numberToString (JS.getUTCHours t))
            ++ JS.padStart2 (JS.numberToString (JS.getUTCMinutes t))
            ++ JS.padStart2 (JS.numberToString (JS.getUTCSeconds t))).
  split; [unfold formatBackupTimestamp; cbv zeta; now rewrite !append_assoc|].
  rewrite !hasChar_append.
  rewrite !padStart2_no_underscore, !numberToString_no_underscore
    by apply numberToString_no_underscore.
  split; reflexivity.
Qed.

(** The container a backup generated is resolved by the restore of any
    instant of the same second, with its source id. *)
Lemma listBackupsForTimestampOf_generated
    (timestamp taken : Z) (allDatasets : list string) (sourceDatasetId : string) :
  taken / 1000 = timestamp / 1000 ->
  In (generateBackupDatasetName sourceDatasetId taken) allDatasets ->
  In (BackupInfo.mk (generateBackupDatasetName sourceDatasetId taken)
                    sourceDatasetId timestamp)
     (listBackupsForTimestampOf timestamp allDatasets).
Proof.
  intros Hsecond Hin. rewrite listBackupsForTimestampOf_eq.
  apply list_elem_of_In, list_elem_of_omap.
  exists (generateBackupDatasetName sourceDatasetId taken).
  split; [now apply list_elem_of_In|].
  rewrite generateBackupDatasetName_prefixed. cbn [negb].
  unfold generateBackupDatasetName. cbv zeta.
  rewrite (formatBackupTimestamp_same_second taken timestamp Hsecond).
  rewrite includes_middle. cbn [negb].
  destruct (formatBackupTimestamp_parts timestamp) as (D & T & -> & HD & HT).
  replace (BACKUP_DATASET_PREFIX ++ (D ++ "_" ++ T) ++ "_" ++ sourceDatasetId)
    with (BACKUP_DATASET_PREFIX ++ D ++ "_" ++ T ++ "_" ++ sourceDatasetId)
    by (now rewrite !append_assoc).
  rewrite (split_generated D T sourceDatasetId HD HT).
  destruct (JS.split "_" sourceDatasetId) as [|p more] eqn:Es;
    [now apply split_nonempty in Es|].
  cbn [length Nat.ltb Nat.leb]. unfold JS.slice. cbn [skipn].
  rewrite <- Es, join_split. reflexivity.
Qed.

(** X3. The restore of an instant finds the containers that a backup at
    any instant of the same second produced, each with the source id the
    backup was taken from, whatever that id is (underscores included); and
    every container it returns is a prefixed dataset of the project whose
    id contains the pattern of the instant, labelled with the requested
    instant. *)
Theorem listBackupsForTimestamp_finds_generated
    (timestamp taken : Z) (allDatasets : list string)
    (Hsecond : taken / 1000 = timestamp / 1000) :
  (forall sourceDatasetId,
     In (generateBackupDatasetName sourceDatasetId taken) allDatasets ->
     In (BackupInfo.mk (generateBackupDatasetName sourceDatasetId taken)
                       sourceDatasetId timestamp)
        (listBackupsForTimestampOf timestamp allDatasets))
  /\ (forall b, In b (listBackupsForTimestampOf timestamp allDatasets) ->
        BackupInfo.timestamp b = timestamp
        /\ In (BackupInfo.backupDatasetId b) allDatasets
        /\ JS.startsWith (BackupInfo.backupDatasetId b) BACKUP_DATASET_PREFIX
           = true
        /\ JS.includes (BackupInfo.backupDatasetId b)
                       (formatBackupTimestamp timestamp) = true).
Proof.
  split.
  - intros s Hin. now apply listBackupsForTimestampOf_generated.
  - rewrite listBackupsForTimestampOf_eq. intros b Hin.
    apply list_elem_of_In, list_elem_of_omap in Hin as (id & Hin & E).
    apply list_elem_of_In in Hin.
    destruct (JS.startsWith id BACKUP_DATASET_PREFIX) eqn:Hp; [|discriminate E].
    destruct (JS.includes id (formatBackupTimestamp timestamp)) eqn:Hi;
      [|discriminate E].
    cbn [negb] in E. destruct (length (JS.split "_" id) <? 5)%nat; [discriminate E|].
    injection E as <-. cbn. auto.
Qed.

(** The backup of a source with underscores in its id, taken half a second
    after the instant asked for. *)
Lemma listBackupsForTimestamp_finds_generated_witness :
  1734273022500 / 1000 = 1734273022000 / 1000
  /\ In (BackupInfo.mk "zzz_backup_20241215_143022_web_logs_eu" "web_logs_eu"
                       1734273022000)
        (listBackupsForTimestampOf 1734273022000
           ["sales"; generateBackupDatasetName "web_logs_eu" 1734273022500]).
Proof.
  split; [reflexivity|].
  apply (proj1 (listBackupsForTimestamp_finds_generated 1734273022000
                  1734273022500
                  ["sales"; generateBackupDatasetName "web_logs_eu" 1734273022500]
                  eq_refl) "web_logs_eu").
  right. now left.
Defined.

End Resolve.

(** ** delete-backups.ts: the selection *)

Section Selection.

Lemma units_app (a b : string) :
  JS.units (a ++ b) = (JS.units a ++ JS.units b)%list.
Proof. induction a as [|c a IH]; [reflexivity|]. cbn. now rewrite IH. Qed.

Lemma lowerUnit_digit u : JS.isDigitUnit u = true -> JS.lowerUnit u = [u].
Proof.
  unfold JS.isDigitUnit, JS.lowerUnit. intros H.
  apply andb_true_iff in H as [H1 H2]. apply N.leb_le in H1, H2.
  destruct (N.leb_spec 65 u); [lia|]. cbn [andb].
  destruct (N.eqb_spec u 8490); [lia|]. destruct (N.eqb_spec u 304); [lia|].
  reflexivity.
Qed.

(** Lower-casing keeps the digits of a text. *)
Lemma toLowerCase_keeps_digit (s : JS.text) (u : N) :
  JS.isDigitUnit u = true -> In u s -> In u (JS.toLowerCase s).
Proof.
  intros Hu. induction s as [|v s IH]; [intros []|].
  cbn [JS.toLowerCase]. intros [->|Hin]; apply in_or_app.
  - left. rewrite (lowerUnit_digit u Hu). now left.
  - right. now apply IH.
Qed.

Lemma trimStart_padding (padding s : JS.text) :
  forallb JS.isWhiteSpace padding = true ->
  JS.trimStart (padding ++ s)%list = JS.trimStart s.
Proof.
  induction padding as [|u p IH]; [reflexivity|]. cbn [forallb].
  intros H. apply andb_true_iff in H as [Hu Hp].
  cbn [app JS.trimStart]. rewrite Hu. now apply IH.
Qed.

Lemma digitRun_stops (rest : JS.text) (v : Z) :
  JS.isDigitUnit (hd 0%N rest) = false -> JS.digitRun rest (Some v) = Some v.
Proof. destruct rest as [|u r]; [reflexivity|]. cbn. now intros ->. Qed.

Lemma digitRun_digits (digits : string) (rest : JS.text) :
  allDigits digits = true -> JS.isDigitUnit (hd 0%N rest) = false ->
  forall acc,
    JS.digitRun (JS.units digits ++ rest)%list (Some acc)
    = Some (evalFrom acc digits).
Proof.
  intros Hd Hrest. induction digits as [|c d IH]; intros acc.
  - now apply digitRun_stops.
  - cbn [allDigits] in Hd. apply andb_true_iff in Hd as [Hc Hd].
    cbn [JS.units app JS.digitRun evalFrom default id].
    rewrite isDigit_unit, Hc, digitValue_unit. now apply IH.
Qed.

(** [parseInt] reads a run of digits behind any white space and in front
    of anything that is not a digit. *)
Lemma parseIntText_padded (padding rest : JS.text) (digits : string) :
  forallb JS.isWhiteSpace padding = true ->
  allDigits digits = true -> digits <> "" ->
  JS.isDigitUnit (hd 0%N rest) = false ->
  JS.parseIntText (padding ++ JS.units digits ++ rest)%list
  = Some (evalFrom 0 digits).
Proof.
  intros Hp Hd Hne Hrest. unfold JS.parseIntText.
  rewrite (trimStart_padding _ _ Hp).
  destruct digits as [|c d]; [congruence|].
  cbn [allDigits] in Hd. apply andb_true_iff in Hd as [Hc Hd].
  cbn [JS.units app JS.trimStart].
  rewrite <- isDigit_unit in Hc. rewrite (isDigitUnit_not_space _ Hc).
  assert ((N_of_ascii c =? 45)%N = false) as ->.
  { apply N.eqb_neq. intros E. rewrite E in Hc. discriminate Hc. }
  assert ((N_of_ascii c =? 43)%N = false) as ->.
  { apply N.eqb_neq. intros E. rewrite E in Hc. discriminate Hc. }
  cbn [JS.digitRun default id evalFrom]. rewrite Hc, digitValue_unit.
  now apply digitRun_digits.
Qed.

(** X4. Typing the number [k] printed in front of a group selects that
    group: [promptForSelection] resolves to [k - 1], the index of the
    group, also when white space of any kind (a no-break space, say)
    stands before the number and anything that does not start with a digit
    stands behind it. *)
Theorem promptForSelection_selects (maxIndex k : Z) (padding rest : JS.text)
    (Hk : 1 <= k <= maxIndex) (Hmax : maxIndex <= 4294967295)
    (Hpadding : forallb JS.isWhiteSpace padding = true)
    (Hrest : JS.isDigitUnit (hd 0%N rest) = false) :
  promptForSelection maxIndex
    (padding ++ JS.units (JS.numberToString k) ++ rest)%list
  = Resolve (k - 1).
Proof.
  destruct (numberToString_spec k) as (Hd & Hne & He); [lia|].
  unfold promptForSelection.
  rewrite (parseIntText_padded _ _ _ Hpadding Hd Hne Hrest), He.
  (* a digit was typed, and neither q nor quit holds one *)
  assert (exists u, JS.isDigitUnit u = true
                    /\ In u (padding ++ JS.units (JS.numberToString k) ++ rest)%list)
    as (u & Hu & Hin).
  { destruct (JS.numberToString k) as [|c d]; [congruence|].
    cbn [allDigits] in Hd. apply andb_true_iff in Hd as [Hc _].
    exists (N_of_ascii c). split; [now rewrite isDigit_unit|].
    apply in_or_app. right. now left. }
  pose proof (toLowerCase_keeps_digit _ u Hu Hin) as Hlow.
  assert (forall literal,
            ~ In u (JS.units literal) ->
            JS.equals
              (JS.toLowerCase
                 (padding ++ JS.units (JS.numberToString k) ++ rest)%list) literal
            = false) as Hneq.
  { intros literal Hout. unfold JS.equals.
    apply bool_decide_eq_false. intros E. apply Hout. now rewrite <- E. }
  rewrite (Hneq "q"), (Hneq "quit").
  - cbn [orb].
    destruct (Z.ltb_spec k 1); [lia|]. destruct (Z.ltb_spec maxIndex k); [lia|].
    reflexivity.
  - cbn. intros [<-|[<-|[<-|[<-|[]]]]]; discriminate Hu.
  - cbn. intros [<-|[]]; discriminate Hu.
Qed.

(** Three groups are shown; a no-break space, 2 and a line feed are
    typed. *)
Lemma promptForSelection_selects_witness :
  1 <= 2 <= 3
  /\ promptForSelection 3 [160%N; 50%N; 10%N] = Resolve 1.
Proof.
  split; [lia|].
  exact (promptForSelection_selects 3 2 [160%N] [10%N]
           ltac:(lia) ltac:(lia) eq_refl eq_refl).
Defined.

End Selection.

(** ** backup.ts: what a backup call keeps *)

Section BackupKeeps.

(** Every dataset is still there, at its location, and so is every table,
    as it was. *)
Let extends (r r' : Remote) : Prop :=
  fault r' = fault r /\ projectId r' = projectId r
  /\ (forall ds D, catalog r !! ds = Some D ->
        exists D', catalog r' !! ds = Some D'
                   /\ Dataset.location D' = Dataset.location D)
  /\ (forall ds tb T, lookupTable r ds tb = Some T ->
        lookupTable r' ds tb = Some T).

Lemma extends_refl r : extends r r.
Proof. repeat split; eauto. Qed.

Lemma extends_trans r1 r2 r3 : extends r1 r2 -> extends r2 r3 -> extends r1 r3.
Proof.
  intros (F1 & P1 & C1 & L1) (F2 & P2 & C2 & L2).
  split; [congruence|]. split; [congruence|]. split.
  - intros ds D H. destruct (C1 _ _ H) as (D1 & H1 & E1).
    destruct (C2 _ _ H1) as (D2 & H2 & E2). exists D2. split; congruence.
  - intros ds tb T H. now apply L2, L1.
Qed.

Ltac kstep := preserves_step extends_refl extends_trans.
Ltac kro lemma :=
  apply (preserves_readonly _ _ extends_refl); intros ?; apply lemma.

Lemma listDatasets_keeps ds : preserves id extends (listDatasets ds).
Proof.
  unfold listDatasets. destruct ds as [[|? ?]|]; repeat kstep;
    solve [ kro getDatasets_readonly | kro datasetExists_readonly
          | kro datasetGetMetadata_readonly ].
Qed.

Lemma listTables_keeps d : preserves id extends (listTables d).
Proof.
  unfold listTables. repeat kstep;
    solve [ kro getTables_readonly | kro tableGetMetadata_readonly ].
Qed.

Lemma datasetCreate_keeps d location :
  preserves id extends (datasetCreate d location).
Proof.
  intros r. rewrite run_datasetCreate.
  destruct (fault r _); [apply extends_refl|].
  destruct (catalog r !! d) eqn:Ed; [apply extends_refl|].
  unfold id. cbn [snd]. split; [reflexivity|]. split; [reflexivity|]. split.
  - intros ds D H. exists D. split; [|reflexivity]. cbn [catalog withCatalog].
    rewrite lookup_insert_ne; [exact H | congruence].
  - intros ds tb T H. now rewrite lookupTable_create.
Qed.

Lemma putTable_fresh_keeps r d t T :
  lookupTable r d t = None -> extends r (putTable d t T r).
Proof.
  intros Hnone. split; [reflexivity|]. split; [reflexivity|]. split.
  - intros ds D H. destruct (decide (ds = d)) as [->|Hne].
    + unfold putTable, withCatalog. cbn [catalog].
      rewrite lookup_alter_eq, H. cbn. eauto.
    + exists D. now rewrite catalog_putTable.
  - intros ds tb T' H. rewrite lookupTable_putTable.
    destruct (decide _) as [(<- & <- & _)|_]; [congruence | exact H].
Qed.

Lemma createTableSnapshot_keeps sd st bd bt instant expiration dryRun :
  preserves id extends
    (createTableSnapshot sd st bd bt instant expiration dryRun).
Proof.
  unfold createTableSnapshot. cbv zeta. kstep; [kstep|].
  intros r. rewrite run_runQuery.
  destruct (fault r _); [apply extends_refl|].
  unfold execute, id.
  destruct expiration as [[e|]|];
    destruct (catalog r !! bd) eqn:Eb;
    destruct (lookupTable r sd st);
    destruct (lookupTable r bd bt) eqn:Et;
    cbn [snd]; try apply extends_refl; now apply putTable_fresh_keeps.
Qed.

Lemma backupOne_keeps options instant expiration datasetInfo :
  preserves id extends (backupOne options instant expiration datasetInfo).
Proof.
  unfold backupOne, snapshotMember, createBackupDataset. cbv zeta. repeat kstep;
    solve [ apply listTables_keeps | kro datasetExists_readonly
          | apply datasetCreate_keeps | apply createTableSnapshot_keeps ].
Qed.

(** X5. A backup call is not destructive: whatever the service answers,
    every dataset that existed is still there at its location, and every
    table that existed is still there, unchanged; the call only adds. *)
Theorem backupDataset_keeps_existing (now : Z) (options : BackupOptions.t)
    (r : Remote) :
  let r' := snd (backupDataset now options r) in
  (forall ds D, catalog r !! ds = Some D ->
     exists D', catalog r' !! ds = Some D'
                /\ Dataset.location D' = Dataset.location D)
  /\ (forall ds tb T, lookupTable r ds tb = Some T ->
        lookupTable r' ds tb = Some T).
Proof.
  cbv zeta.
  assert (preserves id extends (backupDataset now options)) as H.
  { unfold backupDataset. cbv zeta.
    kstep; [repeat kstep|]. kstep; [repeat kstep|].
    kstep; [apply listDatasets_keeps|].
    kstep. apply backupOne_keeps. }
  destruct (H r) as (_ & _ & HC & HL). split; assumption.
Qed.

End BackupKeeps.

(** ** backup.ts: a dry run *)

Section DryRun.

Let same (r r' : Remote) : Prop := r' = r.

Lemma same_refl r : same r r.
Proof. reflexivity. Qed.

Lemma same_trans r1 r2 r3 : same r1 r2 -> same r2 r3 -> same r1 r3.
Proof. unfold same. congruence. Qed.

Ltac sstep := preserves_step same_refl same_trans.
Ltac sro lemma :=
  apply (preserves_readonly _ _ same_refl); intros ?; apply lemma.

(** X6. A dry run changes nothing: with [dryRun] set, whatever the service
    answers, a backup call hands the service back as it found it; it
    creates no dataset and no snapshot. *)
Theorem backupDataset_dry_run (now : Z) (options : BackupOptions.t)
    (r : Remote) (Hdry : BackupOptions.dryRun options = Some true) :
  snd (backupDataset now options r) = r.
Proof.
  assert (preserves id same (backupDataset now options)) as H; [|exact (H r)].
  unfold backupDataset. cbv zeta.
  sstep; [repeat sstep|]. sstep; [repeat sstep|]. sstep.
  { unfold listDatasets. destruct (BackupOptions.datasets options) as [[|? ?]|];
      repeat sstep;
      solve [ sro getDatasets_readonly | sro datasetExists_readonly
            | sro datasetGetMetadata_readonly ]. }
  sstep. unfold backupOne, snapshotMember, createBackupDataset,
    createTableSnapshot, listTables. rewrite Hdry. cbv zeta.
  change (default false (Some true)) with true. cbv beta iota.
  repeat sstep;
    solve [ sro getTables_readonly | sro tableGetMetadata_readonly
          | sro datasetExists_readonly ].
Qed.

(** A dry run of the backup of the example project. *)
Lemma backupDataset_dry_run_witness :
  BackupOptions.dryRun (BackupOptions.mk "proj" None None None (Some true))
  = Some true
  /\ snd (backupDataset Example.now
            (BackupOptions.mk "proj" None None None (Some true))
            Example.project) = Example.project.
Proof.
  split; [reflexivity|].
  apply (backupDataset_dry_run Example.now
           (BackupOptions.mk "proj" None None None (Some true))
           Example.project eq_refl).
Defined.

End DryRun.

(** ** Loops over the listing of a map *)

Section Pairs.

Context {V B : Type}.

Lemma collect_pairs (r : Remote) (body : string -> M Remote (option B))
    (f : string -> V -> option B) (l : list (string * V)) :
  (forall k v, In (k, v) l -> body k r = (Ok (f k v), r)) ->
  collect body (map fst l) r
  = (Ok (omap (fun kv => f (fst kv) (snd kv)) l), r).
Proof.
  induction l as [|[k v] rest IH]; intros Hl; [apply run_collect_nil|].
  cbn [map fst]. rewrite run_collect_cons, (Hl k v) by now left.
  rewrite IH by (intros; apply Hl; now right).
  reflexivity.
Qed.

Lemma omap_pairs_NoDup (f : string * V -> option B) (key : B -> string)
    (l : list (string * V)) :
  (forall kv b, f kv = Some b -> key b = fst kv) ->
  NoDup (map fst l) -> NoDup (map key (omap f l)).
Proof.
  intros Hf. induction l as [|kv rest IH]; intros Hn; [constructor|].
  cbn [map] in Hn. apply NoDup_cons in Hn as [Hk Hn].
  change (omap f (kv :: rest))
    with (match f kv with Some y => y :: omap f rest | None => omap f rest end).
  destruct (f kv) as [b|] eqn:E; [|now apply IH].
  cbn [map]. apply NoDup_cons. split; [|now apply IH].
  intros Hin. apply Hk. rewrite <- (Hf _ _ E).
  apply list_elem_of_fmap in Hin as (b' & Eb & Hb').
  apply list_elem_of_omap in Hb' as (kv' & Hin' & E').
  rewrite Eb, (Hf _ _ E'). now apply list_elem_of_fmap_2.
Qed.

End Pairs.

(** ** backup.ts: the sources of a backup of everything *)

Section ListAll.

(** X7. Without a list of ids, and also with an empty one, [listDatasets]
    returns every dataset of the project whose id does not start with the
    backup prefix, each once, with its location, and no other: backups are
    never backed up. The service is left as it was. *)
Theorem listDatasets_all_excludes_backups
    (datasets : option (list string)) (r : Remote)
    (Hall : datasets = None \/ datasets = Some [])
    (Hlisting : fault r GetDatasets = None)
    (Hmetadata : forall id, fault r (DatasetGetMetadata id) = None) :
  exists infos,
    listDatasets datasets r = (Ok infos, r)
    /\ NoDup (map DatasetInfo.datasetId infos)
    /\ forall di, In di infos <->
         JS.startsWith (DatasetInfo.datasetId di) BACKUP_DATASET_PREFIX = false
         /\ exists D, catalog r !! DatasetInfo.datasetId di = Some D
                      /\ di = DatasetInfo.mk (DatasetInfo.datasetId di)
                                (Dataset.location D) [].
Proof.
  set (f := fun (k : string) (D : Dataset.t) =>
              if JS.startsWith k BACKUP_DATASET_PREFIX then None
              else Some (DatasetInfo.mk k (Dataset.location D) [])).
  exists (omap (fun kD => f (fst kD) (snd kD)) (map_to_list (catalog r))).
  split; [|split].
  - assert (listDatasets datasets = listDatasets None) as ->
      by (destruct Hall as [->| ->]; reflexivity).
    unfold listDatasets. rewrite run_bind, run_getDatasets, Hlisting.
    apply collect_pairs. intros k D Hin.
    apply list_elem_of_In, elem_of_map_to_list in Hin.
    unfold f. destruct (JS.startsWith k BACKUP_DATASET_PREFIX) eqn:Hp.
    + destruct k; [discriminate Hp|]. reflexivity.
    + rewrite andb_false_r, run_bind, run_datasetGetMetadata, Hmetadata, Hin.
      now rewrite run_ret.
  - apply omap_pairs_NoDup; [|apply NoDup_fst_map_to_list].
    intros [k D] b. cbn [fst snd]. unfold f.
    destruct (JS.startsWith k _); [discriminate|]. now intros [= <-].
  - intros di. rewrite <- list_elem_of_In, list_elem_of_omap. split.
    + intros ([k D] & Hin & E). apply elem_of_map_to_list in Hin.
      cbn [fst snd] in E. unfold f in E.
      destruct (JS.startsWith k BACKUP_DATASET_PREFIX) eqn:Hp; [discriminate E|].
      injection E as <-. cbn. eauto.
    + intros (Hp & D & HD & E). exists (DatasetInfo.datasetId di, D).
      split; [now apply elem_of_map_to_list|].
      cbn [fst snd]. unfold f. now rewrite Hp, <- E.
Qed.

(** The project that holds a backup of sales next to sales: an empty list
    of ids lists sales alone. *)
Lemma listDatasets_all_excludes_backups_witness :
  fault Example.restorable GetDatasets = None
  /\ exists infos,
       listDatasets (Some []) Example.restorable = (Ok infos, Example.restorable)
       /\ In (DatasetInfo.mk "sales" (Some "EU") []) infos
       /\ ~ In (DatasetInfo.mk "zzz_backup_20241215_143022_sales" (Some "EU") [])
               infos.
Proof.
  split; [reflexivity|].
  destruct (listDatasets_all_excludes_backups (Some []) Example.restorable
              (or_intror eq_refl) eq_refl (fun _ => eq_refl))
    as (infos & E & _ & Hin).
  exists infos. split; [exact E|]. split.
  - apply Hin. split; [reflexivity|]. exists Example.salesLeft.
    split; [vm_compute; reflexivity | reflexivity].
  - intros H. apply Hin in H as [H _]. discriminate H.
Defined.

End ListAll.

(** ** backup.ts: the tables of a dataset *)

Section ListTables.

(** X8. When the tables of a dataset can be listed, [listTables] succeeds
    whatever the answers to the metadata calls are, and leaves the service
    as it was: it returns, each once, the tables of kind TABLE whose
    metadata could be read, with their location; tables of other kinds and
    tables whose metadata call is refused are left out. *)
Theorem listTables_skips_unreadable (datasetId : string) (r : Remote)
    (D : Dataset.t)
    (Hdataset : catalog r !! datasetId = Some D)
    (Hlisting : fault r (GetTables datasetId) = None) :
  exists tables,
    listTables datasetId r = (Ok tables, r)
    /\ NoDup (map TableInfo.tableId tables)
    /\ forall t, In t tables <->
         fault r (TableGetMetadata datasetId (TableInfo.tableId t)) = None
         /\ exists T, Dataset.tables D !! TableInfo.tableId t = Some T
                      /\ Table.type T = "TABLE"
                      /\ t = TableInfo.mk (TableInfo.tableId t) "TABLE"
                             (Table.location T).
Proof.
  set (f := fun (k : string) (T : Table.t) =>
              match fault r (TableGetMetadata datasetId k) with
              | Some _ => None
              | None =>
                  if String.eqb (Table.type T) "TABLE"
                  then Some (TableInfo.mk k (Table.type T) (Table.location T))
                  else None
              end).
  exists (omap (fun kT => f (fst kT) (snd kT)) (map_to_list (Dataset.tables D))).
  split; [|split].
  - unfold listTables. rewrite run_bind, run_getTables, Hlisting, Hdataset.
    apply collect_pairs. intros k T Hin.
    rewrite run_tryCatch, run_bind, run_tableGetMetadata. unfold f.
    destruct (fault r (TableGetMetadata datasetId k)); [now rewrite run_ret|].
    rewrite (lookupTable_listing r datasetId D k T Hdataset Hin).
    now destruct (String.eqb (Table.type T) "TABLE").
  - apply omap_pairs_NoDup; [|apply NoDup_fst_map_to_list].
    intros [k T] b. cbn [fst snd]. unfold f.
    destruct (fault r (TableGetMetadata datasetId k)); [discriminate|].
    destruct (String.eqb (Table.type T) "TABLE"); [|discriminate].
    now intros [= <-].
  - intros t. rewrite <- list_elem_of_In, list_elem_of_omap. split.
    + intros ([k T] & Hin & E). apply elem_of_map_to_list in Hin.
      cbn [fst snd] in E. unfold f in E.
      destruct (fault r (TableGetMetadata datasetId k)) eqn:Ef; [discriminate E|].
      destruct (String.eqb_spec (Table.type T) "TABLE") as [Ety|]; [|discriminate E].
      injection E as <-. cbn. rewrite Ety. eauto 6.
    + intros (Hf & T & HT & Ety & E). exists (TableInfo.tableId t, T).
      split; [now apply elem_of_map_to_list|].
      cbn [fst snd]. unfold f. rewrite Hf, Ety. cbn. now rewrite <- E.
Qed.

(** The tables of sales in the example: the view is left out. *)
Lemma listTables_skips_unreadable_witness :
  catalog Example.project !! "sales" = Some Example.sales
  /\ exists tables,
       listTables "sales" Example.project = (Ok tables, Example.project)
       /\ In (TableInfo.mk "orders" "TABLE" None) tables
       /\ ~ In (TableInfo.mk "report" "VIEW" None) tables.
Proof.
  split; [vm_compute; reflexivity|].
  destruct (listTables_skips_unreadable "sales" Example.project Example.sales)
    as (tables & E & _ & Hin); [vm_compute; reflexivity | reflexivity |].
  exists tables. split; [exact E|]. split.
  - apply Hin. split; [reflexivity|]. exists Example.plain.
    split; [vm_compute; reflexivity|]. split; reflexivity.
  - intros H. destruct (proj1 (Hin _) H) as (_ & T & _ & _ & E0).
    discriminate E0.
Defined.

End ListTables.

(** ** backup.ts: the result object of one dataset *)

Section BackupResults.

Variables (options : BackupOptions.t) (instant : Z)
          (expiration : option (option Z)).






End BackupResults.

Section BackupCall.



End BackupCall.

(** ** backup.ts: datasets that are not backed up *)

Section BackupSetup.

(** X10. A dataset without a table of kind TABLE (an empty dataset, or one
    of views only) is reported as a success with 0 tables and no backup
    container: none is created and the service is left as it was. *)
Theorem backupOne_nothing_to_back_up
    (options : BackupOptions.t) (instant : Z) (expiration : option (option Z))
    (datasetInfo : DatasetInfo.t) (r : Remote) (D : Dataset.t)
    (Hfaults : onlyJobsFail (fault r))
    (Hdataset : catalog r !! DatasetInfo.datasetId datasetInfo = Some D)
    (Hnone : tableInfosOf D = []) :
  backupOne options instant expiration datasetInfo r
  = (Ok (BackupResult.mk "" (DatasetInfo.datasetId datasetInfo) instant 0
           true []), r).
Proof.
  unfold backupOne. cbv zeta.
  rewrite run_withLocal, run_tryCatch, run_bind, run_remote.
  rewrite (listTables_noFault r Hfaults _ D Hdataset), Hnone. cbn [fst snd].
  cbn [length Nat.eqb]. rewrite run_setLocal. reflexivity.
Qed.

(** A dataset that holds a view and nothing else. *)
Lemma backupOne_nothing_to_back_up_witness :
  tableInfosOf (Dataset.mk (Some "EU") {[ "report" := Example.view ]}) = []
  /\ backupOne (BackupOptions.mk "proj" None None None None) Example.now None
       (DatasetInfo.mk "views" (Some "EU") [])
       (mkRemote "proj"
          {[ "views" := Dataset.mk (Some "EU") {[ "report" := Example.view ]} ]}
          Example.noFault)
     = (Ok (BackupResult.mk "" "views" Example.now 0 true []),
        mkRemote "proj"
          {[ "views" := Dataset.mk (Some "EU") {[ "report" := Example.view ]} ]}
          Example.noFault).
Proof.
  split; [vm_compute; reflexivity|].
  apply (backupOne_nothing_to_back_up
           (BackupOptions.mk "proj" None None None None) Example.now None
           (DatasetInfo.mk "views" (Some "EU") []) _
           (Dataset.mk (Some "EU") {[ "report" := Example.view ]})).
  - intros rq _. reflexivity.
  - vm_compute. reflexivity.
  - vm_compute. reflexivity.
Defined.

(** X11. A dataset with tables that cannot be set up fails alone and
    before anything is written: without a location, or with an empty one,
    its result carries the error that the location is missing; when the
    container of its name exists already, the error that the backup
    dataset exists. Either way the result names the container, counts 0
    tables, is not a success, and the service is left as it was. *)
Theorem backupOne_setup_failure
    (options : BackupOptions.t) (instant : Z) (expiration : option (option Z))
    (datasetInfo : DatasetInfo.t) (r : Remote) (D : Dataset.t)
    (Hfaults : onlyJobsFail (fault r))
    (Hdataset : catalog r !! DatasetInfo.datasetId datasetInfo = Some D)
    (Hsome : tableInfosOf D <> []) :
  let d := DatasetInfo.datasetId datasetInfo in
  let B := generateBackupDatasetName d instant in
  (DatasetInfo.location datasetInfo = None
   \/ DatasetInfo.location datasetInfo = Some "" ->
   backupOne options instant expiration datasetInfo r
   = (Ok (BackupResult.mk B d instant 0 false
            ["Error backing up dataset " ++ d ++ ": Error: Dataset " ++ d
               ++ " does not have a location specified"]), r))
  /\ (forall location,
        DatasetInfo.location datasetInfo = Some location -> location <> "" ->
        is_Some (catalog r !! B) ->
        backupOne options instant expiration datasetInfo r
        = (Ok (BackupResult.mk B d instant 0 false
                 ["Error backing up dataset " ++ d
                    ++ ": Error: Backup dataset " ++ B ++ " already exists"]),
           r)).
Proof.
  cbv zeta.
  assert (exists t0 ts, tableInfosOf D = t0 :: ts) as (t0 & ts & Et)
    by (destruct (tableInfosOf D) as [|t0 ts]; [congruence | eauto]).
  split.
  - intros Hloc. unfold backupOne. cbv zeta.
    rewrite run_withLocal, run_tryCatch, run_bind, run_remote.
    rewrite (listTables_noFault r Hfaults _ D Hdataset), Et. cbn [fst snd].
    cbn [length Nat.eqb]. rewrite run_bind, run_setLocal.
    destruct Hloc as [-> | ->]; rewrite run_throw, run_bind, !run_setLocal;
      reflexivity.
  - intros location Hloc Hne [BD Hex].
    destruct location as [|c location]; [congruence|].
    unfold backupOne. cbv zeta.
    rewrite run_withLocal, run_tryCatch, run_bind, run_remote.
    rewrite (listTables_noFault r Hfaults _ D Hdataset), Et. cbn [fst snd].
    cbn [length Nat.eqb]. rewrite run_bind, run_setLocal, Hloc.
    rewrite run_bind, run_remote.
    unfold createBackupDataset. cbv zeta.
    rewrite run_bind, run_datasetExists.
    rewrite (Hfaults (DatasetExists _)) by discriminate.
    rewrite Hex. cbn [isSome fst snd]. rewrite run_throw. cbn [fst snd].
    rewrite run_bind, !run_setLocal. reflexivity.
Qed.

(** The project that holds the backup of sales of 14:30:22 already: a
    second backup of sales within that second is refused. *)
Lemma backupOne_setup_failure_witness :
  tableInfosOf Example.salesLeft <> []
  /\ backupOne (BackupOptions.mk "proj" None None None None) 1734273022000 None
       (DatasetInfo.mk "sales" (Some "EU") []) Example.restorable
     = (Ok (BackupResult.mk "zzz_backup_20241215_143022_sales" "sales"
              1734273022000 0 false
              ["Error backing up dataset sales: Error: Backup dataset zzz_backup_20241215_143022_sales already exists"]),
        Example.restorable).
Proof.
  assert (tableInfosOf Example.salesLeft <> []) as Hne
    by (vm_compute; discriminate).
  split; [exact Hne|].
  apply (proj2 (backupOne_setup_failure
                  (BackupOptions.mk "proj" None None None None) 1734273022000
                  None (DatasetInfo.mk "sales" (Some "EU") [])
                  Example.restorable Example.salesLeft
                  (fun rq _ => eq_refl) ltac:(vm_compute; reflexivity) Hne)
               "EU" eq_refl ltac:(discriminate)).
  vm_compute. eauto.
Defined.

End BackupSetup.

(** ** restore.ts: what a restore touches *)

Section RestoreFootprint.

(** The datasets outside [K] are as they were, and every dataset is still
    there, at its location. *)
Let within (K : string -> Prop) (r r' : Remote) : Prop :=
  fault r' = fault r /\ projectId r' = projectId r
  /\ (forall k, ~ K k -> catalog r' !! k = catalog r !! k)
  /\ (forall k D, catalog r !! k = Some D ->
        exists D', catalog r' !! k = Some D'
                   /\ Dataset.location D' = Dataset.location D).

Lemma within_refl K r : within K r r.
Proof. repeat split; eauto. Qed.

Lemma within_trans K r1 r2 r3 : within K r1 r2 -> within K r2 r3 -> within K r1 r3.
Proof.
  intros (F1 & P1 & C1 & L1) (F2 & P2 & C2 & L2).
  split; [congruence|]. split; [congruence|]. split.
  - intros k Hk. now rewrite C2, C1.
  - intros k D H. destruct (L1 _ _ H) as (D1 & H1 & E1).
    destruct (L2 _ _ H1) as (D2 & H2 & E2). exists D2. split; congruence.
Qed.

Lemma within_putTable K r d t T : K d -> within K r (putTable d t T r).
Proof.
  intros Hd. split; [reflexivity|]. split; [reflexivity|]. split.
  - intros k Hk. apply catalog_putTable. now intros ->.
  - intros k D H. unfold putTable, withCatalog. cbn [catalog].
    destruct (decide (d = k)) as [->|Hne].
    + rewrite lookup_alter_eq, H. cbn. eauto.
    + rewrite lookup_alter_ne by assumption. eauto.
Qed.

Lemma within_dropTable K r d t : K d -> within K r (dropTable d t r).
Proof.
  intros Hd. split; [reflexivity|]. split; [reflexivity|]. split.
  - intros k Hk. unfold dropTable, withCatalog. cbn [catalog].
    rewrite lookup_alter_ne; [reflexivity | now intros ->].
  - intros k D H. unfold dropTable, withCatalog. cbn [catalog].
    destruct (decide (d = k)) as [->|Hne].
    + rewrite lookup_alter_eq, H. cbn. eauto.
    + rewrite lookup_alter_ne by assumption. eauto.
Qed.

Lemma within_create K r d location :
  K d -> catalog r !! d = None ->
  within K r (withCatalog r (<[d := Dataset.mk (Some location) ∅]> (catalog r))).
Proof.
  intros Hd Hnone. split; [reflexivity|]. split; [reflexivity|]. split.
  - intros k Hk. cbn. rewrite lookup_insert_ne; [reflexivity | now intros ->].
  - intros k D H. cbn. rewrite lookup_insert_ne; [eauto | congruence].
Qed.

Section One.

Variable K : string -> Prop.

Ltac wstep := preserves_step (within_refl K) (within_trans K).
Ltac wro lemma :=
  apply (preserves_readonly _ _ (within_refl K)); intros ?; apply lemma.

Lemma runQuery_within q d :
  K d ->
  match q with
  | CreateSnapshotTable bd _ _ _ _ _ => bd = d
  | CreateTableClone _ td _ _ _ => td = d
  | CreateMaterializedView vd _ _ _ _ => vd = d
  end ->
  preserves id (within K) (runQuery q).
Proof.
  intros Hd Hq r. rewrite run_runQuery.
  destruct (fault r _); [apply within_refl|].
  unfold id, execute. destruct q; subst;
    repeat match goal with
           | |- within K r (snd (match ?x with _ => _ end)) => destruct x
           end;
    cbn [snd]; first [apply within_refl | now apply within_putTable].
Qed.

Lemma recreateMaterializedViewsInDataset_within d :
  K d -> preserves id (within K) (recreateMaterializedViewsInDataset d).
Proof.
  intros Hd.
  unfold recreateMaterializedViewsInDataset, recreateMaterializedView,
    listMaterializedViews.
  repeat wstep;
    try solve [ wro getTables_readonly | wro tableGetMetadata_readonly
              | wro tableExists_readonly
              | now apply (runQuery_within _ d) ].
  intros r. rewrite run_tableDelete.
  destruct (fault r _); [apply within_refl|].
  destruct (lookupTable r d _); [|apply within_refl].
  now apply within_dropTable.
Qed.

Lemma restoreMembers_within options backup target ids :
  K target ->
  preserves id (within K) (forEach (restoreMember options backup target) ids).
Proof.
  intros Hd. unfold restoreMember, restoreTable. cbv zeta.
  repeat wstep;
    solve [ wro tableExists_readonly | wro getProjectId_readonly
          | now apply (runQuery_within _ target) ].
Qed.

Lemma restoreOne_within options backup :
  K (BackupInfo.sourceDatasetId backup) ->
  preserves id (within K) (restoreOne options backup).
Proof.
  intros Hd.
  unfold restoreOne, restoreMember, restoreTable, listBackupTables. cbv zeta.
  repeat wstep;
    try solve [ wro getTables_readonly | wro tableGetMetadata_readonly
              | wro tableExists_readonly | wro datasetExists_readonly
              | wro datasetGetMetadata_readonly | wro getProjectId_readonly
              | now apply (runQuery_within _ (BackupInfo.sourceDatasetId backup))
              | now apply recreateMaterializedViewsInDataset_within ].
  all: intros r; rewrite run_datasetCreate;
    (destruct (fault r _); [apply within_refl|]);
    (destruct (catalog r !! _) eqn:E; [apply within_refl|]);
    now apply within_create.
Qed.

End One.

(** X12. A restore call touches nothing but the target datasets of the
    backups it resolves: whatever the service answers, every dataset that
    is not the target of one of them is afterwards exactly as it was; and
    no dataset is removed or moved to another location. *)
Theorem restoreBackups_touches_targets (options : RestoreOptions.t)
    (r : Remote) :
  let r' := snd (restoreBackups options r) in
  (forall timestamp k,
     RestoreOptions.backupTimestamp options = Some timestamp ->
     ~ In k (map BackupInfo.sourceDatasetId
               (listBackupsForTimestampOf timestamp
                  (map fst (map_to_list (catalog r))))) ->
     catalog r' !! k = catalog r !! k)
  /\ (forall k D, catalog r !! k = Some D ->
        exists D', catalog r' !! k = Some D'
                   /\ Dataset.location D' = Dataset.location D).
Proof.
  cbv zeta. unfold restoreBackups.
  destruct (RestoreOptions.backupTimestamp options) as [t|].
  2:{ rewrite run_throw. cbn [snd]. split; [discriminate | eauto]. }
  unfold listBackupsForTimestamp. rewrite !run_bind, run_getDatasets.
  destruct (fault r GetDatasets).
  { cbn [snd]. split; [reflexivity | eauto]. }
  rewrite run_ret.
  set (backups := listBackupsForTimestampOf t _).
  destruct (length backups =? 0)%nat.
  { rewrite run_throw. cbn [snd]. split; [reflexivity | eauto]. }
  set (K := fun k => In k (map BackupInfo.sourceDatasetId backups)).
  pose proof (preserves_forEach_In id (within K) (within_refl K) (within_trans K)
                (restoreOne options) backups) as H.
  destruct (H ltac:(intros b Hb; apply restoreOne_within; now apply in_map) r)
    as (_ & _ & HC & HL).
  split; [|exact HL].
  intros timestamp k [= <-] Hk. now apply HC.
Qed.

End RestoreFootprint.

(** ** restore.ts: calls that restore nothing *)

Section RestoreNothing.

(** X13. A restore call without a timestamp fails with the error that the
    timestamp is required, before any remote call. A restore call for an
    instant whose pattern occurs in no backup-prefixed dataset id of the
    project fails with the error that no backup datasets were found, which
    quotes the instant in its canonical form. Either way the service is
    left as it was. *)
Theorem restoreBackups_without_backups (options : RestoreOptions.t)
    (r : Remote) :
  (RestoreOptions.backupTimestamp options = None ->
   restoreBackups options r
   = (Throw "Error: Backup timestamp is required", r))
  /\ (forall timestamp,
        RestoreOptions.backupTimestamp options = Some timestamp ->
        fault r GetDatasets = None ->
        (forall id, is_Some (catalog r !! id) ->
           JS.startsWith id BACKUP_DATASET_PREFIX = true ->
           JS.includes id (formatBackupTimestamp timestamp) = false) ->
        restoreBackups options r
        = (Throw ("Error: No backup datasets found for timestamp: "
                    ++ JS.toISOString timestamp), r)).
Proof.
  split.
  - intros H. unfold restoreBackups. rewrite H. reflexivity.
  - intros t H Hf Hnone. unfold restoreBackups, listBackupsForTimestamp.
    rewrite H, !run_bind, run_getDatasets, Hf, run_ret.
    assert (listBackupsForTimestampOf t (map fst (map_to_list (catalog r))) = [])
      as ->; [|reflexivity].
    rewrite listBackupsForTimestampOf_eq.
    assert (forall id, In id (map fst (map_to_list (catalog r))) ->
              is_Some (catalog r !! id)) as Hids.
    { intros id Hin. apply in_map_iff in Hin as ([k D] & <- & Hin).
      apply list_elem_of_In, elem_of_map_to_list in Hin. eauto. }
    induction (map fst (map_to_list (catalog r))) as [|id rest IH]; [reflexivity|].
    cbn [omap list_omap].
    destruct (JS.startsWith id BACKUP_DATASET_PREFIX) eqn:Hp; cbn [negb].
    + rewrite (Hnone id (Hids id ltac:(now left)) Hp). cbn [negb].
      apply IH. intros; apply Hids; now right.
    + apply IH. intros; apply Hids; now right.
Qed.

End RestoreNothing.

(** ** restore.ts: the materialized views *)

Section MaterializedViews.

(** X14. [recreateMaterializedView] deletes the view, if there is one, and
    then creates it: when the job is accepted the view holds the given
    query and refresh settings; when the job is refused the error is
    thrown and the view that was deleted is gone. The other tables of the
    dataset are as they were. *)
Theorem recreateMaterializedView_delete_then_create
    (d v query : string) (er : option bool) (ri : option Z)
    (r : Remote) (D : Dataset.t)
    (Hfaults : onlyJobsFail (fault r))
    (Hdataset : catalog r !! d = Some D) :
  exists r',
    (forall t, t <> v -> lookupTable r' d t = lookupTable r d t)
    /\ match fault r (QueryJob (CreateMaterializedView d v query er ri)) with
       | None =>
           recreateMaterializedView d v query er ri r = (Ok tt, r')
           /\ lookupTable r' d v
              = Some (Table.mk "MATERIALIZED_VIEW" None
                        (Some (MaterializedView.mk (Some query) er ri))
                        (Derived query) None)
       | Some e =>
           recreateMaterializedView d v query er ri r = (Throw e, r')
           /\ lookupTable r' d v = None
       end.
Proof.
  set (r0 := if isSome (lookupTable r d v) then dropTable d v r else r).
  assert (fault r0 = fault r) as F0
    by (unfold r0; now destruct (isSome _)).
  assert (lookupTable r0 d v = None) as L0.
  { unfold r0. destruct (lookupTable r d v) eqn:E; cbn [isSome]; [|exact E].
    rewrite lookupTable_dropTable. destruct (decide _) as [_|Hn]; [reflexivity|].
    exfalso. now apply Hn. }
  assert (forall t, t <> v -> lookupTable r0 d t = lookupTable r d t) as O0.
  { intros t Ht. unfold r0. destruct (isSome _); [|reflexivity].
    rewrite lookupTable_dropTable.
    destruct (decide _) as [(_ & ?)|_]; [congruence | reflexivity]. }
  assert (is_Some (catalog r0 !! d)) as C0.
  { unfold r0. destruct (isSome _); [|eauto].
    unfold dropTable, withCatalog. cbn [catalog].
    rewrite lookup_alter_eq, Hdataset. cbn. eauto. }
  assert (recreateMaterializedView d v query er ri r
          = runQuery (CreateMaterializedView d v query er ri) r0) as ->.
  { unfold recreateMaterializedView. rewrite run_bind, run_tableExists.
    rewrite (Hfaults (TableExists d v)) by discriminate.
    rewrite run_bind. unfold r0.
    destruct (lookupTable r d v) eqn:E; cbn [isSome].
    - rewrite run_tableDelete, (Hfaults (TableDelete d v)), E by discriminate.
      reflexivity.
    - rewrite run_ret. reflexivity. }
  rewrite run_runQuery, F0.
  destruct (fault r (QueryJob _)) as [e|].
  - exists r0. split; [exact O0|]. split; [reflexivity | exact L0].
  - unfold execute. destruct C0 as [D0 HC0]. rewrite HC0, L0.
    eexists. split; [|split; [reflexivity|]].
    + intros t Ht. rewrite lookupTable_putTable.
      destruct (decide _) as [(_ & ? & _)|_]; [congruence | now apply O0].
    + rewrite lookupTable_putTable.
      destruct (decide _) as [_|Hn]; [reflexivity|].
      exfalso. apply Hn. repeat split. eauto.
Qed.

(** The creation job of a view of the example is refused: the view is
    lost. *)
Lemma recreateMaterializedView_delete_then_create_witness :
  exists r',
    recreateMaterializedView "sales" "daily" "SELECT 1" None None
      (mkRemote "proj"
         {[ "sales" := Dataset.mk (Some "EU")
              {[ "daily" := Table.mk "MATERIALIZED_VIEW" None
                              (Some (MaterializedView.mk (Some "SELECT 1")
                                       None None))
                              (Derived "SELECT 1") None ]} ]}
         (fun rq => match rq with
                    | QueryJob _ => Some "Error: Quota exceeded"
                    | _ => None
                    end))
    = (Throw "Error: Quota exceeded", r')
    /\ lookupTable r' "sales" "daily" = None.
Proof.
  destruct (recreateMaterializedView_delete_then_create "sales" "daily"
              "SELECT 1" None None
              (mkRemote "proj"
                 {[ "sales" := Dataset.mk (Some "EU")
                      {[ "daily" := Table.mk "MATERIALIZED_VIEW" None
                                      (Some (MaterializedView.mk
                                               (Some "SELECT 1") None None))
                                      (Derived "SELECT 1") None ]} ]}
                 (fun rq => match rq with
                            | QueryJob _ => Some "Error: Quota exceeded"
                            | _ => None
                            end))
              (Dataset.mk (Some "EU")
                 {[ "daily" := Table.mk "MATERIALIZED_VIEW" None
                                 (Some (MaterializedView.mk (Some "SELECT 1")
                                          None None))
                                 (Derived "SELECT 1") None ]}))
    as (r' & _ & H).
  - intros rq Hrq. destruct rq; try reflexivity. now destruct (Hrq q).
  - vm_compute. reflexivity.
  - exists r'. exact H.
Defined.

End MaterializedViews.

Section ViewsOfDataset.

Lemma collect_reads {A B} (body : A -> M Remote (option B)) (Q : B -> Prop)
    (r : Remote) (l : list A) :
  (forall k, snd (body k r) = r
             /\ forall b, fst (body k r) = Ok (Some b) -> Q b) ->
  snd (collect body l r) = r
  /\ forall bs, fst (collect body l r) = Ok bs -> Forall Q bs.
Proof.
  intros Hb. induction l as [|k rest [IHs IHq]].
  - rewrite run_collect_nil. split; [reflexivity|]. intros bs [= <-]. constructor.
  - rewrite run_collect_cons. destruct (Hb k) as [Hs Hq].
    destruct (body k r) as [[o|e] r1]; cbn [fst snd] in *; subst r1.
    2:{ split; [reflexivity | discriminate]. }
    destruct (collect body rest r) as [[bs|e] r2]; cbn [fst snd] in *; subst r2.
    2:{ split; [reflexivity | discriminate]. }
    split; [reflexivity|]. intros bs' [= <-].
    specialize (IHq bs eq_refl).
    destruct o as [b|]; [constructor; auto | exact IHq].
Qed.

(** Whatever the service answers, [listMaterializedViews] changes nothing
    and returns tables of kind MATERIALIZED_VIEW only. *)
Lemma listMaterializedViews_reads (d : string) (r : Remote) :
  snd (listMaterializedViews d r) = r
  /\ forall mvs, fst (listMaterializedViews d r) = Ok mvs ->
       Forall (fun mv => exists T,
                 lookupTable r d (MaterializedViewInfo.viewId mv) = Some T
                 /\ Table.type T = "MATERIALIZED_VIEW") mvs.
Proof.
  unfold listMaterializedViews. rewrite run_bind, run_getTables.
  destruct (fault r (GetTables d)); [split; [reflexivity | discriminate]|].
  destruct (catalog r !! d); [|split; [reflexivity | discriminate]].
  apply collect_reads. intros k.
  rewrite run_tryCatch, run_bind, run_tableGetMetadata.
  destruct (fault r (TableGetMetadata d k)).
  { rewrite run_ret. split; [reflexivity | discriminate]. }
  destruct (lookupTable r d k) as [T|] eqn:ET.
  2:{ rewrite run_ret. split; [reflexivity | discriminate]. }
  destruct (String.eqb_spec (Table.type T) "MATERIALIZED_VIEW") as [Ety|].
  2:{ rewrite run_ret. split; [reflexivity | discriminate]. }
  destruct (Table.materializedView T ≫= MaterializedView.query) as [[|c q]|];
    rewrite run_ret; (split; [reflexivity|]); try discriminate.
  intros b [= <-]. cbn. eauto.
Qed.

Lemma collect_length {S A B} (body : A -> M S (option B)) (l : list A) :
  forall s bs, fst (collect body l s) = Ok bs -> (length bs <= length l)%nat.
Proof.
  induction l as [|x rest IH]; intros s bs.
  - rewrite run_collect_nil. intros [= <-]. reflexivity.
  - rewrite run_collect_cons.
    destruct (body x s) as [[o|e] s1]; [|discriminate].
    destruct (collect body rest s1) as [[bs'|e] s2] eqn:E; [|discriminate].
    intros [= <-]. specialize (IH s1 bs'). rewrite E in IH.
    specialize (IH eq_refl). destruct o; cbn [length]; lia.
Qed.

Lemma forEach_total {S A B} (body : A -> M S B) :
  (forall x s, exists b s', body x s = (Ok b, s')) ->
  forall l s, exists bs s',
    forEach body l s = (Ok bs, s') /\ length bs = length l.
Proof.
  intros Hb. induction l as [|x rest IH]; intros s.
  - rewrite run_forEach_nil. eauto.
  - rewrite run_forEach_cons. destruct (Hb x s) as (b & s1 & ->).
    destruct (IH s1) as (bs & s2 & -> & Hl). eexists _, _.
    split; [reflexivity|]. cbn [length]. now rewrite Hl.
Qed.

(** Recreating the materialized views of a dataset always returns a
    count, and keeps the tables of other kinds. *)
Lemma recreateMaterializedViewsInDataset_total
    (d : string) (r : Remote) :
  exists n r',
    recreateMaterializedViewsInDataset d r = (Ok n, r')
    /\ fault r' = fault r
    /\ (forall D, catalog r !! d = Some D -> (n <= size (Dataset.tables D))%nat)
    /\ (forall t T, lookupTable r d t = Some T ->
          Table.type T <> "MATERIALIZED_VIEW" -> lookupTable r' d t = Some T).
Proof.
  destruct (listMaterializedViews_reads d r) as [Hs Hq].
  unfold recreateMaterializedViewsInDataset. rewrite run_tryCatch, run_bind.
  assert (forall D mvs, catalog r !! d = Some D ->
            fst (listMaterializedViews d r) = Ok mvs ->
            (length mvs <= size (Dataset.tables D))%nat) as Hsize.
  { intros D mvs HD. unfold listMaterializedViews.
    rewrite run_bind, run_getTables.
    destruct (fault r (GetTables d)); [discriminate|]. rewrite HD.
    intros H. apply collect_length in H.
    now rewrite length_map, length_map_to_list in H. }
  destruct (listMaterializedViews d r) as [[mvs|e] r0]; cbn [fst snd] in *; subst r0.
  2:{ rewrite run_ret. exists O, r. repeat split; auto. intros; lia. }
  destruct (length mvs =? 0)%nat.
  { rewrite run_ret. exists O, r. repeat split; auto. intros; lia. }
  set (V := fun v => exists T, lookupTable r d v = Some T
                               /\ Table.type T = "MATERIALIZED_VIEW").
  rewrite run_bind.
  match goal with |- context [forEach ?body mvs r] =>
    pose proof (preserves_forEach_In id _
                  (keeps_refl d V) (keeps_trans d V) body mvs) as Hk;
    destruct (forEach_total body) with (l := mvs) (s := r)
      as (bs & r' & E & Hlen)
  end.
  { intros mv s. rewrite run_tryCatch, run_bind.
    destruct (recreateMaterializedView _ _ _ _ _ s) as [[u|e] s'];
      rewrite run_ret; eauto. }
  specialize (Hq mvs eq_refl). rewrite Forall_forall in Hq.
  specialize (Hk ltac:(intros mv Hin; apply preserves_tryCatch;
     [apply keeps_trans | | intros ?; apply preserves_ret, keeps_refl];
     apply preserves_bind;
     [apply keeps_trans
     | apply recreateMaterializedView_keeps; apply Hq; now apply list_elem_of_In
     | intros ?; apply preserves_ret, keeps_refl]) r).
  rewrite E in *. unfold id in Hk. cbn [snd] in Hk. destruct Hk as [HF HK].
  rewrite run_ret. eexists _, r'. split; [reflexivity|]. split; [exact HF|]. split.
  - intros D HD. specialize (Hsize D mvs HD eq_refl).
    pose proof (List.filter_length_le id bs). lia.
  - intros t T Ht Hty. rewrite HK; [assumption|].
    intros (T' & ET' & Hty'). congruence.
Qed.

(** X15. Recreating the materialized views of a dataset never fails,
    whatever the service answers: it returns a count, at most the number of
    tables of the dataset; every table of the dataset that is not a
    materialized view is afterwards as it was, the dataset is still there
    at its location, and the other datasets are untouched. *)
Theorem recreateMaterializedViewsInDataset_never_fails
    (d : string) (r : Remote) :
  exists n r',
    recreateMaterializedViewsInDataset d r = (Ok n, r')
    /\ (forall D, catalog r !! d = Some D ->
          (n <= size (Dataset.tables D))%nat
          /\ exists D', catalog r' !! d = Some D'
                        /\ Dataset.location D' = Dataset.location D)
    /\ (forall k, k <> d -> catalog r' !! k = catalog r !! k)
    /\ (forall t T, lookupTable r d t = Some T ->
          Table.type T <> "MATERIALIZED_VIEW" -> lookupTable r' d t = Some T).
Proof.
  destruct (recreateMaterializedViewsInDataset_total d r)
    as (n & r' & E & _ & Hn & Hkept).
  pose proof (recreateMaterializedViewsInDataset_within (fun k => k = d) d
                eq_refl r) as W.
  rewrite E in W. unfold id in W. cbn [snd] in W.
  destruct W as (_ & _ & HC & HL).
  exists n, r'. split; [exact E|]. split; [|split].
  - intros D HD. split; [now apply Hn | now apply HL].
  - intros k Hk. now apply HC.
  - exact Hkept.
Qed.

End ViewsOfDataset.

(** ** restore.ts: one backup restored *)

Section RestoreEmpty.

(** X16. A backup container without snapshots restores nothing and is
    reported as a success with 0 tables: the target dataset is not even
    created, and the service is left as it was. *)
Theorem restoreOne_nothing_to_restore (options : RestoreOptions.t)
    (backup : BackupInfo.t) (r : Remote) (BD : Dataset.t)
    (Hfaults : onlyJobsFail (fault r))
    (Hbackup : catalog r !! BackupInfo.backupDatasetId backup = Some BD)
    (Hnone : snapshotIdsOf BD = []) :
  restoreOne options backup r
  = (Ok (RestoreResult.mk (BackupInfo.backupDatasetId backup)
           (BackupInfo.sourceDatasetId backup) 0 0 true []), r).
Proof.
  unfold restoreOne. cbv zeta.
  rewrite run_withLocal, run_tryCatch, run_bind, run_remote.
  rewrite (listBackupTables_noFault r Hfaults _ BD Hbackup), Hnone.
  cbn [fst snd length Nat.eqb]. rewrite run_setLocal. reflexivity.
Qed.

(** A container that holds no snapshot. *)
Lemma restoreOne_nothing_to_restore_witness :
  snapshotIdsOf (Dataset.mk (Some "EU") ∅) = []
  /\ restoreOne (RestoreOptions.mk "proj" (Some 1734273022000) None)
       (BackupInfo.mk "zzz_backup_20241215_143022_hr" "hr" 1734273022000)
       (mkRemote "proj"
          {[ "zzz_backup_20241215_143022_hr" := Dataset.mk (Some "EU") ∅ ]}
          Example.noFault)
     = (Ok (RestoreResult.mk "zzz_backup_20241215_143022_hr" "hr" 0 0 true []),
        mkRemote "proj"
          {[ "zzz_backup_20241215_143022_hr" := Dataset.mk (Some "EU") ∅ ]}
          Example.noFault).
Proof.
  split; [vm_compute; reflexivity|].
  apply (restoreOne_nothing_to_restore
           (RestoreOptions.mk "proj" (Some 1734273022000) None)
           (BackupInfo.mk "zzz_backup_20241215_143022_hr" "hr" 1734273022000)
           _ (Dataset.mk (Some "EU") ∅)).
  - intros rq _. reflexivity.
  - vm_compute. reflexivity.
  - vm_compute. reflexivity.
Defined.

End RestoreEmpty.

Section RestoreOneMore.

Variables (options : RestoreOptions.t) (backup : BackupInfo.t).

Let B := BackupInfo.backupDatasetId backup.
Let target := BackupInfo.sourceDatasetId backup.

Hypothesis Hnames : B <> target.

Let clone (S : Table.t) : Table.t :=
  Table.mk "TABLE" None None (Table.rows S) None.

Lemma restoreMember_overwrite r t S :
  RestoreOptions.overwrite options = Some true ->
  fault r (TableExists target t) = None ->
  fault r (QueryJob (CreateTableClone true target t B t)) = None ->
  is_Some (catalog r !! target) ->
  lookupTable r B t = Some S ->
  restoreMember options backup target t r
  = (Ok (Outcome.mk true t None), putTable target t (clone S) r).
Proof.
  intros Ho Hf Hj [TD Ht] Hs. unfold restoreMember. fold B.
  rewrite Ho. cbn [default from_option id]. change (id true) with true.
  rewrite run_tryCatch, run_bind. unfold restoreTable.
  rewrite run_bind, run_getProjectId. cbv zeta.
  rewrite run_bind, run_tableExists, Hf.
  rewrite andb_false_r. rewrite run_runQuery, Hj.
  unfold execute. rewrite Ht, Hs. rewrite andb_false_r. now rewrite run_ret.
Qed.

Lemma forEach_restoreMember_overwrite (ids : list string) :
  forall r,
  RestoreOptions.overwrite options = Some true ->
  NoDup ids ->
  (forall t, In t ids ->
     fault r (TableExists target t) = None
     /\ fault r (QueryJob (CreateTableClone true target t B t)) = None) ->
  is_Some (catalog r !! target) ->
  (forall t, In t ids -> is_Some (lookupTable r B t)) ->
  exists r',
    forEach (restoreMember options backup target) ids r
    = (Ok (map (fun t => Outcome.mk true t None) ids), r')
    /\ fault r' = fault r
    /\ (forall t, ~ In t ids -> lookupTable r' target t = lookupTable r target t)
    /\ (forall t S, In t ids -> lookupTable r B t = Some S ->
          lookupTable r' target t = Some (clone S)).
Proof.
  induction ids as [|t rest IH]; intros r Ho Hnd Hf Htgt Hs.
  - exists r. rewrite run_forEach_nil. repeat split; try assumption.
    intros t S Hin. destruct Hin.
  - apply NoDup_cons in Hnd as [Hnotin Hnd].
    assert (~ In t rest) as Hnotin' by (now rewrite <- list_elem_of_In).
    destruct (Hs t ltac:(now left)) as [S ES].
    destruct (Hf t ltac:(now left)) as [Hf1 Hf2].
    rewrite run_forEach_cons, (restoreMember_overwrite r t S) by assumption.
    set (r1 := putTable target t (clone S) r).
    assert (forall t', lookupTable r1 B t' = lookupTable r B t') as LB.
    { intros t'. unfold r1. rewrite lookupTable_putTable.
      destruct (decide _) as [(? & _)|_]; [congruence | reflexivity]. }
    assert (forall t', t' <> t ->
              lookupTable r1 target t' = lookupTable r target t') as L1.
    { intros t' Hne. unfold r1. rewrite lookupTable_putTable.
      destruct (decide _) as [(_ & ? & _)|_]; [congruence | reflexivity]. }
    destruct (IH r1 Ho Hnd) as (r' & E & F & LO & LI).
    + intros t' Hin. apply Hf. now right.
    + unfold r1. now apply catalog_putTable_is_Some.
    + intros t' Hin. rewrite LB. apply Hs. now right.
    + rewrite E. exists r'. split; [reflexivity|]. split; [exact F|]. split.
      * intros t' Hn. rewrite LO by (intros Hin; apply Hn; now right).
        apply L1. intros ->. apply Hn. now left.
      * intros t' S' [<-|Hin] ES'.
        -- rewrite LO by assumption. rewrite ES in ES'. injection ES' as <-.
           unfold r1. rewrite lookupTable_putTable.
           destruct (decide _) as [_|Hn]; [reflexivity|].
           exfalso. apply Hn. now repeat split.
        -- apply (LI t' S' Hin). now rewrite LB.
Qed.

End RestoreOneMore.

Section RestoreOverwrite.

Lemma all_succeeded (ids : list string) :
  List.filter Outcome.success (map (fun t => Outcome.mk true t None) ids)
  = map (fun t => Outcome.mk true t None) ids
  /\ List.filter (fun o => negb (Outcome.success o))
       (map (fun t => Outcome.mk true t None) ids) = [].
Proof.
  induction ids as [|t rest [IH1 IH2]]; [now split|].
  cbn [map List.filter Outcome.success negb]. now rewrite IH1, IH2.
Qed.

(** The result object of a restore with [overwrite] whose clone jobs are
    accepted, and the target afterwards. *)
Lemma restoreOne_overwrite_run
    (options : RestoreOptions.t) (backup : BackupInfo.t) (r : Remote)
    (BD TD : Dataset.t)
    (Hoverwrite : RestoreOptions.overwrite options = Some true)
    (Hfaults : onlyJobsFail (fault r))
    (Hjobs : forall t, In t (snapshotIdsOf BD) ->
       fault r (QueryJob (CreateTableClone true
                            (BackupInfo.sourceDatasetId backup) t
                            (BackupInfo.backupDatasetId backup) t)) = None)
    (Hnames : BackupInfo.backupDatasetId backup
              <> BackupInfo.sourceDatasetId backup)
    (Hbackup : catalog r !! BackupInfo.backupDatasetId backup = Some BD)
    (Htarget : catalog r !! BackupInfo.sourceDatasetId backup = Some TD)
    (Hmembers : snapshotIdsOf BD <> []) :
  exists n r',
    restoreOne options backup r
    = (Ok (RestoreResult.mk (BackupInfo.backupDatasetId backup)
             (BackupInfo.sourceDatasetId backup)
             (length (snapshotIdsOf BD)) n true []), r')
    /\ forall t S,
         In t (snapshotIdsOf BD) -> Dataset.tables BD !! t = Some S ->
         lookupTable r' (BackupInfo.sourceDatasetId backup) t
         = Some (Table.mk "TABLE" None None (Table.rows S) None).
Proof.
  unfold restoreOne. cbv zeta.
  rewrite run_withLocal, run_tryCatch, run_bind, run_remote.
  rewrite (listBackupTables_noFault r Hfaults _ BD Hbackup). cbn [fst snd].
  assert ((length (snapshotIdsOf BD) =? 0)%nat = false) as ->
    by (destruct (snapshotIdsOf BD); [congruence | reflexivity]).
  rewrite run_bind, run_remote, run_datasetExists.
  rewrite (Hfaults (DatasetExists _)) by discriminate.
  rewrite Htarget. cbn [fst snd isSome negb].
  rewrite run_bind, run_ret.
  destruct (forEach_restoreMember_overwrite options backup Hnames
              (snapshotIdsOf BD) r Hoverwrite)
    as (r1 & E & F1 & _ & L1).
  - apply snapshotIdsOf_NoDup.
  - intros t Ht. split; [apply Hfaults; discriminate | now apply Hjobs].
  - eauto.
  - intros t Ht. destruct (snapshotIdsOf_In BD t Ht) as (S & ES & _).
    exists S. unfold lookupTable. now rewrite Hbackup.
  - rewrite run_bind, run_remote, E. cbn [fst snd].
    rewrite run_bind, run_setLocal, run_bind, run_remote.
    destruct (recreateMaterializedViewsInDataset_total
                (BackupInfo.sourceDatasetId backup) r1)
      as (n & r2 & E2 & _ & _ & L2).
    rewrite E2. cbn [fst snd].
    destruct (all_succeeded (snapshotIdsOf BD)) as [-> ->].
    rewrite !run_bind, !run_setLocal. cbn [length Nat.eqb Nat.ltb Nat.leb].
    rewrite ?run_ret. exists n, r2. split.
    + now rewrite length_map.
    + intros t S Ht ES. apply (L2 t); [|cbn; discriminate].
      apply (L1 t S Ht). unfold lookupTable. now rewrite Hbackup.
Qed.

(** X17. With [overwrite], the restore of a backup whose clone jobs are
    accepted replaces the tables of the target: every snapshot of the
    container is counted, the result is a success without errors, and
    afterwards the target holds, under the name of each snapshot, a table
    with the rows of that snapshot, whether a table of that name existed
    before or not. The backup container itself is left as it was. *)
Theorem restoreOne_overwrite_replaces
    (options : RestoreOptions.t) (backup : BackupInfo.t) (r : Remote)
    (BD TD : Dataset.t)
    (Hoverwrite : RestoreOptions.overwrite options = Some true)
    (Hfaults : onlyJobsFail (fault r))
    (Hjobs : forall t, In t (snapshotIdsOf BD) ->
       fault r (QueryJob (CreateTableClone true
                            (BackupInfo.sourceDatasetId backup) t
                            (BackupInfo.backupDatasetId backup) t)) = None)
    (Hnames : BackupInfo.backupDatasetId backup
              <> BackupInfo.sourceDatasetId backup)
    (Hbackup : catalog r !! BackupInfo.backupDatasetId backup = Some BD)
    (Htarget : catalog r !! BackupInfo.sourceDatasetId backup = Some TD)
    (Hmembers : snapshotIdsOf BD <> []) :
  exists n r',
    restoreOne options backup r
    = (Ok (RestoreResult.mk (BackupInfo.backupDatasetId backup)
             (BackupInfo.sourceDatasetId backup)
             (length (snapshotIdsOf BD)) n true []), r')
    /\ catalog r' !! BackupInfo.backupDatasetId backup = Some BD
    /\ forall t S,
         In t (snapshotIdsOf BD) -> Dataset.tables BD !! t = Some S ->
         lookupTable r' (BackupInfo.sourceDatasetId backup) t
         = Some (Table.mk "TABLE" None None (Table.rows S) None).
Proof.
  destruct (restoreOne_overwrite_run options backup r BD TD Hoverwrite Hfaults
              Hjobs Hnames Hbackup Htarget Hmembers) as (n & r' & E & Hin).
  pose proof (restoreOne_within
                (fun k => k = BackupInfo.sourceDatasetId backup) options backup
                eq_refl r) as W.
  rewrite E in W. unfold id in W. cbn [snd] in W.
  destruct W as (_ & _ & HC & _).
  exists n, r'. split; [exact E|]. split; [|exact Hin].
  rewrite HC; [exact Hbackup | exact Hnames].
Qed.

(** The backup of sales restored with [overwrite] into the sales dataset
    that still holds orders: orders is replaced. *)
Lemma restoreOne_overwrite_replaces_witness :
  RestoreOptions.overwrite
    (RestoreOptions.mk "proj" (Some 1734273022000) (Some true)) = Some true
  /\ exists n r',
       restoreOne (RestoreOptions.mk "proj" (Some 1734273022000) (Some true))
         (BackupInfo.mk "zzz_backup_20241215_143022_sales" "sales" 1734273022000)
         Example.restorable
       = (Ok (RestoreResult.mk "zzz_backup_20241215_143022_sales" "sales"
                3 n true []), r')
       /\ lookupTable r' "sales" "orders"
          = Some (Table.mk "TABLE" None None
                    (AsOf "sales" "orders" 1734273022000) None).
Proof.
  split; [reflexivity|].
  destruct (restoreOne_overwrite_replaces
              (RestoreOptions.mk "proj" (Some 1734273022000) (Some true))
              (BackupInfo.mk "zzz_backup_20241215_143022_sales" "sales"
                 1734273022000)
              Example.restorable Example.salesBackup Example.salesLeft)
    as (n & r' & E & _ & Hin).
  - reflexivity.
  - intros rq _. reflexivity.
  - intros t _. reflexivity.
  - discriminate.
  - vm_compute. reflexivity.
  - vm_compute. reflexivity.
  - rewrite snapshotIdsOf_salesBackup. discriminate.
  - exists n, r'. split.
    + rewrite E, snapshotIdsOf_salesBackup. reflexivity.
    + apply (Hin "orders" (Example.snapshot "orders")).
      * rewrite snapshotIdsOf_salesBackup. now left.
      * vm_compute. reflexivity.
Defined.

End RestoreOverwrite.

Section RestoreCreates.

Variables (options : RestoreOptions.t) (backup : BackupInfo.t) (r : Remote).
Variable BD : Dataset.t.

Hypothesis Hoverwrite : default false (RestoreOptions.overwrite options) = false.
Hypothesis Hfaults : onlyJobsFail (fault r).
Hypothesis Hnames :
  BackupInfo.backupDatasetId backup <> BackupInfo.sourceDatasetId backup.
Hypothesis Hbackup : catalog r !! BackupInfo.backupDatasetId backup = Some BD.
Hypothesis Habsent : catalog r !! BackupInfo.sourceDatasetId backup = None.
Hypothesis Hmembers : snapshotIdsOf BD <> [].

Let location : string :=
  match Dataset.location BD with
  | None | Some EmptyString => "US"
  | Some l => l
  end.

(** The service once the target dataset is created. *)
Let r0 : Remote :=
  withCatalog r
    (<[BackupInfo.sourceDatasetId backup := Dataset.mk (Some location) ∅]>
       (catalog r)).

(** The result object of a backup with snapshots whose target dataset does
    not exist, and the target afterwards. *)
Lemma restoreOne_creates_run :
  exists n r',
    restoreOne options backup r
    = (Ok (let outcomes :=
             map (restoreOutcome (BackupInfo.backupDatasetId backup)
                    (BackupInfo.sourceDatasetId backup) r0) (snapshotIdsOf BD) in
           let failed :=
             List.filter (fun o => negb (Outcome.success o)) outcomes in
           RestoreResult.mk (BackupInfo.backupDatasetId backup)
             (BackupInfo.sourceDatasetId backup)
             (length (List.filter Outcome.success outcomes)) n
             (length failed =? 0)%nat
             (if (0 <? length failed)%nat then map errorOrUnknown failed else [])),
       r')
    /\ (exists TD,
          catalog r' !! BackupInfo.sourceDatasetId backup = Some TD
          /\ Dataset.location TD = Some location)
    /\ forall t S,
         In t (snapshotIdsOf BD) ->
         Dataset.tables BD !! t = Some S ->
         Outcome.success
           (restoreOutcome (BackupInfo.backupDatasetId backup)
              (BackupInfo.sourceDatasetId backup) r0 t) = true ->
         lookupTable r' (BackupInfo.sourceDatasetId backup) t
         = Some (Table.mk "TABLE" None None (Table.rows S) None).
Proof.
  assert (forall d t, lookupTable r0 d t = lookupTable r d t) as L0
    by (intros; now apply lookupTable_create).
  unfold restoreOne. cbv zeta.
  rewrite run_withLocal, run_tryCatch, run_bind, run_remote.
  rewrite (listBackupTables_noFault r Hfaults _ BD Hbackup). cbn [fst snd].
  assert ((length (snapshotIdsOf BD) =? 0)%nat = false) as ->
    by (destruct (snapshotIdsOf BD); [congruence | reflexivity]).
  rewrite run_bind, run_remote, run_datasetExists.
  rewrite (Hfaults (DatasetExists _)) by discriminate.
  rewrite Habsent. cbn [fst snd isSome negb].
  rewrite !run_bind, run_remote, run_datasetGetMetadata.
  rewrite (Hfaults (DatasetGetMetadata _)), Hbackup by discriminate.
  cbn [fst snd]. rewrite run_remote, run_datasetCreate.
  rewrite (Hfaults (DatasetCreate _)), Habsent by discriminate.
  cbn [fst snd]. fold location. fold r0.
  destruct (forEach_restoreMember_run options backup Hoverwrite Hnames
              (snapshotIdsOf BD) r0)
    as (r1 & E & F1 & _ & _ & _ & _ & L1).
  - apply snapshotIdsOf_NoDup.
  - intros t Ht. apply Hfaults. discriminate.
  - unfold r0. cbn [catalog withCatalog]. rewrite lookup_insert_eq. eauto.
  - intros t Ht. destruct (snapshotIdsOf_In BD t Ht) as (S & ES & _).
    exists S. rewrite L0. unfold lookupTable. now rewrite Hbackup.
  - set (K := fun k => k = BackupInfo.sourceDatasetId backup).
    pose proof (restoreMembers_within K options backup
                  (BackupInfo.sourceDatasetId backup) (snapshotIdsOf BD)
                  eq_refl r0) as W1.
    rewrite E in W1. unfold id in W1. cbn [snd] in W1.
    destruct W1 as (_ & _ & _ & W1).
    rewrite run_bind, run_remote, E. cbn [fst snd].
    rewrite run_bind, run_setLocal, run_bind, run_remote.
    destruct (recreateMaterializedViewsInDataset_total
                (BackupInfo.sourceDatasetId backup) r1)
      as (n & r2 & E2 & _ & _ & L2).
    pose proof (recreateMaterializedViewsInDataset_within K
                  (BackupInfo.sourceDatasetId backup) eq_refl r1) as W2.
    rewrite E2 in W2. unfold id in W2. cbn [snd] in W2.
    destruct W2 as (_ & _ & _ & W2).
    rewrite E2. cbn [fst snd].
    repeat (rewrite run_bind || rewrite run_setLocal).
    exists n, r2. split; [|split].
    + cbn [RestoreResult.setTablesRestored RestoreResult.setSuccess
           RestoreResult.setMaterializedViewsRecreated
           RestoreResult.sourceBackupDatasetId RestoreResult.targetDatasetId
           RestoreResult.tablesRestored RestoreResult.success
           RestoreResult.materializedViewsRecreated RestoreResult.errors].
      destruct (0 <? length _)%nat; [rewrite run_setLocal | rewrite run_ret];
        reflexivity.
    + destruct (W1 (BackupInfo.sourceDatasetId backup)
                  (Dataset.mk (Some location) ∅)) as (D1 & HD1 & EL1).
      { unfold r0. cbn [catalog withCatalog]. apply lookup_insert_eq. }
      destruct (W2 _ _ HD1) as (D2 & HD2 & EL2).
      exists D2. split; [exact HD2|]. now rewrite EL2, EL1.
    + intros t S Ht ES Hok.
      apply (L2 t); [|cbn; discriminate].
      rewrite (L1 t S Ht), Hok; [reflexivity|].
      rewrite L0. unfold lookupTable. now rewrite Hbackup.
Qed.

End RestoreCreates.

Section RestoreCreatesTheorem.

(** X18. When the target dataset of a backup does not exist, the restore
    creates it at the location of the backup container, or in US when the
    container has none, and restores into it: without [overwrite], every
    snapshot whose clone job is accepted is counted and is afterwards a
    table of the new dataset with the rows of the snapshot. *)
Theorem restoreOne_creates_target
    (options : RestoreOptions.t) (backup : BackupInfo.t) (r : Remote)
    (BD : Dataset.t)
    (Hoverwrite : default false (RestoreOptions.overwrite options) = false)
    (Hfaults : onlyJobsFail (fault r))
    (Hnames : BackupInfo.backupDatasetId backup
              <> BackupInfo.sourceDatasetId backup)
    (Hbackup : catalog r !! BackupInfo.backupDatasetId backup = Some BD)
    (Habsent : catalog r !! BackupInfo.sourceDatasetId backup = None)
    (Hmembers : snapshotIdsOf BD <> []) :
  let B := BackupInfo.backupDatasetId backup in
  let target := BackupInfo.sourceDatasetId backup in
  let accepted t :=
    negb (isSome (fault r (QueryJob (CreateTableClone false target t B t)))) in
  exists result r',
    restoreOne options backup r = (Ok result, r')
    /\ (exists TD,
          catalog r' !! target = Some TD
          /\ Dataset.location TD
             = Some match Dataset.location BD with
                    | None | Some EmptyString => "US"
                    | Some l => l
                    end)
    /\ RestoreResult.tablesRestored result
       = length (List.filter accepted (snapshotIdsOf BD))
    /\ forall t S,
         In t (snapshotIdsOf BD) -> Dataset.tables BD !! t = Some S ->
         accepted t = true ->
         lookupTable r' target t
         = Some (Table.mk "TABLE" None None (Table.rows S) None).
Proof.
  intros B target accepted. subst B target.
  destruct (restoreOne_creates_run options backup r BD Hoverwrite Hfaults
              Hnames Hbackup Habsent Hmembers) as (n & r' & E & HT & Hin).
  cbv zeta in E.
  assert (forall t,
            Outcome.success
              (restoreOutcome (BackupInfo.backupDatasetId backup)
                 (BackupInfo.sourceDatasetId backup)
                 (withCatalog r
                    (<[BackupInfo.sourceDatasetId backup
                       := Dataset.mk
                            (Some match Dataset.location BD with
                                  | None | Some EmptyString => "US"
                                  | Some l => l
                                  end) ∅]> (catalog r))) t)
            = accepted t) as Hacc.
  { intros t. rewrite restoreOutcome_success.
    rewrite lookupTable_create by assumption.
    unfold lookupTable. now rewrite Habsent. }
  eexists _, r'. split; [exact E|]. split; [exact HT|].
  cbn [RestoreResult.tablesRestored]. split.
  - clear -Hacc. induction (snapshotIdsOf BD) as [|t rest IH]; [reflexivity|].
    cbn [map List.filter]. rewrite Hacc.
    destruct (accepted t); cbn [length]; now rewrite IH.
  - intros t S Ht ES Ha. apply (Hin t S Ht ES). now rewrite Hacc.
Qed.

(** The backup of sales restored into a project from which sales is gone. *)
Lemma restoreOne_creates_target_witness :
  catalog (mkRemote "proj"
             {[ "zzz_backup_20241215_143022_sales" := Example.salesBackup ]}
             Example.noFault) !! "sales" = None
  /\ exists result r',
       restoreOne (RestoreOptions.mk "proj" (Some 1734273022000) None)
         (BackupInfo.mk "zzz_backup_20241215_143022_sales" "sales" 1734273022000)
         (mkRemote "proj"
            {[ "zzz_backup_20241215_143022_sales" := Example.salesBackup ]}
            Example.noFault) = (Ok result, r')
       /\ RestoreResult.tablesRestored result = 3%nat
       /\ (exists TD, catalog r' !! "sales" = Some TD
                      /\ Dataset.location TD = Some "EU").
Proof.
  split; [vm_compute; reflexivity|].
  destruct (restoreOne_creates_target
              (RestoreOptions.mk "proj" (Some 1734273022000) None)
              (BackupInfo.mk "zzz_backup_20241215_143022_sales" "sales"
                 1734273022000)
              (mkRemote "proj"
                 {[ "zzz_backup_20241215_143022_sales" := Example.salesBackup ]}
                 Example.noFault)
              Example.salesBackup)
    as (result & r' & E & HT & Hn & _).
  - reflexivity.
  - intros rq _. reflexivity.
  - discriminate.
  - vm_compute. reflexivity.
  - vm_compute. reflexivity.
  - rewrite snapshotIdsOf_salesBackup. discriminate.
  - exists result, r'. split; [exact E|]. split; [|exact HT].
    rewrite Hn, snapshotIdsOf_salesBackup. reflexivity.
Defined.

End RestoreCreatesTheorem.

(** ** delete-backups.ts: the members of a listing and of a group *)

Section Selected.

Lemma listBackupsOf_In (ids : list string) (b : BackupInfo.t) :
  In b (listBackupsOf ids) <->
  In (BackupInfo.backupDatasetId b) ids
  /\ parseBackupDatasetId (BackupInfo.backupDatasetId b) = Some b.
Proof.
  unfold listBackupsOf. split.
  - intros Hin.
    apply (Permutation_in _ (sort_perm BackupInfo.timestamp _)) in Hin.
    apply list_elem_of_In, list_elem_of_omap in Hin as (id & Hin & Eb).
    destruct (parseBackupDatasetId_Some _ _ Eb) as (-> & _).
    split; [now apply list_elem_of_In | exact Eb].
  - intros (Hin & Eb).
    apply (Permutation_in _
             (Permutation_sym (sort_perm BackupInfo.timestamp _))).
    apply list_elem_of_In, list_elem_of_omap.
    exists (BackupInfo.backupDatasetId b).
    split; [now apply list_elem_of_In | exact Eb].
Qed.

Lemma groupBackupsByTimestamp_members (backups : list BackupInfo.t)
    (g : BackupGroup.t) :
  In g (groupBackupsByTimestamp backups) ->
  BackupGroup.backups g
  = List.filter
      (fun b => String.eqb (JS.toISOString (BackupInfo.timestamp b))
                           (JS.toISOString (BackupGroup.timestamp g))) backups
  /\ exists b, In b backups /\ BackupInfo.timestamp b = BackupGroup.timestamp g.
Proof.
  unfold groupBackupsByTimestamp. intros Hin.
  pose proof (fold_groupStep_groupsOf backups) as HG.
  destruct (groups_values _ _ HG) as (_ & Hvals).
  destruct HG as (_ & _ & Hg). cbv zeta in Hg.
  apply (Permutation_in _ (sort_perm BackupGroup.timestamp _)) in Hin.
  destruct (Hvals g Hin) as (k & Hk).
  destruct (Hg k g Hk) as (_ & Ek & Eb & Hex).
  split; [now rewrite Ek | exact Hex].
Qed.

(** The backups of a group of a listing are the entries of the listing
    at the instant of the group. *)
Lemma group_of_listing (ids : list string) (g : BackupGroup.t) :
  In g (groupBackupsByTimestamp (listBackupsOf ids)) ->
  forall b, In b (BackupGroup.backups g) <->
    In (BackupInfo.backupDatasetId b) ids
    /\ parseBackupDatasetId (BackupInfo.backupDatasetId b) = Some b
    /\ BackupInfo.timestamp b = BackupGroup.timestamp g.
Proof.
  intros Hg b.
  destruct (groupBackupsByTimestamp_members _ _ Hg) as (-> & b0 & Hb0 & E0).
  assert (JS.validTime (BackupGroup.timestamp g)) as Vg.
  { rewrite <- E0. apply listBackupsOf_In in Hb0 as (_ & Eb0).
    now destruct (parseBackupDatasetId_Some _ _ Eb0) as (_ & _ & V & _). }
  rewrite filter_In, listBackupsOf_In. split.
  - intros ((Hin & Eb) & Es). split; [exact Hin|]. split; [exact Eb|].
    apply String.eqb_eq in Es. apply toISOString_inj; [|exact Vg|exact Es].
    now destruct (parseBackupDatasetId_Some _ _ Eb) as (_ & _ & V & _).
  - intros (Hin & Eb & Et). split; [now split|].
    rewrite Et. apply String.eqb_refl.
Qed.

Lemma promptForSelection_Exit (maxIndex : Z) (answer : JS.text) (status : Z) :
  promptForSelection maxIndex answer = Exit status -> status = 0 \/ status = 1.
Proof.
  unfold promptForSelection.
  destruct (_ || _); [intros [= <-]; now left|].
  destruct (JS.parseIntText answer) as [index|]; [|intros [= <-]; now right].
  destruct (_ || _); [intros [= <-]; now right | discriminate].
Qed.

Lemma promptForSelection_Resolve (maxIndex : Z) (answer : JS.text) (index : Z) :
  promptForSelection maxIndex answer = Resolve index -> 0 <= index < maxIndex.
Proof.
  unfold promptForSelection.
  destruct (_ || _); [discriminate|].
  destruct (JS.parseIntText answer) as [i|]; [|discriminate].
  destruct (i <? 1) eqn:E1; [discriminate|].
  destruct (maxIndex <? i) eqn:E2; [discriminate|].
  cbn [orb]. intros [= <-]. lia.
Qed.

End Selected.

(** ** delete-backups.ts: the deletion *)

Section Deletion.

Variable refused : string -> option string.

(** What one deletion does to the service: at most, it removes the dataset
    it names. *)
Let removes (K : string -> Prop) (r r' : Remote) : Prop :=
  fault r' = fault r /\ projectId r' = projectId r
  /\ (forall k, ~ K k -> catalog r' !! k = catalog r !! k)
  /\ (forall k, catalog r' !! k = catalog r !! k \/ catalog r' !! k = None).

Lemma removes_refl K r : removes K r r.
Proof. repeat split; auto. Qed.

Lemma removes_trans K r1 r2 r3 :
  removes K r1 r2 -> removes K r2 r3 -> removes K r1 r3.
Proof.
  intros (F1 & P1 & C1 & D1) (F2 & P2 & C2 & D2).
  split; [congruence|]. split; [congruence|]. split.
  - intros k Hk. now rewrite C2, C1.
  - intros k. destruct (D2 k) as [E|E]; [rewrite E; apply D1 | now right].
Qed.

Lemma run_deleteBackupDataset (backupDatasetId : string) (r : Remote) :
  deleteBackupDataset refused backupDatasetId r
  = match fault r (DatasetExists backupDatasetId) with
    | Some e => (Throw e, r)
    | None =>
        match catalog r !! backupDatasetId with
        | None => (Ok tt, r)
        | Some _ =>
            match refused backupDatasetId with
            | Some e => (Throw e, r)
            | None =>
                (Ok tt, withCatalog r (delete backupDatasetId (catalog r)))
            end
        end
    end.
Proof.
  unfold deleteBackupDataset. rewrite run_bind, run_datasetExists.
  destruct (fault r _); [reflexivity|].
  destruct (catalog r !! backupDatasetId) as [D|] eqn:E; cbn [isSome negb].
  - unfold datasetDelete. rewrite E. reflexivity.
  - apply run_ret.
Qed.

Lemma deleteBackupDataset_removes K backupDatasetId :
  K backupDatasetId ->
  preserves id (removes K) (deleteBackupDataset refused backupDatasetId).
Proof.
  intros HK r. rewrite run_deleteBackupDataset. unfold id.
  destruct (fault r _); [apply removes_refl|].
  destruct (catalog r !! backupDatasetId) eqn:E; [|apply removes_refl].
  destruct (refused backupDatasetId); [apply removes_refl|].
  cbn [snd]. split; [reflexivity|]. split; [reflexivity|].
  cbn [catalog withCatalog]. split.
  - intros k Hk. rewrite lookup_delete_ne; [reflexivity | now intros ->].
  - intros k. destruct (decide (backupDatasetId = k)) as [<-|Hne].
    + right. apply lookup_delete_eq.
    + left. now apply lookup_delete_ne.
Qed.

(** One turn of the loop of [deleteBackupsForTimestamp]. *)
Let turn (backup : BackupInfo.t) : M (Remote * DeleteCounts.t) unit :=
  tryCatch
    (do* remote (deleteBackupDataset refused (BackupInfo.backupDatasetId backup)) in
     setLocal DeleteCounts.incSuccess)
    (fun _ => setLocal DeleteCounts.incError).

Lemma run_turn backup r c :
  turn backup (r, c)
  = (Ok tt,
     (snd (deleteBackupDataset refused (BackupInfo.backupDatasetId backup) r),
      match fst (deleteBackupDataset refused
                   (BackupInfo.backupDatasetId backup) r) with
      | Ok _ => DeleteCounts.incSuccess c
      | Throw _ => DeleteCounts.incError c
      end)).
Proof.
  unfold turn. rewrite run_tryCatch, run_bind, run_remote.
  destruct (deleteBackupDataset refused _ r) as [[u|e] r1]; cbn [fst snd];
    now rewrite run_setLocal.
Qed.

Lemma run_loop (backups : list BackupInfo.t) :
  forall r c,
  exists us r' c',
    forEach turn backups (r, c) = (Ok us, (r', c'))
    /\ (DeleteCounts.successCount c' + DeleteCounts.errorCount c'
        = DeleteCounts.successCount c + DeleteCounts.errorCount c
          + length backups)%nat
    /\ removes (fun k => In k (map BackupInfo.backupDatasetId backups)) r r'
    /\ ((forall b, In b backups ->
           fault r (DatasetExists (BackupInfo.backupDatasetId b)) = None
           /\ refused (BackupInfo.backupDatasetId b) = None) ->
        DeleteCounts.errorCount c' = DeleteCounts.errorCount c
        /\ forall b, In b backups ->
             catalog r' !! BackupInfo.backupDatasetId b = None).
Proof.
  induction backups as [|b rest IH]; intros r c.
  - rewrite run_forEach_nil. exists [], r, c.
    split; [reflexivity|]. split; [cbn; lia|]. split; [apply removes_refl|].
    intros _. split; [reflexivity|]. intros b [].
  - rewrite run_forEach_cons, run_turn.
    set (r1 := snd (deleteBackupDataset refused (BackupInfo.backupDatasetId b) r)).
    set (c1 := match fst (deleteBackupDataset refused
                            (BackupInfo.backupDatasetId b) r) with
               | Ok _ => DeleteCounts.incSuccess c
               | Throw _ => DeleteCounts.incError c
               end).
    destruct (IH r1 c1) as (us & r' & c' & -> & Hsum & Hrem & Hall).
    exists (tt :: us), r', c'. split; [reflexivity|].
    assert (removes (fun k => In k (map BackupInfo.backupDatasetId (b :: rest)))
              r r1) as H1.
    { apply (deleteBackupDataset_removes
               (fun k => In k (map BackupInfo.backupDatasetId (b :: rest)))).
      now left. }
    split; [|split].
    + rewrite Hsum. unfold c1.
      destruct (fst _); cbn [DeleteCounts.incSuccess DeleteCounts.incError
                             DeleteCounts.successCount DeleteCounts.errorCount
                             length]; lia.
    + apply (removes_trans _ r r1 r'); [exact H1|].
      destruct Hrem as (F & P & C & D). split; [exact F|]. split; [exact P|].
      split; [|exact D]. intros k Hk. apply C. intros Hin. apply Hk. now right.
    + intros Hok. destruct (Hok b ltac:(now left)) as [He Hr].
      assert (fst (deleteBackupDataset refused (BackupInfo.backupDatasetId b) r)
              = Ok tt /\ catalog r1 !! BackupInfo.backupDatasetId b = None)
        as [E1 A1].
      { unfold r1. rewrite run_deleteBackupDataset, He.
        destruct (catalog r !! BackupInfo.backupDatasetId b) eqn:E;
          [rewrite Hr|]; cbn [fst snd]; split; try reflexivity; try assumption.
        apply lookup_delete_eq. }
      destruct H1 as (F1 & _).
      destruct Hall as [Herr Habs].
      { intros b' Hb'. rewrite F1. apply Hok. now right. }
      split.
      * rewrite Herr. unfold c1. now rewrite E1.
      * intros b' [<-|Hb']; [|now apply Habs].
        destruct Hrem as (_ & _ & _ & D).
        destruct (D (BackupInfo.backupDatasetId b)) as [E|E];
          [now rewrite E | exact E].
Qed.

(** X19. [deleteBackupsForTimestamp] never throws, whatever the service
    answers: every backup of the list is counted once, as a success or as
    an error; a dataset the list does not name is afterwards as it was,
    and a named one is as it was or gone. When no call is refused, all are
    counted as successes, the datasets that were missing already among
    them, and none of the named datasets is left. *)
Theorem deleteBackupsForTimestamp_counts (backups : list BackupInfo.t)
    (r : Remote) :
  exists counts r',
    deleteBackupsForTimestamp refused backups r = (Ok counts, r')
    /\ (DeleteCounts.successCount counts + DeleteCounts.errorCount counts
        = length backups)%nat
    /\ (forall k, ~ In k (map BackupInfo.backupDatasetId backups) ->
          catalog r' !! k = catalog r !! k)
    /\ (forall k, catalog r' !! k = catalog r !! k \/ catalog r' !! k = None)
    /\ ((forall b, In b backups ->
           fault r (DatasetExists (BackupInfo.backupDatasetId b)) = None
           /\ refused (BackupInfo.backupDatasetId b) = None) ->
        counts = DeleteCounts.mk (length backups) 0
        /\ forall b, In b backups ->
             catalog r' !! BackupInfo.backupDatasetId b = None).
Proof.
  unfold deleteBackupsForTimestamp. rewrite run_withLocal, run_bind.
  destruct (run_loop backups r (DeleteCounts.mk 0 0))
    as (us & r' & c' & E & Hsum & (_ & _ & HC & HD) & Hall).
  fold turn. rewrite E, run_ret. exists c', r'. split; [reflexivity|].
  cbn [DeleteCounts.successCount DeleteCounts.errorCount] in Hsum.
  split; [lia|]. split; [exact HC|]. split; [exact HD|].
  intros Hok. destruct (Hall Hok) as [Herr Habs]. split; [|exact Habs].
  cbn [DeleteCounts.errorCount] in Herr. destruct c' as [s e]. cbn in *.
  f_equal; lia.
Qed.

(** X20. Whatever is typed, ASCII or not, and whatever the service
    answers, the action of [delete-backups] ends with status 0 or 1 and
    never with an exception of its own; it leaves every dataset as it was
    or removes it, and the datasets it removes are backup containers whose
    names decode to one and the same instant. Unless the confirmation is
    yes or y, in any case of letters, nothing is removed at all. *)
Theorem deleteBackupsCommand_deletes_only_backups
    (selection confirmation : JS.text) (r : Remote) :
  exists status r' T,
    deleteBackupsCommand refused selection confirmation r = (Ok status, r')
    /\ (status = 0 \/ status = 1)
    /\ fault r' = fault r /\ projectId r' = projectId r
    /\ (forall k,
          catalog r' !! k = catalog r !! k
          \/ (catalog r' !! k = None
              /\ exists b, parseBackupDatasetId k = Some b
                           /\ BackupInfo.timestamp b = T))
    /\ (JS.equals (JS.toLowerCase confirmation) "yes" = false ->
        JS.equals (JS.toLowerCase confirmation) "y" = false -> r' = r).
Proof.
  assert (forall status, status = 0 \/ status = 1 ->
            exists status' r' T,
              (Ok status, r) = (Ok status', r')
              /\ (status' = 0 \/ status' = 1)
              /\ fault r' = fault r /\ projectId r' = projectId r
              /\ (forall k,
                    catalog r' !! k = catalog r !! k
                    \/ (catalog r' !! k = None
                        /\ exists b, parseBackupDatasetId k = Some b
                                     /\ BackupInfo.timestamp b = T))
              /\ (JS.equals (JS.toLowerCase confirmation) "yes" = false ->
                  JS.equals (JS.toLowerCase confirmation) "y" = false ->
                  r' = r)) as Hsame.
  { intros status Hs. exists status, r, 0. repeat split; auto. }
  unfold deleteBackupsCommand. rewrite run_tryCatch, run_bind.
  unfold listBackups. rewrite run_bind, run_getDatasets.
  destruct (fault r GetDatasets); [rewrite run_ret; apply Hsame; now right|].
  rewrite run_ret. set (ids := map fst (map_to_list (catalog r))).
  destruct (length (listBackupsOf ids) =? 0)%nat;
    [rewrite run_ret; apply Hsame; now left|].
  cbv zeta.
  destruct (promptForSelection _ selection) as [status|index] eqn:Es.
  { rewrite run_ret. apply Hsame. now apply promptForSelection_Exit in Es. }
  destruct (nth_error _ (Z.to_nat index)) as [g|] eqn:Eg;
    [|rewrite run_throw, run_ret; apply Hsame; now right].
  apply nth_error_In in Eg.
  destruct (negb (JS.equals (JS.toLowerCase confirmation) "yes")
            && negb (JS.equals (JS.toLowerCase confirmation) "y")) eqn:Ec;
    [rewrite run_ret; apply Hsame; now left|].
  rewrite run_bind. unfold deleteBackupsForTimestamp.
  rewrite run_withLocal, run_bind.
  destruct (run_loop (BackupGroup.backups g) r (DeleteCounts.mk 0 0))
    as (us & r' & c' & E & _ & (F & P & C & D) & _).
  fold turn. rewrite E, run_ret.
  assert (forall k,
            catalog r' !! k = catalog r !! k
            \/ (catalog r' !! k = None
                /\ exists b, parseBackupDatasetId k = Some b
                             /\ BackupInfo.timestamp b = BackupGroup.timestamp g))
    as Hfoot.
  { intros k.
    destruct (in_dec string_dec k
                (map BackupInfo.backupDatasetId (BackupGroup.backups g)))
      as [Hin|Hout]; [|left; now apply C].
    destruct (D k) as [Ek|Ek]; [now left|]. right. split; [exact Ek|].
    apply in_map_iff in Hin as (b & <- & Hb).
    apply (group_of_listing ids g Eg) in Hb as (_ & Eb & Et). eauto. }
  assert (JS.equals (JS.toLowerCase confirmation) "yes" = false ->
          JS.equals (JS.toLowerCase confirmation) "y" = false -> r' = r)
    as Hno.
  { intros H1 H2. rewrite H1, H2 in Ec. discriminate Ec. }
  destruct (0 <? DeleteCounts.errorCount c')%nat; rewrite run_ret;
    [exists 1 | exists 0]; exists r', (BackupGroup.timestamp g); auto 10.
Qed.

(** X21. When no existence check fails and no deletion is refused, a
    selection that resolves always designates a group of the listing, and
    with the confirmation yes or y the action of [delete-backups] ends
    with status 0 having removed exactly the backup containers whose
    names decode to the instant of that group: every other dataset is as
    it was. *)
Theorem deleteBackupsCommand_deletes_selected
    (selection confirmation : JS.text) (r : Remote)
    (backups : list BackupInfo.t) (index : Z)
    (Hexists : forall d, fault r (DatasetExists d) = None)
    (Hallowed : forall d, refused d = None)
    (Hlisted : listBackups r = (Ok backups, r))
    (Hselection :
       promptForSelection
         (Z.of_nat (length (groupBackupsByTimestamp backups))) selection
       = Resolve index)
    (Hconfirmed :
       JS.equals (JS.toLowerCase confirmation) "yes" = true
       \/ JS.equals (JS.toLowerCase confirmation) "y" = true) :
  exists g r',
    nth_error (groupBackupsByTimestamp backups) (Z.to_nat index) = Some g
    /\ deleteBackupsCommand refused selection confirmation r = (Ok 0, r')
    /\ fault r' = fault r /\ projectId r' = projectId r
    /\ forall k,
         catalog r' !! k
         = match parseBackupDatasetId k with
           | Some b =>
               if BackupInfo.timestamp b =? BackupGroup.timestamp g then None
               else catalog r !! k
           | None => catalog r !! k
           end.
Proof.
  destruct (promptForSelection_Resolve _ _ _ Hselection) as [Hlo Hhi].
  destruct (nth_error (groupBackupsByTimestamp backups) (Z.to_nat index))
    as [g|] eqn:Eg; [|apply nth_error_None in Eg; lia].
  unfold deleteBackupsCommand. rewrite run_tryCatch, run_bind, Hlisted.
  destruct (length backups =? 0)%nat eqn:El.
  { apply Nat.eqb_eq in El. destruct backups; [|discriminate El].
    cbn in Hhi. lia. }
  cbv zeta. rewrite Hselection, Eg.
  assert (negb (JS.equals (JS.toLowerCase confirmation) "yes")
          && negb (JS.equals (JS.toLowerCase confirmation) "y") = false) as ->.
  { destruct Hconfirmed as [-> | ->]; [reflexivity | apply andb_false_r]. }
  rewrite run_bind. unfold deleteBackupsForTimestamp.
  rewrite run_withLocal, run_bind.
  destruct (run_loop (BackupGroup.backups g) r (DeleteCounts.mk 0 0))
    as (us & r' & c' & E & _ & (F & P & C & D) & Hall).
  fold turn. rewrite E, run_ret.
  destruct Hall as [Herr Habs]; [intros b _; now split|].
  cbn [DeleteCounts.errorCount] in Herr. rewrite Herr.
  change (0 <? 0)%nat with false. cbv iota. rewrite run_ret.
  exists g, r'. split; [reflexivity|]. split; [reflexivity|].
  split; [exact F|]. split; [exact P|].
  unfold listBackups in Hlisted. rewrite run_bind, run_getDatasets in Hlisted.
  destruct (fault r GetDatasets); [discriminate Hlisted|].
  rewrite run_ret in Hlisted. injection Hlisted as <-.
  set (ids := map fst (map_to_list (catalog r))) in *.
  assert (forall id, In id ids <-> is_Some (catalog r !! id)) as Hids.
  { intros id. unfold ids. rewrite <- list_elem_of_In, list_elem_of_fmap. split.
    - intros ([k D0] & -> & Hin). apply elem_of_map_to_list in Hin. eauto.
    - intros [D0 HD]. exists (id, D0). split; [reflexivity|].
      now apply elem_of_map_to_list. }
  apply nth_error_In in Eg.
  pose proof (group_of_listing ids g Eg) as Hmem.
  assert (forall k, In k (map BackupInfo.backupDatasetId (BackupGroup.backups g))
            -> exists b, parseBackupDatasetId k = Some b
                         /\ BackupInfo.timestamp b = BackupGroup.timestamp g)
    as Hnamed.
  { intros k Hin. apply in_map_iff in Hin as (b & <- & Hb).
    apply Hmem in Hb as (_ & Eb & Et). eauto. }
  intros k. destruct (parseBackupDatasetId k) as [b|] eqn:Ek.
  - destruct (Z.eqb_spec (BackupInfo.timestamp b) (BackupGroup.timestamp g))
      as [Et|Hne].
    + destruct (catalog r !! k) as [D0|] eqn:Ec.
      * destruct (parseBackupDatasetId_Some _ _ Ek) as (Eid & _).
        rewrite <- Eid. apply Habs. apply Hmem. rewrite Eid.
        split; [apply Hids; rewrite Ec; eauto|]. now split.
      * destruct (D k) as [E'|E']; [now rewrite E' | exact E'].
    + apply C. intros Hin. destruct (Hnamed k Hin) as (b' & Eb' & Et').
      rewrite Ek in Eb'. injection Eb' as <-. contradiction.
  - apply C. intros Hin. destruct (Hnamed k Hin) as (b' & Eb' & _).
    rewrite Ek in Eb'. discriminate Eb'.
Qed.

End Deletion.

Section DeletionExample.

Lemma listBackups_restorable :
  listBackups Example.restorable
  = (Ok [BackupInfo.mk "zzz_backup_20241215_143022_sales" "sales"
           1734273022000], Example.restorable).
Proof. vm_compute. reflexivity. Qed.

(** In the example project, the first group, typed behind a no-break
    space, confirmed with YES: the one backup is removed and the dataset
    sales stays. *)
Lemma deleteBackupsCommand_deletes_selected_witness :
  exists r',
    deleteBackupsCommand (fun _ => None) [160%N; 49%N] (JS.units "YES")
      Example.restorable
    = (Ok 0, r')
    /\ catalog r' !! "zzz_backup_20241215_143022_sales" = None
    /\ catalog r' !! "sales" = catalog Example.restorable !! "sales".
Proof.
  destruct (deleteBackupsCommand_deletes_selected (fun _ => None)
              [160%N; 49%N] (JS.units "YES") Example.restorable
              [BackupInfo.mk "zzz_backup_20241215_143022_sales" "sales"
                 1734273022000] 0)
    as (g & r' & Eg & E & _ & _ & Hk);
    [reflexivity | reflexivity | exact listBackups_restorable
    | vm_compute; reflexivity | left; vm_compute; reflexivity |].
  exists r'. split; [exact E|].
  assert (BackupGroup.timestamp g = 1734273022000) as Et.
  { vm_compute in Eg. now injection Eg as <-. }
  split; rewrite Hk.
  - assert (parseBackupDatasetId "zzz_backup_20241215_143022_sales"
            = Some (BackupInfo.mk "zzz_backup_20241215_143022_sales" "sales"
                      1734273022000)) as -> by (vm_compute; reflexivity).
    cbn [BackupInfo.timestamp]. rewrite Et. reflexivity.
  - assert (parseBackupDatasetId "sales" = None) as ->
        by (vm_compute; reflexivity).
    reflexivity.
Defined.

End DeletionExample.

(** ** backup.ts and restore.ts: a backup restored *)

Section SnapshotsWritten.

Variables (options : BackupOptions.t) (instant : Z)
          (expiration : option (option Z)) (datasetInfo : DatasetInfo.t).

Let d := DatasetInfo.datasetId datasetInfo.
Let B := generateBackupDatasetName d instant.

Hypothesis Hdry : default false (BackupOptions.dryRun options) = false.
Hypothesis Hexp : expiration <> Some None.

Let snapshotOf (tableId : string) : Table.t :=
  Table.mk "SNAPSHOT" None None (AsOf d tableId instant) (mjoin expiration).

Lemma snapshotMember_accepted r t :
  fault r (QueryJob (CreateSnapshotTable B (TableInfo.tableId t) d
                       (TableInfo.tableId t) instant expiration)) = None ->
  is_Some (catalog r !! B) ->
  is_Some (lookupTable r d (TableInfo.tableId t)) ->
  lookupTable r B (TableInfo.tableId t) = None ->
  snapshotMember options datasetInfo B instant expiration t r
  = (Ok (Outcome.mk true (TableInfo.tableId t) None),
     putTable B (TableInfo.tableId t) (snapshotOf (TableInfo.tableId t)) r).
Proof.
  intros Hf [DB EB] [Ts Es] Hn. unfold snapshotMember.
  rewrite run_tryCatch, run_bind. unfold createTableSnapshot. cbv zeta.
  rewrite Hdry, run_runQuery. fold d. rewrite Hf.
  unfold execute. rewrite EB, Es, Hn.
  destruct expiration as [[e|]|]; [| congruence |]; now rewrite run_ret.
Qed.

(** When every job is accepted, the fan-out writes one snapshot per table
    into the backup dataset and nothing else. *)
Lemma forEach_snapshotMember_state (tables : list TableInfo.t) :
  forall r,
  NoDup (map TableInfo.tableId tables) ->
  (forall t, In t tables ->
     fault r (QueryJob (CreateSnapshotTable B (TableInfo.tableId t) d
                          (TableInfo.tableId t) instant expiration)) = None) ->
  is_Some (catalog r !! B) ->
  (forall t, In t tables -> is_Some (lookupTable r d (TableInfo.tableId t))) ->
  (forall t, In t tables -> lookupTable r B (TableInfo.tableId t) = None) ->
  exists r',
    forEach (snapshotMember options datasetInfo B instant expiration) tables r
    = (Ok (map (fun t => Outcome.mk true (TableInfo.tableId t) None) tables), r')
    /\ fault r' = fault r
    /\ (forall k, k <> B -> catalog r' !! k = catalog r !! k)
    /\ (forall D, catalog r !! B = Some D ->
          exists D', catalog r' !! B = Some D'
                     /\ Dataset.location D' = Dataset.location D)
    /\ (forall x, ~ In x (map TableInfo.tableId tables) ->
          lookupTable r' B x = lookupTable r B x)
    /\ (forall t, In t tables ->
          lookupTable r' B (TableInfo.tableId t)
          = Some (snapshotOf (TableInfo.tableId t))).
Proof.
  assert (d <> B) as Hne
    by (intros E; symmetry in E; now apply generateBackupDatasetName_longer in E).
  induction tables as [|t rest IH]; intros r Hnd Hf HB Hsrc Htgt.
  - exists r. rewrite run_forEach_nil. repeat split; eauto. intros t [].
  - cbn [map] in Hnd. apply NoDup_cons in Hnd as [Ht Hnd].
    assert (~ In (TableInfo.tableId t) (map TableInfo.tableId rest)) as Ht'
      by (now rewrite <- list_elem_of_In).
    rewrite run_forEach_cons, snapshotMember_accepted
      by (try apply Hf; try apply Hsrc; try apply Htgt; try assumption; now left).
    set (r1 := putTable B (TableInfo.tableId t)
                 (snapshotOf (TableInfo.tableId t)) r).
    assert (forall x, x <> TableInfo.tableId t ->
              lookupTable r1 B x = lookupTable r B x) as L1.
    { intros x Hx. unfold r1. rewrite lookupTable_putTable.
      destruct (decide _) as [(_ & ? & _)|_]; [congruence | reflexivity]. }
    assert (forall x, lookupTable r1 d x = lookupTable r d x) as Ld.
    { intros x. unfold r1. rewrite lookupTable_putTable.
      destruct (decide _) as [(? & _)|_]; [congruence | reflexivity]. }
    destruct (IH r1 Hnd) as (r' & E & F & C & LC & LO & LI).
    + intros t' Hin. apply Hf. now right.
    + unfold r1. now apply catalog_putTable_is_Some.
    + intros t' Hin. rewrite Ld. apply Hsrc. now right.
    + intros t' Hin. rewrite L1; [apply Htgt; now right|].
      intros Ex. apply Ht'. rewrite <- Ex. now apply in_map.
    + rewrite E. exists r'. split; [reflexivity|]. split; [exact F|].
      split; [|split; [|split]].
      * intros k Hk. rewrite C by assumption. unfold r1.
        now apply catalog_putTable.
      * intros D HD.
        assert (exists D1, catalog r1 !! B = Some D1
                           /\ Dataset.location D1 = Dataset.location D)
          as (D1 & HD1 & EL1).
        { unfold r1, putTable, withCatalog. cbn [catalog].
          rewrite lookup_alter_eq, HD. cbn. eauto. }
        destruct (LC D1 HD1) as (D' & HD' & EL'). exists D'.
        split; [exact HD' | congruence].
      * intros x Hx. rewrite LO by (intros Hin; apply Hx; now right).
        apply L1. intros ->. apply Hx. now left.
      * intros t' [<-|Hin]; [|now apply LI].
        rewrite LO by assumption. unfold r1. rewrite lookupTable_putTable.
        destruct (decide _) as [_|Hn]; [reflexivity|].
        exfalso. apply Hn. now repeat split.
Qed.

End SnapshotsWritten.

Section BackupWritten.

Lemma snapshotIdsOf_intro (D : Dataset.t) (t : string) (T : Table.t) :
  Dataset.tables D !! t = Some T -> Table.type T = "SNAPSHOT" ->
  In t (snapshotIdsOf D).
Proof.
  intros HT Hty. unfold snapshotIdsOf.
  apply list_elem_of_In, list_elem_of_omap. exists (t, T).
  split; [now apply elem_of_map_to_list|]. cbn [fst snd]. now rewrite Hty.
Qed.

Lemma tableInfosOf_tableId (D : Dataset.t) (t : TableInfo.t) :
  In t (tableInfosOf D) ->
  exists T, Dataset.tables D !! TableInfo.tableId t = Some T.
Proof. intros H. now destruct (tableInfosOf_In D t H) as [T HT]; exists T. Qed.

Variables (options : BackupOptions.t) (instant : Z)
          (expiration : option (option Z)) (datasetInfo : DatasetInfo.t).
Variables (r : Remote) (D : Dataset.t) (location : string).

Hypothesis Hdry : default false (BackupOptions.dryRun options) = false.
Hypothesis Hexp : expiration <> Some None.
Hypothesis Hquiet : forall rq, fault r rq = None.
Hypothesis Hcatalog : catalog r !! DatasetInfo.datasetId datasetInfo = Some D.
Hypothesis Hsome : tableInfosOf D <> [].
Hypothesis Hlocation : DatasetInfo.location datasetInfo = Some location.
Hypothesis Hlocated : location <> "".
Hypothesis Hfree :
  catalog r !! generateBackupDatasetName
                 (DatasetInfo.datasetId datasetInfo) instant = None.

(** The backup of a dataset when the service refuses nothing: the result,
    and the container that it leaves. *)
Lemma backupOne_accepted :
  exists r1 BD,
    backupOne options instant expiration datasetInfo r
    = (Ok (BackupResult.mk
             (generateBackupDatasetName (DatasetInfo.datasetId datasetInfo) instant)
             (DatasetInfo.datasetId datasetInfo) instant
             (length (tableInfosOf D)) true []), r1)
    /\ fault r1 = fault r
    /\ (forall k,
          k <> generateBackupDatasetName (DatasetInfo.datasetId datasetInfo) instant ->
          catalog r1 !! k = catalog r !! k)
    /\ catalog r1 !! generateBackupDatasetName
                       (DatasetInfo.datasetId datasetInfo) instant = Some BD
    /\ Dataset.location BD = Some location
    /\ (forall t, In t (tableInfosOf D) ->
          Dataset.tables BD !! TableInfo.tableId t
          = Some (Table.mk "SNAPSHOT" None None
                    (AsOf (DatasetInfo.datasetId datasetInfo)
                          (TableInfo.tableId t) instant) (mjoin expiration)))
    /\ (forall x, ~ In x (map TableInfo.tableId (tableInfosOf D)) ->
          Dataset.tables BD !! x = None).
Proof.
  assert (onlyJobsFail (fault r)) as Hfaults by (intros rq _; apply Hquiet).
  unfold backupOne. cbv zeta.
  rewrite run_withLocal, run_tryCatch, run_bind, run_remote.
  rewrite (listTables_noFault r Hfaults _ D Hcatalog). cbn [fst snd].
  assert ((length (tableInfosOf D) =? 0)%nat = false) as ->
    by (destruct (tableInfosOf D); [congruence | reflexivity]).
  rewrite run_bind, run_setLocal, Hlocation.
  destruct location as [|c l]; [congruence|].
  rewrite run_bind, run_remote. unfold createBackupDataset. cbv zeta.
  rewrite run_bind, run_datasetExists, Hquiet, Hfree. cbn [isSome]. rewrite Hdry.
  rewrite run_datasetCreate, Hquiet, Hfree. cbn [fst snd].
  set (r0 := withCatalog r _).
  destruct (forEach_snapshotMember_state options instant expiration datasetInfo
              Hdry Hexp (tableInfosOf D) r0)
    as (r1 & E & F & C & LC & LO & LI).
  - apply tableInfosOf_NoDup.
  - intros t Ht. apply Hquiet.
  - unfold r0. cbn. rewrite lookup_insert_eq. eauto.
  - intros t Ht. unfold r0. rewrite lookupTable_create by assumption.
    unfold lookupTable. rewrite Hcatalog. cbn. now apply tableInfosOf_In.
  - intros t Ht. unfold r0. rewrite lookupTable_create by assumption.
    unfold lookupTable. now rewrite Hfree.
  - rewrite run_bind, run_remote, E. cbn [fst snd].
    destruct (LC (Dataset.mk (Some (String c l)) ∅)) as (BD & HBD & EL).
    { unfold r0. cbn. apply lookup_insert_eq. }
    exists r1, BD.
    assert (forall ids : list TableInfo.t,
              List.filter Outcome.success
                (map (fun t => Outcome.mk true (TableInfo.tableId t) None) ids)
              = map (fun t => Outcome.mk true (TableInfo.tableId t) None) ids
              /\ List.filter (fun o => negb (Outcome.success o))
                   (map (fun t => Outcome.mk true (TableInfo.tableId t) None) ids)
                 = []) as Hall.
    { induction ids as [|t rest [IH1 IH2]]; [now split|].
      cbn [map List.filter Outcome.success negb]. now rewrite IH1, IH2. }
    destruct (Hall (tableInfosOf D)) as [-> ->].
    rewrite !run_bind, !run_setLocal. cbn [length Nat.eqb Nat.ltb Nat.leb].
    rewrite ?run_ret. split; [now rewrite length_map|].
    split; [exact F|]. split.
    { intros k Hk. rewrite C by assumption. unfold r0. cbn.
      rewrite lookup_insert_ne; [reflexivity | intros E'; now apply Hk]. }
    split; [exact HBD|]. split; [exact EL|]. split.
    + intros t Ht. specialize (LI t Ht). unfold lookupTable in LI.
      rewrite HBD in LI. exact LI.
    + intros x Hx.
      assert (lookupTable r1
                (generateBackupDatasetName (DatasetInfo.datasetId datasetInfo)
                   instant) x = None) as H.
      { rewrite (LO x Hx). unfold r0. rewrite lookupTable_create by assumption.
        unfold lookupTable. now rewrite Hfree. }
      unfold lookupTable in H. rewrite HBD in H. exact H.
Qed.

End BackupWritten.

Section RoundTrip.

(** X22. A backup restored gives the tables back as of the instant of the
    backup. When the service refuses nothing, the backup of a dataset with
    tables of kind TABLE, a location and no container of its name yet
    counts every table and succeeds; the restore of the instant of the
    backup resolves the container it left; and restoring that container
    with [overwrite] counts every table again, succeeds, and leaves in the
    dataset, under the name of each table, a table holding the rows the
    source table had at the instant of the backup. *)
Theorem backup_then_restore
    (options : BackupOptions.t) (restoreOptions : RestoreOptions.t)
    (instant : Z) (expiration : option (option Z))
    (datasetInfo : DatasetInfo.t) (r : Remote) (D : Dataset.t)
    (location : string)
    (Hdry : default false (BackupOptions.dryRun options) = false)
    (Hexp : expiration <> Some None)
    (Hoverwrite : RestoreOptions.overwrite restoreOptions = Some true)
    (Hquiet : forall rq, fault r rq = None)
    (Hcatalog : catalog r !! DatasetInfo.datasetId datasetInfo = Some D)
    (Hsome : tableInfosOf D <> [])
    (Hlocation : DatasetInfo.location datasetInfo = Some location)
    (Hlocated : location <> "")
    (Hfree : catalog r !! generateBackupDatasetName
                            (DatasetInfo.datasetId datasetInfo) instant = None) :
  let d := DatasetInfo.datasetId datasetInfo in
  let B := generateBackupDatasetName d instant in
  exists r1 n r2,
    backupOne options instant expiration datasetInfo r
    = (Ok (BackupResult.mk B d instant (length (tableInfosOf D)) true []), r1)
    /\ In (BackupInfo.mk B d instant)
          (listBackupsForTimestampOf instant
             (map fst (map_to_list (catalog r1))))
    /\ restoreOne restoreOptions (BackupInfo.mk B d instant) r1
       = (Ok (RestoreResult.mk B d (length (tableInfosOf D)) n true []), r2)
    /\ forall t, In t (tableInfosOf D) ->
         lookupTable r2 d (TableInfo.tableId t)
         = Some (Table.mk "TABLE" None None
                   (AsOf d (TableInfo.tableId t) instant) None).
Proof.
  cbv zeta.
  destruct (backupOne_accepted options instant expiration datasetInfo r D
              location Hdry Hexp Hquiet Hcatalog Hsome Hlocation Hlocated Hfree)
    as (r1 & BD & E1 & F1 & C1 & HBD & _ & Hsnap & Hnone).
  set (d := DatasetInfo.datasetId datasetInfo) in *.
  set (B := generateBackupDatasetName d instant) in *.
  assert (B <> d) as Hne by apply generateBackupDatasetName_longer.
  (* the snapshots of the container are the tables of the source *)
  assert (forall x, In x (snapshotIdsOf BD) <->
                    In x (map TableInfo.tableId (tableInfosOf D))) as Hids.
  { intros x. split.
    - intros Hx. destruct (snapshotIdsOf_In BD x Hx) as (T & HT & _).
      destruct (in_dec string_dec x (map TableInfo.tableId (tableInfosOf D)))
        as [Hin|Hout]; [exact Hin|].
      rewrite (Hnone x Hout) in HT. discriminate HT.
    - intros Hx. apply in_map_iff in Hx as (t & <- & Ht).
      apply (snapshotIdsOf_intro BD _ _ (Hsnap t Ht)). reflexivity. }
  assert (length (snapshotIdsOf BD) = length (tableInfosOf D)) as Hlen.
  { rewrite <- (length_map TableInfo.tableId (tableInfosOf D)).
    apply Permutation_length, NoDup_Permutation.
    - apply snapshotIdsOf_NoDup.
    - apply tableInfosOf_NoDup.
    - intros x. rewrite !list_elem_of_In. apply Hids. }
  destruct (restoreOne_overwrite_run restoreOptions (BackupInfo.mk B d instant)
              r1 BD D Hoverwrite) as (n & r2 & E2 & Hin).
  - intros rq _. rewrite F1. apply Hquiet.
  - intros t _. rewrite F1. apply Hquiet.
  - exact Hne.
  - exact HBD.
  - cbn [BackupInfo.sourceDatasetId]. rewrite C1; [exact Hcatalog|].
    intros E. now apply Hne.
  - intros E. destruct (tableInfosOf D) as [|t0 ts]; [congruence|].
    rewrite E in Hlen. discriminate Hlen.
  - cbn [BackupInfo.backupDatasetId BackupInfo.sourceDatasetId] in E2, Hin.
    exists r1, n, r2. split; [exact E1|]. split; [|split].
    + apply (listBackupsForTimestampOf_generated instant instant _ d eq_refl).
      apply in_map_iff. exists (B, BD). split; [reflexivity|].
      now apply list_elem_of_In, elem_of_map_to_list.
    + now rewrite <- Hlen.
    + intros t Ht.
      rewrite (Hin (TableInfo.tableId t) _
                 ltac:(apply Hids; now apply in_map) (Hsnap t Ht)).
      reflexivity.
Qed.

(** The sales dataset of the example, backed up at 14:30:22.5 and restored:
    orders comes back as it was at that instant. *)
Lemma backup_then_restore_witness :
  catalog Example.project !! "sales" = Some Example.sales
  /\ exists r1 n r2,
       backupOne (BackupOptions.mk "proj" None None None None) Example.now
         (Some (Some (Example.now + 90 * JS.msPerDay)))
         (DatasetInfo.mk "sales" (Some "EU") []) Example.project
       = (Ok (BackupResult.mk (generateBackupDatasetName "sales" Example.now)
                "sales" Example.now 3 true []), r1)
       /\ restoreOne (RestoreOptions.mk "proj" (Some Example.now) (Some true))
            (BackupInfo.mk (generateBackupDatasetName "sales" Example.now)
               "sales" Example.now) r1
          = (Ok (RestoreResult.mk (generateBackupDatasetName "sales" Example.now)
                   "sales" 3 n true []), r2)
       /\ lookupTable r2 "sales" "orders"
          = Some (Table.mk "TABLE" None None (AsOf "sales" "orders" Example.now)
                    None).
Proof.
  assert (catalog Example.project !! "sales" = Some Example.sales) as Hc
    by (vm_compute; reflexivity).
  split; [exact Hc|].
  destruct (backup_then_restore (BackupOptions.mk "proj" None None None None)
              (RestoreOptions.mk "proj" (Some Example.now) (Some true))
              Example.now (Some (Some (Example.now + 90 * JS.msPerDay)))
              (DatasetInfo.mk "sales" (Some "EU") []) Example.project
              Example.sales "EU")
    as (r1 & n & r2 & E1 & _ & E2 & Hin).
  - reflexivity.
  - discriminate.
  - reflexivity.
  - intros rq. reflexivity.
  - exact Hc.
  - rewrite tableInfosOf_sales. discriminate.
  - reflexivity.
  - discriminate.
  - vm_compute. reflexivity.
  - exists r1, n, r2. rewrite tableInfosOf_sales in E1, E2.
    split; [exact E1|]. split; [exact E2|].
    apply (Hin (TableInfo.mk "orders" "TABLE" None)).
    rewrite tableInfosOf_sales. now left.
Defined.

End RoundTrip.

(** ** restore.ts: the listings of a dataset *)

Section RestoreListings.

(** X23. When the tables of a backup container can be listed,
    [listBackupTables] succeeds whatever the answers to the metadata calls
    are, and leaves the service as it was: it returns, each once, the ids
    of the tables of kind SNAPSHOT whose metadata could be read; tables of
    other kinds and tables whose metadata call is refused are left out. *)
Theorem listBackupTables_skips_unreadable (backupDatasetId : string)
    (r : Remote) (D : Dataset.t)
    (Hdataset : catalog r !! backupDatasetId = Some D)
    (Hlisting : fault r (GetTables backupDatasetId) = None) :
  exists tableIds,
    listBackupTables backupDatasetId r = (Ok tableIds, r)
    /\ NoDup tableIds
    /\ forall t, In t tableIds <->
         fault r (TableGetMetadata backupDatasetId t) = None
         /\ exists T, Dataset.tables D !! t = Some T
                      /\ Table.type T = "SNAPSHOT".
Proof.
  set (f := fun (k : string) (T : Table.t) =>
              match fault r (TableGetMetadata backupDatasetId k) with
              | Some _ => None
              | None =>
                  if String.eqb (Table.type T) "SNAPSHOT" then Some k else None
              end).
  exists (omap (fun kT => f (fst kT) (snd kT)) (map_to_list (Dataset.tables D))).
  split; [|split].
  - unfold listBackupTables. rewrite run_bind, run_getTables, Hlisting, Hdataset.
    apply collect_pairs. intros k T Hin.
    rewrite run_tryCatch, run_bind, run_tableGetMetadata. unfold f.
    destruct (fault r (TableGetMetadata backupDatasetId k)); [now rewrite run_ret|].
    rewrite (lookupTable_listing r backupDatasetId D k T Hdataset Hin).
    now destruct (String.eqb (Table.type T) "SNAPSHOT").
  - rewrite <- (map_id (omap _ _)).
    apply omap_pairs_NoDup; [|apply NoDup_fst_map_to_list].
    intros [k T] b. cbn [fst snd]. unfold f.
    destruct (fault r (TableGetMetadata backupDatasetId k)); [discriminate|].
    destruct (String.eqb (Table.type T) "SNAPSHOT"); [|discriminate].
    now intros [= <-].
  - intros t. rewrite <- list_elem_of_In, list_elem_of_omap. split.
    + intros ([k T] & Hin & E). apply elem_of_map_to_list in Hin.
      cbn [fst snd] in E. unfold f in E.
      destruct (fault r (TableGetMetadata backupDatasetId k)) eqn:Ef;
        [discriminate E|].
      destruct (String.eqb_spec (Table.type T) "SNAPSHOT") as [Ety|];
        [|discriminate E].
      injection E as <-. eauto.
    + intros (Hf & T & HT & Ety). exists (t, T).
      split; [now apply elem_of_map_to_list|].
      cbn [fst snd]. unfold f. now rewrite Hf, Ety.
Qed.

(** The snapshots of the backup of sales of the example. *)
Lemma listBackupTables_skips_unreadable_witness :
  catalog Example.restorable !! "zzz_backup_20241215_143022_sales"
  = Some Example.salesBackup
  /\ exists tableIds,
       listBackupTables "zzz_backup_20241215_143022_sales" Example.restorable
       = (Ok tableIds, Example.restorable)
       /\ In "orders" tableIds.
Proof.
  split; [vm_compute; reflexivity|].
  destruct (listBackupTables_skips_unreadable
              "zzz_backup_20241215_143022_sales" Example.restorable
              Example.salesBackup)
    as (ids & E & _ & Hin); [vm_compute; reflexivity | reflexivity |].
  exists ids. split; [exact E|].
  apply Hin. split; [reflexivity|]. exists (Example.snapshot "orders").
  split; [vm_compute; reflexivity | reflexivity].
Defined.

(** X24. When the tables of a dataset can be listed,
    [listMaterializedViews] succeeds whatever the answers to the metadata
    calls are, and leaves the service as it was: it returns, each once,
    the tables of kind MATERIALIZED_VIEW whose metadata could be read and
    holds a query that is not empty, with that query and the refresh
    settings of the view; a materialized view without a query is left
    out. *)
Theorem listMaterializedViews_with_queries (datasetId : string)
    (r : Remote) (D : Dataset.t)
    (Hdataset : catalog r !! datasetId = Some D)
    (Hlisting : fault r (GetTables datasetId) = None) :
  exists views,
    listMaterializedViews datasetId r = (Ok views, r)
    /\ NoDup (map MaterializedViewInfo.viewId views)
    /\ forall v, In v views <->
         fault r (TableGetMetadata datasetId (MaterializedViewInfo.viewId v))
         = None
         /\ MaterializedViewInfo.query v <> ""
         /\ exists T,
              Dataset.tables D !! MaterializedViewInfo.viewId v = Some T
              /\ Table.type T = "MATERIALIZED_VIEW"
              /\ Table.materializedView T ≫= MaterializedView.query
                 = Some (MaterializedViewInfo.query v)
              /\ MaterializedViewInfo.enableRefresh v
                 = Table.materializedView T ≫= MaterializedView.enableRefresh
              /\ MaterializedViewInfo.refreshIntervalMs v
                 = Table.materializedView T
                     ≫= MaterializedView.refreshIntervalMs.
Proof.
  set (f := fun (k : string) (T : Table.t) =>
    match fault r (TableGetMetadata datasetId k) with
    | Some _ => None
    | None =>
        if String.eqb (Table.type T) "MATERIALIZED_VIEW"
        then match Table.materializedView T ≫= MaterializedView.query with
             | None | Some EmptyString => None
             | Some mvQuery =>
                 Some (MaterializedViewInfo.mk k mvQuery
                         (Table.materializedView T
                            ≫= MaterializedView.enableRefresh)
                         (Table.materializedView T
                            ≫= MaterializedView.refreshIntervalMs))
             end
        else None
    end).
  exists (omap (fun kT => f (fst kT) (snd kT)) (map_to_list (Dataset.tables D))).
  split; [|split].
  - unfold listMaterializedViews.
    rewrite run_bind, run_getTables, Hlisting, Hdataset.
    apply collect_pairs. intros k T Hin.
    rewrite run_tryCatch, run_bind, run_tableGetMetadata. unfold f.
    destruct (fault r (TableGetMetadata datasetId k)); [now rewrite run_ret|].
    rewrite (lookupTable_listing r datasetId D k T Hdataset Hin).
    destruct (String.eqb (Table.type T) "MATERIALIZED_VIEW"); [|reflexivity].
    now destruct (Table.materializedView T ≫= MaterializedView.query) as [[|? ?]|].
  - apply omap_pairs_NoDup; [|apply NoDup_fst_map_to_list].
    intros [k T] b. cbn [fst snd]. unfold f.
    destruct (fault r (TableGetMetadata datasetId k)); [discriminate|].
    destruct (String.eqb (Table.type T) "MATERIALIZED_VIEW"); [|discriminate].
    destruct (Table.materializedView T ≫= MaterializedView.query) as [[|? ?]|];
      try discriminate.
    now intros [= <-].
  - intros v. rewrite <- list_elem_of_In, list_elem_of_omap. split.
    + intros ([k T] & Hin & E). apply elem_of_map_to_list in Hin.
      cbn [fst snd] in E. unfold f in E.
      destruct (fault r (TableGetMetadata datasetId k)) eqn:Ef; [discriminate E|].
      destruct (String.eqb_spec (Table.type T) "MATERIALIZED_VIEW") as [Ety|];
        [|discriminate E].
      destruct (Table.materializedView T ≫= MaterializedView.query)
        as [[|c q]|] eqn:Eq; try discriminate E.
      injection E as <-. cbn. split; [exact Ef|]. split; [discriminate|].
      exists T. auto.
    + intros (Hf & Hq & T & HT & Ety & Eq & Er & Ei).
      exists (MaterializedViewInfo.viewId v, T).
      split; [now apply elem_of_map_to_list|].
      cbn [fst snd]. unfold f. rewrite Hf, Ety, Eq. cbn.
      destruct v as [vid q er ri]. cbn in *. subst er ri.
      destruct q; [congruence | reflexivity].
Qed.

(** A dataset with a materialized view that has a query and one that has
    none. *)
Lemma listMaterializedViews_with_queries_witness :
  exists views,
    listMaterializedViews "sales"
      (mkRemote "proj"
         {[ "sales" := Dataset.mk (Some "EU")
              (list_to_map
                 [("daily", Table.mk "MATERIALIZED_VIEW" None
                              (Some (MaterializedView.mk (Some "SELECT 1")
                                       (Some true) None))
                              (Derived "SELECT 1") None);
                  ("broken", Table.mk "MATERIALIZED_VIEW" None
                               (Some (MaterializedView.mk None None None))
                               (Derived "") None)]) ]}
         Example.noFault)
    = (Ok views,
       mkRemote "proj"
         {[ "sales" := Dataset.mk (Some "EU")
              (list_to_map
                 [("daily", Table.mk "MATERIALIZED_VIEW" None
                              (Some (MaterializedView.mk (Some "SELECT 1")
                                       (Some true) None))
                              (Derived "SELECT 1") None);
                  ("broken", Table.mk "MATERIALIZED_VIEW" None
                               (Some (MaterializedView.mk None None None))
                               (Derived "") None)]) ]}
         Example.noFault)
    /\ In (MaterializedViewInfo.mk "daily" "SELECT 1" (Some true) None) views
    /\ ~ In "broken" (map MaterializedViewInfo.viewId views).
Proof.
  destruct (listMaterializedViews_with_queries "sales"
              (mkRemote "proj"
                 {[ "sales" := Dataset.mk (Some "EU")
                      (list_to_map
                         [("daily", Table.mk "MATERIALIZED_VIEW" None
                                      (Some (MaterializedView.mk (Some "SELECT 1")
                                               (Some true) None))
                                      (Derived "SELECT 1") None);
                          ("broken", Table.mk "MATERIALIZED_VIEW" None
                                       (Some (MaterializedView.mk None None None))
                                       (Derived "") None)]) ]}
                 Example.noFault)
              (Dataset.mk (Some "EU")
                 (list_to_map
                    [("daily", Table.mk "MATERIALIZED_VIEW" None
                                 (Some (MaterializedView.mk (Some "SELECT 1")
                                          (Some true) None))
                                 (Derived "SELECT 1") None);
                     ("broken", Table.mk "MATERIALIZED_VIEW" None
                                  (Some (MaterializedView.mk None None None))
                                  (Derived "") None)])))
    as (views & E & _ & Hin); [vm_compute; reflexivity | reflexivity |].
  exists views. split; [exact E|]. split.
  - apply Hin. cbn. split; [reflexivity|]. split; [discriminate|].
    eexists. split; [vm_compute; reflexivity|]. cbn. auto.
  - intros H. apply in_map_iff in H as (v & Ev & Hv).
    apply Hin in Hv as (_ & _ & T & HT & _ & Hq & _). rewrite Ev in HT.
    vm_compute in HT. injection HT as <-. discriminate Hq.
Defined.

End RestoreListings.

(** ** index.ts: from the listing to the restore *)

Section ListedThenRestored.

(** Every backup of a list is in one of its groups. *)
Lemma groupBackupsByTimestamp_covers (backups : list BackupInfo.t)
    (b : BackupInfo.t) :
  In b backups ->
  exists g, In g (groupBackupsByTimestamp backups)
            /\ In b (BackupGroup.backups g).
Proof.
  intros Hb. unfold groupBackupsByTimestamp.
  destruct (fold_groupStep_groupsOf backups) as (Hn & Hh & Hg).
  cbv zeta in Hh, Hg.
  set (gm := fold_left groupStep backups []) in *.
  set (k := JS.toISOString (BackupInfo.timestamp b)).
  assert (isSome (mapGet k gm) = true) as Hk.
  { rewrite Hh. apply existsb_exists. exists b.
    split; [exact Hb | apply String.eqb_refl]. }
  destruct (mapGet k gm) as [g|] eqn:Eg; [|discriminate Hk].
  exists g. split.
  - apply (Permutation_in _
             (Permutation_sym (sort_perm BackupGroup.timestamp _))).
    apply (mapGet_In k g gm Hn) in Eg.
    change g with (snd (k, g)). now apply in_map.
  - destruct (Hg k g Eg) as (_ & _ & -> & _).
    apply filter_In. split; [exact Hb | apply String.eqb_refl].
Qed.

(** X25. A container that a backup generated for a source at an instant
    (year of four digits) is listed with that source and the whole second
    of the instant, in the group of that second; and the restore of the
    instant of this group, which is what the restore command asks for
    after a selection, finds the container with the same source. *)
Theorem restore_finds_listed_backup (sourceDatasetId : string) (instant : Z)
    (allDatasets : list string)
    (Hyear : 1000 <= JS.getUTCFullYear instant <= 9999)
    (Hpresent :
       In (generateBackupDatasetName sourceDatasetId instant) allDatasets) :
  let b := BackupInfo.mk (generateBackupDatasetName sourceDatasetId instant)
             sourceDatasetId (instant - JS.msFromTime instant) in
  exists g,
    In g (groupBackupsByTimestamp (listBackupsOf allDatasets))
    /\ BackupGroup.timestamp g = instant - JS.msFromTime instant
    /\ In b (BackupGroup.backups g)
    /\ In b (listBackupsForTimestampOf (BackupGroup.timestamp g) allDatasets).
Proof.
  intros b.
  assert (In b (listBackupsOf allDatasets)) as Hb.
  { apply listBackupsOf_In. split; [exact Hpresent|].
    now apply parseBackupDatasetId_generated. }
  destruct (groupBackupsByTimestamp_covers _ b Hb) as (g & Hg & Hbg).
  exists g. split; [exact Hg|].
  destruct (proj1 (group_of_listing allDatasets g Hg b) Hbg) as (_ & _ & Et).
  cbn [b BackupInfo.timestamp] in Et. rewrite <- Et.
  split; [reflexivity|]. split; [exact Hbg|].
  apply listBackupsForTimestampOf_generated; [|exact Hpresent].
  unfold JS.msFromTime, JS.msPerSecond.
  pose proof (Z_div_mod_eq_full instant 1000) as E.
  replace (instant - instant mod 1000) with (instant / 1000 * 1000) by lia.
  now rewrite Z.div_mul.
Qed.

(** Next to a dataset of the project, the backup of a source with
    underscores in its id taken at 14:30:22.500 is listed at 14:30:22 and
    found by the restore of that instant. *)
Lemma restore_finds_listed_backup_witness :
  1000 <= JS.getUTCFullYear 1734273022500 <= 9999
  /\ exists g,
       In g (groupBackupsByTimestamp
               (listBackupsOf
                  ["sales"; "zzz_backup_20241215_143022_web_logs_eu"]))
       /\ BackupGroup.timestamp g = 1734273022000
       /\ In (BackupInfo.mk "zzz_backup_20241215_143022_web_logs_eu"
                "web_logs_eu" 1734273022000)
             (listBackupsForTimestampOf (BackupGroup.timestamp g)
                ["sales"; "zzz_backup_20241215_143022_web_logs_eu"]).
Proof.
  split; [vm_compute; split; discriminate|].
  destruct (restore_finds_listed_backup "web_logs_eu" 1734273022500
              ["sales"; "zzz_backup_20241215_143022_web_logs_eu"])
    as (g & Hg & Et & _ & Hr);
    [vm_compute; split; discriminate | right; left; vm_compute; reflexivity |].
  exists g. split; [exact Hg|]. split; [exact Et|]. exact Hr.
Defined.

End ListedThenRestored.
